(* ===== verification/_CoqProject ===== *)
-Q . S2P
Prelude.v
Machine.v
State.v
Emu.v
CString.v
Spinlock.v
Printf.v
Kalloc.v
Vm.v
VmSpec.v
VmUser.v
VmCopy.v
VmThms.v
Sched.v
Bytes.v
Bio.v
BioSpec.v
Log.v
Cache.v
LogImg.v
LogSpec.v
LogThms.v
Tx.v
Console.v
Pipe.v
ConsoleThms.v
Fs.v
FsBlock.v
FsInode.v
FsFile.v
FsRead.v
FsWrite.v
FsDir.v
FsPath.v
File.v
Proc.v
Exec.v
Sysfile.v
Syscall.v
Trap.v
ProcThms.v
User.v
Ulib.v
Grep.v
Sh.v
ShParse.v
ShPrint.v
ShRun.v
Cmds.v
Grind.v
Umalloc.v
UmallocThms.v
Mkfs.v
MkfsThms.v
