(* ===== verification/Prelude.v ===== *)
(** * xv6 on CPUTwo: a verification development

    The program is a port of the teaching kernel xv6 to the 32-bit CPUTwo machine:
    the kernel (src/kernel), the programs that run on it (src/user) and
    the host tool that builds its file system image (src/mkfs).

    ** The parts and how they interact

    Traps (trap.c) enter the kernel; [usertrap] dispatches system calls
    (syscall.c, sysproc.c, sysfile.c), page faults (vm.c) and device interrupts
    (uart.c, console.c, plic.c, virtio_disk.c).  Processes (proc.c) have an address
    space (vm.c over the page allocator kalloc.c), open files (file.c:
    pipes, devices, inodes) and a working directory.  The file system (fs.c)
    works on blocks through the write-ahead log (log.c) and the buffer cache (bio.c),
    which reads and writes the device (virtio_disk.c).  Spin locks (spinlock.c)
    mask interrupts, sleep locks (sleeplock.c) park the caller (sleep and
    wakeup of proc.c).  User programs see the system calls of user/user.h only.

    ** The model of the kernel

    The kernel state is one record [kstate] (State): machine registers, locks,
    byte memory, the process table, the device, the buffers, the log, the inode and
    file tables.  A routine of the kernel is a function from a state to an
    outcome (below): it returns, panics, parks the process or spins.  Every
    definition keeps the name of the C function; a loop of a C function is a
    definition with the suffix [_loop], and what runs after a call that slept
    is one with the suffix [_resume].  Integers are [Z] with the
    wrap-around of their width written out ([u8], [u16], [u32], [i32]); [long] and the
    uint64 of kernel/types.h are 32 bits wide.  On-disk and in-memory structures
    are bytes at their offsets (Bytes).

    - Machine, State, Emu: widths, page macros, memory; the structs and
      the kernel state; the platform (code addresses and the block device) as a
      class with its documented behaviour, and an instance of it.
    - CString (string.c), Spinlock (spinlock.c), Printf (printf.c and the
      synchronous output path), Kalloc (kalloc.c).
    - Vm (vm.c); VmSpec, VmUser, VmCopy, VmThms: the page table as a
      finite map from user pages, and the effect of each operation on it.
    - Sched (sleep, wakeup, sched, yield, sleeplock.c), Proc (the rest of
      proc.c), ProcThms.
    - Bio (virtio_disk.c, bio.c), BioSpec and Cache: the contract of the
      cache; Log (log.c), LogImg, LogSpec, LogThms: the log on disk images, crash
      points, and the contract of a transaction (Tx), against which the
      file system is verified.
    - Console (console.c, uart.c, plic.c, copies of proc.c), Pipe (pipe.c),
      ConsoleThms (the line discipline).
    - Fs (fs.c); FsBlock (blocks), FsInode (inodes), FsFile (the map of a
      file), FsRead and FsWrite (contents), FsDir (directories), FsPath (paths).
    - File (file.c), Exec (exec.c), Sysfile (sysfile.c), Syscall (syscall.c,
      sysproc.c), Trap (trap.c, start.c, main.c).

    ** The model of user programs

    A user program is an interaction tree whose events are system calls (User);
    [must] is a total-correctness logic for such trees: whatever the
    system answers, the program comes to an end and the postcondition holds.
    Ulib models ulib.c and printf.c; Grep, Sh (with ShParse, ShPrint, ShRun), Cmds and
    Grind the programs; Umalloc and UmallocThms the memory allocator.

    ** The model of mkfs

    Mkfs builds the image as a function from block numbers to blocks, in an
    option monad whose failure is an assertion of the C code; MkfsThms
    shows that the image has the invariants FsFile asks of a file system.

    ** What the theorems show

    - Crash safety (LogThms): a commit installs its transaction; one of its
      disk writes is the commit point, and after a crash recovery yields the
      state before the transaction if it comes before that write and the state
      after it otherwise.  Reservations, counted in different blocks, keep the
      log from overflowing.
    - Files (FsRead, FsWrite, FsBlock, FsInode): a file stands for a list of
      bytes; readi is a slice of it, writei replaces a range of it, other files
      keep theirs, and the blocks logged fit what an operation reserves.
    - Directories and paths (FsDir, FsPath): a directory stands for a map from
      names to inode numbers, the files for a graph; dirlookup and dirlink are
      lookup and insertion, namex follows a path and keeps the reference
      counts exact.
    - Memory (VmThms, Kalloc): mapping, growing, unmapping and copying change
      exactly what they should, and failures leave no trace; the free list is
      well formed.
    - Concurrency (Sched, Spinlock, Pipe, ProcThms): mutual exclusion, also for
      a process that resumes after a wakeup, no lost wakeup, pipes as bounded
      queues, no starvation by the scheduler.
    - Console (ConsoleThms): received keys edit the line being typed and hand
      finished lines over, a UART interrupt drains the receiver in order, a
      read delivers at most one line.
    - Output and strings (Printf, CString): rendering of formats; panics, which
      report and then stop the synchronous output path; memset and memmove
      against reference definitions.
    - User space: the shell's parser terminates and reads back a printed
      command, runcmd starts exactly the programs asked for with the right
      descriptors and waits holding no pipe; grep prints the matching lines, its matcher decides the
      language of the pattern; cat, wc; malloc and free keep blocks
      disjoint and lose none, and sbrk is asked only when nothing fits; the random numbers of grind.
    - mkfs: the image is well formed and holds the given files.

    ** Bounds and fuel

    Loops that are not structural take fuel, and running out of it is an outcome
    of its own ([Spin] in the kernel, [OutOfFuel] in the shell's parser, [None]
    in mkfs), which no theorem about a result allows.  The fuel is: the number
    of pages or bytes of a range (Vm), of block-sized rounds of a transfer
    (readi, writei), of entries of a directory plus one (dirlookup,
    dirlink), the length of the path (namex; every element takes a byte), 20
    digits (printint; a 64-bit number has at most 20 decimal ones), five times the
    length of the line plus eight (the shell's parser; ShParse proves that it
    is enough for every line), the length of the data (iappend of mkfs).  User
    programs need none: their loops are loops of interaction trees.

    ** Assumptions

    There is one CPU, as in the source (cpuid is 0).  A routine runs without
    being interrupted between the points where it gives up the CPU; what
    happens at those points is in the theorems about sleep, wakeup and the log's
    admission.  The device executes a command as its documentation says
    ([PlatformOk]).  In ShRun the system calls of the shell succeed and
    its command nodes are allocated; mkfs runs on a little-endian host.  The
    theorems on files ask for files without holes, which is what writei and
    mkfs make.

    ** Not modelled

    - Assembly and linker scripts (entry.S, swtch.S, kernelvec.S, trampoline.S,
      kernel.ld, user.ld, the stubs usys.pl generates): there is no semantics of
      CPUTwo instructions here; the C code sees them as code addresses and
      switch points.
    - kernel/riscv.h and kernel/virtio.h, which the port does not use;
      kernel/defs.h and kernel/types.h, which only declare.
    - The hardware page walker and the TLB; the other CPUs.
    - user/usertests.c, a script of tests that depend on timing, memory
      faults and resource exhaustion; user/logstress.c, which
      writes past the end of its buffer, so that it has no defined behaviour; test-xv6.py
      and the Makefile. *)

From Stdlib Require Export ZArith Lia.
From stdpp Require Export base tactics list numbers strings gmap sorting.

#[global] Open Scope Z_scope.
#[global] Set Default Goal Selector "!".

(** ** Outcomes of kernel code

    A kernel routine is a function from a state to one of four outcomes.
    [Panic] is [panic()] of kernel/printf.c, which never returns.  [Sleep] is
    the state in which the calling process has been parked by [sleep()]; every
    caller of [sleep()] in the kernel tests its condition again when it wakes,
    and what it then runs is a definition of its own, with the suffix [_resume].
    [Spin] is the state in which a busy-wait loop finds that its condition does
    not hold, or a loop runs out of fuel. *)
Inductive res (S A : Type) : Type :=
| Ok (a : A) (s : S)
| Panic (msg : string)
| Sleep (s : S)
| Spin (s : S).
Arguments Ok {S A} a s.
Arguments Panic {S A} msg.
Arguments Sleep {S A} s.
Arguments Spin {S A} s.

Definition M (S A : Type) : Type := S → res S A.

#[export] Instance M_ret S : MRet (M S) := λ A a s, Ok a s.
#[export] Instance M_bind S : MBind (M S) := λ A B f m s,
  match m s with
  | Ok a s' => f a s'
  | Panic msg => Panic msg
  | Sleep s' => Sleep s'
  | Spin s' => Spin s'
  end.

Definition gets {S A} (f : S → A) : M S A := λ s, Ok (f s) s.
Definition modify {S} (f : S → S) : M S unit := λ s, Ok tt (f s).
Definition panic {S A} (msg : string) : M S A := λ _, Panic msg.
Definition spin {S A} : M S A := λ s, Spin s.
Definition when {S} (b : bool) (m : M S unit) : M S unit :=
  if b then m else mret tt.

(** [for(x : l) f(x)] without an early exit. *)
Fixpoint for_each {S A} (l : list A) (f : A → M S unit) : M S unit :=
  match l with
  | [] => mret tt
  | x :: l' => f x;; for_each l' f
  end.

(** ** Rewriting and total-correctness rules *)
Section rules.
Context {S : Type}.

Lemma bind_Ok {A B} (m : M S A) (f : A → M S B) s a s' :
  m s = Ok a s' → (m ≫= f) s = f a s'.
Proof. intros H. unfold mbind, M_bind. by rewrite H. Qed.

Lemma bind_Panic {A B} (m : M S A) (f : A → M S B) s msg :
  m s = Panic msg → (m ≫= f) s = Panic msg.
Proof. intros H. unfold mbind, M_bind. by rewrite H. Qed.

Lemma bind_Sleep {A B} (m : M S A) (f : A → M S B) s s' :
  m s = Sleep s' → (m ≫= f) s = Sleep s'.
Proof. intros H. unfold mbind, M_bind. by rewrite H. Qed.

Lemma bind_Spin {A B} (m : M S A) (f : A → M S B) s s' :
  m s = Spin s' → (m ≫= f) s = Spin s'.
Proof. intros H. unfold mbind, M_bind. by rewrite H. Qed.

Lemma bind_gets {A B} (g : S → A) (f : A → M S B) s :
  (gets g ≫= f) s = f (g s) s.
Proof. done. Qed.

Lemma bind_modify {B} (g : S → S) (f : unit → M S B) s :
  (modify g ≫= f) s = f tt (g s).
Proof. done. Qed.

Lemma bind_ret {A B} (a : A) (f : A → M S B) s : (mret a ≫= f) s = f a s.
Proof. done. Qed.

Lemma bind_panic {A B} msg (f : A → M S B) s :
  (panic msg ≫= f) s = Panic msg.
Proof. done. Qed.

Lemma bind_assoc {A B C} (m : M S A) (f : A → M S B) (g : B → M S C) s :
  ((m ≫= f) ≫= g) s = (m ≫= λ x, f x ≫= g) s.
Proof. unfold mbind, M_bind. by destruct (m s). Qed.

(** [wp m Q s]: run in [s], [m] returns (it does not panic, sleep or spin)
    and its result and final state satisfy [Q]. *)
Definition wp {A} (m : M S A) (Q : A → S → Prop) (s : S) : Prop :=
  match m s with Ok a s' => Q a s' | _ => False end.

Lemma wp_Ok {A} (m : M S A) Q s a s' : m s = Ok a s' → Q a s' → wp m Q s.
Proof. unfold wp. by intros ->. Qed.

Lemma wp_inv {A} (m : M S A) Q s : wp m Q s → ∃ a s', m s = Ok a s' ∧ Q a s'.
Proof. unfold wp. destruct (m s); naive_solver. Qed.

Lemma wp_bind {A B} (m : M S A) (f : A → M S B) Q s :
  wp m (λ a s', wp (f a) Q s') s → wp (m ≫= f) Q s.
Proof. unfold wp, mbind, M_bind. by destruct (m s). Qed.

Lemma wp_mono {A} (m : M S A) (P Q : A → S → Prop) s :
  wp m P s → (∀ a s', P a s' → Q a s') → wp m Q s.
Proof. unfold wp. destruct (m s); naive_solver. Qed.

Lemma wp_ret {A} (a : A) (Q : A → S → Prop) s : Q a s → wp (mret a) Q s.
Proof. done. Qed.

Lemma wp_gets {A} (f : S → A) (Q : A → S → Prop) s : Q (f s) s → wp (gets f) Q s.
Proof. done. Qed.

Lemma wp_modify (f : S → S) (Q : unit → S → Prop) s : Q tt (f s) → wp (modify f) Q s.
Proof. done. Qed.
End rules.

(** ** Frames
    [keeps π m]: however [m] ends, it leaves the part [π] of the state alone. *)
Definition keeps {S X A} (π : S → X) (m : M S A) : Prop :=
  ∀ s, match m s with Ok _ s' | Sleep s' => π s' = π s | _ => True end.

Create HintDb keeps.
Section keeps.
Context {S X : Type} (π : S → X).

Lemma keeps_bind {A B} (m : M S A) (f : A → M S B) :
  keeps π m → (∀ a, keeps π (f a)) → keeps π (m ≫= f).
Proof.
  intros H1 H2 s. unfold mbind, M_bind. specialize (H1 s). destruct (m s) as [a s1| | |]; try done.
  specialize (H2 a s1). destruct (f a s1); congruence.
Qed.
Lemma keeps_ret {A} (a : A) : keeps π (mret a).
Proof. done. Qed.
Lemma keeps_gets {A} (f : S → A) : keeps π (gets f).
Proof. done. Qed.
Lemma keeps_panic {A} msg : keeps π (panic (A := A) msg).
Proof. done. Qed.
Lemma keeps_spin {A} : keeps π (spin (A := A)).
Proof. done. Qed.
Lemma keeps_modify f : (∀ s, π (f s) = π s) → keeps π (modify f).
Proof. intros H s. apply H. Qed.
Lemma keeps_when b m : keeps π m → keeps π (when b m).
Proof. intros H. destruct b; [exact H|apply keeps_ret]. Qed.
Lemma keeps_for_each {A} (l : list A) f : (∀ x, keeps π (f x)) → keeps π (for_each l f).
Proof. intros H. induction l; [done|]. by apply keeps_bind. Qed.
Lemma keeps_Ok {A} (m : M S A) s a s' : keeps π m → m s = Ok a s' → π s' = π s.
Proof. intros H E. specialize (H s). by rewrite E in H. Qed.
End keeps.

(** Proves [keeps π m] by the structure of [m]. *)
Ltac keeps :=
  repeat first
    [ solve [auto with keeps]
    | apply keeps_bind; [|intros ?] | apply keeps_ret | apply keeps_gets | apply keeps_panic
    | apply keeps_spin | apply keeps_when | apply keeps_for_each; intros ?
    | apply keeps_modify; intros []; reflexivity
    | case_match ].

(** What is left of a computation that returned. *)
Lemma bind_Ok_inv {S A B} (m : M S A) (f : A → M S B) s b s' :
  (m ≫= f) s = Ok b s' → ∃ a s1, m s = Ok a s1 ∧ f a s1 = Ok b s'.
Proof. unfold mbind, M_bind. destruct (m s); try done. eauto. Qed.

(** ** Permutations of concatenations *)
Section perm.
Context {A : Type}.
Implicit Types l r L : list A.

Lemma perm_here L r : L ++ r ≡ₚ L ++ r.
Proof. done. Qed.
Lemma perm_last L : L ≡ₚ L ++ [].
Proof. by rewrite app_nil_r. Qed.
Lemma perm_app L l r r' : r ≡ₚ L ++ r' → l ++ r ≡ₚ L ++ l ++ r'.
Proof. intros ->. apply Permutation_app_swap_app. Qed.
Lemma perm_cons L x r r' : r ≡ₚ L ++ r' → x :: r ≡ₚ L ++ x :: r'.
Proof. intros ->. apply Permutation_middle. Qed.
Lemma perm_step L l r r' : r ≡ₚ L ++ r' → l ≡ₚ r' → L ++ l ≡ₚ r.
Proof. by intros -> ->. Qed.
End perm.

(** Solves [l ≡ₚ r] where both sides are built from the same lists. *)
Ltac perm_find :=
  first [ apply (perm_here [_]) | apply perm_here | apply perm_last
        | eapply perm_app; perm_find | eapply perm_cons; perm_find ].
Ltac perm_solve :=
  cbn [app]; rewrite <- ?app_assoc; cbn [app]; rewrite ?app_nil_r;
  repeat first
    [ reflexivity
    | lazymatch goal with
      | |- ?L ++ ?l ≡ₚ _ => eapply (perm_step L); [perm_find|]
      | |- ?x :: ?l ≡ₚ _ => eapply (perm_step [x] l); [perm_find|]
      end; cbn [app]; rewrite ?app_nil_r
    | symmetry; apply perm_last ].
(** Proves [NoDup l] from [H : NoDup l'] with [l'] a permutation of [l]. *)
Ltac nodup_perm H :=
  eapply NoDup_Permutation_proper; [|exact H]; perm_solve.
