(* ===== verification/Machine.v ===== *)
(** * The CPUTwo machine: integer widths, page and PTE macros, byte memory

    The macros of kernel/cputwo.h and the layout constants of
    kernel/memlayout.h and kernel/param.h, over [Z] with the wrap-around of the
    C types written out, and physical memory as a finite map from addresses to
    bytes with little-endian word access. *)

From S2P Require Import Prelude.

(** ** Machine integers *)
Definition u8 (z : Z) : Z := z mod 256.
Definition u16 (z : Z) : Z := z mod 65536.
Definition u32 (z : Z) : Z := z mod 4294967296.
Definition i32 (z : Z) : Z := u32 (z + 2147483648) - 2147483648.
Definition i16 (z : Z) : Z := u16 (z + 32768) - 32768.

(** ** kernel/param.h *)
Definition NPROC : nat := 64.
Definition NOFILE : nat := 16.
Definition NFILE : nat := 100.
Definition NINODE : nat := 50.
Definition NDEV : Z := 10.
Definition ROOTDEV : Z := 1.
Definition MAXARG : Z := 32.
Definition MAXOPBLOCKS : Z := 10.
Definition LOGBLOCKS : Z := MAXOPBLOCKS * 3.
Definition NBUF : nat := 30.
Definition FSSIZE : Z := 2000.
Definition MAXPATH : Z := 128.
Definition USERSTACK : Z := 1.

(** ** kernel/cputwo.h: pages and page-table entries *)
Definition PGSIZE : Z := 4096.
Definition PGSHIFT : Z := 12.
Definition PGROUNDUP (sz : Z) : Z :=
  Z.land (u32 (sz + PGSIZE - 1)) (u32 (Z.lnot (PGSIZE - 1))).
Definition PGROUNDDOWN (a : Z) : Z := Z.land a (u32 (Z.lnot (PGSIZE - 1))).
Definition MAXVA : Z := Z.shiftl 1 31.
Definition PXMASK : Z := 1023.
Definition PXSHIFT (level : Z) : Z := PGSHIFT + 10 * level.
Definition PX (level va : Z) : Z := Z.land (Z.shiftr (u32 va) (PXSHIFT level)) PXMASK.
Definition PTE_V : Z := Z.shiftl 1 0.
Definition PTE_R : Z := Z.shiftl 1 5.
Definition PTE_W : Z := Z.shiftl 1 6.
Definition PTE_X : Z := Z.shiftl 1 7.
Definition PTE_U : Z := Z.shiftl 1 8.
Definition PA2PTE (pa : Z) : Z := Z.shiftl (Z.shiftr (u32 pa) 12) 12.
Definition PTE2PA (pte : Z) : Z := Z.shiftl (Z.shiftr pte 12) 12.
Definition PTE_FLAGS (pte : Z) : Z := Z.land pte 4095.
Definition STATUS_IE : Z := 2.
Definition SATP_EN : Z := Z.shiftl 1 31.
Definition MAKE_SATP (pt : Z) : Z := Z.lor SATP_EN (Z.shiftr (u32 pt) 12).

(** ** kernel/memlayout.h *)
Definition KERNBASE : Z := 0.
Definition PHYSTOP : Z := 65527808.      (* 0x03E7E000 *)
Definition TRAMPOLINE : Z := 66052096.   (* 0x03EFE000 *)
Definition KSTACK (p : Z) : Z := u32 (TRAMPOLINE - (p + 1) * 2 * PGSIZE).
Definition TRAPFRAME : Z := TRAMPOLINE - PGSIZE.

(** ** kernel/fcntl.h, kernel/vm.h *)
Definition O_RDONLY : Z := 0.
Definition O_WRONLY : Z := 1.
Definition O_RDWR : Z := 2.
Definition O_CREATE : Z := 512.
Definition O_TRUNC : Z := 1024.
Definition SBRK_EAGER : Z := 1.
Definition SBRK_LAZY : Z := 2.

(** Is flag [f] (a single bit or a mask) set in [x]? *)
Definition has (x f : Z) : bool := negb (Z.land x f =? 0).

(** ** Byte memory *)
Notation mem := (gmap Z Z).
Definition ldb (m : mem) (a : Z) : Z := u8 (default 0 (m !! a)).
Definition stb (m : mem) (a v : Z) : mem := <[a := u8 v]> m.
Definition ld32 (m : mem) (a : Z) : Z :=
  ldb m a + 256 * ldb m (a + 1) + 65536 * ldb m (a + 2) + 16777216 * ldb m (a + 3).
Definition st32 (m : mem) (a v : Z) : mem :=
  stb (stb (stb (stb m a v) (a + 1) (Z.shiftr v 8)) (a + 2) (Z.shiftr v 16))
      (a + 3) (Z.shiftr v 24).

(** The [n] bytes of memory from [a]. *)
Fixpoint ldbytes (m : mem) (a : Z) (n : nat) : list Z :=
  match n with
  | O => []
  | S n' => ldb m a :: ldbytes m (a + 1) n'
  end.

(** ** Automation: the constants, and linear arithmetic with [/] and [mod] *)
Create HintDb kconst.
#[export] Hint Unfold u8 u16 u32 i32 i16 NPROC NOFILE NFILE NINODE NDEV ROOTDEV MAXARG
  MAXOPBLOCKS LOGBLOCKS NBUF FSSIZE MAXPATH USERSTACK PGSIZE PGSHIFT
  KERNBASE PHYSTOP TRAMPOLINE TRAPFRAME KSTACK PXMASK PXSHIFT : kconst.

Ltac zsolve :=
  autounfold with kconst in *; Z.to_euclidean_division_equations; nia.
Ltac zl := autounfold with kconst in *; Z.to_euclidean_division_equations; lia.

Lemma MAXVA_eq : MAXVA = 2147483648.
Proof. reflexivity. Qed.

Lemma u8_range z : 0 <= u8 z < 256.
Proof. zl. Qed.
Lemma u32_range z : 0 <= u32 z < 4294967296.
Proof. zl. Qed.
Lemma u8_small z : 0 <= z < 256 → u8 z = z.
Proof. intros. zl. Qed.
Lemma u32_small z : 0 <= z < 4294967296 → u32 z = z.
Proof. intros. zl. Qed.
Lemma u8_u8 z : u8 (u8 z) = u8 z.
Proof. zl. Qed.
Lemma i32_u32_small z : -2147483648 <= z < 2147483648 → i32 (u32 z) = z.
Proof. intros. zl. Qed.

(** ** Bit-level facts about the macros *)
Lemma shiftl_shiftr_12 x : Z.shiftl (Z.shiftr x 12) 12 = x - x mod 4096.
Proof.
  rewrite Z.shiftl_mul_pow2, Z.shiftr_div_pow2 by lia. change (2 ^ 12) with 4096. zl.
Qed.

Lemma land_page_mask x :
  0 <= x < 4294967296 → Z.land x (u32 (Z.lnot (PGSIZE - 1))) = x - x mod 4096.
Proof.
  intros Hx. rewrite <- shiftl_shiftr_12.
  change (u32 (Z.lnot (PGSIZE - 1))) with (Z.shiftl (Z.ones 20) 12).
  apply Z.bits_inj'. intros n Hn.
  rewrite Z.land_spec, !Z.shiftl_spec by lia.
  destruct (Z.ltb_spec n 12).
  { rewrite !(Z.testbit_neg_r _ (n - 12)) by lia. by rewrite andb_false_r. }
  rewrite Z.shiftr_spec by lia. replace (n - 12 + 12) with n by lia.
  destruct (Z.ltb_spec n 32).
  - rewrite Z.ones_spec_low by lia. by rewrite andb_true_r.
  - rewrite Z.ones_spec_high by lia. rewrite andb_false_r.
    destruct (Z.eq_dec x 0) as [->|]; [by rewrite Z.bits_0|].
    symmetry. apply Z.bits_above_log2; [lia|].
    apply Z.lt_le_trans with 32; [|lia]. apply Z.log2_lt_pow2; lia.
Qed.

Lemma PGROUNDDOWN_eq a : 0 <= a < 4294967296 → PGROUNDDOWN a = a - a mod 4096.
Proof. apply land_page_mask. Qed.

Lemma PGROUNDUP_eq a :
  0 <= a <= 4294963200 → PGROUNDUP a = (a + 4095) / 4096 * 4096.
Proof.
  intros Ha. unfold PGROUNDUP. rewrite land_page_mask by apply u32_range. zl.
Qed.
Lemma PGROUNDUP_id a : a mod 4096 = 0 → 0 <= a <= 4294963200 → PGROUNDUP a = a.
Proof. intros. rewrite PGROUNDUP_eq by done. zl. Qed.

Lemma land_ones_mod x n m : 0 <= n → m = Z.ones n → Z.land x m = x mod 2 ^ n.
Proof. intros ? ->. by apply Z.land_ones. Qed.

Lemma PX1_eq va : 0 <= va < 4294967296 → PX 1 va = va / 4194304 mod 1024.
Proof.
  intros. unfold PX. rewrite u32_small by done.
  rewrite (land_ones_mod _ 10) by done. rewrite Z.shiftr_div_pow2 by (autounfold with kconst; lia).
  reflexivity.
Qed.

Lemma PX0_eq va : 0 <= va < 4294967296 → PX 0 va = va / 4096 mod 1024.
Proof.
  intros. unfold PX. rewrite u32_small by done.
  rewrite (land_ones_mod _ 10) by done. rewrite Z.shiftr_div_pow2 by (autounfold with kconst; lia).
  reflexivity.
Qed.

Lemma PX_range l va : 0 <= PX l va < 1024.
Proof.
  unfold PX. rewrite (land_ones_mod _ 10) by done. apply Z.mod_pos_bound. lia.
Qed.

Lemma PA2PTE_eq pa : 0 <= pa < 4294967296 → PA2PTE pa = pa - pa mod 4096.
Proof. intros. unfold PA2PTE. rewrite u32_small by done. apply shiftl_shiftr_12. Qed.

Lemma PTE2PA_eq pte : PTE2PA pte = pte - pte mod 4096.
Proof. apply shiftl_shiftr_12. Qed.

Lemma PTE_FLAGS_eq pte : PTE_FLAGS pte = pte mod 4096.
Proof. unfold PTE_FLAGS. by rewrite (land_ones_mod _ 12). Qed.

(** An aligned page number and 12 flag bits do not overlap. *)
Lemma lor_page_flags pa fl :
  pa mod 4096 = 0 → 0 <= fl < 4096 → Z.lor pa fl = pa + fl.
Proof.
  intros Hpa Hfl. rewrite <- Z.add_lor_land.
  enough (Z.land pa fl = 0) as -> by lia.
  replace pa with (Z.shiftl (pa / 4096) 12)
    by (rewrite Z.shiftl_mul_pow2 by lia; change (2 ^ 12) with 4096; zl).
  replace fl with (Z.land fl (Z.ones 12))
    by (rewrite Z.land_ones by lia; apply Z.mod_small; lia).
  apply Z.bits_inj'. intros n Hn. rewrite !Z.land_spec, Z.bits_0.
  destruct (Z.ltb_spec n 12).
  - by rewrite Z.shiftl_spec_low.
  - rewrite Z.ones_spec_high by lia. by rewrite !andb_false_r.
Qed.

Lemma lor_range12 a b : 0 <= a < 4096 → 0 <= b < 4096 → 0 <= Z.lor a b < 4096.
Proof.
  intros. split; [apply Z.lor_nonneg; lia|].
  destruct (Z.eq_dec (Z.lor a b) 0) as [->|]; [lia|].
  apply (Z.log2_lt_pow2 _ 12); [assert (0 <= Z.lor a b) by (apply Z.lor_nonneg; lia); lia|].
  rewrite Z.log2_lor by lia.
  assert (Z.log2 4095 = 11) as E by done.
  assert (Z.log2 a <= 11) by (rewrite <- E; apply Z.log2_le_mono; lia).
  assert (Z.log2 b <= 11) by (rewrite <- E; apply Z.log2_le_mono; lia). lia.
Qed.

(** ** Memory *)
Lemma ldb_range m a : 0 <= ldb m a < 256.
Proof. apply u8_range. Qed.

Lemma ldb_stb m a v b : ldb (stb m a v) b = if decide (a = b) then u8 v else ldb m b.
Proof.
  unfold ldb, stb. rewrite lookup_insert. destruct (decide (a = b)); simpl; [|done].
  apply u8_u8.
Qed.
Lemma ldb_stb_eq m a v : ldb (stb m a v) a = u8 v.
Proof. rewrite ldb_stb. by rewrite decide_True. Qed.
Lemma ldb_stb_ne m a v b : a ≠ b → ldb (stb m a v) b = ldb m b.
Proof. intros. rewrite ldb_stb. by rewrite decide_False. Qed.

Lemma ld32_range m a : 0 <= ld32 m a < 4294967296.
Proof.
  unfold ld32. pose proof (ldb_range m a). pose proof (ldb_range m (a + 1)).
  pose proof (ldb_range m (a + 2)). pose proof (ldb_range m (a + 3)). lia.
Qed.

Lemma ldb_st32_ne m a v b : b < a ∨ a + 4 <= b → ldb (st32 m a v) b = ldb m b.
Proof. intros. unfold st32. by rewrite !ldb_stb_ne by lia. Qed.

Lemma ld32_st32_eq m a v : ld32 (st32 m a v) a = u32 v.
Proof.
  unfold ld32, st32. rewrite !ldb_stb. repeat (case_decide; try lia).
  rewrite !Z.shiftr_div_pow2 by lia. change (2 ^ 8) with 256. change (2 ^ 16) with 65536.
  change (2 ^ 24) with 16777216. zl.
Qed.

Lemma ld32_ext m m' a :
  (∀ b, a <= b < a + 4 → ldb m' b = ldb m b) → ld32 m' a = ld32 m a.
Proof. intros H. unfold ld32. by rewrite !H by lia. Qed.

Lemma ld32_st32_ne m a v b : a + 4 <= b ∨ b + 4 <= a → ld32 (st32 m a v) b = ld32 m b.
Proof. intros. apply ld32_ext. intros. apply ldb_st32_ne. lia. Qed.

Lemma ld32_zero m a : (∀ b, a <= b < a + 4 → ldb m b = 0) → ld32 m a = 0.
Proof. intros H. unfold ld32. by rewrite !H by lia. Qed.

Lemma length_ldbytes m a n : length (ldbytes m a n) = n.
Proof. revert a; induction n; intros; simpl; auto. Qed.

Lemma lookup_ldbytes m a n i :
  (i < n)%nat → ldbytes m a n !! i = Some (ldb m (a + Z.of_nat i)).
Proof.
  revert a i. induction n; intros a i Hi; [lia|]. destruct i; simpl.
  - by rewrite Z.add_0_r.
  - rewrite IHn by lia. do 2 f_equal. lia.
Qed.

Lemma ldbytes_ext m m' a n :
  (∀ b, a <= b < a + Z.of_nat n → ldb m' b = ldb m b) → ldbytes m' a n = ldbytes m a n.
Proof.
  revert a. induction n; intros a H; simpl; [done|]. f_equal; [apply H; lia|].
  apply IHn. intros. apply H. lia.
Qed.

(** Kernel stacks lie below the trampoline, one page each with one page in
    between, and above the direct-mapped memory. *)
Lemma KSTACK_eq p : 0 <= p < 64 → KSTACK p = TRAMPOLINE - (p + 1) * 8192.
Proof. intros. zl. Qed.
