(* ===== verification/State.v ===== *)
(** * Kernel data: the structs of the kernel headers and the kernel state

    One record per C struct (kernel/proc.h, spinlock.h, sleeplock.h, buf.h,
    fs.h, file.h and the structs local to log.c, pipe.c and console.c), with
    the fields of the source.  Pointers to array elements are indices; a null
    pointer is [None]; pointers into physical memory are addresses, 0 being
    null.  Locks and sleep channels are named by the object they belong to, as
    an address names it in the kernel.  [kstate] collects the kernel's globals
    and the device registers the kernel reads and writes.  [Platform] is what
    the kernel is linked against and runs on: the addresses the linker
    assigns, and the block device. *)

From S2P Require Import Prelude Machine.


(** ** Names of locks and of sleep channels *)
Inductive slid : Type := SlBuf (i : nat) | SlInode (i : nat).

Inductive lockid : Type :=
| LkKmem | LkPid | LkWait | LkProc (i : nat) | LkTicks | LkBcache | LkLog
| LkItable | LkFtable | LkCons | LkUart | LkPr | LkDisk
| LkSleep (l : slid) | LkPipe (pa : Z).

Inductive chan : Type :=
| ChProc (i : nat) | ChSleep (l : slid) | ChLog | ChPipeRead (pa : Z) | ChPipeWrite (pa : Z)
| ChTicks | ChCons | ChUartTx | ChBuf (i : nat).

#[export] Instance slid_eq_dec : EqDecision slid.
Proof. solve_decision. Defined.
#[export] Instance lockid_eq_dec : EqDecision lockid.
Proof. solve_decision. Defined.
#[export] Instance chan_eq_dec : EqDecision chan.
Proof. solve_decision. Defined.

Definition slid_enc (l : slid) : nat + nat :=
  match l with SlBuf i => inl i | SlInode i => inr i end.
Definition slid_dec (c : nat + nat) : slid :=
  match c with inl i => SlBuf i | inr i => SlInode i end.
#[export] Instance slid_countable : Countable slid.
Proof. apply (inj_countable' slid_enc slid_dec). by intros []. Defined.

Definition lockid_enc (l : lockid) : nat + slid + Z :=
  match l with
  | LkKmem => inl (inl 0) | LkPid => inl (inl 1) | LkWait => inl (inl 2)
  | LkTicks => inl (inl 3) | LkBcache => inl (inl 4) | LkLog => inl (inl 5)
  | LkItable => inl (inl 6) | LkFtable => inl (inl 7) | LkCons => inl (inl 8)
  | LkUart => inl (inl 9) | LkPr => inl (inl 10) | LkDisk => inl (inl 11)
  | LkProc i => inl (inl (12 + i)) | LkSleep l => inl (inr l) | LkPipe pa => inr pa
  end%nat.
Definition lockid_dec (c : nat + slid + Z) : lockid :=
  match c with
  | inl (inl 0) => LkKmem | inl (inl 1) => LkPid | inl (inl 2) => LkWait
  | inl (inl 3) => LkTicks | inl (inl 4) => LkBcache | inl (inl 5) => LkLog
  | inl (inl 6) => LkItable | inl (inl 7) => LkFtable | inl (inl 8) => LkCons
  | inl (inl 9) => LkUart | inl (inl 10) => LkPr | inl (inl 11) => LkDisk
  | inl (inl (S (S (S (S (S (S (S (S (S (S (S (S i))))))))))))) => LkProc i
  | inl (inr l) => LkSleep l | inr pa => LkPipe pa
  end%nat.
#[export] Instance lockid_countable : Countable lockid.
Proof. apply (inj_countable' lockid_enc lockid_dec). by intros []. Defined.

(** ** Locks *)
(** kernel/spinlock.h; [lk_cpu] is the holder's index in [cpus] *)
Record spinlock : Type := mk_spinlock {
  lk_locked : Z;
  lk_name : string;
  lk_cpu : option nat }.
Definition with_lk_locked (v : Z) (s : spinlock) : spinlock :=
  mk_spinlock v (lk_name s) (lk_cpu s).
Definition with_lk_name (v : string) (s : spinlock) : spinlock :=
  mk_spinlock (lk_locked s) v (lk_cpu s).
Definition with_lk_cpu (v : option nat) (s : spinlock) : spinlock :=
  mk_spinlock (lk_locked s) (lk_name s) v.

(** kernel/sleeplock.h; the inner spinlock of [l] is [LkSleep l] *)
Record sleeplock : Type := mk_sleeplock {
  sl_locked : Z;
  sl_name : string;
  sl_pid : Z }.
Definition with_sl_locked (v : Z) (s : sleeplock) : sleeplock :=
  mk_sleeplock v (sl_name s) (sl_pid s).
Definition with_sl_name (v : string) (s : sleeplock) : sleeplock :=
  mk_sleeplock (sl_locked s) v (sl_pid s).
Definition with_sl_pid (v : Z) (s : sleeplock) : sleeplock :=
  mk_sleeplock (sl_locked s) (sl_name s) v.

(** ** Processes *)
(** kernel/proc.h: enum procstate *)
Inductive procstate : Type := UNUSED | USED | SLEEPING | RUNNABLE | RUNNING | ZOMBIE.
#[export] Instance procstate_eq_dec : EqDecision procstate.
Proof. solve_decision. Defined.

(** kernel/proc.h: saved registers for kernel context switches *)
Record context : Type := mk_context {
  ctx_lr : Z;
  ctx_sp : Z;
  ctx_r4 : Z;
  ctx_r5 : Z;
  ctx_r6 : Z;
  ctx_r7 : Z;
  ctx_r8 : Z;
  ctx_r9 : Z;
  ctx_r10 : Z;
  ctx_r11 : Z }.

(** kernel/proc.h: per-CPU state (CPUTwo has one CPU) *)
Record cpu : Type := mk_cpu {
  c_proc : option nat;
  c_context : context;
  c_noff : Z;
  c_intena : bool }.
Definition with_c_proc (v : option nat) (s : cpu) : cpu :=
  mk_cpu v (c_context s) (c_noff s) (c_intena s).
Definition with_c_context (v : context) (s : cpu) : cpu :=
  mk_cpu (c_proc s) v (c_noff s) (c_intena s).
Definition with_c_noff (v : Z) (s : cpu) : cpu :=
  mk_cpu (c_proc s) (c_context s) v (c_intena s).
Definition with_c_intena (v : bool) (s : cpu) : cpu :=
  mk_cpu (c_proc s) (c_context s) (c_noff s) v.

(** kernel/proc.h: per-process state; the lock of process [i] is [LkProc i] *)
Record proc : Type := mk_proc {
  p_state : procstate;
  p_chan : option chan;
  p_killed : Z;
  p_xstate : Z;
  p_pid : Z;
  p_parent : option nat;
  p_kstack : Z;
  p_sz : Z;
  p_pagetable : Z;
  p_trapframe : Z;
  p_context : context;
  p_ofile : list (option nat);
  p_cwd : option nat;
  p_name : list Z }.
Definition with_p_state (v : procstate) (s : proc) : proc :=
  mk_proc v (p_chan s) (p_killed s) (p_xstate s) (p_pid s) (p_parent s) (p_kstack s) (p_sz s) (p_pagetable s) (p_trapframe s) (p_context s) (p_ofile s) (p_cwd s) (p_name s).
Definition with_p_chan (v : option chan) (s : proc) : proc :=
  mk_proc (p_state s) v (p_killed s) (p_xstate s) (p_pid s) (p_parent s) (p_kstack s) (p_sz s) (p_pagetable s) (p_trapframe s) (p_context s) (p_ofile s) (p_cwd s) (p_name s).
Definition with_p_killed (v : Z) (s : proc) : proc :=
  mk_proc (p_state s) (p_chan s) v (p_xstate s) (p_pid s) (p_parent s) (p_kstack s) (p_sz s) (p_pagetable s) (p_trapframe s) (p_context s) (p_ofile s) (p_cwd s) (p_name s).
Definition with_p_xstate (v : Z) (s : proc) : proc :=
  mk_proc (p_state s) (p_chan s) (p_killed s) v (p_pid s) (p_parent s) (p_kstack s) (p_sz s) (p_pagetable s) (p_trapframe s) (p_context s) (p_ofile s) (p_cwd s) (p_name s).
Definition with_p_pid (v : Z) (s : proc) : proc :=
  mk_proc (p_state s) (p_chan s) (p_killed s) (p_xstate s) v (p_parent s) (p_kstack s) (p_sz s) (p_pagetable s) (p_trapframe s) (p_context s) (p_ofile s) (p_cwd s) (p_name s).
Definition with_p_parent (v : option nat) (s : proc) : proc :=
  mk_proc (p_state s) (p_chan s) (p_killed s) (p_xstate s) (p_pid s) v (p_kstack s) (p_sz s) (p_pagetable s) (p_trapframe s) (p_context s) (p_ofile s) (p_cwd s) (p_name s).
Definition with_p_kstack (v : Z) (s : proc) : proc :=
  mk_proc (p_state s) (p_chan s) (p_killed s) (p_xstate s) (p_pid s) (p_parent s) v (p_sz s) (p_pagetable s) (p_trapframe s) (p_context s) (p_ofile s) (p_cwd s) (p_name s).
Definition with_p_sz (v : Z) (s : proc) : proc :=
  mk_proc (p_state s) (p_chan s) (p_killed s) (p_xstate s) (p_pid s) (p_parent s) (p_kstack s) v (p_pagetable s) (p_trapframe s) (p_context s) (p_ofile s) (p_cwd s) (p_name s).
Definition with_p_pagetable (v : Z) (s : proc) : proc :=
  mk_proc (p_state s) (p_chan s) (p_killed s) (p_xstate s) (p_pid s) (p_parent s) (p_kstack s) (p_sz s) v (p_trapframe s) (p_context s) (p_ofile s) (p_cwd s) (p_name s).
Definition with_p_trapframe (v : Z) (s : proc) : proc :=
  mk_proc (p_state s) (p_chan s) (p_killed s) (p_xstate s) (p_pid s) (p_parent s) (p_kstack s) (p_sz s) (p_pagetable s) v (p_context s) (p_ofile s) (p_cwd s) (p_name s).
Definition with_p_context (v : context) (s : proc) : proc :=
  mk_proc (p_state s) (p_chan s) (p_killed s) (p_xstate s) (p_pid s) (p_parent s) (p_kstack s) (p_sz s) (p_pagetable s) (p_trapframe s) v (p_ofile s) (p_cwd s) (p_name s).
Definition with_p_ofile (v : list (option nat)) (s : proc) : proc :=
  mk_proc (p_state s) (p_chan s) (p_killed s) (p_xstate s) (p_pid s) (p_parent s) (p_kstack s) (p_sz s) (p_pagetable s) (p_trapframe s) (p_context s) v (p_cwd s) (p_name s).
Definition with_p_cwd (v : option nat) (s : proc) : proc :=
  mk_proc (p_state s) (p_chan s) (p_killed s) (p_xstate s) (p_pid s) (p_parent s) (p_kstack s) (p_sz s) (p_pagetable s) (p_trapframe s) (p_context s) (p_ofile s) v (p_name s).
Definition with_p_name (v : list Z) (s : proc) : proc :=
  mk_proc (p_state s) (p_chan s) (p_killed s) (p_xstate s) (p_pid s) (p_parent s) (p_kstack s) (p_sz s) (p_pagetable s) (p_trapframe s) (p_context s) (p_ofile s) (p_cwd s) v.

(** ** The block layer *)
(** kernel/buf.h; [b_prev] and [b_next] index [bcache_buf], the head being index [NBUF] *)
Record buf : Type := mk_buf {
  b_valid : Z;
  b_disk : Z;
  b_dev : Z;
  b_blockno : Z;
  b_refcnt : Z;
  b_prev : nat;
  b_next : nat;
  b_data : list Z }.
Definition with_b_valid (v : Z) (s : buf) : buf :=
  mk_buf v (b_disk s) (b_dev s) (b_blockno s) (b_refcnt s) (b_prev s) (b_next s) (b_data s).
Definition with_b_disk (v : Z) (s : buf) : buf :=
  mk_buf (b_valid s) v (b_dev s) (b_blockno s) (b_refcnt s) (b_prev s) (b_next s) (b_data s).
Definition with_b_dev (v : Z) (s : buf) : buf :=
  mk_buf (b_valid s) (b_disk s) v (b_blockno s) (b_refcnt s) (b_prev s) (b_next s) (b_data s).
Definition with_b_blockno (v : Z) (s : buf) : buf :=
  mk_buf (b_valid s) (b_disk s) (b_dev s) v (b_refcnt s) (b_prev s) (b_next s) (b_data s).
Definition with_b_refcnt (v : Z) (s : buf) : buf :=
  mk_buf (b_valid s) (b_disk s) (b_dev s) (b_blockno s) v (b_prev s) (b_next s) (b_data s).
Definition with_b_prev (v : nat) (s : buf) : buf :=
  mk_buf (b_valid s) (b_disk s) (b_dev s) (b_blockno s) (b_refcnt s) v (b_next s) (b_data s).
Definition with_b_next (v : nat) (s : buf) : buf :=
  mk_buf (b_valid s) (b_disk s) (b_dev s) (b_blockno s) (b_refcnt s) (b_prev s) v (b_data s).
Definition with_b_data (v : list Z) (s : buf) : buf :=
  mk_buf (b_valid s) (b_disk s) (b_dev s) (b_blockno s) (b_refcnt s) (b_prev s) (b_next s) v.

(** kernel/log.c: the [log_*] globals, with the in-memory header [log_lh] *)
Record log : Type := mk_log {
  l_start : Z;
  l_outstanding : Z;
  l_committing : Z;
  l_dev : Z;
  l_n : Z;
  l_block : list Z }.
Definition with_l_start (v : Z) (s : log) : log :=
  mk_log v (l_outstanding s) (l_committing s) (l_dev s) (l_n s) (l_block s).
Definition with_l_outstanding (v : Z) (s : log) : log :=
  mk_log (l_start s) v (l_committing s) (l_dev s) (l_n s) (l_block s).
Definition with_l_committing (v : Z) (s : log) : log :=
  mk_log (l_start s) (l_outstanding s) v (l_dev s) (l_n s) (l_block s).
Definition with_l_dev (v : Z) (s : log) : log :=
  mk_log (l_start s) (l_outstanding s) (l_committing s) v (l_n s) (l_block s).
Definition with_l_n (v : Z) (s : log) : log :=
  mk_log (l_start s) (l_outstanding s) (l_committing s) (l_dev s) v (l_block s).
Definition with_l_block (v : list Z) (s : log) : log :=
  mk_log (l_start s) (l_outstanding s) (l_committing s) (l_dev s) (l_n s) v.

(** kernel/virtio_disk.c: the disk image by 512-byte sector, the device's status and control registers, the bounce buffer, and the sector writes issued so far, oldest first *)
Record blkdev : Type := mk_blkdev {
  d_image : gmap Z (list Z);
  d_status : Z;
  d_ctrl : Z;
  d_bounce : list Z;
  d_trace : list (Z * list Z) }.
Definition with_d_image (v : gmap Z (list Z)) (s : blkdev) : blkdev :=
  mk_blkdev v (d_status s) (d_ctrl s) (d_bounce s) (d_trace s).
Definition with_d_status (v : Z) (s : blkdev) : blkdev :=
  mk_blkdev (d_image s) v (d_ctrl s) (d_bounce s) (d_trace s).
Definition with_d_ctrl (v : Z) (s : blkdev) : blkdev :=
  mk_blkdev (d_image s) (d_status s) v (d_bounce s) (d_trace s).
Definition with_d_bounce (v : list Z) (s : blkdev) : blkdev :=
  mk_blkdev (d_image s) (d_status s) (d_ctrl s) v (d_trace s).
Definition with_d_trace (v : list (Z * list Z)) (s : blkdev) : blkdev :=
  mk_blkdev (d_image s) (d_status s) (d_ctrl s) (d_bounce s) v.

(** ** Files and inodes *)
(** kernel/fs.h *)
Record superblock : Type := mk_superblock {
  sb_magic : Z;
  sb_size : Z;
  sb_nblocks : Z;
  sb_ninodes : Z;
  sb_nlog : Z;
  sb_logstart : Z;
  sb_inodestart : Z;
  sb_bmapstart : Z }.

(** kernel/file.h: in-memory copy of an inode; its sleep-lock is [SlInode] *)
Record inode : Type := mk_inode {
  i_dev : Z;
  i_inum : Z;
  i_ref : Z;
  i_valid : Z;
  i_type : Z;
  i_major : Z;
  i_minor : Z;
  i_nlink : Z;
  i_size : Z;
  i_addrs : list Z }.
Definition with_i_dev (v : Z) (s : inode) : inode :=
  mk_inode v (i_inum s) (i_ref s) (i_valid s) (i_type s) (i_major s) (i_minor s) (i_nlink s) (i_size s) (i_addrs s).
Definition with_i_inum (v : Z) (s : inode) : inode :=
  mk_inode (i_dev s) v (i_ref s) (i_valid s) (i_type s) (i_major s) (i_minor s) (i_nlink s) (i_size s) (i_addrs s).
Definition with_i_ref (v : Z) (s : inode) : inode :=
  mk_inode (i_dev s) (i_inum s) v (i_valid s) (i_type s) (i_major s) (i_minor s) (i_nlink s) (i_size s) (i_addrs s).
Definition with_i_valid (v : Z) (s : inode) : inode :=
  mk_inode (i_dev s) (i_inum s) (i_ref s) v (i_type s) (i_major s) (i_minor s) (i_nlink s) (i_size s) (i_addrs s).
Definition with_i_type (v : Z) (s : inode) : inode :=
  mk_inode (i_dev s) (i_inum s) (i_ref s) (i_valid s) v (i_major s) (i_minor s) (i_nlink s) (i_size s) (i_addrs s).
Definition with_i_major (v : Z) (s : inode) : inode :=
  mk_inode (i_dev s) (i_inum s) (i_ref s) (i_valid s) (i_type s) v (i_minor s) (i_nlink s) (i_size s) (i_addrs s).
Definition with_i_minor (v : Z) (s : inode) : inode :=
  mk_inode (i_dev s) (i_inum s) (i_ref s) (i_valid s) (i_type s) (i_major s) v (i_nlink s) (i_size s) (i_addrs s).
Definition with_i_nlink (v : Z) (s : inode) : inode :=
  mk_inode (i_dev s) (i_inum s) (i_ref s) (i_valid s) (i_type s) (i_major s) (i_minor s) v (i_size s) (i_addrs s).
Definition with_i_size (v : Z) (s : inode) : inode :=
  mk_inode (i_dev s) (i_inum s) (i_ref s) (i_valid s) (i_type s) (i_major s) (i_minor s) (i_nlink s) v (i_addrs s).
Definition with_i_addrs (v : list Z) (s : inode) : inode :=
  mk_inode (i_dev s) (i_inum s) (i_ref s) (i_valid s) (i_type s) (i_major s) (i_minor s) (i_nlink s) (i_size s) v.

(** kernel/file.h: the type tag of an open file *)
Inductive ftype : Type := FD_NONE | FD_PIPE | FD_INODE | FD_DEVICE.
#[export] Instance ftype_eq_dec : EqDecision ftype.
Proof. solve_decision. Defined.

(** kernel/file.h *)
Record file : Type := mk_file {
  f_type : ftype;
  f_ref : Z;
  f_readable : Z;
  f_writable : Z;
  f_pipe : Z;
  f_ip : option nat;
  f_off : Z;
  f_major : Z }.
Definition with_f_type (v : ftype) (s : file) : file :=
  mk_file v (f_ref s) (f_readable s) (f_writable s) (f_pipe s) (f_ip s) (f_off s) (f_major s).
Definition with_f_ref (v : Z) (s : file) : file :=
  mk_file (f_type s) v (f_readable s) (f_writable s) (f_pipe s) (f_ip s) (f_off s) (f_major s).
Definition with_f_readable (v : Z) (s : file) : file :=
  mk_file (f_type s) (f_ref s) v (f_writable s) (f_pipe s) (f_ip s) (f_off s) (f_major s).
Definition with_f_writable (v : Z) (s : file) : file :=
  mk_file (f_type s) (f_ref s) (f_readable s) v (f_pipe s) (f_ip s) (f_off s) (f_major s).
Definition with_f_pipe (v : Z) (s : file) : file :=
  mk_file (f_type s) (f_ref s) (f_readable s) (f_writable s) v (f_ip s) (f_off s) (f_major s).
Definition with_f_ip (v : option nat) (s : file) : file :=
  mk_file (f_type s) (f_ref s) (f_readable s) (f_writable s) (f_pipe s) v (f_off s) (f_major s).
Definition with_f_off (v : Z) (s : file) : file :=
  mk_file (f_type s) (f_ref s) (f_readable s) (f_writable s) (f_pipe s) (f_ip s) v (f_major s).
Definition with_f_major (v : Z) (s : file) : file :=
  mk_file (f_type s) (f_ref s) (f_readable s) (f_writable s) (f_pipe s) (f_ip s) (f_off s) v.

(** Functions a device may install in [devsw]. *)
Inductive devfn : Type := Consoleread | Consolewrite.

(** kernel/pipe.c; a pipe lives in the page it was allocated in, and its lock is [LkPipe] *)
Record pipe : Type := mk_pipe {
  pi_data : list Z;
  pi_nread : Z;
  pi_nwrite : Z;
  pi_readopen : Z;
  pi_writeopen : Z }.
Definition with_pi_data (v : list Z) (s : pipe) : pipe :=
  mk_pipe v (pi_nread s) (pi_nwrite s) (pi_readopen s) (pi_writeopen s).
Definition with_pi_nread (v : Z) (s : pipe) : pipe :=
  mk_pipe (pi_data s) v (pi_nwrite s) (pi_readopen s) (pi_writeopen s).
Definition with_pi_nwrite (v : Z) (s : pipe) : pipe :=
  mk_pipe (pi_data s) (pi_nread s) v (pi_readopen s) (pi_writeopen s).
Definition with_pi_readopen (v : Z) (s : pipe) : pipe :=
  mk_pipe (pi_data s) (pi_nread s) (pi_nwrite s) v (pi_writeopen s).
Definition with_pi_writeopen (v : Z) (s : pipe) : pipe :=
  mk_pipe (pi_data s) (pi_nread s) (pi_nwrite s) (pi_readopen s) v.

(** ** Console, UART, trap registers *)
(** kernel/console.c: the input buffer and its indices *)
Record console : Type := mk_console {
  cons_buf : list Z;
  cons_r : Z;
  cons_w : Z;
  cons_e : Z }.
Definition with_cons_buf (v : list Z) (s : console) : console :=
  mk_console v (cons_r s) (cons_w s) (cons_e s).
Definition with_cons_r (v : Z) (s : console) : console :=
  mk_console (cons_buf s) v (cons_w s) (cons_e s).
Definition with_cons_w (v : Z) (s : console) : console :=
  mk_console (cons_buf s) (cons_r s) v (cons_e s).
Definition with_cons_e (v : Z) (s : console) : console :=
  mk_console (cons_buf s) (cons_r s) (cons_w s) v.

(** The UART registers: [u_status] as last read, the bytes written to TX so far, the bytes waiting in RX; and [tx_busy] of uart.c *)
Record uart : Type := mk_uart {
  u_status : Z;
  u_ctrl : Z;
  u_tx : list Z;
  u_rx : list Z;
  u_tx_busy : Z }.
Definition with_u_status (v : Z) (s : uart) : uart :=
  mk_uart v (u_ctrl s) (u_tx s) (u_rx s) (u_tx_busy s).
Definition with_u_ctrl (v : Z) (s : uart) : uart :=
  mk_uart (u_status s) v (u_tx s) (u_rx s) (u_tx_busy s).
Definition with_u_tx (v : list Z) (s : uart) : uart :=
  mk_uart (u_status s) (u_ctrl s) v (u_rx s) (u_tx_busy s).
Definition with_u_rx (v : list Z) (s : uart) : uart :=
  mk_uart (u_status s) (u_ctrl s) (u_tx s) v (u_tx_busy s).
Definition with_u_tx_busy (v : Z) (s : uart) : uart :=
  mk_uart (u_status s) (u_ctrl s) (u_tx s) (u_rx s) v.

(** Supervisor registers, the interrupt controller and the timer (kernel/cputwo.h); [r_evec] is the table REG_EVEC points at *)
Record regs : Type := mk_regs {
  r_status : Z;
  r_satp : Z;
  r_epc : Z;
  r_eflags : Z;
  r_estatus : Z;
  r_cause : Z;
  r_badaddr : Z;
  r_evec : list Z;
  r_pending : Z;
  r_enable : Z;
  r_wfi : Z;
  r_timer_period : Z;
  r_timer_ctrl : Z }.
Definition with_r_status (v : Z) (s : regs) : regs :=
  mk_regs v (r_satp s) (r_epc s) (r_eflags s) (r_estatus s) (r_cause s) (r_badaddr s) (r_evec s) (r_pending s) (r_enable s) (r_wfi s) (r_timer_period s) (r_timer_ctrl s).
Definition with_r_satp (v : Z) (s : regs) : regs :=
  mk_regs (r_status s) v (r_epc s) (r_eflags s) (r_estatus s) (r_cause s) (r_badaddr s) (r_evec s) (r_pending s) (r_enable s) (r_wfi s) (r_timer_period s) (r_timer_ctrl s).
Definition with_r_epc (v : Z) (s : regs) : regs :=
  mk_regs (r_status s) (r_satp s) v (r_eflags s) (r_estatus s) (r_cause s) (r_badaddr s) (r_evec s) (r_pending s) (r_enable s) (r_wfi s) (r_timer_period s) (r_timer_ctrl s).
Definition with_r_eflags (v : Z) (s : regs) : regs :=
  mk_regs (r_status s) (r_satp s) (r_epc s) v (r_estatus s) (r_cause s) (r_badaddr s) (r_evec s) (r_pending s) (r_enable s) (r_wfi s) (r_timer_period s) (r_timer_ctrl s).
Definition with_r_estatus (v : Z) (s : regs) : regs :=
  mk_regs (r_status s) (r_satp s) (r_epc s) (r_eflags s) v (r_cause s) (r_badaddr s) (r_evec s) (r_pending s) (r_enable s) (r_wfi s) (r_timer_period s) (r_timer_ctrl s).
Definition with_r_cause (v : Z) (s : regs) : regs :=
  mk_regs (r_status s) (r_satp s) (r_epc s) (r_eflags s) (r_estatus s) v (r_badaddr s) (r_evec s) (r_pending s) (r_enable s) (r_wfi s) (r_timer_period s) (r_timer_ctrl s).
Definition with_r_badaddr (v : Z) (s : regs) : regs :=
  mk_regs (r_status s) (r_satp s) (r_epc s) (r_eflags s) (r_estatus s) (r_cause s) v (r_evec s) (r_pending s) (r_enable s) (r_wfi s) (r_timer_period s) (r_timer_ctrl s).
Definition with_r_evec (v : list Z) (s : regs) : regs :=
  mk_regs (r_status s) (r_satp s) (r_epc s) (r_eflags s) (r_estatus s) (r_cause s) (r_badaddr s) v (r_pending s) (r_enable s) (r_wfi s) (r_timer_period s) (r_timer_ctrl s).
Definition with_r_pending (v : Z) (s : regs) : regs :=
  mk_regs (r_status s) (r_satp s) (r_epc s) (r_eflags s) (r_estatus s) (r_cause s) (r_badaddr s) (r_evec s) v (r_enable s) (r_wfi s) (r_timer_period s) (r_timer_ctrl s).
Definition with_r_enable (v : Z) (s : regs) : regs :=
  mk_regs (r_status s) (r_satp s) (r_epc s) (r_eflags s) (r_estatus s) (r_cause s) (r_badaddr s) (r_evec s) (r_pending s) v (r_wfi s) (r_timer_period s) (r_timer_ctrl s).
Definition with_r_wfi (v : Z) (s : regs) : regs :=
  mk_regs (r_status s) (r_satp s) (r_epc s) (r_eflags s) (r_estatus s) (r_cause s) (r_badaddr s) (r_evec s) (r_pending s) (r_enable s) v (r_timer_period s) (r_timer_ctrl s).
Definition with_r_timer_period (v : Z) (s : regs) : regs :=
  mk_regs (r_status s) (r_satp s) (r_epc s) (r_eflags s) (r_estatus s) (r_cause s) (r_badaddr s) (r_evec s) (r_pending s) (r_enable s) (r_wfi s) v (r_timer_ctrl s).
Definition with_r_timer_ctrl (v : Z) (s : regs) : regs :=
  mk_regs (r_status s) (r_satp s) (r_epc s) (r_eflags s) (r_estatus s) (r_cause s) (r_badaddr s) (r_evec s) (r_pending s) (r_enable s) (r_wfi s) (r_timer_period s) v.

(** ** The kernel's globals *)
(** The kernel's global variables and the registers it uses *)
Record kstate : Type := mk_kstate {
  k_regs : regs;
  k_cpu : cpu;
  k_locks : gmap lockid spinlock;
  k_slocks : gmap slid sleeplock;
  k_mem : mem;
  k_freelist : Z;
  k_kpgtbl : Z;
  k_procs : list proc;
  k_nextpid : Z;
  k_initproc : option nat;
  k_ticks : Z;
  k_uart : uart;
  k_cons : console;
  k_panicking : Z;
  k_panicked : Z;
  k_disk : blkdev;
  k_bufs : list buf;
  k_log : log;
  k_sb : superblock;
  k_inodes : list inode;
  k_files : list file;
  k_devsw : list (option devfn * option devfn);
  k_pipes : gmap Z pipe;
  k_first : Z;
  k_started : Z }.
Definition with_k_regs (v : regs) (s : kstate) : kstate :=
  mk_kstate v (k_cpu s) (k_locks s) (k_slocks s) (k_mem s) (k_freelist s) (k_kpgtbl s) (k_procs s) (k_nextpid s) (k_initproc s) (k_ticks s) (k_uart s) (k_cons s) (k_panicking s) (k_panicked s) (k_disk s) (k_bufs s) (k_log s) (k_sb s) (k_inodes s) (k_files s) (k_devsw s) (k_pipes s) (k_first s) (k_started s).
Definition with_k_cpu (v : cpu) (s : kstate) : kstate :=
  mk_kstate (k_regs s) v (k_locks s) (k_slocks s) (k_mem s) (k_freelist s) (k_kpgtbl s) (k_procs s) (k_nextpid s) (k_initproc s) (k_ticks s) (k_uart s) (k_cons s) (k_panicking s) (k_panicked s) (k_disk s) (k_bufs s) (k_log s) (k_sb s) (k_inodes s) (k_files s) (k_devsw s) (k_pipes s) (k_first s) (k_started s).
Definition with_k_locks (v : gmap lockid spinlock) (s : kstate) : kstate :=
  mk_kstate (k_regs s) (k_cpu s) v (k_slocks s) (k_mem s) (k_freelist s) (k_kpgtbl s) (k_procs s) (k_nextpid s) (k_initproc s) (k_ticks s) (k_uart s) (k_cons s) (k_panicking s) (k_panicked s) (k_disk s) (k_bufs s) (k_log s) (k_sb s) (k_inodes s) (k_files s) (k_devsw s) (k_pipes s) (k_first s) (k_started s).
Definition with_k_slocks (v : gmap slid sleeplock) (s : kstate) : kstate :=
  mk_kstate (k_regs s) (k_cpu s) (k_locks s) v (k_mem s) (k_freelist s) (k_kpgtbl s) (k_procs s) (k_nextpid s) (k_initproc s) (k_ticks s) (k_uart s) (k_cons s) (k_panicking s) (k_panicked s) (k_disk s) (k_bufs s) (k_log s) (k_sb s) (k_inodes s) (k_files s) (k_devsw s) (k_pipes s) (k_first s) (k_started s).
Definition with_k_mem (v : mem) (s : kstate) : kstate :=
  mk_kstate (k_regs s) (k_cpu s) (k_locks s) (k_slocks s) v (k_freelist s) (k_kpgtbl s) (k_procs s) (k_nextpid s) (k_initproc s) (k_ticks s) (k_uart s) (k_cons s) (k_panicking s) (k_panicked s) (k_disk s) (k_bufs s) (k_log s) (k_sb s) (k_inodes s) (k_files s) (k_devsw s) (k_pipes s) (k_first s) (k_started s).
Definition with_k_freelist (v : Z) (s : kstate) : kstate :=
  mk_kstate (k_regs s) (k_cpu s) (k_locks s) (k_slocks s) (k_mem s) v (k_kpgtbl s) (k_procs s) (k_nextpid s) (k_initproc s) (k_ticks s) (k_uart s) (k_cons s) (k_panicking s) (k_panicked s) (k_disk s) (k_bufs s) (k_log s) (k_sb s) (k_inodes s) (k_files s) (k_devsw s) (k_pipes s) (k_first s) (k_started s).
Definition with_k_kpgtbl (v : Z) (s : kstate) : kstate :=
  mk_kstate (k_regs s) (k_cpu s) (k_locks s) (k_slocks s) (k_mem s) (k_freelist s) v (k_procs s) (k_nextpid s) (k_initproc s) (k_ticks s) (k_uart s) (k_cons s) (k_panicking s) (k_panicked s) (k_disk s) (k_bufs s) (k_log s) (k_sb s) (k_inodes s) (k_files s) (k_devsw s) (k_pipes s) (k_first s) (k_started s).
Definition with_k_procs (v : list proc) (s : kstate) : kstate :=
  mk_kstate (k_regs s) (k_cpu s) (k_locks s) (k_slocks s) (k_mem s) (k_freelist s) (k_kpgtbl s) v (k_nextpid s) (k_initproc s) (k_ticks s) (k_uart s) (k_cons s) (k_panicking s) (k_panicked s) (k_disk s) (k_bufs s) (k_log s) (k_sb s) (k_inodes s) (k_files s) (k_devsw s) (k_pipes s) (k_first s) (k_started s).
Definition with_k_nextpid (v : Z) (s : kstate) : kstate :=
  mk_kstate (k_regs s) (k_cpu s) (k_locks s) (k_slocks s) (k_mem s) (k_freelist s) (k_kpgtbl s) (k_procs s) v (k_initproc s) (k_ticks s) (k_uart s) (k_cons s) (k_panicking s) (k_panicked s) (k_disk s) (k_bufs s) (k_log s) (k_sb s) (k_inodes s) (k_files s) (k_devsw s) (k_pipes s) (k_first s) (k_started s).
Definition with_k_initproc (v : option nat) (s : kstate) : kstate :=
  mk_kstate (k_regs s) (k_cpu s) (k_locks s) (k_slocks s) (k_mem s) (k_freelist s) (k_kpgtbl s) (k_procs s) (k_nextpid s) v (k_ticks s) (k_uart s) (k_cons s) (k_panicking s) (k_panicked s) (k_disk s) (k_bufs s) (k_log s) (k_sb s) (k_inodes s) (k_files s) (k_devsw s) (k_pipes s) (k_first s) (k_started s).
Definition with_k_ticks (v : Z) (s : kstate) : kstate :=
  mk_kstate (k_regs s) (k_cpu s) (k_locks s) (k_slocks s) (k_mem s) (k_freelist s) (k_kpgtbl s) (k_procs s) (k_nextpid s) (k_initproc s) v (k_uart s) (k_cons s) (k_panicking s) (k_panicked s) (k_disk s) (k_bufs s) (k_log s) (k_sb s) (k_inodes s) (k_files s) (k_devsw s) (k_pipes s) (k_first s) (k_started s).
Definition with_k_uart (v : uart) (s : kstate) : kstate :=
  mk_kstate (k_regs s) (k_cpu s) (k_locks s) (k_slocks s) (k_mem s) (k_freelist s) (k_kpgtbl s) (k_procs s) (k_nextpid s) (k_initproc s) (k_ticks s) v (k_cons s) (k_panicking s) (k_panicked s) (k_disk s) (k_bufs s) (k_log s) (k_sb s) (k_inodes s) (k_files s) (k_devsw s) (k_pipes s) (k_first s) (k_started s).
Definition with_k_cons (v : console) (s : kstate) : kstate :=
  mk_kstate (k_regs s) (k_cpu s) (k_locks s) (k_slocks s) (k_mem s) (k_freelist s) (k_kpgtbl s) (k_procs s) (k_nextpid s) (k_initproc s) (k_ticks s) (k_uart s) v (k_panicking s) (k_panicked s) (k_disk s) (k_bufs s) (k_log s) (k_sb s) (k_inodes s) (k_files s) (k_devsw s) (k_pipes s) (k_first s) (k_started s).
Definition with_k_panicking (v : Z) (s : kstate) : kstate :=
  mk_kstate (k_regs s) (k_cpu s) (k_locks s) (k_slocks s) (k_mem s) (k_freelist s) (k_kpgtbl s) (k_procs s) (k_nextpid s) (k_initproc s) (k_ticks s) (k_uart s) (k_cons s) v (k_panicked s) (k_disk s) (k_bufs s) (k_log s) (k_sb s) (k_inodes s) (k_files s) (k_devsw s) (k_pipes s) (k_first s) (k_started s).
Definition with_k_panicked (v : Z) (s : kstate) : kstate :=
  mk_kstate (k_regs s) (k_cpu s) (k_locks s) (k_slocks s) (k_mem s) (k_freelist s) (k_kpgtbl s) (k_procs s) (k_nextpid s) (k_initproc s) (k_ticks s) (k_uart s) (k_cons s) (k_panicking s) v (k_disk s) (k_bufs s) (k_log s) (k_sb s) (k_inodes s) (k_files s) (k_devsw s) (k_pipes s) (k_first s) (k_started s).
Definition with_k_disk (v : blkdev) (s : kstate) : kstate :=
  mk_kstate (k_regs s) (k_cpu s) (k_locks s) (k_slocks s) (k_mem s) (k_freelist s) (k_kpgtbl s) (k_procs s) (k_nextpid s) (k_initproc s) (k_ticks s) (k_uart s) (k_cons s) (k_panicking s) (k_panicked s) v (k_bufs s) (k_log s) (k_sb s) (k_inodes s) (k_files s) (k_devsw s) (k_pipes s) (k_first s) (k_started s).
Definition with_k_bufs (v : list buf) (s : kstate) : kstate :=
  mk_kstate (k_regs s) (k_cpu s) (k_locks s) (k_slocks s) (k_mem s) (k_freelist s) (k_kpgtbl s) (k_procs s) (k_nextpid s) (k_initproc s) (k_ticks s) (k_uart s) (k_cons s) (k_panicking s) (k_panicked s) (k_disk s) v (k_log s) (k_sb s) (k_inodes s) (k_files s) (k_devsw s) (k_pipes s) (k_first s) (k_started s).
Definition with_k_log (v : log) (s : kstate) : kstate :=
  mk_kstate (k_regs s) (k_cpu s) (k_locks s) (k_slocks s) (k_mem s) (k_freelist s) (k_kpgtbl s) (k_procs s) (k_nextpid s) (k_initproc s) (k_ticks s) (k_uart s) (k_cons s) (k_panicking s) (k_panicked s) (k_disk s) (k_bufs s) v (k_sb s) (k_inodes s) (k_files s) (k_devsw s) (k_pipes s) (k_first s) (k_started s).
Definition with_k_sb (v : superblock) (s : kstate) : kstate :=
  mk_kstate (k_regs s) (k_cpu s) (k_locks s) (k_slocks s) (k_mem s) (k_freelist s) (k_kpgtbl s) (k_procs s) (k_nextpid s) (k_initproc s) (k_ticks s) (k_uart s) (k_cons s) (k_panicking s) (k_panicked s) (k_disk s) (k_bufs s) (k_log s) v (k_inodes s) (k_files s) (k_devsw s) (k_pipes s) (k_first s) (k_started s).
Definition with_k_inodes (v : list inode) (s : kstate) : kstate :=
  mk_kstate (k_regs s) (k_cpu s) (k_locks s) (k_slocks s) (k_mem s) (k_freelist s) (k_kpgtbl s) (k_procs s) (k_nextpid s) (k_initproc s) (k_ticks s) (k_uart s) (k_cons s) (k_panicking s) (k_panicked s) (k_disk s) (k_bufs s) (k_log s) (k_sb s) v (k_files s) (k_devsw s) (k_pipes s) (k_first s) (k_started s).
Definition with_k_files (v : list file) (s : kstate) : kstate :=
  mk_kstate (k_regs s) (k_cpu s) (k_locks s) (k_slocks s) (k_mem s) (k_freelist s) (k_kpgtbl s) (k_procs s) (k_nextpid s) (k_initproc s) (k_ticks s) (k_uart s) (k_cons s) (k_panicking s) (k_panicked s) (k_disk s) (k_bufs s) (k_log s) (k_sb s) (k_inodes s) v (k_devsw s) (k_pipes s) (k_first s) (k_started s).
Definition with_k_devsw (v : list (option devfn * option devfn)) (s : kstate) : kstate :=
  mk_kstate (k_regs s) (k_cpu s) (k_locks s) (k_slocks s) (k_mem s) (k_freelist s) (k_kpgtbl s) (k_procs s) (k_nextpid s) (k_initproc s) (k_ticks s) (k_uart s) (k_cons s) (k_panicking s) (k_panicked s) (k_disk s) (k_bufs s) (k_log s) (k_sb s) (k_inodes s) (k_files s) v (k_pipes s) (k_first s) (k_started s).
Definition with_k_pipes (v : gmap Z pipe) (s : kstate) : kstate :=
  mk_kstate (k_regs s) (k_cpu s) (k_locks s) (k_slocks s) (k_mem s) (k_freelist s) (k_kpgtbl s) (k_procs s) (k_nextpid s) (k_initproc s) (k_ticks s) (k_uart s) (k_cons s) (k_panicking s) (k_panicked s) (k_disk s) (k_bufs s) (k_log s) (k_sb s) (k_inodes s) (k_files s) (k_devsw s) v (k_first s) (k_started s).
Definition with_k_first (v : Z) (s : kstate) : kstate :=
  mk_kstate (k_regs s) (k_cpu s) (k_locks s) (k_slocks s) (k_mem s) (k_freelist s) (k_kpgtbl s) (k_procs s) (k_nextpid s) (k_initproc s) (k_ticks s) (k_uart s) (k_cons s) (k_panicking s) (k_panicked s) (k_disk s) (k_bufs s) (k_log s) (k_sb s) (k_inodes s) (k_files s) (k_devsw s) (k_pipes s) v (k_started s).
Definition with_k_started (v : Z) (s : kstate) : kstate :=
  mk_kstate (k_regs s) (k_cpu s) (k_locks s) (k_slocks s) (k_mem s) (k_freelist s) (k_kpgtbl s) (k_procs s) (k_nextpid s) (k_initproc s) (k_ticks s) (k_uart s) (k_cons s) (k_panicking s) (k_panicked s) (k_disk s) (k_bufs s) (k_log s) (k_sb s) (k_inodes s) (k_files s) (k_devsw s) (k_pipes s) (k_first s) v.

(** The state at power-on: globals zeroed, no device activity. *)
Definition context0 : context := mk_context 0 0 0 0 0 0 0 0 0 0.
Definition proc0 : proc :=
  mk_proc UNUSED None 0 0 0 None 0 0 0 0 context0 (replicate NOFILE None) None (replicate 16 0).
Definition buf0 : buf := mk_buf 0 0 0 0 0 0 0 (replicate 1024 0).
Definition inode0 : inode := mk_inode 0 0 0 0 0 0 0 0 0 (replicate 13 0).
Definition file0 : file := mk_file FD_NONE 0 0 0 0 None 0 0.
Definition kstate0 : kstate :=
  mk_kstate (mk_regs 1 0 0 0 0 0 0 (replicate 16 0) 0 0 0 0 0)
    (mk_cpu None context0 0 false) ∅ ∅ ∅ 0 0 (replicate NPROC proc0) 1 None 0
    (mk_uart 1 0 [] [] 0) (mk_console (replicate 128 0) 0 0 0) 0 0
    (mk_blkdev ∅ 0 0 (replicate 1024 0) []) (replicate (S NBUF) buf0)
    (mk_log 0 0 0 0 0 (replicate (Z.to_nat LOGBLOCKS) 0)) (mk_superblock 0 0 0 0 0 0 0 0)
    (replicate NINODE inode0) (replicate NFILE file0)
    (replicate (Z.to_nat NDEV) (None, None)) ∅ 1 0.

Notation KM := (M kstate).

(** ** What the kernel is linked against and runs on

    [p_end], [p_trampoline], [p_uservec], [p_userret] are the linker symbols
    [_end], [trampoline_start], [uservec], [userret]; [p_kernelvec],
    [p_usertrap], [p_kerneltrap], [p_forkret] are code addresses.  [blk_exec d
    cmd sector buf] is the block device executing a command on the image [d]
    with the 512-byte buffer [buf]: the image and the buffer afterwards, and
    the status register. *)

Class Platform : Type := {
  p_end : Z;
  p_trampoline : Z;
  p_uservec : Z;
  p_userret : Z;
  p_kernelvec : Z;
  p_usertrap : Z;
  p_kerneltrap : Z;
  p_forkret : Z;
  blk_exec : gmap Z (list Z) → Z → Z → list Z → gmap Z (list Z) * list Z * Z;
  blk_sectors : Z }.

Definition SECTOR_SIZE : nat := 512.
Definition BLK_CMD_READ : Z := 1.
Definition BLK_CMD_WRITE : Z := 2.
Definition BLK_STATUS_IDLE : Z := 0.
Definition BLK_STATUS_BUSY : Z := 1.
Definition BLK_STATUS_ERR : Z := 2.

(** The content of a sector; a sector never written reads as zeros. *)
Definition sector (d : gmap Z (list Z)) (n : Z) : list Z :=
  default (replicate SECTOR_SIZE 0) (d !! n).

(** The documented behaviour of the platform: the kernel image ends in RAM
    (the Makefile links it at 0x1000), the trampoline is a page of it, sector
    numbers fit the 32-bit sector register, and a
    command on a sector of the disk completes at once (virtio_disk.c: the
    emulator completes I/O synchronously), reading returning what the sector
    holds and writing replacing it. *)
Class PlatformOk (P : Platform) : Prop := {
  p_end_ok : 4096 <= p_end <= PHYSTOP;
  p_trampoline_ok : p_trampoline mod PGSIZE = 0 ∧ 4096 <= p_trampoline ∧ p_trampoline + PGSIZE <= p_end;
  blk_sectors_ok : blk_sectors <= 4294967296;
  blk_read_ok : ∀ d n b, 0 <= n < blk_sectors →
    blk_exec d BLK_CMD_READ n b = (d, sector d n, BLK_STATUS_IDLE);
  blk_write_ok : ∀ d n b, 0 <= n < blk_sectors → length b = SECTOR_SIZE →
    blk_exec d BLK_CMD_WRITE n b = (<[n := b]> d, b, BLK_STATUS_IDLE) }.
