(* ===== verification/Emu.v ===== *)
(** * A concrete platform

    An instance of [Platform] on which the development is evaluated: a kernel
    image of 192 KB and a block device of 4000 sectors (FSSIZE blocks) that
    completes every command at once. *)

From S2P Require Import Prelude Machine State.

Definition emu_blk (d : gmap Z (list Z)) (cmd n : Z) (b : list Z) : gmap Z (list Z) * list Z * Z :=
  if cmd =? BLK_CMD_READ then (d, sector d n, BLK_STATUS_IDLE)
  else if cmd =? BLK_CMD_WRITE then (<[n := b]> d, b, BLK_STATUS_IDLE)
  else (d, b, BLK_STATUS_ERR).

Definition emu : Platform := {|
  p_end := 196608;
  p_trampoline := 32768;
  p_uservec := 32768;
  p_userret := 33024;
  p_kernelvec := 36864;
  p_usertrap := 40960;
  p_kerneltrap := 45056;
  p_forkret := 49152;
  blk_exec := emu_blk;
  blk_sectors := 4000 |}.

#[export] Instance emu_ok : PlatformOk emu.
Proof. split; cbn; done || zl. Qed.

(** The kernel with all its spin locks initialised and free. *)
Definition boot_locks : gmap lockid spinlock :=
  list_to_map (map (λ lk, (lk, mk_spinlock 0 "lock" None))
    ([LkKmem; LkPid; LkWait; LkTicks; LkBcache; LkLog; LkItable; LkFtable; LkCons; LkUart;
      LkPr; LkDisk] ++ map LkProc (seq 0 NPROC)
      ++ map (λ i, LkSleep (SlBuf i)) (seq 0 NBUF)
      ++ map (λ i, LkSleep (SlInode i)) (seq 0 NINODE))).
