(* ===== verification/CString.v ===== *)
(** * kernel/string.c

    [memset] and [memmove] work on physical memory, where alignment and
    overlap matter.  A [const char *] argument that is only read is the
    function from offsets to bytes it points at, so the same definition
    serves strings in memory and in kernel arrays; a routine that fills a
    buffer from its start returns the bytes it stores. *)

From S2P Require Import Prelude Machine.

(** ** memset *)
(** [while(i < n && ((uint)(cdst+i) & 3)) cdst[i++] = c;] *)
Fixpoint memset_align (fuel : nat) (m : mem) (cdst c n i : Z) : mem * Z :=
  match fuel with
  | O => (m, i)
  | S f => if (i <? n) && has (u32 (cdst + i)) 3
           then memset_align f (stb m (cdst + i) c) cdst c n (i + 1)
           else (m, i)
  end.

(** [while(i + 4 <= n){ *(uint* )(cdst+i) = word; i += 4; }] *)
Fixpoint memset_words (fuel : nat) (m : mem) (cdst word n i : Z) : mem * Z :=
  match fuel with
  | O => (m, i)
  | S f => if u32 (i + 4) <=? n
           then memset_words f (st32 m (cdst + i) word) cdst word n (u32 (i + 4))
           else (m, i)
  end.

(** [while(i < n) cdst[i++] = c;] *)
Fixpoint memset_tail (fuel : nat) (m : mem) (cdst c n i : Z) : mem * Z :=
  match fuel with
  | O => (m, i)
  | S f => if i <? n then memset_tail f (stb m (cdst + i) c) cdst c n (i + 1) else (m, i)
  end.

Definition memset_word (c : Z) : Z :=
  let word := u8 c in
  let word := Z.lor word (u32 (Z.shiftl word 8)) in
  Z.lor word (u32 (Z.shiftl word 16)).

Definition memset (m : mem) (dst c n : Z) : mem :=
  let fuel := Z.to_nat n in
  let '(m, i) := memset_align fuel m dst c n 0 in
  let '(m, i) := memset_words fuel m dst (memset_word c) n i in
  let '(m, _) := memset_tail fuel m dst c n i in
  m.

(** ** memcmp, memmove *)
Fixpoint memcmp_loop (n : nat) (s1 s2 : Z → Z) (i : Z) : Z :=
  match n with
  | O => 0
  | S n' => if negb (u8 (s1 i) =? u8 (s2 i)) then u8 (s1 i) - u8 (s2 i)
            else memcmp_loop n' s1 s2 (i + 1)
  end.
Definition memcmp (v1 v2 : Z → Z) (n : Z) : Z := memcmp_loop (Z.to_nat n) v1 v2 0.

(** [while(n-- > 0) *--d = *--s;] *)
Fixpoint copy_down (n : nat) (m : mem) (d s : Z) : mem :=
  match n with
  | O => m
  | S n' => copy_down n' (stb m (d - 1) (ldb m (s - 1))) (d - 1) (s - 1)
  end.

(** [while(n-- > 0) *d++ = *s++;] *)
Fixpoint copy_up (n : nat) (m : mem) (d s : Z) : mem :=
  match n with
  | O => m
  | S n' => copy_up n' (stb m d (ldb m s)) (d + 1) (s + 1)
  end.

Definition memmove (m : mem) (dst src n : Z) : mem :=
  if n =? 0 then m
  else if (src <? dst) && (dst <? src + n)
  then copy_down (Z.to_nat n) m (dst + n) (src + n)
  else copy_up (Z.to_nat n) m dst src.

(** ** Strings *)
Fixpoint strncmp_loop (n : nat) (p q : Z → Z) (i : Z) : Z :=
  match n with
  | O => 0
  | S n' => if negb (p i =? 0) && (p i =? q i) then strncmp_loop n' p q (i + 1)
            else u8 (p i) - u8 (q i)
  end.
Definition strncmp (p q : Z → Z) (n : Z) : Z := strncmp_loop (Z.to_nat n) p q 0.

Fixpoint strncpy_loop (n : nat) (t : Z → Z) (i : Z) : list Z :=
  match n with
  | O => []
  | S n' => if t i =? 0 then 0 :: replicate n' 0 else t i :: strncpy_loop n' t (i + 1)
  end.
(** The [n] bytes [strncpy(s, t, n)] stores from [s]. *)
Definition strncpy (t : Z → Z) (n : Z) : list Z := strncpy_loop (Z.to_nat n) t 0.

Fixpoint safestrcpy_loop (n : nat) (t : Z → Z) (i : Z) : list Z :=
  match n with
  | O => [0]
  | S n' => if t i =? 0 then [0; 0] else t i :: safestrcpy_loop n' t (i + 1)
  end.
(** The bytes [safestrcpy(s, t, n)] stores from [s]; the terminator after the
    loop is stored even when the loop has just copied one. *)
Definition safestrcpy (t : Z → Z) (n : Z) : list Z :=
  if n <=? 0 then [] else safestrcpy_loop (Z.to_nat (n - 1)) t 0.

(** [strlen]: [None] when no terminator is met within [fuel] bytes. *)
Fixpoint strlen (fuel : nat) (s : Z → Z) (n : Z) : option Z :=
  match fuel with
  | O => None
  | S f => if s n =? 0 then Some n else strlen f s (n + 1)
  end.

(** ** Specifications *)
(** [fill m a v n] stores [v] in the [n] bytes from [a], one at a time. *)
Fixpoint fill (m : mem) (a v : Z) (n : nat) : mem :=
  match n with
  | O => m
  | S n' => fill (stb m a v) (a + 1) v n'
  end.

(** The C string at [p], cut at [n] bytes. *)
Fixpoint cstrn (n : nat) (p : Z → Z) (i : Z) : list Z :=
  match n with
  | O => []
  | S n' => if p i =? 0 then [] else p i :: cstrn n' p (i + 1)
  end.

Lemma fill_app m a v j k : fill (fill m a v j) (a + Z.of_nat j) v k = fill m a v (j + k).
Proof.
  revert m a. induction j as [|j IH]; intros m a.
  - by rewrite Z.add_0_r.
  - rewrite Nat.add_succ_l. cbn [fill]. rewrite <- IH. f_equal. lia.
Qed.

Lemma ldb_fill m a v n b :
  ldb (fill m a v n) b = if decide (a <= b < a + Z.of_nat n) then u8 v else ldb m b.
Proof.
  revert m a. induction n as [|n IH]; intros m a; simpl.
  - by rewrite decide_False by lia.
  - rewrite IH, ldb_stb. repeat (case_decide; try lia); done.
Qed.

Lemma memset_align_fill fuel m dst c n i :
  0 <= i <= n → ∃ k : nat, i + Z.of_nat k <= n ∧
    memset_align fuel m dst c n i = (fill m (dst + i) c k, i + Z.of_nat k).
Proof.
  revert m i. induction fuel as [|f IH]; intros m i Hi; simpl.
  { exists O. rewrite Z.add_0_r. split; [lia|done]. }
  destruct ((i <? n) && has (u32 (dst + i)) 3) eqn:E.
  - apply andb_prop in E as [E _]. apply Z.ltb_lt in E.
    destruct (IH (stb m (dst + i) c) (i + 1)) as (k & Hk & ->); [lia|].
    exists (S k). split; [lia|]. cbn [fill]. f_equal; [f_equal; lia|lia].
  - exists O. rewrite Z.add_0_r. split; [lia|done].
Qed.

Lemma memset_word_bytes c :
  u8 (memset_word c) = u8 c ∧ u8 (Z.shiftr (memset_word c) 8) = u8 c
  ∧ u8 (Z.shiftr (memset_word c) 16) = u8 c ∧ u8 (Z.shiftr (memset_word c) 24) = u8 c.
Proof.
  assert (∀ w, In w (seqZ 0 256) → let v := memset_word w in
    (u8 v =? w) && (u8 (Z.shiftr v 8) =? w) && (u8 (Z.shiftr v 16) =? w)
      && (u8 (Z.shiftr v 24) =? w) = true) as H
    by (apply forallb_forall; vm_compute; reflexivity).
  replace (memset_word c) with (memset_word (u8 c)) by (unfold memset_word; by rewrite u8_u8).
  specialize (H (u8 c)). revert H. generalize (memset_word (u8 c)). intros v H.
  cbv zeta in H. rewrite !andb_true_iff, !Z.eqb_eq in H.
  destruct H as [[[? ?] ?] ?]; [|by split_and!].
  apply list_elem_of_In, elem_of_seqZ. pose proof (u8_range c). lia.
Qed.

Lemma st32_fill m a c : st32 m a (memset_word c) = fill m a c 4.
Proof.
  destruct (memset_word_bytes c) as (H0 & H1 & H2 & H3).
  unfold st32, stb. cbn [fill]. rewrite H0, H1, H2, H3. unfold stb.
  replace (a + 1 + 1) with (a + 2) by lia. by replace (a + 2 + 1) with (a + 3) by lia.
Qed.

Lemma memset_words_fill fuel m dst c n i :
  0 <= i <= n → n < 4294967292 → ∃ k : nat, i + Z.of_nat k <= n ∧
    memset_words fuel m dst (memset_word c) n i = (fill m (dst + i) c k, i + Z.of_nat k).
Proof.
  intros Hi Hn. revert m i Hi. induction fuel as [|f IH]; intros m i Hi.
  { exists O. simpl. rewrite Z.add_0_r. split; [lia|done]. }
  cbn [memset_words]. destruct (u32 (i + 4) <=? n) eqn:E.
  - apply Z.leb_le in E. assert (u32 (i + 4) = i + 4) as Hw by zl.
    rewrite Hw in *. rewrite st32_fill.
    destruct (IH (fill m (dst + i) c 4) (i + 4)) as (k & Hk & ->); [lia|].
    exists (4 + k)%nat. split; [lia|]. rewrite <- fill_app. f_equal; [f_equal; lia|lia].
  - exists O. rewrite Z.add_0_r. split; [lia|done].
Qed.

Lemma memset_tail_fill fuel m dst c n i :
  0 <= i <= n → n - i <= Z.of_nat fuel →
  memset_tail fuel m dst c n i = (fill m (dst + i) c (Z.to_nat (n - i)), n).
Proof.
  revert m i. induction fuel as [|f IH]; intros m i Hi Hf; simpl.
  { assert (i = n) as -> by lia. by rewrite Z.sub_diag. }
  destruct (Z.ltb_spec i n).
  - rewrite IH by lia. f_equal.
    replace (Z.to_nat (n - i)) with (S (Z.to_nat (n - (i + 1)))) by lia. cbn [fill].
    f_equal. lia.
  - assert (i = n) as -> by lia. by rewrite Z.sub_diag.
Qed.

Lemma memset_fill m dst c n :
  0 <= n < 4294967292 → memset m dst c n = fill m dst c (Z.to_nat n).
Proof.
  intros Hn. unfold memset.
  destruct (memset_align_fill (Z.to_nat n) m dst c n 0) as (k & Hk & ->); [lia|].
  destruct (memset_words_fill (Z.to_nat n) (fill m (dst + 0) c k) dst c n (0 + Z.of_nat k))
    as (k' & Hk' & ->); [lia|lia|].
  rewrite memset_tail_fill by lia. rewrite !Z.add_0_l, !Z.add_0_r.
  rewrite fill_app. replace (Z.of_nat k + Z.of_nat k') with (Z.of_nat (k + k')) by lia.
  rewrite fill_app. f_equal. lia.
Qed.

Lemma ldb_memset m dst c n b :
  0 <= n < 4294967292 →
  ldb (memset m dst c n) b = if decide (dst <= b < dst + n) then u8 c else ldb m b.
Proof.
  intros. rewrite memset_fill, ldb_fill by lia. rewrite Z2Nat.id by lia. done.
Qed.

(** C39: the kernel's [memset], which aligns, then stores words, then finishes
    byte by byte, leaves memory exactly as the byte-by-byte fill does, for
    every destination, alignment, fill value and length the word loop's
    counter can represent. *)
Theorem memset_correct m dst c n :
  0 <= n < 4294967292 → memset m dst c n = fill m dst c (Z.to_nat n).
Proof. exact (memset_fill m dst c n). Qed.

Lemma memset_correct_witness :
  (0 <= 11 < 4294967292) ∧ memset ∅ 4097 300 11 = fill ∅ 4097 300 11.
Proof. split; [lia|]. apply (memset_correct ∅ 4097 300 11). lia. Defined.

Lemma ldb_copy_up n m d s b :
  d <= s ∨ s + Z.of_nat n <= d →
  ldb (copy_up n m d s) b =
    if decide (d <= b < d + Z.of_nat n) then ldb m (s + (b - d)) else ldb m b.
Proof.
  revert m d s. induction n as [|n IH]; intros m d s H.
  { simpl. by rewrite decide_False by lia. }
  cbn [copy_up]. rewrite IH by lia. rewrite !ldb_stb.
  assert (u8 (ldb m s) = ldb m s) as Hu by apply u8_u8.
  repeat (case_decide; try lia); try done.
  - f_equal. lia.
  - rewrite Hu. f_equal. lia.
Qed.

Lemma ldb_copy_down n m d s b :
  s <= d →
  ldb (copy_down n m d s) b =
    if decide (d - Z.of_nat n <= b < d) then ldb m (s + (b - d)) else ldb m b.
Proof.
  revert m d s. induction n as [|n IH]; intros m d s H.
  { simpl. by rewrite decide_False by lia. }
  cbn [copy_down]. rewrite IH by lia. rewrite !ldb_stb.
  assert (u8 (ldb m (s - 1)) = ldb m (s - 1)) as Hu by apply u8_u8.
  repeat (case_decide; try lia); try done.
  - f_equal. lia.
  - rewrite Hu. f_equal. lia.
Qed.

Lemma ldb_memmove m dst src n b :
  0 <= n →
  ldb (memmove m dst src n) b =
    if decide (dst <= b < dst + n) then ldb m (src + (b - dst)) else ldb m b.
Proof.
  intros Hn. unfold memmove. destruct (Z.eqb_spec n 0) as [->|].
  { by rewrite decide_False by lia. }
  destruct ((src <? dst) && (dst <? src + n)) eqn:E.
  - rewrite ldb_copy_down, Z2Nat.id by lia.
    repeat (case_decide; try lia); try done; f_equal; lia.
  - rewrite ldb_copy_up, Z2Nat.id by lia. done.
Qed.

(** [memmove] is correct for overlapping regions: every byte of the
    destination receives the byte its source held before the call, and no
    other byte changes. *)
Theorem memmove_correct m dst src n b :
  0 <= n →
  ldb (memmove m dst src n) b =
    if decide (dst <= b < dst + n) then ldb m (src + (b - dst)) else ldb m b.
Proof. apply ldb_memmove. Qed.

Lemma memmove_correct_witness :
  let m := fill (fill ∅ 8 1 2) 10 2 2 in
  0 <= 4 ∧ ldb (memmove m 9 8 4) 10 = 1 ∧ ldb (memmove m 9 8 4) 12 = 2.
Proof.
  cbv zeta. split; [lia|]. split.
  - rewrite (memmove_correct _ 9 8 4 10) by lia. reflexivity.
  - rewrite (memmove_correct _ 9 8 4 12) by lia. reflexivity.
Defined.

(** ** Strings *)
Lemma length_cstrn n p i : (length (cstrn n p i) <= n)%nat.
Proof.
  revert i. induction n as [|n IH]; intros i; simpl; [lia|].
  case_match; simpl; [lia|]. specialize (IH (i + 1)). lia.
Qed.

Lemma cstrn_ext n p q i j :
  (∀ k, 0 <= k < Z.of_nat n → p (i + k) = q (j + k)) → cstrn n p i = cstrn n q j.
Proof.
  revert i j. induction n as [|n IH]; intros i j H; simpl; [done|].
  pose proof (H 0 ltac:(lia)) as H0. rewrite !Z.add_0_r in H0. rewrite H0.
  case_match; [done|]. f_equal. apply IH. intros k Hk.
  pose proof (H (k + 1) ltac:(lia)) as Hk1.
  replace (i + 1 + k) with (i + (k + 1)) by lia.
  by replace (j + 1 + k) with (j + (k + 1)) by lia.
Qed.

Lemma strncmp_loop_eq n p q i :
  (∀ k, 0 <= p k < 256) → (∀ k, 0 <= q k < 256) →
  strncmp_loop n p q i = 0 ↔ cstrn n p i = cstrn n q i.
Proof.
  intros Hp Hq. revert i. induction n as [|n IH]; intros i; simpl; [done|].
  specialize (Hp i) as Hpi. specialize (Hq i) as Hqi. rewrite !u8_small by done.
  destruct (Z.eqb_spec (p i) 0) as [Ep|Ep]; simpl.
  { rewrite Ep. destruct (Z.eqb_spec (q i) 0); split; try done; lia. }
  destruct (Z.eqb_spec (p i) (q i)) as [Epq|Epq].
  - destruct (Z.eqb_spec (q i) 0); [lia|]. rewrite IH, Epq. split; [by intros ->|congruence].
  - destruct (Z.eqb_spec (q i) 0); (split; [lia|congruence]).
Qed.

(** [strncmp] returns 0 exactly when the two strings, cut at [n] bytes,
    are equal; [namecmp] of fs.c is [strncmp] with n = DIRSIZ, so this is the
    equality of directory-entry names. *)
Theorem strncmp_zero_iff p q n :
  (∀ k, 0 <= p k < 256) → (∀ k, 0 <= q k < 256) →
  strncmp p q n = 0 ↔ cstrn (Z.to_nat n) p 0 = cstrn (Z.to_nat n) q 0.
Proof. intros. by apply strncmp_loop_eq. Qed.

Lemma strncmp_zero_iff_witness :
  let p := λ k : Z, if k =? 0 then 97 else if k =? 1 then 0 else 5 in
  let q := λ k : Z, if k =? 0 then 97 else if k =? 1 then 0 else 9 in
  strncmp p q 14 = 0 ↔ cstrn 14 p 0 = cstrn 14 q 0.
Proof.
  cbv zeta. apply (strncmp_zero_iff _ _ 14).
  - intros k. destruct (k =? 0); [lia|]. destruct (k =? 1); lia.
  - intros k. destruct (k =? 0); [lia|]. destruct (k =? 1); lia.
Defined.

Lemma strncpy_loop_eq n t i :
  strncpy_loop n t i = cstrn n t i ++ replicate (n - length (cstrn n t i)) 0.
Proof.
  revert i. induction n as [|n IH]; intros i; simpl; [done|].
  case_match; simpl; [done|]. by rewrite IH.
Qed.

Lemma strncpy_eq t n :
  strncpy t n = cstrn (Z.to_nat n) t 0 ++
    replicate (Z.to_nat n - length (cstrn (Z.to_nat n) t 0)) 0.
Proof. apply strncpy_loop_eq. Qed.

Lemma length_strncpy t n : length (strncpy t n) = Z.to_nat n.
Proof.
  rewrite strncpy_eq, length_app, length_replicate.
  pose proof (length_cstrn (Z.to_nat n) t 0). lia.
Qed.

(** Reading a kernel array as a [const char *]. *)
Definition rd (l : list Z) (i : Z) : Z := nth (Z.to_nat i) l 0.

Lemma cstrn_rd_app n l i :
  0 <= i → Forall (λ c, c ≠ 0) (drop (Z.to_nat i) l) → (length l - Z.to_nat i <= n)%nat →
  ∀ z, cstrn n (rd (l ++ replicate z 0)) i = drop (Z.to_nat i) l.
Proof.
  revert i. induction n as [|n IH]; intros i Hi HF Hn z; simpl.
  { symmetry. apply nil_length_inv. rewrite length_drop. lia. }
  destruct (decide (Z.to_nat i < length l)%nat) as [Hlt|Hge].
  - destruct (lookup_lt_is_Some_2 l (Z.to_nat i) Hlt) as [c Hc].
    rewrite (drop_S _ _ _ Hc) in HF |- *. inversion HF as [|? ? Hc0 HF']; subst.
    assert (rd (l ++ replicate z 0) i = c) as ->.
    { unfold rd. rewrite app_nth1 by lia. by apply nth_lookup_Some. }
    destruct (Z.eqb_spec c 0); [done|]. f_equal.
    replace (S (Z.to_nat i)) with (Z.to_nat (i + 1)) in * by lia.
    apply IH; [lia|done|lia].
  - rewrite drop_ge by lia. assert (rd (l ++ replicate z 0) i = 0) as ->; [|done].
    unfold rd. rewrite app_nth2 by lia. generalize (Z.to_nat i - length l)%nat.
    induction z; intros []; simpl; auto.
Qed.

Lemma cstrn_nonzero n t i : Forall (λ c, c ≠ 0) (cstrn n t i).
Proof.
  revert i. induction n as [|n IH]; intros i; simpl; [constructor|].
  destruct (Z.eqb_spec (t i) 0); [constructor|]. by constructor.
Qed.

(** [strncpy] writes exactly [n] bytes and they read back as the source
    string cut at [n] (a name stored in a directory entry by [dirlink]
    compares equal to the name it was made from). *)
Theorem strncpy_roundtrip t n :
  length (strncpy t n) = Z.to_nat n ∧
  cstrn (Z.to_nat n) (rd (strncpy t n)) 0 = cstrn (Z.to_nat n) t 0.
Proof.
  split; [apply length_strncpy|]. rewrite strncpy_eq.
  rewrite cstrn_rd_app; simpl; try lia; [done|apply cstrn_nonzero|].
  pose proof (length_cstrn (Z.to_nat n) t 0). lia.
Qed.

Lemma safestrcpy_loop_eq n t i :
  ∃ tl, safestrcpy_loop n t i = cstrn n t i ++ 0 :: tl ∧
        (length (cstrn n t i ++ 0%Z :: tl) <= S n)%nat.
Proof.
  revert i. induction n as [|n IH]; intros i; simpl.
  { by exists []. }
  destruct (t i =? 0); simpl.
  - exists [0]. split; [done|]. simpl. lia.
  - destruct (IH (i + 1)) as (tl & -> & Hl). exists tl. split; [done|]. simpl. lia.
Qed.

(** [safestrcpy] never writes past [n] bytes and always leaves a
    terminated string: the source cut at [n-1] bytes, then NUL. *)
Theorem safestrcpy_terminates t n :
  0 < n →
  ∃ tl, safestrcpy t n = cstrn (Z.to_nat (n - 1)) t 0 ++ 0 :: tl ∧
        Z.of_nat (length (safestrcpy t n)) <= n.
Proof.
  intros Hn. unfold safestrcpy. destruct (Z.leb_spec n 0); [lia|].
  destruct (safestrcpy_loop_eq (Z.to_nat (n - 1)) t 0) as (tl & -> & Hl).
  exists tl. split; [done|]. lia.
Qed.

Lemma safestrcpy_terminates_witness :
  0 < 16 ∧ ∃ tl, safestrcpy (λ _, 120) 16 = replicate 15 120 ++ 0 :: tl ∧
        Z.of_nat (length (safestrcpy (λ _, 120) 16)) <= 16.
Proof. split; [lia|]. apply (safestrcpy_terminates (λ _, 120) 16). lia. Defined.

Lemma strlen_spec fuel s n k :
  0 <= n <= k → s k = 0 → (∀ j, n <= j < k → s j ≠ 0) → k - n < Z.of_nat fuel →
  strlen fuel s n = Some k.
Proof.
  revert n. induction fuel as [|f IH]; intros n Hn Hk Hj Hf; [lia|]. simpl.
  destruct (Z.eqb_spec (s n) 0) as [E|E].
  - f_equal. destruct (decide (n = k)) as [->|]; [done|]. by destruct (Hj n); [lia|].
  - assert (n ≠ k) by naive_solver. apply IH; [lia|done| |lia]. intros. apply Hj. lia.
Qed.

(** Client proofs use the lemmas above, never the loops. *)
#[global] Opaque memset memmove.
