(* ===== verification/Spinlock.v ===== *)
(** * kernel/spinlock.c, and the CPU accessors of proc.c

    Spin locks and the nesting of interrupt disabling.  CPUTwo has one CPU:
    a lock that is held is held by this CPU, so [acquire] on a held lock
    panics, and the CAS loop of [acquire] never iterates. *)

From S2P Require Import Prelude Machine State.

(** ** Interrupt enable (kernel/cputwo.h) *)
Definition set_status (v : Z) : KM unit :=
  modify (λ s, with_k_regs (with_r_status v (k_regs s)) s).
Definition intr_on : KM unit :=
  st ← gets (λ s, r_status (k_regs s)); set_status (Z.lor st STATUS_IE).
Definition intr_off : KM unit :=
  st ← gets (λ s, r_status (k_regs s)); set_status (Z.land st (u32 (Z.lnot STATUS_IE))).
Definition intr_get : KM bool := gets (λ s, has (r_status (k_regs s)) STATUS_IE).

(** ** cpuid, mycpu, push_off, pop_off, myproc *)
Definition cpuid : nat := 0.
Definition mycpu : KM cpu := gets k_cpu.
Definition set_cpu (c : cpu) : KM unit := modify (with_k_cpu c).

Definition push_off : KM unit :=
  old ← intr_get;
  intr_off;;
  c ← mycpu;
  when (c_noff c =? 0) (set_cpu (with_c_intena old c));;
  c ← mycpu;
  set_cpu (with_c_noff (c_noff c + 1) c).

Definition pop_off : KM unit :=
  ie ← intr_get;
  if ie : bool then panic "pop_off - interruptible" else
  c ← mycpu;
  if c_noff c <? 1 then panic "pop_off" else
  set_cpu (with_c_noff (c_noff c - 1) c);;
  c ← mycpu;
  when ((c_noff c =? 0) && c_intena c) intr_on.

Definition myproc : KM (option nat) :=
  push_off;;
  c ← mycpu;
  pop_off;;
  mret (c_proc c).

(** Following a pointer the code assumes is not null. *)
Definition deref {A} (o : option A) : KM A :=
  match o with Some x => mret x | None => panic "null dereference" end.

(** ** Locks *)
Definition spinlock0 : spinlock := mk_spinlock 0 "" None.
Definition lock_at (s : kstate) (lk : lockid) : spinlock := default spinlock0 (k_locks s !! lk).
Definition set_lock (lk : lockid) (l : spinlock) : KM unit :=
  modify (λ s, with_k_locks (<[lk := l]> (k_locks s)) s).

Definition initlock (lk : lockid) (name : string) : KM unit :=
  set_lock lk (mk_spinlock 0 name None).

Definition holding (lk : lockid) : KM bool :=
  l ← gets (λ s, lock_at s lk);
  mret (negb (lk_locked l =? 0) && bool_decide (lk_cpu l = Some cpuid)).

(** The CAS instruction on [lk->locked]: 1 if it went from 0 to 1. *)
Definition cas_lock (lk : lockid) : KM Z :=
  l ← gets (λ s, lock_at s lk);
  if lk_locked l =? 0 then set_lock lk (with_lk_locked 1 l);; mret 1 else mret 0.

Definition acquire (lk : lockid) : KM unit :=
  push_off;;
  h ← holding lk;
  if h : bool then panic "acquire" else
  acquired ← cas_lock lk;
  if acquired =? 0 then spin else
  l ← gets (λ s, lock_at s lk);
  set_lock lk (with_lk_cpu (Some cpuid) l).

Definition release (lk : lockid) : KM unit :=
  h ← holding lk;
  if negb h then panic "release" else
  l ← gets (λ s, lock_at s lk);
  set_lock lk (with_lk_cpu None l);;
  l ← gets (λ s, lock_at s lk);
  set_lock lk (with_lk_locked 0 l);;
  pop_off.

(** ** Invariants *)
(** Interrupts are off whenever some [push_off] is outstanding. *)
Definition intr_inv (s : kstate) : Prop :=
  0 <= r_status (k_regs s) < 4294967296 ∧ 0 <= c_noff (k_cpu s)
  ∧ (0 < c_noff (k_cpu s) → has (r_status (k_regs s)) STATUS_IE = false).

(** The context in which system calls run: the trap has turned interrupts
    off, and they stay off until the return to user space. *)
Record kctx (s : kstate) : Prop := {
  kctx_status : 0 <= r_status (k_regs s) < 4294967296;
  kctx_off : has (r_status (k_regs s)) STATUS_IE = false;
  kctx_intena : c_intena (k_cpu s) = false;
  kctx_noff : 0 <= c_noff (k_cpu s) }.

(** Lock [lk] is initialised and free. *)
Definition lock_ready (lk : lockid) (s : kstate) : Prop :=
  ∃ name, k_locks s !! lk = Some (mk_spinlock 0 name None).

(** The state just after [acquire lk] in [s]. *)
Definition acq (lk : lockid) (s : kstate) : kstate :=
  with_k_locks (<[lk := mk_spinlock 1 (lk_name (lock_at s lk)) (Some cpuid)]> (k_locks s))
    (with_k_cpu (with_c_noff (c_noff (k_cpu s) + 1) (k_cpu s)) s).

(** [t] with the locks and the interrupt nesting of [s]. *)
Definition relock (s t : kstate) : kstate :=
  with_k_locks (k_locks s) (with_k_cpu (k_cpu s) t).

(** ** Clearing and setting the IE bit *)
Lemma has_IE_bit x : has x STATUS_IE = Z.testbit x 1.
Proof.
  unfold has, STATUS_IE. change 2 with (2 ^ 1). rewrite <- Z.shiftl_1_l.
  destruct (Z.testbit x 1) eqn:E.
  - destruct (Z.eqb_spec (Z.land x (Z.shiftl 1 1)) 0) as [H|]; [|done].
    apply (f_equal (λ z, Z.testbit z 1)) in H. rewrite Z.land_spec, E in H. discriminate H.
  - apply negb_false_iff, Z.eqb_eq, Z.bits_inj'. intros n Hn.
    rewrite Z.land_spec, Z.bits_0, Z.shiftl_1_l, Z.pow2_bits_eqb by lia.
    destruct (Z.eqb_spec 1 n) as [<-|]; [by rewrite E|by rewrite andb_false_r].
Qed.

Lemma clear_IE_bits x n :
  0 <= x < 4294967296 → 0 <= n →
  Z.testbit (Z.land x (u32 (Z.lnot STATUS_IE))) n = Z.testbit x n && negb (n =? 1).
Proof.
  intros Hx Hn. rewrite Z.land_spec.
  change (u32 (Z.lnot STATUS_IE)) with (Z.ldiff (Z.ones 32) (2 ^ 1)).
  rewrite Z.ldiff_spec, Z.pow2_bits_eqb by lia. rewrite (Z.eqb_sym 1 n).
  destruct (Z.ltb_spec n 32).
  - by rewrite Z.ones_spec_low by lia.
  - destruct (Z.eq_dec x 0) as [->|]; [by rewrite Z.bits_0|].
    rewrite Z.bits_above_log2; [done|lia|].
    apply Z.lt_le_trans with 32; [|lia]. apply Z.log2_lt_pow2; lia.
Qed.

Lemma clear_IE_id x :
  0 <= x < 4294967296 → has x STATUS_IE = false →
  Z.land x (u32 (Z.lnot STATUS_IE)) = x.
Proof.
  intros Hx HIE. rewrite has_IE_bit in HIE. apply Z.bits_inj'. intros n Hn.
  rewrite clear_IE_bits by done. destruct (Z.eqb_spec n 1) as [->|]; cbn [negb].
  - by rewrite HIE.
  - by rewrite andb_true_r.
Qed.

Lemma clear_set_IE x :
  0 <= x < 4294967296 → has x STATUS_IE = true →
  Z.lor (Z.land x (u32 (Z.lnot STATUS_IE))) STATUS_IE = x.
Proof.
  intros Hx HIE. rewrite has_IE_bit in HIE. apply Z.bits_inj'. intros n Hn.
  rewrite Z.lor_spec, clear_IE_bits by done. unfold STATUS_IE. change 2 with (2 ^ 1).
  rewrite Z.pow2_bits_eqb, (Z.eqb_sym 1 n) by lia.
  destruct (Z.eqb_spec n 1) as [->|]; cbn [negb]; [by rewrite HIE|].
  by rewrite andb_true_r, orb_false_r.
Qed.

Lemma has_clear_IE x :
  0 <= x < 4294967296 → has (Z.land x (u32 (Z.lnot STATUS_IE))) STATUS_IE = false.
Proof. intros. rewrite has_IE_bit, clear_IE_bits by lia. by rewrite andb_false_r. Qed.

Lemma clear_IE_range x :
  0 <= x < 4294967296 → 0 <= Z.land x (u32 (Z.lnot STATUS_IE)) < 4294967296.
Proof.
  intros Hx. rewrite Z.land_comm. split; [apply Z.land_nonneg; lia|].
  change (u32 (Z.lnot STATUS_IE)) with 4294967293.
  assert (Z.land 4294967293 x <= x); [|lia].
  rewrite Z.land_comm. apply Z.ldiff_le; [lia|]. apply Z.bits_inj'. intros n Hn.
  rewrite Z.ldiff_spec, Z.land_spec, Z.bits_0. by destruct (Z.testbit x n), (Z.testbit 4294967293 n).
Qed.

(** ** push_off and pop_off *)
Lemma push_off_eq s :
  push_off s = Ok tt
    (let st := r_status (k_regs s) in
     let c := k_cpu s in
     let c := if c_noff c =? 0 then with_c_intena (has st STATUS_IE) c else c in
     with_k_cpu (with_c_noff (c_noff c + 1) c)
       (with_k_regs (with_r_status (Z.land st (u32 (Z.lnot STATUS_IE))) (k_regs s)) s)).
Proof.
  unfold push_off, intr_get, intr_off, mycpu, set_cpu, set_status, when, mbind, M_bind, gets, modify.
  simpl. by destruct (c_noff (k_cpu s) =? 0).
Qed.

Lemma pop_off_eq s :
  has (r_status (k_regs s)) STATUS_IE = false → 1 <= c_noff (k_cpu s) →
  pop_off s = Ok tt
    (let c := with_c_noff (c_noff (k_cpu s) - 1) (k_cpu s) in
     let st := r_status (k_regs s) in
     with_k_cpu c
       (if (c_noff c =? 0) && c_intena c
        then with_k_regs (with_r_status (Z.lor st STATUS_IE) (k_regs s)) s else s)).
Proof.
  intros H1 H2. unfold pop_off, intr_get, mycpu, mbind, M_bind, gets. cbv beta iota.
  rewrite H1. destruct (Z.ltb_spec (c_noff (k_cpu s)) 1); [lia|].
  unfold set_cpu, modify, when. cbn.
  by destruct ((c_noff (k_cpu s) - 1 =? 0) && c_intena (k_cpu s)).
Qed.

(** [n] nested critical regions around [body]. *)
Fixpoint nested {A} (n : nat) (body : KM A) : KM A :=
  match n with
  | O => body
  | S n' => push_off;; r ← nested n' body; pop_off;; mret r
  end.

(** One [push_off] and its [pop_off], around code that leaves the registers
    and the CPU record as it found them. *)
Lemma push_pop_pair s u :
  intr_inv s →
  ∀ t, push_off s = Ok tt t →
  intr_inv t ∧ has (r_status (k_regs t)) STATUS_IE = false ∧ 0 < c_noff (k_cpu t) ∧
  (k_regs u = k_regs t → k_cpu u = k_cpu t →
   ∃ v, pop_off u = Ok tt v ∧ k_regs v = k_regs s
      ∧ ∃ ia, k_cpu v = with_c_intena ia (k_cpu s)
            ∧ (0 < c_noff (k_cpu s) → ia = c_intena (k_cpu s))).
Proof.
  intros (Hst & Hn & Hoff) t. rewrite push_off_eq. intros [= <-].
  assert (∀ b, c_noff (if b : bool then with_c_intena (has (r_status (k_regs s)) STATUS_IE) (k_cpu s)
                       else k_cpu s) = c_noff (k_cpu s)) as Hc by by intros [].
  unfold intr_inv. cbn. rewrite !Hc.
  split_and!; [by apply clear_IE_range..|lia|by intros _; apply has_clear_IE|by apply has_clear_IE|lia|].
  intros Hr Hcpu. rewrite pop_off_eq; [|rewrite Hr; by apply has_clear_IE|rewrite Hcpu; cbn; lia].
  eexists. split; [reflexivity|]. cbn. rewrite Hr, Hcpu. cbn. rewrite ?Hc.
  replace (c_noff (k_cpu s) + 1 - 1) with (c_noff (k_cpu s)) by lia.
  destruct (Z.eqb_spec (c_noff (k_cpu s)) 0) as [E|E]; cbn.
  - split; [|eexists; split; [reflexivity|lia]].
    destruct (has (r_status (k_regs s)) STATUS_IE) eqn:EI; cbn.
    + rewrite clear_set_IE by done. by destruct (k_regs s).
    + rewrite Hr, clear_IE_id by done. by destruct (k_regs s).
  - split; [|exists (c_intena (k_cpu s)); split; [by destruct (k_cpu s)|done]].
    rewrite Hr, clear_IE_id by (done || (apply Hoff; lia)). by destruct (k_regs s).
Qed.

(** any number of nested [push_off]/[pop_off] regions keep interrupts
    off while the body runs and restore the interrupt-enable state, the
    nesting depth and the rest of the CPU record; only the outermost region
    re-enables interrupts, and only if they were enabled before it. *)
Theorem push_pop_nested {A} n (body : KM A) s :
  intr_inv s →
  (∀ t, intr_inv t → c_noff (k_cpu t) = c_noff (k_cpu s) + Z.of_nat n →
    wp body (λ _ u, k_regs u = k_regs t ∧ k_cpu u = k_cpu t) t) →
  wp (nested n body)
     (λ _ v, k_regs v = k_regs s ∧
             ∃ ia, k_cpu v = with_c_intena ia (k_cpu s)
                 ∧ (0 < c_noff (k_cpu s) → ia = c_intena (k_cpu s))) s.
Proof.
  revert s. induction n as [|n IH]; intros s Hs Hb.
  { cbn [nested]. eapply wp_mono; [apply Hb; [done|lia]|]. intros _ v [-> ->].
    split; [done|]. exists (c_intena (k_cpu s)). split; [by destruct (k_cpu s)|done]. }
  cbn [nested]. destruct (push_pop_pair s s Hs _ (push_off_eq s)) as (Ht & Hie & Hpos & _).
  apply wp_bind. eapply wp_Ok; [apply push_off_eq|].
  apply wp_bind. eapply wp_mono.
  { apply IH; [exact Ht|]. intros t' Ht' E. apply Hb; [done|]. rewrite E. cbn.
    destruct (c_noff (k_cpu s) =? 0); cbn; lia. }
  intros r u [Hru (ia & Hcu & Hia)].
  destruct (push_pop_pair s u Hs _ (push_off_eq s)) as (_ & _ & _ & Hpop).
  rewrite Hia in Hcu by done.
  destruct Hpop as (v & Hv & Hvr & ia' & Hvc & Hia'); [done|by rewrite Hcu|].
  apply wp_bind. eapply wp_Ok; [exact Hv|]. apply wp_ret. eauto.
Qed.

Lemma push_pop_nested_witness :
  let s := with_k_regs (with_r_status 3 (k_regs kstate0)) kstate0 in
  intr_inv s ∧ wp (nested 2 (mret 7))
     (λ _ v, k_regs v = k_regs s ∧
             ∃ ia, k_cpu v = with_c_intena ia (k_cpu s)
                 ∧ (0 < c_noff (k_cpu s) → ia = c_intena (k_cpu s))) s.
Proof.
  cbv zeta. assert (intr_inv (with_k_regs (with_r_status 3 (k_regs kstate0)) kstate0)) as H.
  { split_and!; cbn; lia || done. }
  split; [exact H|]. apply (push_pop_nested 2 (mret 7)); [exact H|]. intros. by apply wp_ret.
Defined.

(** ** acquire and release in kernel context *)
Lemma push_off_kctx s :
  kctx s → push_off s = Ok tt (with_k_cpu (with_c_noff (c_noff (k_cpu s) + 1) (k_cpu s)) s).
Proof.
  intros [H1 H2 H3 H4]. rewrite push_off_eq. cbv zeta. rewrite clear_IE_id by done.
  destruct s as [r c ? ? ? ? ? ? ? ? ? ? ? ? ? ? ? ? ? ? ? ? ? ? ?]; cbn in *.
  destruct r, c; cbn in *. rewrite H2, <- H3. by destruct (_ =? 0).
Qed.

Lemma pop_off_kctx s :
  kctx s → 1 <= c_noff (k_cpu s) →
  pop_off s = Ok tt (with_k_cpu (with_c_noff (c_noff (k_cpu s) - 1) (k_cpu s)) s).
Proof.
  intros [H1 H2 H3 H4] Hn. rewrite pop_off_eq by done. cbn. rewrite H3, andb_false_r. done.
Qed.

Lemma with_noff_id c n : n = c_noff c → with_c_noff n c = c.
Proof. intros ->. by destruct c. Qed.
Lemma with_cpu_id s c : c = k_cpu s → with_k_cpu c s = s.
Proof. intros ->. by destruct s. Qed.
Lemma with_locks_id s l : l = k_locks s → with_k_locks l s = s.
Proof. intros ->. by destruct s. Qed.

Lemma myproc_kctx s : kctx s → myproc s = Ok (c_proc (k_cpu s)) s.
Proof.
  intros H. unfold myproc. erewrite bind_Ok by by apply push_off_kctx.
  unfold mycpu. rewrite bind_gets. destruct H as [H1 H2 H3 H4].
  erewrite bind_Ok; [|apply pop_off_kctx; cbn; [split; cbn; done || lia|lia]].
  unfold mret, M_ret. f_equal. cbn.
  replace (c_noff (k_cpu s) + 1 - 1) with (c_noff (k_cpu s)) by lia.
  transitivity (with_k_cpu (with_c_noff (c_noff (k_cpu s)) (k_cpu s)) s); [done|].
  apply with_cpu_id, with_noff_id. done.
Qed.

Lemma acquire_ready lk s : kctx s → lock_ready lk s → acquire lk s = Ok tt (acq lk s).
Proof.
  intros Hs [name Hl]. unfold acquire. erewrite bind_Ok by by apply push_off_kctx.
  unfold holding, cas_lock, set_lock, gets, modify, mbind, M_bind, mret, M_ret, acq, lock_at.
  cbn. repeat (rewrite Hl; cbn). rewrite lookup_insert_eq. cbn. by rewrite insert_insert_eq.
Qed.

Lemma acq_kctx lk s : kctx s → kctx (acq lk s).
Proof. intros [H1 H2 H3 H4]. split; cbn; done || lia. Qed.

Lemma lock_ready_acq lk lk' s : lock_ready lk s → lk ≠ lk' → lock_ready lk (acq lk' s).
Proof. intros [n H] ?. exists n. cbn. by rewrite lookup_insert_ne. Qed.

Lemma holding_acq lk s : holding lk (acq lk s) = Ok true (acq lk s).
Proof.
  unfold holding, gets, mbind, M_bind, mret, M_ret, lock_at. cbn. rewrite lookup_insert_eq. done.
Qed.

Lemma release_acq lk s t :
  kctx s → lock_ready lk s →
  k_locks t = k_locks (acq lk s) → k_cpu t = k_cpu (acq lk s) → k_regs t = k_regs s →
  release lk t = Ok tt (relock s t).
Proof.
  intros Hs [name Hl] Ht1 Ht2 Ht3. unfold release, holding, set_lock, gets, modify.
  unfold mbind, M_bind, mret, M_ret, lock_at. cbn. rewrite Ht1. cbn. rewrite lookup_insert_eq. cbn.
  repeat (rewrite Ht1 || rewrite lookup_insert_eq || rewrite insert_insert_eq; cbn).
  rewrite bool_decide_true by done. cbn.
  repeat (rewrite Ht1 || rewrite lookup_insert_eq || rewrite insert_insert_eq; cbn).
  unfold lock_at. rewrite Hl. cbn. rewrite insert_id by done.
  destruct Hs as [H1 H2 H3 H4]. rewrite pop_off_kctx; cbn; rewrite ?Ht2; cbn; [|split; cbn; rewrite ?Ht2, ?Ht3; cbn; done || lia|lia].
  unfold relock. f_equal.
  replace (c_noff (k_cpu s) + 1 - 1) with (c_noff (k_cpu s)) by lia.
  transitivity (with_k_locks (k_locks s)
    (with_k_cpu (with_c_noff (c_noff (k_cpu s)) (k_cpu s)) t)); [done|].
  by rewrite with_noff_id.
Qed.

Lemma release_acq_id lk s : kctx s → lock_ready lk s → release lk (acq lk s) = Ok tt s.
Proof.
  intros Hs Hl. rewrite (release_acq lk s) by done. unfold relock, acq. f_equal. by destruct s.
Qed.

(** C36: spin locks exclude each other on the one CPU: [acquire] of a free
    lock followed by [release] leaves the kernel state as it was; while the
    lock is held a second [acquire] panics; and releasing a lock that is not
    held panics. *)
Theorem spinlock_exclusive lk s :
  kctx s → lock_ready lk s →
  (acquire lk;; release lk) s = Ok tt s
  ∧ (acquire lk;; acquire lk) s = Panic "acquire"
  ∧ release lk s = Panic "release".
Proof.
  intros Hs Hl. split_and!.
  - erewrite bind_Ok by by apply acquire_ready. by apply release_acq_id.
  - erewrite bind_Ok by by apply acquire_ready. unfold acquire.
    erewrite bind_Ok by (apply push_off_kctx; by apply acq_kctx).
    unfold holding, gets, mbind, M_bind, mret, M_ret, lock_at. cbn. by rewrite lookup_insert_eq.
  - destruct Hl as [name Hl]. unfold release, holding, gets, mbind, M_bind, mret, M_ret, lock_at.
    by rewrite Hl.
Qed.

Lemma spinlock_exclusive_witness :
  let s := with_k_locks {[LkKmem := mk_spinlock 0 "kmem" None]} kstate0 in
  (acquire LkKmem;; release LkKmem) s = Ok tt s
  ∧ (acquire LkKmem;; acquire LkKmem) s = Panic "acquire"
  ∧ release LkKmem s = Panic "release".
Proof.
  cbv zeta. apply (spinlock_exclusive LkKmem).
  - split; cbn; lia || done.
  - exists "kmem". reflexivity.
Defined.
