(* ===== verification/Printf.v ===== *)
(** * Console output: uartputc_sync (uart.c), consputc (console.c), printf.c

    Output goes to the UART's TX register; [u_tx] records the bytes written.
    The formatted output of kernel/printf.c is given as the code prints it,
    character by character, and shown equal to a pure rendering of the format
    and its arguments. *)

From S2P Require Import Prelude Machine State Spinlock.
From Stdlib Require Import Ascii.
From Stdlib Require String.

(** ** kernel/uart.c: uartputc_sync *)
Definition UART_STATUS_TX_READY : Z := 1.
Definition UART_STATUS_RX_AVAIL : Z := 2.

Definition uart_tx_write (v : Z) : KM unit :=
  modify (λ s, with_k_uart (with_u_tx (u_tx (k_uart s) ++ [v]) (k_uart s)) s).

Definition uartputc_sync (c : Z) : KM unit :=
  panicking ← gets k_panicking;
  when (panicking =? 0) push_off;;
  panicked ← gets k_panicked;
  if negb (panicked =? 0) then spin else
  st ← gets (λ s, u_status (k_uart s));
  if negb (has st UART_STATUS_TX_READY) then spin else
  uart_tx_write (u8 c);;
  panicking ← gets k_panicking;
  when (panicking =? 0) pop_off.

(** ** kernel/console.c: consputc *)
Definition BACKSPACE : Z := 256.
Definition consputc (c : Z) : KM unit :=
  if c =? BACKSPACE
  then uartputc_sync 8;; uartputc_sync 32;; uartputc_sync 8
  else uartputc_sync c.

(** ** kernel/printf.c *)
Definition digit (d : Z) : Z := if d <? 10 then 48 + d else 87 + d.

(** [do { buf[i++] = digits[x % base]; } while((x /= base) != 0);] *)
Fixpoint printint_loop (fuel : nat) (x base : Z) (buf : list Z) : list Z :=
  match fuel with
  | O => buf
  | S f =>
      let buf := buf ++ [digit (x mod base)] in
      let x := x / base in
      if negb (x =? 0) then printint_loop f x base buf else buf
  end.

(** The characters of [printint] in [buf], from [buf[0]]; [xx] is a 32-bit
    value, so 32 rounds are enough for every base. *)
Definition printint_buf (xx base : Z) (sign : bool) : list Z :=
  let neg := sign && (i32 xx <? 0) in
  let x := if neg then u32 (- i32 xx) else xx in
  let buf := printint_loop 32 x base [] in
  if neg then buf ++ [45] else buf.

Definition printint (xx base : Z) (sign : bool) : KM unit :=
  for_each (rev (printint_buf xx base sign)) consputc.

(** [for (i = 0; i < sizeof(uint32) * 2; i++, x <<= 4) consputc(digits[x >> 28]);] *)
Fixpoint printptr_loop (n : nat) (x : Z) : KM unit :=
  match n with
  | O => mret tt
  | S n' => consputc (digit (Z.shiftr x 28));; printptr_loop n' (u32 (Z.shiftl x 4))
  end.
Definition printptr (x : Z) : KM unit :=
  consputc 48;; consputc 120;; printptr_loop 8 x.

(** Variadic arguments: 32-bit values and strings; [AStr None] is a null
    [char *]. *)
Inductive arg : Type := AInt (v : Z) | AStr (s : option (list Z)).
Definition arg_int (l : list arg) : Z := match l with AInt v :: _ => u32 v | _ => 0 end.
Definition arg_str (l : list arg) : option (list Z) :=
  match l with AStr s :: _ => s | _ => None end.

Definition str (s : string) : list Z :=
  map (λ c, Z.of_nat (nat_of_ascii c)) (String.list_ascii_of_string s).
Definition chr (c : ascii) : Z := Z.of_nat (nat_of_ascii c).

Definition is_c (l : list Z) (n : nat) (c : ascii) : bool :=
  match l !! n with Some d => d =? chr c | None => false end.

Definition puts (l : list Z) : KM unit := for_each l consputc.

(** The loop of [printf] from [fmt[i]]; a format is the bytes before its
    terminator. *)
Fixpoint printf_loop (fmt : list Z) (ap : list arg) : KM unit :=
  match fmt with
  | [] => mret tt
  | cx :: fmt1 =>
    if negb (cx =? chr "%") then consputc cx;; printf_loop fmt1 ap else
    let r := fmt1 in
    match fmt1 with
    | [] => mret tt
    | c0 :: fmt2 =>
      if c0 =? chr "d" then printint (arg_int ap) 10 true;; printf_loop fmt2 (tl ap) else
      if (c0 =? chr "l") && is_c r 1 "d" then
        printint (arg_int ap) 10 true;;
        match fmt2 with _ :: fmt3 => printf_loop fmt3 (tl ap) | [] => mret tt end else
      if (c0 =? chr "l") && is_c r 1 "l" && is_c r 2 "d" then
        printint (arg_int ap) 10 true;;
        match fmt2 with _ :: _ :: fmt4 => printf_loop fmt4 (tl ap) | _ => mret tt end else
      if c0 =? chr "u" then printint (arg_int ap) 10 false;; printf_loop fmt2 (tl ap) else
      if (c0 =? chr "l") && is_c r 1 "u" then
        printint (arg_int ap) 10 false;;
        match fmt2 with _ :: fmt3 => printf_loop fmt3 (tl ap) | [] => mret tt end else
      if (c0 =? chr "l") && is_c r 1 "l" && is_c r 2 "u" then
        printint (arg_int ap) 10 false;;
        match fmt2 with _ :: _ :: fmt4 => printf_loop fmt4 (tl ap) | _ => mret tt end else
      if c0 =? chr "x" then printint (arg_int ap) 16 false;; printf_loop fmt2 (tl ap) else
      if (c0 =? chr "l") && is_c r 1 "x" then
        printint (arg_int ap) 16 false;;
        match fmt2 with _ :: fmt3 => printf_loop fmt3 (tl ap) | [] => mret tt end else
      if (c0 =? chr "l") && is_c r 1 "l" && is_c r 2 "x" then
        printint (arg_int ap) 16 false;;
        match fmt2 with _ :: _ :: fmt4 => printf_loop fmt4 (tl ap) | _ => mret tt end else
      if c0 =? chr "p" then printptr (arg_int ap);; printf_loop fmt2 (tl ap) else
      if c0 =? chr "c" then consputc (arg_int ap);; printf_loop fmt2 (tl ap) else
      if c0 =? chr "s" then
        puts (default (str "(null)") (arg_str ap));; printf_loop fmt2 (tl ap) else
      if c0 =? chr "%" then consputc (chr "%");; printf_loop fmt2 ap else
      consputc (chr "%");; consputc c0;; printf_loop fmt2 ap
    end
  end.

Definition printf (fmt : list Z) (ap : list arg) : KM Z :=
  panicking ← gets k_panicking;
  when (panicking =? 0) (acquire LkPr);;
  printf_loop fmt ap;;
  panicking ← gets k_panicking;
  when (panicking =? 0) (release LkPr);;
  mret 0.

Definition printfinit : KM unit := initlock LkPr "pr".

(** What [panic] does before it loops for ever.  A call of [panic] anywhere in
    the kernel is the outcome [Panic]; this is what the machine shows of it. *)
Definition panic_report (msg : list Z) : KM unit :=
  modify (with_k_panicking 1);;
  printf (str "panic: ") [];;
  printf (str "%s
") [AStr (Some msg)];;
  modify (with_k_panicked 1).

(** ** Output as a function *)
(** The UART accepts output and the kernel is not panicking. *)
Record tx_ok (s : kstate) : Prop := {
  tx_ready : has (u_status (k_uart s)) UART_STATUS_TX_READY = true;
  tx_panicking : k_panicking s = 0;
  tx_panicked : k_panicked s = 0 }.

(** Output can be sent: in a kernel context, or by the panicking kernel in any
    context. *)
Record can_tx (s : kstate) : Prop := {
  ct_ready : has (u_status (k_uart s)) UART_STATUS_TX_READY = true;
  ct_panicked : k_panicked s = 0;
  ct_ctx : k_panicking s = 0 → kctx s }.

Definition emit (l : list Z) (s : kstate) : kstate :=
  with_k_uart (with_u_tx (u_tx (k_uart s) ++ l) (k_uart s)) s.

(** The bytes [consputc] sends for [c]. *)
Definition cons_bytes (c : Z) : list Z := if c =? BACKSPACE then [8; 32; 8] else [u8 c].

Lemma emit_nil s : emit [] s = s.
Proof. unfold emit. rewrite app_nil_r. destruct s as [? ? ? ? ? ? ? ? ? ? ? u ? ? ? ? ? ? ? ? ? ? ? ? ?]. by destruct u. Qed.
Lemma emit_app l1 l2 s : emit l2 (emit l1 s) = emit (l1 ++ l2) s.
Proof. unfold emit. cbn. by rewrite app_assoc. Qed.
Lemma emit_kctx l s : kctx s → kctx (emit l s).
Proof. intros []. by split. Qed.
Lemma emit_tx_ok l s : tx_ok s → tx_ok (emit l s).
Proof. intros []. by split. Qed.
Lemma emit_can_tx l s : can_tx s → can_tx (emit l s).
Proof. intros [? ? H]. split; [done..|]. intros E. by apply emit_kctx, H. Qed.
Lemma tx_can_tx s : kctx s → tx_ok s → can_tx s.
Proof. intros ? []. by split. Qed.

Lemma uartputc_sync_ok c s : can_tx s → uartputc_sync c s = Ok tt (emit [u8 c] s).
Proof.
  intros [H1 H3 H2]. unfold uartputc_sync. rewrite bind_gets.
  destruct (Z.eqb_spec (k_panicking s) 0) as [E|E]; cbn [when].
  - erewrite bind_Ok by by apply push_off_kctx, H2.
    rewrite bind_gets. cbn. rewrite H3. cbn. rewrite bind_gets. cbn. rewrite H1. cbn.
    unfold uart_tx_write. rewrite bind_modify, bind_gets. cbn. rewrite E. cbn.
    destruct (H2 E) as [K1 K2 K3 K4].
    rewrite pop_off_kctx; cbn; [|split; cbn; done || lia|lia].
    unfold emit. f_equal.
    replace (c_noff (k_cpu s) + 1 - 1) with (c_noff (k_cpu s)) by lia.
    destruct s as [? cp ? ? ? ? ? ? ? ? ? u ? ? ? ? ? ? ? ? ? ? ? ? ?]. by destruct cp.
  - rewrite bind_ret, bind_gets, H3. cbn [Z.eqb negb]. rewrite bind_gets, H1. cbn [negb].
    unfold uart_tx_write. rewrite bind_modify, bind_gets. cbn [k_panicking with_k_uart].
    apply Z.eqb_neq in E. by rewrite E.
Qed.

Lemma consputc_ok c s : can_tx s → consputc c s = Ok tt (emit (cons_bytes c) s).
Proof.
  intros Ht. unfold consputc, cons_bytes. destruct (c =? BACKSPACE).
  - erewrite bind_Ok by by apply uartputc_sync_ok.
    erewrite bind_Ok by (by apply uartputc_sync_ok, emit_can_tx).
    rewrite uartputc_sync_ok by by repeat apply emit_can_tx.
    by rewrite !emit_app.
  - by apply uartputc_sync_ok.
Qed.

Lemma puts_ok l s : can_tx s → puts l s = Ok tt (emit (concat (map cons_bytes l)) s).
Proof.
  revert s. induction l as [|c l IH]; intros s Ht; cbn.
  - by rewrite emit_nil.
  - erewrite bind_Ok by by apply consputc_ok. unfold puts in IH.
    rewrite IH by by apply emit_can_tx. by rewrite emit_app.
Qed.

(** The kernel has panicked: the last line of [panic] was reached. *)
Definition frozen (s : kstate) : Prop := k_panicking s ≠ 0 ∧ k_panicked s ≠ 0.
(** Sending [out] then: the first byte spins. *)
Definition stuck {A} (out : list Z) (a : A) (s : kstate) : res kstate A :=
  match out with [] => Ok a s | _ => Spin s end.

Lemma uartputc_sync_frozen c s : frozen s → uartputc_sync c s = Spin s.
Proof.
  intros [H1 H2]. unfold uartputc_sync. rewrite bind_gets. apply Z.eqb_neq in H1, H2. rewrite H1. cbn [when].
  by rewrite bind_ret, bind_gets, H2.
Qed.

(** [m] does nothing but send [out], and is stuck in a kernel that has panicked. *)
Record emits (m : KM unit) (out : list Z) : Prop := {
  em_ok : ∀ s, can_tx s → m s = Ok tt (emit out s);
  em_frozen : ∀ s, frozen s → m s = stuck out tt s }.

Create HintDb emit.

Lemma emits_ret : emits (mret tt) [].
Proof. split; intros s _; by rewrite ?emit_nil. Qed.
Lemma emits_seq m1 m2 l1 l2 : emits m1 l1 → emits m2 l2 → emits (m1;; m2) (l1 ++ l2).
Proof.
  intros [H1 F1] [H2 F2]. split; intros s Hs.
  - erewrite bind_Ok by by apply H1. rewrite H2 by by apply emit_can_tx. by rewrite emit_app.
  - specialize (F1 s Hs). destruct l1 as [|c l1]; cbn in F1 |- *.
    + rewrite (bind_Ok _ _ _ _ _ F1). by apply F2.
    + by apply bind_Spin.
Qed.
Lemma emits_consputc c : emits (consputc c) (cons_bytes c).
Proof.
  split; intros s Hs; [by apply consputc_ok|]. unfold consputc, cons_bytes.
  destruct (c =? BACKSPACE); [apply bind_Spin|]; by apply uartputc_sync_frozen.
Qed.
Lemma emits_puts l : emits (puts l) (concat (map cons_bytes l)).
Proof. induction l as [|c l IH]; [apply emits_ret|]. apply (emits_seq _ _ (cons_bytes c)); [apply emits_consputc|exact IH]. Qed.
Lemma emits_printint xx b sg :
  emits (printint xx b sg) (concat (map cons_bytes (rev (printint_buf xx b sg)))).
Proof. apply emits_puts. Qed.
#[export] Hint Resolve emits_ret emits_seq emits_consputc emits_puts emits_printint : emit.

(** *** The rendering of a format
    A table of the conversions, against which the chain of tests of [printf]
    is checked. *)
Inductive conv : Type :=
| CInt (base : Z) (sign : bool) | CPtr | CChar | CStr | CPercent | CUnknown (c : Z).
Definition conversions : list (list Z * conv) :=
  [(str "d", CInt 10 true); (str "ld", CInt 10 true); (str "lld", CInt 10 true);
   (str "u", CInt 10 false); (str "lu", CInt 10 false); (str "llu", CInt 10 false);
   (str "x", CInt 16 false); (str "lx", CInt 16 false); (str "llx", CInt 16 false);
   (str "p", CPtr); (str "c", CChar); (str "s", CStr); (str "%", CPercent)].
Fixpoint strip (p l : list Z) : option (list Z) :=
  match p, l with
  | [], _ => Some l
  | x :: p', y :: l' => if y =? x then strip p' l' else None
  | _, [] => None
  end.
Fixpoint find_conv (t : list (list Z * conv)) (c0 : Z) (l : list Z) : conv * list Z :=
  match t with
  | [] => (CUnknown c0, tl l)
  | (p, c) :: t' => match strip p l with Some r => (c, r) | None => find_conv t' c0 l end
  end.

Fixpoint ptr_digits (n : nat) (x : Z) : list Z :=
  match n with O => [] | S n' => digit (Z.shiftr x 28) :: ptr_digits n' (u32 (Z.shiftl x 4)) end.
Definition ptr_out (x : Z) : list Z := str "0x" ++ ptr_digits 8 x.
Definition conv_out (c : conv) (ap : list arg) : list Z :=
  match c with
  | CInt base sign => rev (printint_buf (arg_int ap) base sign)
  | CPtr => ptr_out (arg_int ap)
  | CChar => [arg_int ap]
  | CStr => default (str "(null)") (arg_str ap)
  | CPercent => [chr "%"]
  | CUnknown c => [chr "%"; c]
  end.
Definition conv_rest (c : conv) (ap : list arg) : list arg :=
  match c with CPercent | CUnknown _ => ap | _ => tl ap end.
(** The characters [printf] passes to [consputc]; [n] bounds the length. *)
Fixpoint render (n : nat) (fmt : list Z) (ap : list arg) : list Z :=
  match n, fmt with
  | S n', cx :: fmt1 =>
      if negb (cx =? chr "%") then cx :: render n' fmt1 ap else
      match fmt1 with
      | [] => []
      | c0 :: _ =>
          let '(c, rest) := find_conv conversions c0 fmt1 in
          conv_out c ap ++ render n' rest (conv_rest c ap)
      end
  | _, _ => []
  end.
Definition rendering (fmt : list Z) (ap : list arg) : list Z :=
  concat (map cons_bytes (render (length fmt) fmt ap)).

(** [m] passes [l] to [consputc]. *)
Definition says (m : KM unit) (l : list Z) : Prop := emits m (concat (map cons_bytes l)).

Lemma says_ret : says (mret tt) [].
Proof. apply emits_ret. Qed.
Lemma says_seq m1 m2 l1 l2 : says m1 l1 → says m2 l2 → says (m1;; m2) (l1 ++ l2).
Proof. unfold says. rewrite map_app, concat_app. apply emits_seq. Qed.
Lemma says_consputc c : says (consputc c) [c].
Proof. unfold says. cbn. rewrite app_nil_r. apply emits_consputc. Qed.
Lemma says_puts l : says (puts l) l.
Proof. apply emits_puts. Qed.
Lemma says_cons c m l : says m l → says (consputc c;; m) (c :: l).
Proof. intros. apply (says_seq _ _ [c]); [apply says_consputc|done]. Qed.
Lemma says_printint xx b sg : says (printint xx b sg) (rev (printint_buf xx b sg)).
Proof. apply emits_printint. Qed.
#[export] Hint Resolve says_ret says_seq says_consputc says_puts says_cons says_printint : emit.

Lemma says_printptr_loop n : ∀ x, says (printptr_loop n x) (ptr_digits n x).
Proof. induction n as [|n IH]; intros x; cbn [printptr_loop ptr_digits]; auto with emit. Qed.
Lemma says_printptr x : says (printptr x) (ptr_out x).
Proof. apply says_cons, says_cons, says_printptr_loop. Qed.
#[export] Hint Resolve says_printptr : emit.

Lemma find_conv_length c0 l t : (length (find_conv t c0 (c0 :: l)).2 <= S (length l))%nat.
Proof.
  induction t as [|[p c] t IH]; cbn [find_conv snd tl]; [lia|].
  assert (∀ p l' r, strip p l' = Some r → (length r <= length l')%nat) as Hs.
  { intros q. induction q as [|x q IHq]; intros [|y l'] r E; cbn in *; simplify_eq/=; try lia.
    case_match; [|done]. apply IHq in E. lia. }
  destruct (strip p (c0 :: l)) eqn:E; [|done]. apply Hs in E. cbn in *. lia.
Qed.

(** Replaces characters and the table by their codes. *)
Ltac compute_chars :=
  let t := eval vm_compute in conversions in change conversions with t;
  repeat match goal with
  | |- context [chr ?c] => let v := eval vm_compute in (chr c) in change (chr c) with v
  end.

#[local] Opaque printint_buf printint printptr ptr_out says consputc puts.
(** The chain of tests of [printf] agrees with the table. *)
Lemma says_conv c0 fmt2 ap out :
  let '(c, rest) := find_conv conversions c0 (c0 :: fmt2) in
  says (printf_loop rest (conv_rest c ap)) out →
  says (printf_loop (chr "%" :: c0 :: fmt2) ap) (conv_out c ap ++ out).
Proof.
  cbn [printf_loop]. rewrite Z.eqb_refl. cbn [negb]. generalize printf_loop as F. intros F.
  unfold is_c, conv_out. compute_chars.
  destruct (Z.eqb_spec c0 108) as [->|N].
  - destruct fmt2 as [|c1 [|c2 fmt4]]; cbn;
      [|destruct (c1 =? 100), (c1 =? 108), (c1 =? 117), (c1 =? 120)
       |destruct (c1 =? 100), (c1 =? 108), (c1 =? 117), (c1 =? 120),
          (c2 =? 100), (c2 =? 117), (c2 =? 120)];
      cbn; auto with emit.
  - cbn. apply Z.eqb_neq in N. rewrite !N. cbn [andb].
    repeat match goal with |- context [c0 =? ?v] => destruct (c0 =? v); [cbn; auto with emit|] end.
    cbn. auto with emit.
Qed.
#[local] Transparent printint_buf printint printptr ptr_out says consputc puts.

Lemma says_printf_loop n : ∀ fmt ap, (length fmt <= n)%nat → says (printf_loop fmt ap) (render n fmt ap).
Proof.
  induction n as [|n IH]; intros fmt ap Hn.
  { destruct fmt; cbn in Hn; [|lia]. apply says_ret. }
  destruct fmt as [|cx fmt1]; [apply says_ret|]. cbn [length] in Hn. cbn [render].
  destruct (Z.eqb_spec cx (chr "%")) as [->|N]; cbn [negb].
  - destruct fmt1 as [|c0 fmt2]; [apply says_ret|].
    pose proof (find_conv_length c0 fmt2 conversions) as Hl.
    pose proof (says_conv c0 fmt2 ap) as Hc.
    destruct (find_conv conversions c0 (c0 :: fmt2)) as [c rest]. cbn in Hl, Hn.
    apply Hc, IH. lia.
  - cbn [printf_loop]. apply Z.eqb_neq in N. rewrite N. apply says_cons, IH. lia.
Qed.

Lemma printf_render fmt ap s :
  can_tx s → (k_panicking s = 0 → lock_ready LkPr s) →
  printf fmt ap s = Ok 0 (emit (rendering fmt ap) s).
Proof.
  pose proof (says_printf_loop _ fmt ap (le_n _)) as H. intros Ht Hl.
  unfold printf. rewrite bind_gets. destruct (Z.eqb_spec (k_panicking s) 0) as [E|E]; cbn [when].
  - pose proof (ct_ctx _ Ht E) as Hk. specialize (Hl E).
    erewrite bind_Ok by by apply acquire_ready.
    assert (can_tx (acq LkPr s)) as Ht'.
    { destruct Ht. split; [done..|]. intros _. by apply acq_kctx. }
    erewrite bind_Ok by by apply (em_ok _ _ H).
    rewrite bind_gets. change (k_panicking (emit _ (acq LkPr s))) with (k_panicking s). rewrite E. cbn [when Z.eqb].
    erewrite bind_Ok by by apply (release_acq LkPr s).
    done.
  - rewrite bind_ret. erewrite bind_Ok by by apply (em_ok _ _ H).
    rewrite bind_gets. change (k_panicking (emit _ s)) with (k_panicking s).
    apply Z.eqb_neq in E. by rewrite E.
Qed.

Lemma printf_frozen fmt ap s : frozen s → printf fmt ap s = stuck (rendering fmt ap) 0 s.
Proof.
  pose proof (em_frozen _ _ (says_printf_loop _ fmt ap (le_n _)) s) as H. intros Hf. specialize (H Hf).
  fold (rendering fmt ap) in H. destruct Hf as [H1 _]. unfold printf. rewrite bind_gets. apply Z.eqb_neq in H1. rewrite H1. cbn [when].
  rewrite bind_ret. destruct (rendering fmt ap); cbn [stuck] in *; [|by apply bind_Spin].
  rewrite (bind_Ok _ _ _ _ _ H), bind_gets, H1. done.
Qed.

Lemma printf_ok fmt ap s :
  kctx s → tx_ok s → lock_ready LkPr s → printf fmt ap s = Ok 0 (emit (rendering fmt ap) s).
Proof. intros Hk Ht Hl. apply printf_render; [by apply tx_can_tx|done]. Qed.

(** C37: [printf] always returns 0 (it neither panics nor blocks), and all it
    does is send the rendering of its format: literal characters, and for each
    directive the longest match of the table of conversions, an unknown one
    being echoed.  It takes and gives back its lock, except in a panicking
    kernel, where it uses none and so cannot block on it. *)
Theorem printf_emits fmt ap s :
  can_tx s → (k_panicking s = 0 → lock_ready LkPr s) →
  printf fmt ap s = Ok 0 (emit (rendering fmt ap) s).
Proof. apply printf_render. Qed.

Lemma printf_emits_witness :
  let s := with_k_locks {[LkPr := mk_spinlock 0 "pr" None]} kstate0 in
  printf (str "dst %d %q %s") [AInt 42; AStr None] s = Ok 0 (emit (str "dst 42 %q (null)") s).
Proof.
  cbv zeta. apply (printf_emits (str "dst %d %q %s") [AInt 42; AStr None]).
  - split; [done..|]. intros _. split; cbn; lia || done.
  - intros _. exists "pr". reflexivity.
Defined.

Lemma render_str l : rendering (str "%s
") [AStr (Some l)] = concat (map cons_bytes (l ++ [10])).
Proof. reflexivity. Qed.

(** C38: [panic] reports from every state with a working UART: whoever holds
    the printf lock and whatever the interrupt state, the message is printed
    in full.  Afterwards, in every state in which its two flags are set (nothing
    clears them), no byte leaves through [uartputc_sync], [consputc] or
    [printf]: the first one spins for ever, with nothing sent. *)
Theorem panic_reports msg s :
  has (u_status (k_uart s)) UART_STATUS_TX_READY = true → k_panicked s = 0 →
  ∃ s', panic_report msg s = Ok tt s'
      ∧ u_tx (k_uart s') = u_tx (k_uart s) ++ str "panic: " ++ concat (map cons_bytes (msg ++ [10]))
      ∧ frozen s'
      ∧ ∀ t, frozen t → (∀ c, uartputc_sync c t = Spin t) ∧ (∀ c, consputc c t = Spin t)
          ∧ ∀ fmt ap, printf fmt ap t = match rendering fmt ap with [] => Ok 0 t | _ => Spin t end.
Proof.
  intros H1 H2. unfold panic_report. rewrite bind_modify.
  erewrite bind_Ok by (apply printf_render; [by split|done]).
  erewrite bind_Ok by (apply printf_render; [by apply emit_can_tx|done]).
  eexists. split; [done|]. split_and!; [|done|].
  - cbn [k_uart u_tx emit with_k_uart with_u_tx with_k_panicked with_k_panicking].
    rewrite <- app_assoc, render_str. done.
  - intros t Ht. split_and!; intros.
    + by apply uartputc_sync_frozen.
    + rewrite (em_frozen _ _ (emits_consputc c) t Ht). unfold cons_bytes. by destruct (c =? BACKSPACE).
    + by apply printf_frozen.
Qed.

Lemma panic_reports_witness :
  let s := with_k_locks {[LkPr := mk_spinlock 1 "pr" (Some O)]} kstate0 in
  ∃ s', panic_report (str "kfree") s = Ok tt s' ∧ u_tx (k_uart s') = str "panic: kfree
" ∧ frozen s' ∧ uartputc_sync 65 s' = Spin s' ∧ printf (str "%d") [AInt 7] s' = Spin s'.
Proof.
  cbv zeta. destruct (panic_reports (str "kfree") (with_k_locks {[LkPr := mk_spinlock 1 "pr" (Some O)]} kstate0))
    as (s' & E & Ht & Hf & H); [reflexivity..|].
  destruct (H s' Hf) as (H1 & _ & H3). exists s'. split; [exact E|]. split; [exact Ht|]. split; [exact Hf|].
  split; [apply H1|]. exact (H3 (str "%d") [AInt 7]).
Defined.

(** ** Numbers read back *)
Definition digit_val (c : Z) : Z := if c <? 58 then c - 48 else c - 87.
Definition parse (base : Z) (l : list Z) : Z :=
  fold_left (λ acc c, acc * base + digit_val c) l 0.

Lemma digit_val_digit d : 0 <= d < 16 → digit_val (digit d) = d.
Proof. intros. unfold digit, digit_val. repeat case_match; lia. Qed.

Lemma parse_snoc base l c : parse base (l ++ [c]) = parse base l * base + digit_val c.
Proof. unfold parse. by rewrite fold_left_app. Qed.

Lemma printint_loop_spec fuel x base buf :
  2 <= base <= 16 → 0 <= x → ∀ k, (1 <= k <= fuel)%nat → x < base ^ Z.of_nat k →
  ∃ ds, printint_loop fuel x base buf = buf ++ ds
      ∧ parse base (rev ds) = x ∧ (1 <= length ds <= k)%nat.
Proof.
  intros Hb. revert x buf. induction fuel as [|f IH]; intros x buf Hx k Hk Hlt; [lia|].
  cbn [printint_loop].
  assert (digit_val (digit (x mod base)) = x mod base) as Hd
    by (apply digit_val_digit; pose proof (Z.mod_pos_bound x base); lia).
  destruct (Z.eqb_spec (x / base) 0) as [E|E]; cbn [negb].
  - exists [digit (x mod base)]. split; [done|]. split; [|cbn; lia].
    cbn [rev app]. unfold parse. cbn [fold_left]. rewrite Hd.
    pose proof (Z.div_mod x base). lia.
  - assert (0 < x / base) by (pose proof (Z.div_pos x base); lia).
    destruct k as [|[|k]]; [lia| |].
    { change (base ^ Z.of_nat 1) with (base ^ 1) in Hlt. rewrite Z.pow_1_r in Hlt.
      rewrite Z.div_small in E; lia. }
    destruct (IH (x / base) (buf ++ [digit (x mod base)])) with (k := S k) as (ds & -> & Hp & Hl); [lia|lia| |].
    { apply Z.div_lt_upper_bound; [lia|].
      replace (Z.of_nat (S (S k))) with (Z.succ (Z.of_nat (S k))) in Hlt by lia.
      rewrite Z.pow_succ_r in Hlt; lia. }
    exists (digit (x mod base) :: ds). rewrite <- app_assoc. split; [done|].
    cbn [rev]. rewrite parse_snoc, Hp, Hd. split; [|cbn; lia].
    pose proof (Z.div_mod x base). lia.
Qed.

(** [%d] prints the signed value of its argument in decimal: reading the
    digits back gives its absolute value, the sign is printed exactly for
    negative values (including the least one), and the characters fit the
    20-byte buffer of [printint]. *)
Theorem printint_decimal xx :
  0 <= xx < 4294967296 →
  ∃ ds, rev (printint_buf xx 10 true) = (if i32 xx <? 0 then [45] else []) ++ ds
      ∧ parse 10 ds = Z.abs (i32 xx)
      ∧ (length (printint_buf xx 10 true) <= 20)%nat.
Proof.
  intros Hx. unfold printint_buf. cbn [andb].
  set (x := if i32 xx <? 0 then u32 (- i32 xx) else xx).
  assert (x = Z.abs (i32 xx) ∧ 0 <= x < 4294967296) as [Hxa Hxr].
  { subst x. destruct (Z.ltb_spec (i32 xx) 0); zl. }
  destruct (printint_loop_spec 32 x 10 []) with (k := 10%nat) as (ds & -> & Hp & Hl);
    [lia|lia|lia|change (10 ^ Z.of_nat 10) with 10000000000; lia|].
  exists (rev ds). cbn [app]. destruct (i32 xx <? 0).
  - rewrite rev_app_distr, length_app. cbn [rev app length]. split_and!; [done|lia|lia].
  - cbn [app]. split_and!; [done|lia|lia].
Qed.

Lemma printint_decimal_witness :
  0 <= 2147483648 < 4294967296 ∧
  ∃ ds, rev (printint_buf 2147483648 10 true) = [45] ++ ds
      ∧ parse 10 ds = 2147483648 ∧ (length (printint_buf 2147483648 10 true) <= 20)%nat.
Proof. split; [lia|]. apply (printint_decimal 2147483648). lia. Defined.
