(* ===== verification/Kalloc.v ===== *)
(** * kernel/kalloc.c: the physical page allocator

    The free list is threaded through the free pages themselves: the first
    word of a free page is the address of the next one.  [kmem_inv s l] says
    that the pages of [l], distinct and all in allocatable memory, are the
    free list of [s] in order. *)

From S2P Require Import Prelude Machine State Spinlock Emu.

Section kalloc.
Context `{P : Platform}.

Definition kfree (pa : Z) : KM unit :=
  if negb (pa mod PGSIZE =? 0) || (pa <? p_end) || (PHYSTOP <=? pa)
  then panic "kfree" else
  acquire LkKmem;;
  freelist ← gets k_freelist;
  modify (λ s, with_k_mem (st32 (k_mem s) pa freelist) s);;
  modify (with_k_freelist pa);;
  release LkKmem.

Definition kalloc : KM Z :=
  acquire LkKmem;;
  r ← gets k_freelist;
  when (negb (r =? 0)) (modify (λ s, with_k_freelist (ld32 (k_mem s) r) s));;
  release LkKmem;;
  mret r.

(** [for(; p + PGSIZE <= pa_end; p += PGSIZE) kfree(p);] *)
Fixpoint freerange_loop (fuel : nat) (p pa_end : Z) : KM unit :=
  match fuel with
  | O => spin
  | S f => if p + PGSIZE <=? pa_end
           then kfree p;; freerange_loop f (p + PGSIZE) pa_end
           else mret tt
  end.

Definition freerange (pa_start pa_end : Z) : KM unit :=
  let p := PGROUNDUP pa_start in
  freerange_loop (S (Z.to_nat ((pa_end - p) / PGSIZE))) p pa_end.

Definition kinit : KM unit :=
  initlock LkKmem "kmem";;
  freerange p_end PHYSTOP.

(** ** The free list *)
Fixpoint flist (m : mem) (h : Z) (l : list Z) : Prop :=
  match l with
  | [] => h = 0
  | p :: l' => h = p ∧ flist m (ld32 m p) l'
  end.

Definition page_ok (p : Z) : Prop := p mod PGSIZE = 0 ∧ p_end <= p < PHYSTOP.

Record kmem_inv (s : kstate) (l : list Z) : Prop := {
  kmem_list : flist (k_mem s) (k_freelist s) l;
  kmem_pages : Forall page_ok l;
  kmem_nodup : NoDup l }.

(** A process in the kernel may use the allocator: its lock is free. *)
Definition kenv (s : kstate) : Prop := kctx s ∧ lock_ready LkKmem s.

(** The bytes of page [p]. *)
Definition in_page (p a : Z) : Prop := p <= a < p + PGSIZE.

Context {HP : PlatformOk P}.

Lemma page_ok_pos p : page_ok p → 0 < p ∧ p + PGSIZE <= PHYSTOP.
Proof. intros (H1 & H2 & H3). pose proof p_end_ok. zl. Qed.

Lemma flist_ext m m' h l :
  (∀ p b, p ∈ l → p <= b < p + 4 → ldb m' b = ldb m b) → flist m h l → flist m' h l.
Proof.
  revert h. induction l as [|p l IH]; intros h Hm; [done|]. intros [-> H]. split; [done|].
  rewrite (ld32_ext m) by (intros; apply (Hm p); [set_solver|done]).
  apply IH; [|done]. intros q b Hq. apply Hm. set_solver.
Qed.

(** Distinct pages do not overlap. *)
Lemma pages_disjoint p q a :
  p mod PGSIZE = 0 → q mod PGSIZE = 0 → p ≠ q → in_page p a → in_page q a → False.
Proof. unfold in_page. zl. Qed.

Lemma kmem_inv_frame s s' l :
  k_freelist s' = k_freelist s →
  (∀ p a, p ∈ l → in_page p a → ldb (k_mem s') a = ldb (k_mem s) a) →
  kmem_inv s l → kmem_inv s' l.
Proof.
  intros Hf Hm [H1 H2 H3]. split; [|done|done]. rewrite Hf.
  eapply flist_ext; [|exact H1]. intros p b Hp Hb. apply (Hm p); [done|].
  unfold in_page. zl.
Qed.

Lemma kalloc_nil s : kenv s → kmem_inv s [] → kalloc s = Ok 0 s.
Proof.
  intros [Hk Hl] [H _ _]. cbn in H. unfold kalloc.
  erewrite bind_Ok by by apply acquire_ready. rewrite bind_gets. cbn. rewrite H. cbn.
  rewrite bind_ret. erewrite bind_Ok by by apply (release_acq LkKmem s).
  unfold mret, M_ret. f_equal. by destruct s.
Qed.

(** The state after [kalloc] takes the first page of the list. *)
Definition pop_page (s : kstate) : kstate :=
  with_k_freelist (ld32 (k_mem s) (k_freelist s)) s.

Lemma kalloc_cons s p l :
  kenv s → kmem_inv s (p :: l) →
  kalloc s = Ok p (pop_page s) ∧ kmem_inv (pop_page s) l ∧ page_ok p ∧ p ∉ l.
Proof.
  intros [Hk Hl] [H Hp Hn]. cbn in H. destruct H as [H1 H2].
  apply Forall_cons in Hp as [Hp1 Hp2]. apply NoDup_cons in Hn as [Hn1 Hn2].
  split_and!; [|split; cbn; try done; by rewrite H1|done|done].
  unfold kalloc. erewrite bind_Ok by by apply acquire_ready. rewrite bind_gets. cbn. rewrite H1.
  destruct (Z.eqb_spec p 0) as [->|]; [by apply page_ok_pos in Hp1 as [? _]|]. cbn.
  unfold when. rewrite bind_modify.
  erewrite bind_Ok by by apply (release_acq LkKmem s).
  unfold mret, M_ret, pop_page. by rewrite H1.
Qed.

(** The state after [kfree pa]. *)
Definition push_page (pa : Z) (s : kstate) : kstate :=
  with_k_freelist pa (with_k_mem (st32 (k_mem s) pa (k_freelist s)) s).

Lemma kfree_ok pa s l :
  kenv s → kmem_inv s l → page_ok pa → pa ∉ l →
  kfree pa s = Ok tt (push_page pa s) ∧ kmem_inv (push_page pa s) (pa :: l).
Proof.
  intros [Hk Hl] [H Hp Hn] Hpa Hni. split.
  - unfold kfree. destruct Hpa as (A1 & A2 & A3).
    destruct (Z.eqb_spec (pa mod PGSIZE) 0); [|done]. destruct (Z.ltb_spec pa p_end); [lia|].
    destruct (Z.leb_spec PHYSTOP pa); [lia|]. cbn [negb orb].
    erewrite bind_Ok by by apply acquire_ready. rewrite bind_gets, !bind_modify.
    rewrite (release_acq LkKmem s) by done. done.
  - split; [|by constructor|by constructor]. cbn. split; [done|].
    rewrite ld32_st32_eq, u32_small.
    + eapply flist_ext; [|exact H]. intros q b Hq Hb. apply ldb_st32_ne.
      destruct Hpa as [A1 _]. rewrite Forall_forall in Hp. destruct (Hp q Hq) as [A2 _].
      assert (q ≠ pa) by naive_solver. zl.
    + destruct l as [|q l]; cbn in H; [lia|]. destruct H as [-> _].
      inversion Hp as [|? ? Hq]; subst. apply page_ok_pos in Hq. zl.
Qed.

Lemma kfree_bad pa s : 0 <= pa < 4294967296 → ¬ page_ok pa → kfree pa s = Panic "kfree".
Proof.
  intros Hr Hb. unfold kfree.
  destruct (Z.eqb_spec (pa mod PGSIZE) 0); [|done]. destruct (Z.ltb_spec pa p_end); [done|].
  destruct (Z.leb_spec PHYSTOP pa); [done|]. destruct Hb. split; [done|lia].
Qed.

Lemma kenv_frame s s' :
  k_regs s' = k_regs s → k_cpu s' = k_cpu s → k_locks s' = k_locks s → kenv s → kenv s'.
Proof.
  intros H1 H2 H3 [[A1 A2 A3 A4] A5]. split; [split; by rewrite ?H1, ?H2|].
  destruct A5 as [n ?]. exists n. by rewrite H3.
Qed.
End kalloc.

Section kalloc_theorems.
Context `{P : Platform} {HP : PlatformOk P}.

(** C25: the allocator keeps its free list well formed (distinct,
    page-aligned, allocatable pages linked through memory).  [kalloc] returns
    0 exactly when the list is empty, changing nothing, and otherwise removes
    and returns its first page, writing nowhere.  [kfree] of any page that is
    not on the list, whatever it holds, links it in front by writing its first
    word and nothing else, and the next [kalloc] returns that page and leaves
    the list as it was; [kfree] of an address that is no allocatable page
    panics. *)
Theorem kalloc_kfree_spec s l :
  kenv s → kmem_inv s l →
  match l with
  | [] => kalloc s = Ok 0 s
  | p :: l' =>
      page_ok p ∧ p ∉ l' ∧
      ∃ s', kalloc s = Ok p s' ∧ k_mem s' = k_mem s ∧ kenv s' ∧ kmem_inv s' l'
  end ∧
  (∀ pa, page_ok pa → pa ∉ l →
     ∃ s', kfree pa s = Ok tt s' ∧ kenv s' ∧ kmem_inv s' (pa :: l) ∧
       (∀ a, ¬ (pa <= a < pa + 4) → ldb (k_mem s') a = ldb (k_mem s) a) ∧
       wp kalloc (λ r s'', r = pa ∧ kmem_inv s'' l) s') ∧
  (∀ pa, 0 <= pa < 4294967296 → ¬ page_ok pa → kfree pa s = Panic "kfree").
Proof.
  intros Hk Hi. split_and!; [|intros pa Hp Hni|intros pa; apply kfree_bad].
  - destruct l as [|p l']; [by apply kalloc_nil|]. destruct (kalloc_cons s p l' Hk Hi) as (E & Hi' & Hp & Hni).
    split_and!; [done|done|]. exists (pop_page s). split_and!; try done. by apply (kenv_frame s).
  - destruct (kfree_ok pa s l Hk Hi Hp Hni) as [E Hi'].
    assert (kenv (push_page pa s)) as Hk' by by apply (kenv_frame s).
    exists (push_page pa s). split_and!; [done..| |].
    + intros a Ha. apply ldb_st32_ne. lia.
    + destruct (kalloc_cons _ pa l Hk' Hi') as (E3 & Hi3 & _). by eapply wp_Ok.
Qed.

(** [kfree] panics on every address that is not an allocatable page:
    misaligned, inside the kernel image, or beyond physical memory. *)
Theorem kfree_panics_iff pa s l :
  0 <= pa < 4294967296 → kenv s → kmem_inv s l → pa ∉ l →
  kfree pa s = Panic "kfree" ↔ ¬ page_ok pa.
Proof.
  intros Hr Hk Hi Hni. split; [|by apply kfree_bad].
  intros E Hp. destruct (kfree_ok pa s l Hk Hi Hp Hni) as [E2 _]. congruence.
Qed.

(** The pages [p], [p + PGSIZE], ... in the order [freerange] frees them. *)
Definition pages_from (p : Z) (n : nat) : list Z :=
  map (λ i, p + Z.of_nat i * PGSIZE) (seq 0 n).

Lemma pages_from_S p n : pages_from p (S n) = p :: pages_from (p + PGSIZE) n.
Proof.
  unfold pages_from. cbn [seq map]. f_equal; [lia|]. rewrite <- seq_shift, map_map.
  apply map_ext. intros. lia.
Qed.

Lemma elem_of_pages_from p n q :
  q ∈ pages_from p n ↔ ∃ i, (i < n)%nat ∧ q = p + Z.of_nat i * PGSIZE.
Proof.
  unfold pages_from. rewrite list_elem_of_In, in_map_iff. setoid_rewrite in_seq.
  split; intros (i & ? & ?); exists i; split; try done; lia.
Qed.

Lemma freerange_loop_ok n : ∀ fuel p pa_end s l,
  (n < fuel)%nat → p mod PGSIZE = 0 → p_end <= p → pa_end <= PHYSTOP →
  p + Z.of_nat n * PGSIZE <= pa_end < p + Z.of_nat n * PGSIZE + PGSIZE →
  kenv s → kmem_inv s l → Forall (λ q, q < p) l →
  ∃ s', freerange_loop fuel p pa_end s = Ok tt s' ∧ kenv s'
      ∧ kmem_inv s' (rev (pages_from p n) ++ l).
Proof.
  induction n as [|n IH]; intros fuel p pa_end s l Hf Ha Hp He Hn Hk Hi Hl;
    (destruct fuel as [|fuel]; [lia|]); cbn [freerange_loop].
  - destruct (Z.leb_spec (p + PGSIZE) pa_end); [zl|]. by exists s.
  - destruct (Z.leb_spec (p + PGSIZE) pa_end); [|zl].
    assert (p ∉ l) as Hni.
    { intros Hin. rewrite Forall_forall in Hl. specialize (Hl p Hin). lia. }
    assert (page_ok p) as Hok by (split; [done|zl]).
    destruct (kfree_ok p s l Hk Hi Hok Hni) as [E Hi'].
    erewrite bind_Ok by exact E.
    destruct (IH fuel (p + PGSIZE) pa_end (push_page p s) (p :: l)) as (s' & E' & Hk' & Hi'');
      try (lia || zl); try done.
    { by apply (kenv_frame s). }
    { constructor; [zl|]. eapply Forall_impl; [exact Hl|]. cbn. intros. zl. }
    exists s'. split_and!; [done|done|]. rewrite pages_from_S. cbn [rev].
    by rewrite <- app_assoc.
Qed.

(** C26: after [kinit] every whole page between the end of the kernel image
    and PHYSTOP is on the free list, once each, highest address first. *)
Theorem kinit_frees_all s :
  kctx s → k_freelist s = 0 →
  let first := PGROUNDUP p_end in
  let n := Z.to_nat ((PHYSTOP - first) / PGSIZE) in
  ∃ s', kinit s = Ok tt s' ∧ kenv s' ∧ kmem_inv s' (rev (pages_from first n)).
Proof.
  intros Hk Hf first n. unfold kinit, initlock, set_lock. rewrite bind_modify. cbn.
  set (s1 := with_k_locks _ s). pose proof p_end_ok as Hend.
  assert (first = (p_end + 4095) / 4096 * 4096) as Hfirst by (apply PGROUNDUP_eq; zl).
  assert (kenv s1) as Hk1.
  { split; [destruct Hk; by split|]. exists "kmem". cbn. by rewrite lookup_insert_eq. }
  assert (kmem_inv s1 []) as Hi1 by (split; [done|constructor|constructor]).
  assert (first mod PGSIZE = 0 ∧ p_end <= first <= PHYSTOP) as [Hf1 Hf2]
    by (rewrite Hfirst; zl).
  assert (first + Z.of_nat n * PGSIZE <= PHYSTOP < first + Z.of_nat n * PGSIZE + PGSIZE) as Hn.
  { subst n. clearbody first. rewrite Z2Nat.id; zl. }
  destruct (freerange_loop_ok n (S n) first PHYSTOP s1 []) as (s' & E & Hk' & Hi');
    [lia|done|lia|lia|done|done|done|constructor|].
  exists s'. rewrite app_nil_r in Hi'. by split_and!.
Qed.
End kalloc_theorems.

(** Two free pages, 0x31000 before 0x30000. *)
Definition two_pages : kstate :=
  with_k_locks boot_locks
    (with_k_freelist 200704 (with_k_mem (st32 (st32 ∅ 200704 196608) 196608 0) kstate0)).

Lemma two_pages_env : kenv two_pages.
Proof. split; [split; cbn; done || lia|]. exists "lock". vm_compute. reflexivity. Qed.

Lemma two_pages_inv : kmem_inv (P := emu) two_pages [200704; 196608].
Proof.
  split.
  - vm_compute. done.
  - repeat constructor; cbn; done || zl.
  - repeat constructor; set_solver.
Qed.

Lemma kalloc_kfree_spec_witness :
  (∃ s', kalloc two_pages = Ok 200704 s' ∧ k_mem s' = k_mem two_pages ∧ kenv s' ∧ kmem_inv (P := emu) s' [196608]) ∧
  (∃ s', kfree (P := emu) 204800 two_pages = Ok tt s' ∧ kenv s' ∧
     kmem_inv (P := emu) s' [204800; 200704; 196608] ∧
     (∀ a, ¬ (204800 <= a < 204800 + 4) → ldb (k_mem s') a = ldb (k_mem two_pages) a) ∧
     wp kalloc (λ r s'', r = 204800 ∧ kmem_inv (P := emu) s'' [200704; 196608]) s') ∧
  kfree (P := emu) 4097 two_pages = Panic "kfree".
Proof.
  destruct (kalloc_kfree_spec (P := emu) two_pages [200704; 196608] two_pages_env two_pages_inv)
    as ((_ & _ & H1) & H2 & H3).
  split; [exact H1|]. split; [apply H2|apply H3].
  - split; cbn; done || zl.
  - set_solver.
  - lia.
  - intros [H _]. discriminate H.
Defined.

Lemma kfree_panics_iff_witness :
  kfree (P := emu) 4097 two_pages = Panic "kfree" ↔ ¬ page_ok (P := emu) 4097.
Proof.
  apply (kfree_panics_iff (P := emu) 4097 two_pages [200704; 196608]).
  - lia.
  - apply two_pages_env.
  - apply two_pages_inv.
  - set_solver.
Defined.

Lemma kinit_frees_all_witness :
  ∃ s', kinit (P := emu) kstate0 = Ok tt s' ∧ kenv s'
      ∧ kmem_inv (P := emu) s'
          (rev (pages_from (PGROUNDUP 196608) (Z.to_nat ((PHYSTOP - PGROUNDUP 196608) / PGSIZE)))).
Proof.
  apply (kinit_frees_all (P := emu) kstate0).
  - split; cbn; done || lia.
  - reflexivity.
Defined.
