(* ===== verification/Vm.v ===== *)
(** * kernel/vm.c: page tables, user memory, and copying across the boundary

    Page tables live in physical memory: a two-level Sv32 table of 1024
    32-bit entries per page.  A [pagetable_t] and a [pte_t *] are physical
    addresses, 0 being null.  Kernel buffers that user data is copied to or
    from are byte lists: [copyout] takes the source bytes, [copyin] and
    [copyinstr] return the bytes they stored with their return value. *)

From S2P Require Import Prelude Machine State CString Spinlock Kalloc.

Section vm.
Context `{P : Platform}.

(** ** Memory access *)
Definition load32 (a : Z) : KM Z := gets (λ s, ld32 (k_mem s) a).
Definition store32 (a v : Z) : KM unit := modify (λ s, with_k_mem (st32 (k_mem s) a v) s).
Definition kmemset (dst c n : Z) : KM unit :=
  modify (λ s, with_k_mem (memset (k_mem s) dst c n) s).
Definition kmemmove (dst src n : Z) : KM unit :=
  modify (λ s, with_k_mem (memmove (k_mem s) dst src n) s).

(** Copying a kernel buffer into memory. *)
Fixpoint stbytes (m : mem) (a : Z) (l : list Z) : mem :=
  match l with
  | [] => m
  | b :: l' => stbytes (stb m a b) (a + 1) l'
  end.
Definition put_bytes (a : Z) (l : list Z) : KM unit :=
  modify (λ s, with_k_mem (stbytes (k_mem s) a l) s).
Definition get_bytes (a n : Z) : KM (list Z) := gets (λ s, ldbytes (k_mem s) a (Z.to_nat n)).

(** ** walk *)
(** The loop of [walk] from [level] down; [None] is the early [return 0]. *)
Fixpoint walk_loop (level : nat) (pagetable va : Z) (alloc : bool) : KM (option Z) :=
  match level with
  | O => mret (Some pagetable)
  | S l =>
      let pte := pagetable + 4 * PX (Z.of_nat level) va in
      e ← load32 pte;
      if has e PTE_V then walk_loop l (PTE2PA e) va alloc
      else if negb alloc then mret None
      else
        pt ← kalloc;
        if pt =? 0 then mret None else
        kmemset pt 0 PGSIZE;;
        store32 pte (Z.lor (PA2PTE pt) PTE_V);;
        walk_loop l pt va alloc
  end.

Definition walk (pagetable va : Z) (alloc : bool) : KM Z :=
  if MAXVA <=? va then panic "walk" else
  r ← walk_loop 1 pagetable va alloc;
  match r with
  | None => mret 0
  | Some pt => mret (pt + 4 * PX 0 va)
  end.

Definition walkaddr (pagetable va : Z) : KM Z :=
  if MAXVA <=? va then mret 0 else
  pte ← walk pagetable va false;
  if pte =? 0 then mret 0 else
  e ← load32 pte;
  if negb (has e PTE_V) then mret 0 else
  if negb (has e PTE_U) then mret 0 else
  mret (PTE2PA e).

Definition ismapped (pagetable va : Z) : KM Z :=
  pte ← walk pagetable va false;
  if pte =? 0 then mret 0 else
  e ← load32 pte;
  mret (if has e PTE_V then 1 else 0).

(** ** mappages *)
Fixpoint mappages_loop (fuel : nat) (pagetable a last pa perm : Z) : KM Z :=
  match fuel with
  | O => spin
  | S f =>
      pte ← walk pagetable a true;
      if pte =? 0 then mret (-1) else
      e ← load32 pte;
      if has e PTE_V then panic "mappages: remap" else
      store32 pte (Z.lor (Z.lor (PA2PTE pa) perm) PTE_V);;
      if a =? last then mret 0 else
      mappages_loop f pagetable (u32 (a + PGSIZE)) last (u32 (pa + PGSIZE)) perm
  end.

(** The loop visits each page once, so the number of pages is enough fuel. *)
Definition mappages (pagetable va size pa perm : Z) : KM Z :=
  if negb (va mod PGSIZE =? 0) then panic "mappages: va not aligned" else
  if negb (size mod PGSIZE =? 0) then panic "mappages: size not aligned" else
  if size =? 0 then panic "mappages: size" else
  mappages_loop (Z.to_nat (size / PGSIZE)) pagetable va (u32 (va + size - PGSIZE)) pa perm.

(** ** The kernel page table *)
Definition kvmmap (kpgtbl va pa sz perm : Z) : KM unit :=
  r ← mappages kpgtbl va sz pa perm;
  when (negb (r =? 0)) (panic "kvmmap").

(** kernel/proc.c: proc_mapstacks *)
Definition proc_mapstacks (kpgtbl : Z) : KM unit :=
  for_each (seq 0 NPROC) (λ p,
    pa ← kalloc;
    if pa =? 0 then panic "kalloc" else
    kvmmap kpgtbl (KSTACK (Z.of_nat p)) pa PGSIZE (Z.lor PTE_R PTE_W)).

Definition MMIO_BASE : Z := 66060288.     (* 0x03F00000 *)
Definition BOOT_STACK : Z := 66056192.    (* 0x03EFF000 *)

Definition kvmmake : KM Z :=
  kpgtbl ← kalloc;
  kmemset kpgtbl 0 PGSIZE;;
  kvmmap kpgtbl MMIO_BASE MMIO_BASE 1048576 (Z.lor PTE_R PTE_W);;
  kvmmap kpgtbl KERNBASE KERNBASE (PHYSTOP - KERNBASE) (Z.lor (Z.lor PTE_R PTE_W) PTE_X);;
  when (PHYSTOP <? MMIO_BASE)
    (kvmmap kpgtbl BOOT_STACK BOOT_STACK PGSIZE (Z.lor PTE_R PTE_W));;
  kvmmap kpgtbl TRAMPOLINE p_trampoline PGSIZE (Z.lor PTE_R PTE_X);;
  proc_mapstacks kpgtbl;;
  mret kpgtbl.

Definition kvminit : KM unit := kpgtbl ← kvmmake; modify (with_k_kpgtbl kpgtbl).

Definition kvminithart : KM unit :=
  modify (λ s, with_k_regs (with_r_satp (MAKE_SATP (k_kpgtbl s)) (k_regs s)) s).

(** ** User page tables *)
Definition uvmcreate : KM Z :=
  pagetable ← kalloc;
  if pagetable =? 0 then mret 0 else
  kmemset pagetable 0 PGSIZE;;
  mret pagetable.

(** [for(a = va; a < va + npages*PGSIZE; a += PGSIZE)] *)
Fixpoint uvmunmap_loop (fuel : nat) (pagetable a lim : Z) (do_free : bool) : KM unit :=
  match fuel with
  | O => spin
  | S f =>
      if lim <=? a then mret tt else
      pte ← walk pagetable a false;
      if pte =? 0 then uvmunmap_loop f pagetable (u32 (a + PGSIZE)) lim do_free else
      e ← load32 pte;
      if negb (has e PTE_V) then uvmunmap_loop f pagetable (u32 (a + PGSIZE)) lim do_free else
      when do_free (kfree (PTE2PA e));;
      store32 pte 0;;
      uvmunmap_loop f pagetable (u32 (a + PGSIZE)) lim do_free
  end.

Definition uvmunmap (pagetable va npages : Z) (do_free : bool) : KM unit :=
  if negb (va mod PGSIZE =? 0) then panic "uvmunmap: not aligned" else
  uvmunmap_loop (S (Z.to_nat npages)) pagetable va (u32 (va + u32 (npages * PGSIZE))) do_free.

Definition uvmdealloc (pagetable oldsz newsz : Z) : KM Z :=
  if oldsz <=? newsz then mret oldsz else
  when (PGROUNDUP newsz <? PGROUNDUP oldsz)
    (let npages := (PGROUNDUP oldsz - PGROUNDUP newsz) / PGSIZE in
     uvmunmap pagetable (PGROUNDUP newsz) npages true);;
  mret newsz.

Fixpoint uvmalloc_loop (fuel : nat) (pagetable a oldsz newsz xperm : Z) : KM Z :=
  match fuel with
  | O => spin
  | S f =>
      if newsz <=? a then mret newsz else
      mem ← kalloc;
      if mem =? 0 then uvmdealloc pagetable a oldsz;; mret 0 else
      kmemset mem 0 PGSIZE;;
      r ← mappages pagetable a PGSIZE mem (Z.lor (Z.lor PTE_R PTE_U) xperm);
      if negb (r =? 0) then kfree mem;; uvmdealloc pagetable a oldsz;; mret 0 else
      uvmalloc_loop f pagetable (u32 (a + PGSIZE)) oldsz newsz xperm
  end.

Definition uvmalloc (pagetable oldsz newsz xperm : Z) : KM Z :=
  if newsz <? oldsz then mret oldsz else
  let oldsz := PGROUNDUP oldsz in
  uvmalloc_loop (S (Z.to_nat ((newsz - oldsz) / PGSIZE + 1))) pagetable oldsz oldsz newsz xperm.

(** The recursion descends one level of the tree per call, so three levels
    of fuel serve a two-level table and the entries below it. *)
Fixpoint freewalk (fuel : nat) (pagetable : Z) : KM unit :=
  match fuel with
  | O => spin
  | S f =>
      for_each (seq 0 1024) (λ i,
        let a := pagetable + 4 * Z.of_nat i in
        pte ← load32 a;
        if has pte PTE_V && (Z.land pte (Z.lor (Z.lor PTE_R PTE_W) PTE_X) =? 0)
        then freewalk f (PTE2PA pte);; store32 a 0
        else when (has pte PTE_V) (panic "freewalk: leaf"));;
      kfree pagetable
  end.

Definition uvmfree (pagetable sz : Z) : KM unit :=
  when (0 <? sz) (uvmunmap pagetable 0 (PGROUNDUP sz / PGSIZE) true);;
  freewalk 3 pagetable.

Fixpoint uvmcopy_loop (fuel : nat) (old new i sz : Z) : KM Z :=
  match fuel with
  | O => spin
  | S f =>
      if sz <=? i then mret 0 else
      pte ← walk old i false;
      if pte =? 0 then uvmcopy_loop f old new (u32 (i + PGSIZE)) sz else
      e ← load32 pte;
      if negb (has e PTE_V) then uvmcopy_loop f old new (u32 (i + PGSIZE)) sz else
      let pa := PTE2PA e in
      let flags := PTE_FLAGS e in
      mem ← kalloc;
      if mem =? 0 then uvmunmap new 0 (i / PGSIZE) true;; mret (-1) else
      kmemmove mem pa PGSIZE;;
      r ← mappages new i PGSIZE mem flags;
      if negb (r =? 0) then kfree mem;; uvmunmap new 0 (i / PGSIZE) true;; mret (-1) else
      uvmcopy_loop f old new (u32 (i + PGSIZE)) sz
  end.

Definition uvmcopy (old new sz : Z) : KM Z :=
  uvmcopy_loop (S (Z.to_nat (sz / PGSIZE + 1))) old new 0 sz.

Definition uvmclear (pagetable va : Z) : KM unit :=
  pte ← walk pagetable va false;
  if pte =? 0 then panic "uvmclear" else
  e ← load32 pte;
  store32 pte (Z.land e (u32 (Z.lnot PTE_U))).

(** ** vmfault *)
Definition getproc (i : nat) : KM proc := o ← gets (λ s, k_procs s !! i); deref o.

Definition vmfault (pagetable va : Z) (read : bool) : KM Z :=
  o ← myproc;
  i ← deref o;
  p ← getproc i;
  if p_sz p <=? va then mret 0 else
  let va := PGROUNDDOWN va in
  mapped ← ismapped pagetable va;
  if negb (mapped =? 0) then mret 0 else
  mem ← kalloc;
  if mem =? 0 then mret 0 else
  kmemset mem 0 PGSIZE;;
  r ← mappages (p_pagetable p) va PGSIZE mem (Z.lor (Z.lor PTE_W PTE_U) PTE_R);
  if negb (r =? 0) then kfree mem;; mret 0 else
  mret mem.

(** ** copyout, copyin, copyinstr *)
(** Each round copies at least one byte, so the length is enough fuel. *)
Fixpoint copyout_loop (fuel : nat) (pagetable dstva : Z) (src : list Z) : KM Z :=
  match src with
  | [] => mret 0
  | _ :: _ =>
    match fuel with
    | O => spin
    | S f =>
      let va0 := PGROUNDDOWN dstva in
      if MAXVA <=? va0 then mret (-1) else
      pa0 ← walkaddr pagetable va0;
      pa0 ← (if pa0 =? 0 then vmfault pagetable va0 false else mret pa0);
      if pa0 =? 0 then mret (-1) else
      pte ← walk pagetable va0 false;
      e ← load32 pte;
      if negb (has e PTE_W) then mret (-1) else
      let n := Z.min (PGSIZE - (dstva - va0)) (Z.of_nat (length src)) in
      put_bytes (pa0 + (dstva - va0)) (take (Z.to_nat n) src);;
      copyout_loop f pagetable (u32 (va0 + PGSIZE)) (drop (Z.to_nat n) src)
    end
  end.

Definition copyout (pagetable dstva : Z) (src : list Z) : KM Z :=
  copyout_loop (length src) pagetable dstva src.

Fixpoint copyin_loop (fuel : nat) (pagetable srcva len : Z) (dst : list Z) : KM (Z * list Z) :=
  if len <=? 0 then mret (0, dst) else
  match fuel with
  | O => spin
  | S f =>
      let va0 := PGROUNDDOWN srcva in
      pa0 ← walkaddr pagetable va0;
      pa0 ← (if pa0 =? 0 then vmfault pagetable va0 false else mret pa0);
      if pa0 =? 0 then mret (-1, dst) else
      let n := Z.min (PGSIZE - (srcva - va0)) len in
      bs ← get_bytes (pa0 + (srcva - va0)) n;
      copyin_loop f pagetable (u32 (va0 + PGSIZE)) (len - n) (dst ++ bs)
  end.

Definition copyin (pagetable srcva len : Z) : KM (Z * list Z) :=
  copyin_loop (Z.to_nat len) pagetable srcva len [].

(** The inner loop: up to [n] bytes from [p], stopping after a NUL; the
    bytes stored, and whether a NUL was met. *)
Fixpoint copystr_page (n : nat) (m : mem) (p : Z) : list Z * bool :=
  match n with
  | O => ([], false)
  | S n' => if ldb m p =? 0 then ([0], true)
            else let '(l, got) := copystr_page n' m (p + 1) in (ldb m p :: l, got)
  end.

Fixpoint copyinstr_loop (fuel : nat) (pagetable srcva max : Z) (dst : list Z) : KM (Z * list Z) :=
  if max <=? 0 then mret (-1, dst) else
  match fuel with
  | O => spin
  | S f =>
      let va0 := PGROUNDDOWN srcva in
      pa0 ← walkaddr pagetable va0;
      if pa0 =? 0 then mret (-1, dst) else
      let n := Z.min (PGSIZE - (srcva - va0)) max in
      m ← gets k_mem;
      let '(l, got_null) := copystr_page (Z.to_nat n) m (pa0 + (srcva - va0)) in
      if got_null : bool then mret (0, dst ++ l)
      else copyinstr_loop f pagetable (u32 (va0 + PGSIZE)) (max - n) (dst ++ l)
  end.

Definition copyinstr (pagetable srcva max : Z) : KM (Z * list Z) :=
  copyinstr_loop (Z.to_nat max) pagetable srcva max [].
End vm.
