(* ===== verification/VmSpec.v ===== *)
(** * Correctness of the page-table code of vm.c

    [pte_of m pt va] is the leaf entry for [va] in the table at [pt], 0 when
    the table has no second-level page there.  [vm_inv s pt ps fl] is the
    ownership invariant of a page table: the root [pt], its second-level
    pages [ps] and the free list [fl] are distinct allocatable pages, the
    valid entries of the root point at pages of [ps], no two at the same one,
    and [fl] is the allocator's free list. *)

From S2P Require Import Prelude Machine State CString Spinlock Emu Kalloc Vm.

Section vmspec.
Context `{P : Platform} {HP : PlatformOk P}.

Definition l1e (m : mem) (pt i : Z) : Z := ld32 m (pt + 4 * i).
Definition pte_addr (m : mem) (pt va : Z) : option Z :=
  if has (l1e m pt (PX 1 va)) PTE_V
  then Some (PTE2PA (l1e m pt (PX 1 va)) + 4 * PX 0 va) else None.
Definition pte_of (m : mem) (pt va : Z) : Z :=
  match pte_addr m pt va with Some a => ld32 m a | None => 0 end.

Record pt_wf (m : mem) (pt : Z) (ps : list Z) : Prop := {
  wf_root : page_ok pt;
  wf_pages : Forall page_ok ps;
  wf_root_ps : pt ∉ ps;
  wf_l2 : ∀ i, 0 <= i < 1024 → has (l1e m pt i) PTE_V = true → PTE2PA (l1e m pt i) ∈ ps;
  wf_inj : ∀ i j, 0 <= i < 1024 → 0 <= j < 1024 →
    has (l1e m pt i) PTE_V = true → has (l1e m pt j) PTE_V = true →
    PTE2PA (l1e m pt i) = PTE2PA (l1e m pt j) → i = j }.

Record vm_inv (s : kstate) (pt : Z) (ps fl : list Z) : Prop := {
  vi_env : kenv s;
  vi_kmem : kmem_inv s fl;
  vi_wf : pt_wf (k_mem s) pt ps;
  vi_nodup : NoDup (pt :: ps ++ fl) }.

(** Only memory and the free list differ. *)
Definition memrel (s s' : kstate) : Prop :=
  s' = with_k_mem (k_mem s') (with_k_freelist (k_freelist s') s).

(** Bytes outside the pages [Q] are the same. *)
Definition frame (Q : list Z) (m m' : mem) : Prop :=
  ∀ a, (∀ p, p ∈ Q → ¬ in_page p a) → ldb m' a = ldb m a.

(** What page-table operations may do: turn free pages into table pages and
    back, and write inside the pages they own. *)
Record vm_step (pt : Z) (ps fl : list Z) (s : kstate) (ps' fl' : list Z) (s' : kstate) : Prop := {
  st_inv : vm_inv s' pt ps' fl';
  st_perm : ps' ++ fl' ≡ₚ ps ++ fl;
  st_rel : memrel s s';
  st_frame : frame (pt :: ps ++ fl) (k_mem s) (k_mem s') }.

(** ** Bookkeeping *)
Lemma memrel_refl s : memrel s s.
Proof. by destruct s. Qed.
Lemma memrel_trans s1 s2 s3 : memrel s1 s2 → memrel s2 s3 → memrel s1 s3.
Proof. unfold memrel. intros -> ->. by destruct s1. Qed.
Lemma memrel_env s s' : memrel s s' → kenv s → kenv s'.
Proof. unfold memrel. intros -> H. by apply (kenv_frame s). Qed.
Lemma memrel_mem m s : memrel s (with_k_mem m s).
Proof. by destruct s. Qed.
Lemma memrel_freelist f s : memrel s (with_k_freelist f s).
Proof. by destruct s. Qed.

Lemma frame_refl Q m : frame Q m m.
Proof. by intros a _. Qed.
Lemma frame_trans Q m1 m2 m3 : frame Q m1 m2 → frame Q m2 m3 → frame Q m1 m3.
Proof. intros H1 H2 a Ha. rewrite H2 by done. by apply H1. Qed.
Lemma frame_weaken Q Q' m m' : (∀ p, p ∈ Q → p ∈ Q') → frame Q m m' → frame Q' m m'.
Proof. intros HQ H a Ha. apply H. intros p Hp. apply Ha. by apply HQ. Qed.

#[global] Instance frame_Proper : Proper ((≡ₚ) ==> eq ==> eq ==> iff) frame.
Proof.
  intros Q Q' HQ ? ? <- ? ? <-. unfold frame. by setoid_rewrite HQ.
Qed.

Lemma vm_step_refl pt ps fl s : vm_inv s pt ps fl → vm_step pt ps fl s ps fl s.
Proof. intros. split; [done|done|apply memrel_refl|apply frame_refl]. Qed.
Lemma vm_step_trans pt ps1 fl1 s1 ps2 fl2 s2 ps3 fl3 s3 :
  vm_step pt ps1 fl1 s1 ps2 fl2 s2 → vm_step pt ps2 fl2 s2 ps3 fl3 s3 →
  vm_step pt ps1 fl1 s1 ps3 fl3 s3.
Proof.
  intros [H1 H2 H3 H4] [K1 K2 K3 K4]. split; [done|by etrans|by eapply memrel_trans|].
  eapply frame_trans; [exact H4|]. eapply frame_weaken; [|exact K4].
  intros p. rewrite !elem_of_cons. by rewrite H2.
Qed.

(** ** Page arithmetic *)
Lemma page_ok_aligned p : page_ok p → p mod 4096 = 0.
Proof. by intros [H _]. Qed.

Lemma in_page_word p i b :
  0 <= i < 1024 → p + 4 * i <= b < p + 4 * i + 4 → in_page p b.
Proof. unfold in_page. zl. Qed.

Lemma has_V_or e : has (Z.lor e PTE_V) PTE_V = true.
Proof.
  unfold has. apply negb_true_iff, Z.eqb_neq. intros H.
  apply (f_equal (λ z, Z.testbit z 0)) in H. rewrite Z.land_spec, Z.lor_spec in H.
  change (Z.testbit PTE_V 0) with true in H. rewrite orb_true_r in H. discriminate.
Qed.

Lemma has_0 f : has 0 f = false.
Proof. done. Qed.

(** The entry written for page [pa] with flag bits [fl]. *)
Lemma PTE2PA_entry pa fl :
  0 <= pa < 4294967296 → pa mod 4096 = 0 → 0 <= fl < 4096 →
  PTE2PA (Z.lor (Z.lor (PA2PTE pa) fl) PTE_V) = pa
  ∧ 0 <= Z.lor (Z.lor (PA2PTE pa) fl) PTE_V < 4294967296.
Proof.
  intros Hpa Ha Hfl. rewrite PA2PTE_eq by done. rewrite Ha, Z.sub_0_r.
  rewrite <- Z.lor_assoc. assert (0 <= Z.lor fl PTE_V < 4096) as Hf
    by (apply lor_range12; done).
  rewrite lor_page_flags by done. rewrite PTE2PA_eq.
  revert Hf. generalize (Z.lor fl PTE_V). intros f Hf. zl.
Qed.

Lemma PTE2PA_table pa :
  0 <= pa < 4294967296 → pa mod 4096 = 0 →
  PTE2PA (u32 (Z.lor (PA2PTE pa) PTE_V)) = pa
  ∧ has (u32 (Z.lor (PA2PTE pa) PTE_V)) PTE_V = true.
Proof.
  intros Hpa Ha. destruct (PTE2PA_entry pa 0) as [E R]; [done|done|lia|].
  rewrite Z.lor_0_r in E, R. rewrite u32_small by done. split; [done|apply has_V_or].
Qed.

Lemma vpn_split va :
  0 <= va < MAXVA → va / 4096 = PX 1 va * 1024 + PX 0 va.
Proof. rewrite MAXVA_eq. intros. rewrite PX1_eq, PX0_eq by lia. zl. Qed.

Lemma PX_vpn l va va' : va / 4096 = va' / 4096 → 0 <= va < MAXVA → 0 <= va' < MAXVA →
  l = 0 ∨ l = 1 → PX l va = PX l va'.
Proof. rewrite MAXVA_eq. intros H ? ? [-> | ->]; rewrite ?PX1_eq, ?PX0_eq by lia; zl. Qed.

(** ** Entries under changes of memory *)
Lemma l1e_ext m m' pt i :
  0 <= i < 1024 → (∀ a, in_page pt a → ldb m' a = ldb m a) → l1e m' pt i = l1e m pt i.
Proof. intros Hi H. apply ld32_ext. intros b Hb. apply H. by eapply in_page_word. Qed.

Lemma pte_addr_ext m m' pt va :
  (∀ a, in_page pt a → ldb m' a = ldb m a) → pte_addr m' pt va = pte_addr m pt va.
Proof. intros H. unfold pte_addr. by rewrite (l1e_ext m) by (done || apply PX_range). Qed.

Lemma pt_wf_ext m m' pt ps :
  (∀ a, in_page pt a → ldb m' a = ldb m a) → pt_wf m pt ps → pt_wf m' pt ps.
Proof.
  intros H [H1 H2 H3 H4 H5]. split; [done..| |].
  - intros i Hi. rewrite (l1e_ext m) by done. by apply H4.
  - intros i j Hi Hj. rewrite (l1e_ext m m' pt i), (l1e_ext m m' pt j) by done. by apply H5.
Qed.

Lemma pte_addr_page m pt ps va a :
  pt_wf m pt ps → pte_addr m pt va = Some a →
  ∃ p, p ∈ ps ∧ p = PTE2PA (l1e m pt (PX 1 va)) ∧ has (l1e m pt (PX 1 va)) PTE_V = true
     ∧ a = p + 4 * PX 0 va ∧ page_ok p.
Proof.
  intros Hwf. unfold pte_addr. destruct (has _ _) eqn:E; [|done]. intros [= <-].
  eexists. pose proof (PX_range 1 va) as R. split_and!; [by eapply wf_l2|done..|].
  eapply (proj1 (Forall_forall _ _) (wf_pages _ _ _ Hwf)). by eapply wf_l2.
Qed.

Lemma pte_of_ext m m' pt ps va :
  pt_wf m pt ps → (∀ p a, p ∈ pt :: ps → in_page p a → ldb m' a = ldb m a) →
  pte_of m' pt va = pte_of m pt va.
Proof.
  intros Hwf H. unfold pte_of. rewrite (pte_addr_ext m) by (intros; apply (H pt); set_solver).
  destruct (pte_addr m pt va) as [a|] eqn:E; [|done].
  destruct (pte_addr_page _ _ _ _ _ Hwf E) as (p & Hp & _ & _ & -> & _).
  apply ld32_ext. intros b Hb. apply (H p); [set_solver|].
  eapply in_page_word; [apply (PX_range 0 va)|done].
Qed.

(** Entries for different pages are different words. *)
Lemma pte_addr_disjoint m pt ps va va' a a' :
  pt_wf m pt ps → 0 <= va < MAXVA → 0 <= va' < MAXVA →
  pte_addr m pt va = Some a → pte_addr m pt va' = Some a' →
  va / 4096 ≠ va' / 4096 → a + 4 <= a' ∨ a' + 4 <= a.
Proof.
  intros Hwf Hva Hva' Ha Ha' Hne.
  destruct (pte_addr_page _ _ _ _ _ Hwf Ha) as (p & Hp & Ep & Vp & -> & Okp).
  destruct (pte_addr_page _ _ _ _ _ Hwf Ha') as (q & Hq & Eq & Vq & -> & Okq).
  pose proof (PX_range 0 va). pose proof (PX_range 0 va').
  apply page_ok_aligned in Okp, Okq.
  destruct (decide (p = q)) as [->|Hpq]; [|zl].
  assert (PX 1 va = PX 1 va') as E1.
  { eapply (wf_inj _ _ _ Hwf); try apply PX_range; try done. congruence. }
  rewrite (vpn_split va), (vpn_split va') in Hne by done. lia.
Qed.

(** ** Writing a leaf entry *)
Lemma vm_inv_mem s pt ps fl m' :
  vm_inv s pt ps fl →
  (∀ p a, p = pt ∨ p ∈ fl → in_page p a → ldb m' a = ldb (k_mem s) a) →
  vm_inv (with_k_mem m' s) pt ps fl.
Proof.
  intros [H1 H2 H3 H4] H. split; [by apply (kenv_frame s)| | |done].
  - eapply kmem_inv_frame; [..|exact H2]; [done|]. intros p a Hp. apply H. by right.
  - eapply pt_wf_ext; [|exact H3]. intros a. apply H. by left.
Qed.

Lemma vi_page s pt ps fl p : vm_inv s pt ps fl → p ∈ pt :: ps ++ fl → page_ok p.
Proof.
  intros [_ [_ H2 _] [H3 H4 _ _ _] _]. rewrite Forall_forall in H2, H4.
  rewrite elem_of_cons, elem_of_app. intros [->|[?|?]]; auto.
Qed.

Lemma vi_root_ne s pt ps fl p : vm_inv s pt ps fl → p ∈ ps ++ fl → p ≠ pt.
Proof. intros [_ _ _ [H _]%NoDup_cons] Hp ->. done. Qed.

Lemma vi_disjoint s pt ps fl p q a :
  vm_inv s pt ps fl → p ∈ ps → q = pt ∨ q ∈ fl → in_page p a → in_page q a → False.
Proof.
  intros Hi Hp Hq. apply pages_disjoint.
  { eapply page_ok_aligned, vi_page; [exact Hi|set_solver]. }
  { eapply page_ok_aligned, vi_page; [exact Hi|set_solver]. }
  pose proof (vi_nodup _ _ _ _ Hi) as [Hn1 Hn2]%NoDup_cons.
  apply NoDup_app in Hn2 as (_ & Hn2 & _). intros ->. destruct Hq as [->|Hq]; set_solver.
Qed.

Lemma store_leaf s pt ps fl va a v :
  vm_inv s pt ps fl → 0 <= va < MAXVA → pte_addr (k_mem s) pt va = Some a →
  let s' := with_k_mem (st32 (k_mem s) a v) s in
  vm_step pt ps fl s ps fl s' ∧
  ∀ va', 0 <= va' < MAXVA →
    pte_addr (k_mem s') pt va' = pte_addr (k_mem s) pt va' ∧
    pte_of (k_mem s') pt va' =
      if decide (va' / 4096 = va / 4096) then u32 v else pte_of (k_mem s) pt va'.
Proof.
  intros Hi Hva Ha s'. pose proof (vi_wf _ _ _ _ Hi) as Hwf.
  destruct (pte_addr_page _ _ _ _ _ Hwf Ha) as (p & Hp & _ & _ & E & Hok).
  pose proof (PX_range 0 va) as HR.
  assert (∀ b, ¬ in_page p b → ldb (k_mem s') b = ldb (k_mem s) b) as Hout.
  { intros b Hb. apply ldb_st32_ne. destruct (decide (b < a ∨ a + 4 <= b)); [done|].
    destruct Hb. rewrite E in *. eapply in_page_word; [exact HR|lia]. }
  assert (∀ q b, q = pt ∨ q ∈ fl → in_page q b → ldb (k_mem s') b = ldb (k_mem s) b) as Hfr.
  { intros q b Hq Hb. apply Hout. intros Hpb. by eapply vi_disjoint. }
  split; [split; [by apply vm_inv_mem|done|apply memrel_mem|]|].
  { intros b Hb. apply Hout, Hb. set_solver. }
  intros va' Hva'. assert (pte_addr (k_mem s') pt va' = pte_addr (k_mem s) pt va') as Ea.
  { apply pte_addr_ext. intros b. apply Hfr. by left. }
  split; [done|]. unfold pte_of. rewrite Ea. case_decide as Hd.
  - assert (pte_addr (k_mem s) pt va' = Some a) as ->.
    { rewrite <- Ha. unfold pte_addr. by rewrite !(PX_vpn _ va' va) by auto. }
    apply ld32_st32_eq.
  - destruct (pte_addr (k_mem s) pt va') as [a'|] eqn:E'; [|done].
    apply ld32_st32_ne. destruct (pte_addr_disjoint _ _ _ _ _ _ _ Hwf Hva Hva' Ha E'); [done|lia..].
Qed.

(** ** walk *)
Lemma walk_false pt va s :
  va < MAXVA → walk pt va false s = Ok (default 0 (pte_addr (k_mem s) pt va)) s.
Proof.
  intros H. unfold walk. destruct (Z.leb_spec MAXVA va); [lia|]. cbn [walk_loop].
  unfold load32. rewrite bind_assoc, bind_gets. unfold pte_addr, l1e.
  change (Z.of_nat 1) with 1. by destruct (has _ _).
Qed.

Lemma pte_addr_pos m pt ps va a : pt_wf m pt ps → pte_addr m pt va = Some a → 0 < a.
Proof.
  intros Hwf Ha. destruct (pte_addr_page _ _ _ _ _ Hwf Ha) as (p & _ & _ & _ & -> & Hok).
  apply page_ok_pos in Hok. pose proof (PX_range 0 va). lia.
Qed.

(** Hanging a zeroed page [p] under root slot [i]. *)
Definition add_table (p pt i : Z) (m : mem) : mem :=
  st32 (memset m p 0 PGSIZE) (pt + 4 * i) (Z.lor (PA2PTE p) PTE_V).

Lemma ldb_add_table_ne p pt i m a :
  page_ok p → 0 <= i < 1024 → ¬ in_page p a → ¬ in_page pt a → ldb (add_table p pt i m) a = ldb m a.
Proof.
  intros Hp Hi Ha Hb. unfold add_table. rewrite ldb_st32_ne.
  - apply page_ok_pos in Hp. rewrite ldb_memset by zl. by rewrite decide_False.
  - destruct (decide (a < pt + 4 * i ∨ pt + 4 * i + 4 <= a)); [done|].
    destruct Hb. eapply in_page_word; [exact Hi|lia].
Qed.

Lemma l1e_add_table p pt i j m :
  page_ok p → page_ok pt → p ≠ pt → 0 <= i < 1024 → 0 <= j < 1024 →
  l1e (add_table p pt i m) pt j =
    if decide (j = i) then u32 (Z.lor (PA2PTE p) PTE_V) else l1e m pt j.
Proof.
  intros Hp Hpt Hne Hi Hj. unfold l1e, add_table. case_decide as Hd.
  - rewrite Hd. apply ld32_st32_eq.
  - rewrite ld32_st32_ne by lia. apply ld32_ext. intros b Hb.
    pose proof (page_ok_pos p Hp). rewrite ldb_memset by zl. apply decide_False.
    destruct Hp as [Hp _], Hpt as [Hpt _]. zl.
Qed.

Lemma ldb_add_table_page p pt i m a :
  page_ok p → page_ok pt → p ≠ pt → 0 <= i < 1024 → in_page p a → ldb (add_table p pt i m) a = 0.
Proof.
  intros Hp Hpt Hne Hi Ha. pose proof (page_ok_pos p Hp). unfold add_table. rewrite ldb_st32_ne.
  - rewrite ldb_memset by zl. by apply decide_True.
  - destruct Hp as [Hp _], Hpt as [Hpt _]. unfold in_page in Ha. zl.
Qed.

Lemma add_table_step s pt ps p fl i :
  vm_inv s pt ps (p :: fl) → 0 <= i < 1024 → has (l1e (k_mem s) pt i) PTE_V = false →
  vm_step pt ps (p :: fl) s (p :: ps) fl
    (with_k_mem (add_table p pt i (k_mem s)) (pop_page s)).
Proof.
  intros Hi Hir Hv. pose proof Hi as [He Hk Hwf Hnd]. set (s' := with_k_mem _ _).
  assert (page_ok p) as Hp by (eapply vi_page; [exact Hi|set_solver]).
  destruct Hwf as [Hpt Hps Hnin Hl2 Hinj].
  apply NoDup_cons in Hnd as [Hn1 Hn2]. rewrite <- Permutation_middle in Hn1, Hn2.
  pose proof Hn2 as [Hn3 Hn4]%NoDup_cons.
  assert (p ≠ pt) as Hne by set_solver.
  destruct (PTE2PA_table p) as [T1 T2]; [apply page_ok_pos in Hp; zl|apply Hp|].
  destruct (kalloc_cons s p fl He Hk) as (_ & Hk' & _ & Hni).
  assert (∀ j, 0 <= j < 1024 → l1e (k_mem s') pt j =
    if decide (j = i) then u32 (Z.lor (PA2PTE p) PTE_V) else l1e (k_mem s) pt j) as HL
    by (intros; by apply l1e_add_table).
  split; [split|by rewrite <- Permutation_middle
         |eapply memrel_trans; [apply memrel_freelist|apply memrel_mem]|].
  - by apply (kenv_frame s).
  - eapply kmem_inv_frame; [..|exact Hk']; [done|]. intros q a Hq Ha.
    assert (page_ok q) as Hqk by (eapply vi_page; [exact Hi|set_solver]).
    apply ldb_add_table_ne; [done|done|..]; intros Hx;
      (eapply pages_disjoint; [..|exact Ha|exact Hx];
       [apply Hqk|by apply page_ok_aligned|set_solver]).
  - split; [done|by constructor|set_solver| |].
    + intros j Hj. rewrite HL by done. case_decide; [rewrite T1; set_solver|].
      intros Hvj. apply elem_of_cons. right. by apply Hl2.
    + intros j k Hj Hk2. rewrite !HL by done.
      assert (∀ q, q ∈ ps → q ≠ p) by set_solver.
      repeat case_decide; rewrite ?T1; intros V1 V2 E; subst; try done.
      * exfalso. by eapply H; [apply (Hl2 k)|].
      * exfalso. by eapply H; [apply (Hl2 j)|].
      * by apply Hinj.
  - constructor; [set_solver|done].
  - intros a Ha. apply ldb_add_table_ne; [done|done|apply Ha; set_solver..].
Qed.

Lemma pte_addr_add_table p pt i m va :
  page_ok p → page_ok pt → p ≠ pt → 0 <= i < 1024 → 
  pte_addr (add_table p pt i m) pt va =
    if decide (PX 1 va = i) then Some (p + 4 * PX 0 va) else pte_addr m pt va.
Proof.
  intros Hp Hpt Hne Hi. unfold pte_addr. rewrite !l1e_add_table by (done || apply PX_range).
  destruct (PTE2PA_table p) as [T1 T2]; [apply page_ok_pos in Hp; zl|apply Hp|].
  case_decide; [|done]. by rewrite T1, T2.
Qed.

Lemma pte_of_add_table s pt ps p fl i va :
  vm_inv s pt ps (p :: fl) → 0 <= i < 1024 → has (l1e (k_mem s) pt i) PTE_V = false →
  pte_of (add_table p pt i (k_mem s)) pt va = pte_of (k_mem s) pt va.
Proof.
  intros Hi Hir Hv. pose proof (vi_wf _ _ _ _ Hi) as Hwf.
  assert (page_ok p) as Hp by (eapply vi_page; [exact Hi|set_solver]).
  pose proof (wf_root _ _ _ Hwf) as Hpt. pose proof (PX_range 0 va) as HR.
  pose proof (vi_nodup _ _ _ _ Hi) as [Hn1 Hn2]%NoDup_cons.
  assert (p ≠ pt) as Hne by set_solver. unfold pte_of.
  rewrite pte_addr_add_table by done. case_decide as Hd.
  - unfold pte_addr. rewrite Hd, Hv. apply ld32_zero. intros b Hb.
    apply ldb_add_table_page; [done..|]. by eapply in_page_word.
  - destruct (pte_addr (k_mem s) pt va) as [a|] eqn:E; [|done].
    destruct (pte_addr_page _ _ _ _ _ Hwf E) as (q & Hq & _ & _ & -> & Hok).
    apply ld32_ext. intros b Hb. assert (in_page q b) as Hb' by by eapply in_page_word.
    apply ldb_add_table_ne; [done|done|..]; intros Hx;
      (eapply vi_disjoint; [exact Hi|exact Hq| |exact Hb'|exact Hx]); set_solver.
Qed.

Lemma walk_true s pt ps fl va :
  vm_inv s pt ps fl → 0 <= va < MAXVA →
  ∃ r s' ps' fl', walk pt va true s = Ok r s' ∧ vm_step pt ps fl s ps' fl' s' ∧
    (∀ va', 0 <= va' < MAXVA → pte_of (k_mem s') pt va' = pte_of (k_mem s) pt va') ∧
    (r = 0 ∧ fl' = [] ∨ 0 < r ∧ pte_addr (k_mem s') pt va = Some r) ∧
    (length fl <= S (length fl'))%nat.
Proof.
  intros Hi Hva. pose proof Hi as [He Hk Hwf _]. pose proof (PX_range 1 va) as HR.
  unfold walk. destruct (Z.leb_spec MAXVA va); [lia|]. cbn [walk_loop negb].
  unfold load32. rewrite bind_assoc, bind_gets. change (Z.of_nat 1) with 1.
  fold (l1e (k_mem s) pt (PX 1 va)). destruct (has _ _) eqn:Ev.
  - eexists _, s, ps, fl. rewrite bind_ret. split_and!; [done|by apply vm_step_refl|done|..].
    2: lia.
    assert (pte_addr (k_mem s) pt va = Some (PTE2PA (l1e (k_mem s) pt (PX 1 va)) + 4 * PX 0 va)) as Ha
      by (unfold pte_addr; by rewrite Ev).
    right. split; [by eapply pte_addr_pos|done].
  - rewrite bind_assoc. destruct fl as [|p fl].
    + rewrite (bind_Ok _ _ _ _ _ (kalloc_nil s He Hk)). eexists 0, s, ps, [].
      split_and!; [done|by apply vm_step_refl|done|by left|cbn; lia].
    + destruct (kalloc_cons s p fl He Hk) as (E & _ & Hp & _).
      rewrite (bind_Ok _ _ _ _ _ E). pose proof (page_ok_pos p Hp) as [Hpos _].
      destruct (Z.eqb_spec p 0); [lia|]. unfold kmemset, store32.
      rewrite bind_assoc, bind_modify, bind_assoc, bind_modify, bind_ret.
      change (with_k_mem (st32 _ _ _) _)
        with (with_k_mem (add_table p pt (PX 1 va) (k_mem s)) (pop_page s)).
      pose proof (add_table_step s pt ps p fl _ Hi HR Ev) as Hst.
      eexists _, _, _, _. split_and!; [reflexivity|exact Hst| | |done].
      * intros va' _. by apply (pte_of_add_table s pt ps p fl).
      * right. pose proof (PX_range 0 va). split; [lia|].
        cbn [k_mem with_k_mem].
        rewrite pte_addr_add_table; [by rewrite decide_True|done|by apply Hwf| |done].
        eapply vi_root_ne; [exact Hi|set_solver].
Qed.

(** ** mappages *)
Definition entry (pa perm : Z) : Z := Z.lor (Z.lor (PA2PTE pa) perm) PTE_V.

(** In [m'] the [n] pages from [va] map to [pa] on, all else is as in [m]. *)
Definition maps_range (m m' : mem) (pt va : Z) (n : Z) (pa perm : Z) : Prop :=
  ∀ va', 0 <= va' < MAXVA →
    pte_of m' pt va' =
      if decide (va <= va' < va + n * 4096) then entry (pa + (va' - va) / 4096 * 4096) perm
      else pte_of m pt va'.

Lemma maps_range_0 m m' pt va pa perm :
  (∀ va', 0 <= va' < MAXVA → pte_of m' pt va' = pte_of m pt va') →
  maps_range m m' pt va 0 pa perm.
Proof. intros H va' Hva. rewrite decide_False by lia. by apply H. Qed.

Lemma maps_range_S m m1 m' pt va n pa perm :
  va mod 4096 = 0 → 0 <= n →
  maps_range m m1 pt va 1 pa perm → maps_range m1 m' pt (va + 4096) n (pa + 4096) perm →
  maps_range m m' pt va (n + 1) pa perm.
Proof.
  intros Ha Hn H1 H2 va' Hva'. rewrite H2 by done. case_decide.
  - rewrite decide_True by lia. f_equal. zl.
  - rewrite H1 by done. repeat case_decide; (done || lia).
Qed.

Lemma store_entry s pt ps fl va a pa perm :
  vm_inv s pt ps fl → 0 <= va < MAXVA → va mod 4096 = 0 → pte_addr (k_mem s) pt va = Some a →
  0 <= pa < 4294967296 → pa mod 4096 = 0 → 0 <= perm < 4096 →
  let s' := with_k_mem (st32 (k_mem s) a (entry pa perm)) s in
  vm_step pt ps fl s ps fl s' ∧ maps_range (k_mem s) (k_mem s') pt va 1 pa perm.
Proof.
  intros Hi Hva Hal Ha Hpa Hpal Hperm s'.
  destruct (store_leaf s pt ps fl va a (entry pa perm) Hi Hva Ha) as [Hst H].
  split; [done|]. intros va' Hva'. destruct (H va' Hva') as [_ E].
  subst s'. rewrite E. clear E. destruct (PTE2PA_entry pa perm) as [_ R]; [done..|]. rewrite u32_small by done.
  repeat case_decide; try (exfalso; zl); [|done]. f_equal. zl.
Qed.

(** One iteration: out of memory with nothing mapped, or one page mapped. *)
Lemma mappages_iter (f : nat) s ps fl pt va last pa perm :
  vm_inv s pt ps fl → 0 <= va < MAXVA → va mod 4096 = 0 →
  0 <= pa < 4294967296 → pa mod 4096 = 0 → 0 <= perm < 4096 →
  has (pte_of (k_mem s) pt va) PTE_V = false →
  ∃ s' ps' fl', vm_step pt ps fl s ps' fl' s' ∧ (length fl <= S (length fl'))%nat ∧
    (mappages_loop (S f) pt va last pa perm s = Ok (-1) s' ∧
     maps_range (k_mem s) (k_mem s') pt va 0 pa perm ∧ fl' = [] ∨
     mappages_loop (S f) pt va last pa perm s =
       (if va =? last then mret 0
        else mappages_loop f pt (u32 (va + PGSIZE)) last (u32 (pa + PGSIZE)) perm) s' ∧
     maps_range (k_mem s) (k_mem s') pt va 1 pa perm).
Proof.
  intros Hi Hva Hal Hpa Hpal Hperm Hun. cbn [mappages_loop].
  destruct (walk_true s pt ps fl va Hi Hva) as (r & s1 & ps1 & fl1 & E & Hst & Hsame & Hr & Hlen).
  rewrite (bind_Ok _ _ _ _ _ E). destruct Hr as [[-> ->]|[Hr Ha]].
  { exists s1, ps1, []. split; [done|]. split; [done|]. left. split_and!; [done|by apply maps_range_0|done]. }
  destruct (Z.eqb_spec r 0); [lia|]. unfold load32, store32. rewrite bind_gets.
  specialize (Hsame va Hva) as Hva1. unfold pte_of at 1 in Hva1. rewrite Ha in Hva1.
  rewrite Hva1, Hun, bind_modify. fold (entry pa perm).
  destruct (store_entry s1 pt ps1 fl1 va r pa perm) as [Hst2 Hm]; [by eapply st_inv|done..|].
  eexists _, ps1, fl1. split; [by eapply vm_step_trans|]. split; [done|]. right. split; [reflexivity|].
  intros va' Hva'. rewrite Hm by done. case_decide; [done|]. by apply Hsame.
Qed.

Lemma mappages_loop_ok n : ∀ s ps fl pt va pa perm,
  vm_inv s pt ps fl → 0 <= va → va mod 4096 = 0 → va + Z.of_nat (S n) * 4096 <= MAXVA →
  0 <= pa → pa mod 4096 = 0 → pa + Z.of_nat (S n) * 4096 <= 4294967296 → 0 <= perm < 4096 →
  (∀ va', va <= va' < va + Z.of_nat (S n) * 4096 → has (pte_of (k_mem s) pt va') PTE_V = false) →
  ∃ r k s' ps' fl',
    mappages_loop (S n) pt va (va + Z.of_nat n * 4096) pa perm s = Ok r s' ∧
    vm_step pt ps fl s ps' fl' s' ∧
    maps_range (k_mem s) (k_mem s') pt va k pa perm ∧
    (length fl <= S n + length fl')%nat ∧
    (r = 0 ∧ k = Z.of_nat (S n) ∨ r = -1 ∧ 0 <= k <= Z.of_nat n ∧ fl' = []).
Proof.
  induction n as [|n IH]; intros s ps fl pt va pa perm Hi Hva Hal Hvs Hpa Hpal Hpas Hperm Hun;
    rewrite MAXVA_eq in Hvs;
    (match goal with |- context [Z.of_nat ?f * 4096] =>
       destruct (mappages_iter f s ps fl pt va (va + Z.of_nat f * 4096) pa perm Hi)
         as (s1 & ps1 & fl1 & Hst & Hlen & [(E & Hm & ->)|[E Hm]]) end;
      [rewrite MAXVA_eq; lia|done|lia|done|done|apply Hun; lia|..]);
    try (eexists (-1), 0, s1, ps1, []; split_and!; [exact E|done|done|cbn in *; lia|right; split_and!; (done || lia)]).
  - rewrite Z.mul_0_l, Z.add_0_r, Z.eqb_refl in *. by eexists 0, 1, s1, ps1, fl1; split_and!; [| | | |left].
  - destruct (Z.eqb_spec va (va + Z.of_nat (S n) * 4096)); [lia|].
    rewrite !u32_small in E by zl.
    destruct (IH s1 ps1 fl1 pt (va + PGSIZE) (pa + PGSIZE) perm)
      as (r & k & s2 & ps2 & fl2 & E2 & Hst2 & Hm2 & Hlen2 & Hr);
      [by eapply st_inv|zl|zl|rewrite MAXVA_eq; zl|zl|zl|zl|done|..].
    { intros va' Hva'. rewrite Hm by (rewrite MAXVA_eq; zl).
      rewrite decide_False by zl. apply Hun. zl. }
    eexists r, (k + 1), s2, ps2, fl2. split_and!.
    + rewrite E, <- E2. f_equal. zl.
    + by eapply vm_step_trans.
    + eapply maps_range_S; [done|lia|exact Hm|exact Hm2].
    + lia.
    + destruct Hr as [[-> ->]|(-> & ? & ->)]; [left|right]; split_and!; (done || lia).
Qed.
End vmspec.
