(* ===== verification/VmUser.v ===== *)
(** * User address spaces: mappages, uvmunmap, uvmalloc, uvmdealloc

    [leafs m pt va n] lists the physical pages that the [n] pages from [va]
    map.  [uspace s pt ps us fl] extends the table invariant with the pages
    [us] that user memory occupies, disjoint from table and free pages. *)

From S2P Require Import Prelude Machine State CString Spinlock Emu Kalloc Vm VmSpec.

Section vmuser.
Context `{P : Platform} {HP : PlatformOk P}.

Lemma mappages_ok s pt ps fl va size pa perm :
  vm_inv s pt ps fl → 0 <= va → va mod 4096 = 0 → 0 < size → size mod 4096 = 0 →
  va + size <= MAXVA → 0 <= pa → pa mod 4096 = 0 → pa + size <= 4294967296 → 0 <= perm < 4096 →
  (∀ va', va <= va' < va + size → has (pte_of (k_mem s) pt va') PTE_V = false) →
  ∃ r k s' ps' fl',
    mappages pt va size pa perm s = Ok r s' ∧ vm_step pt ps fl s ps' fl' s' ∧
    maps_range (k_mem s) (k_mem s') pt va k pa perm ∧
    Z.of_nat (length fl) <= size / 4096 + Z.of_nat (length fl') ∧
    (r = 0 ∧ k = size / 4096 ∨ r = -1 ∧ 0 <= k < size / 4096 ∧ fl' = []).
Proof.
  intros Hi Hva Hal Hs Hsal Hvs Hpa Hpal Hpas Hperm Hun. rewrite MAXVA_eq in Hvs.
  unfold mappages. change PGSIZE with 4096. rewrite Hal, Hsal. cbn [negb Z.eqb].
  destruct (Z.eqb_spec size 0) as [|_]; [lia|].
  assert (∃ n, Z.to_nat (size / 4096) = S n ∧ size = Z.of_nat (S n) * 4096) as (n & En & Es).
  { exists (Z.to_nat (size / 4096 - 1)). zl. }
  rewrite En, u32_small by zl. replace (va + size - 4096) with (va + Z.of_nat n * 4096) by lia.
  destruct (mappages_loop_ok n s ps fl pt va pa perm) as (r & k & s' & ps' & fl' & E & Hst & Hm & Hlen & Hr);
    [done|done|done|rewrite MAXVA_eq; lia|done|done|lia|done|intros; apply Hun; lia|].
  exists r, k, s', ps', fl'. rewrite Es, Z.div_mul by done. split_and!; [done..|lia|].
  destruct Hr as [Hr|(-> & ? & ->)]; [by left|right].
  split_and!; (done || lia).
Qed.

(** ** uvmunmap *)
Fixpoint leafs (m : mem) (pt va : Z) (n : nat) : list Z :=
  match n with
  | O => []
  | S n' => (if has (pte_of m pt va) PTE_V then [PTE2PA (pte_of m pt va)] else [])
              ++ leafs m pt (va + 4096) n'
  end.

Lemma leafs_ext m m' pt n : ∀ va,
  (∀ va', va <= va' < va + Z.of_nat n * 4096 → pte_of m' pt va' = pte_of m pt va') →
  leafs m' pt va n = leafs m pt va n.
Proof.
  induction n as [|n IH]; intros va H; [done|]. cbn [leafs].
  rewrite H by lia. by rewrite IH by (intros; apply H; lia).
Qed.

Lemma leafs_nil m pt n : ∀ va,
  (∀ va', va <= va' < va + Z.of_nat n * 4096 → has (pte_of m pt va') PTE_V = false) →
  leafs m pt va n = [].
Proof.
  induction n as [|n IH]; intros va H; [done|]. cbn [leafs].
  rewrite H by lia. apply IH. intros. apply H. lia.
Qed.

Lemma leafs_app m pt n k va :
  leafs m pt va (n + k) = leafs m pt va n ++ leafs m pt (va + Z.of_nat n * 4096) k.
Proof.
  revert va. induction n as [|n IH]; intros va.
  - by rewrite Z.mul_0_l, Z.add_0_r.
  - cbn [leafs Nat.add]. rewrite IH, app_assoc. do 2 f_equal. lia.
Qed.

(** Freeing a page that is in no list. *)
Lemma vm_free s pt ps fl p :
  vm_inv s pt ps fl → page_ok p → p ∉ pt :: ps ++ fl →
  kfree p s = Ok tt (push_page p s) ∧ vm_inv (push_page p s) pt ps (p :: fl) ∧
  memrel s (push_page p s) ∧ frame [p] (k_mem s) (k_mem (push_page p s)) ∧
  ∀ va, pte_addr (k_mem (push_page p s)) pt va = pte_addr (k_mem s) pt va
      ∧ pte_of (k_mem (push_page p s)) pt va = pte_of (k_mem s) pt va.
Proof.
  intros Hi Hp Hni. pose proof Hi as [He Hk Hwf Hnd].
  destruct (kfree_ok p s fl He Hk Hp) as [E Hk']; [set_solver|].
  assert (∀ a, ¬ in_page p a → ldb (k_mem (push_page p s)) a = ldb (k_mem s) a) as Hfr.
  { intros a Ha. apply ldb_st32_ne. unfold in_page in Ha. zl. }
  assert (∀ q a, q ∈ pt :: ps → in_page q a → ldb (k_mem (push_page p s)) a = ldb (k_mem s) a) as Hq.
  { intros q a Hq Ha. apply Hfr. intros Hx.
    eapply pages_disjoint; [..|exact Ha|exact Hx]; [|by apply page_ok_aligned|set_solver].
    eapply page_ok_aligned, vi_page; [exact Hi|set_solver]. }
  split_and!; [done| | | |].
  - split; [by apply (kenv_frame s)|done| |].
    + eapply pt_wf_ext; [|exact Hwf]. intros a. apply Hq. set_solver.
    + rewrite <- (Permutation_middle (pt :: ps) fl p). by constructor.
  - eapply memrel_trans; [apply memrel_mem|apply memrel_freelist].
  - intros a Ha. apply Hfr, Ha. set_solver.
  - intros va. split; [apply pte_addr_ext; intros; apply (Hq pt); set_solver|].
    by eapply pte_of_ext.
Qed.

(** In [m'] the valid entries of the [n] pages from [va] are cleared. *)
Definition clears (m m' : mem) (pt va n : Z) : Prop :=
  ∀ va', 0 <= va' < MAXVA →
    pte_of m' pt va' =
      if decide (va <= va' < va + n * 4096) then
        (if has (pte_of m pt va') PTE_V then 0 else pte_of m pt va')
      else pte_of m pt va'.

Lemma clears_S m m1 m' pt va n :
  0 <= n → clears m m1 pt va 1 → clears m1 m' pt (va + 4096) n → clears m m' pt va (n + 1).
Proof.
  intros Hn H1 H2 va' Hva'. rewrite H2, H1 by done. repeat case_decide; (done || lia).
Qed.

Lemma clears_id m pt va n :
  (∀ va', 0 <= va' < MAXVA → va <= va' < va + n * 4096 → has (pte_of m pt va') PTE_V = false) →
  clears m m pt va n.
Proof. intros H va' Hva'. case_decide; [|done]. by rewrite H. Qed.

Definition freed (d : bool) (us : list Z) : list Z := if d then us else [].

Lemma pte_of_vpn m pt va va' :
  0 <= va < MAXVA → 0 <= va' < MAXVA → va / 4096 = va' / 4096 → pte_of m pt va = pte_of m pt va'.
Proof.
  intros H H' E. unfold pte_of, pte_addr. by rewrite !(PX_vpn _ va va') by auto.
Qed.

(** Clearing one valid entry, the page already freed. *)
Lemma clear_leaf s pt ps fl va a :
  vm_inv s pt ps fl → 0 <= va < MAXVA → va mod 4096 = 0 → pte_addr (k_mem s) pt va = Some a →
  has (pte_of (k_mem s) pt va) PTE_V = true →
  let s' := with_k_mem (st32 (k_mem s) a 0) s in
  vm_step pt ps fl s ps fl s' ∧ clears (k_mem s) (k_mem s') pt va 1.
Proof.
  intros Hi Hva Hal Ha Hv s'. destruct (store_leaf s pt ps fl va a 0 Hi Hva Ha) as [Hst H].
  split; [done|]. intros va' Hva'. destruct (H va' Hva') as [_ E]. subst s'. rewrite E. clear E.
  repeat case_decide; try (exfalso; zl); [|done].
  rewrite (pte_of_vpn _ _ va' va), Hv by (done || zl). done.
Qed.

(** Frames used by the unmapping loop: tables and the pages given back. *)
Record unmap_step (pt : Z) (ps fl us : list Z) (s s' : kstate) : Prop := {
  us_inv : vm_inv s' pt ps (us ++ fl);
  us_rel : memrel s s';
  us_frame : frame (pt :: ps ++ us ++ fl) (k_mem s) (k_mem s') }.

Lemma unmap_step_0 pt ps fl s : vm_inv s pt ps fl → unmap_step pt ps fl [] s s.
Proof. intros. split; [done|apply memrel_refl|apply frame_refl]. Qed.

Lemma unmap_step_trans pt ps fl us us' s1 s2 s3 :
  unmap_step pt ps fl us s1 s2 → unmap_step pt ps (us ++ fl) us' s2 s3 →
  unmap_step pt ps fl (us' ++ us) s1 s3.
Proof.
  intros [H1 H2 H3] [K1 K2 K3]. split; [by rewrite <- app_assoc|by eapply memrel_trans|].
  eapply frame_trans; eapply frame_weaken; [|exact H3| |exact K3]; set_solver.
Qed.

Lemma unmap_iter (f : nat) s pt ps fl va lim d :
  let us := freed d (leafs (k_mem s) pt va 1) in
  vm_inv s pt ps fl → 0 <= va < MAXVA → va mod 4096 = 0 → va < lim →
  Forall page_ok us → NoDup (pt :: ps ++ us ++ fl) →
  ∃ s', uvmunmap_loop (S f) pt va lim d s = uvmunmap_loop f pt (u32 (va + PGSIZE)) lim d s' ∧
    unmap_step pt ps fl us s s' ∧ clears (k_mem s) (k_mem s') pt va 1.
Proof.
  intros us Hi Hva Hal Hlim Hok Hnd. cbn [uvmunmap_loop].
  destruct (Z.leb_spec lim va); [lia|].
  rewrite (bind_Ok _ _ _ _ _ (walk_false pt va s ltac:(lia))).
  assert (has (pte_of (k_mem s) pt va) PTE_V = false →
    us = [] ∧ clears (k_mem s) (k_mem s) pt va 1) as Hno.
  { intros Hv. split; [subst us; cbn; rewrite Hv; by destruct d|].
    apply clears_id. intros va' Hva' ?. by rewrite (pte_of_vpn _ _ va' va) by (done || zl). }
  destruct (pte_addr (k_mem s) pt va) as [a|] eqn:Ea; cbn [default].
  2:{ cbn. destruct Hno as [-> Hc]; [by unfold pte_of; rewrite Ea|].
      exists s. split_and!; [done|by apply unmap_step_0|done]. }
  pose proof (pte_addr_pos _ _ _ _ _ (vi_wf _ _ _ _ Hi) Ea). cbn.
  destruct (Z.eqb_spec a 0); [lia|]. unfold load32. rewrite bind_gets.
  assert (pte_of (k_mem s) pt va = ld32 (k_mem s) a) as Ee by (unfold pte_of; by rewrite Ea).
  rewrite <- Ee. destruct (has _ _) eqn:Ev; cbn [negb].
  2:{ destruct Hno as [-> Hc]; [done|].
      exists s. split_and!; [done|by apply unmap_step_0|done]. }
  subst us. cbn [leafs] in *. rewrite Ev in *. unfold store32.
  destruct d; cbn [freed app when] in *.
  - apply Forall_cons in Hok as [Hok _].
    destruct (vm_free s pt ps fl (PTE2PA (pte_of (k_mem s) pt va)) Hi Hok) as (Ef & Hi' & Hr & Hfr & Hp).
    { rewrite <- Permutation_middle in Hnd. rewrite Permutation_swap in Hnd.
      by apply NoDup_cons in Hnd as [? _]. }
    rewrite (bind_Ok _ _ _ _ _ Ef), bind_modify.
    destruct (Hp va) as [Ep1 Ep2].
    destruct (clear_leaf _ pt ps _ va a Hi' Hva Hal) as [[K1 _ K3 K4] Hc]; [by rewrite Ep1|by rewrite Ep2|].
    eexists. split_and!; [reflexivity|split|].
    + exact K1.
    + by eapply memrel_trans.
    + eapply frame_trans; eapply frame_weaken; [|exact Hfr| |exact K4]; set_solver.
    + intros va' Hva'. rewrite (Hc va' Hva'). by rewrite !(proj2 (Hp va')).
  - rewrite bind_ret, bind_modify.
    destruct (clear_leaf s pt ps fl va a Hi Hva Hal Ea Ev) as [[K1 _ K3 K4] Hc].
    eexists. split_and!; [reflexivity|by split|done].
Qed.

Lemma uvmunmap_loop_ok pt ps d n : ∀ s fl va,
  let us := freed d (leafs (k_mem s) pt va n) in
  vm_inv s pt ps fl → 0 <= va → va mod 4096 = 0 → va + Z.of_nat n * 4096 <= MAXVA →
  Forall page_ok us → NoDup (pt :: ps ++ us ++ fl) →
  ∃ s', uvmunmap_loop (S n) pt va (va + Z.of_nat n * 4096) d s = Ok tt s' ∧
    unmap_step pt ps fl (rev us) s s' ∧ clears (k_mem s) (k_mem s') pt va (Z.of_nat n).
Proof.
  induction n as [|n IH]; intros s fl va us Hi Hva Hal Hm Hok Hnd; rewrite MAXVA_eq in Hm.
  - exists s. cbn [uvmunmap_loop]. destruct (Z.leb_spec (va + Z.of_nat 0 * 4096) va); [|lia].
    assert (us = []) as -> by (subst us; by destruct d).
    split_and!; [done|by apply unmap_step_0|]. apply clears_id. lia.
  - set (us1 := freed d (leafs (k_mem s) pt va 1)).
    set (us2 := freed d (leafs (k_mem s) pt (va + 4096) n)).
    assert (us = us1 ++ us2) as Eus.
    { subst us us1 us2. destruct d; [|done]. cbn [freed leafs]. by rewrite app_nil_r. }
    rewrite Eus in *. apply Forall_app in Hok as [Hok1 Hok2].
    assert (NoDup (us2 ++ pt :: ps ++ us1 ++ fl)) as Hnd' by nodup_perm Hnd.
    destruct (unmap_iter (S n) s pt ps fl va (va + Z.of_nat (S n) * 4096) d)
      as (s1 & E1 & Hst1 & Hc1); [done|rewrite MAXVA_eq; lia|done|lia|done| |].
    { by apply NoDup_app in Hnd' as (_ & _ & ?). }
    assert (freed d (leafs (k_mem s1) pt (va + 4096) n) = us2) as E2.
    { subst us2. destruct d; [|done]. cbn [freed]. apply leafs_ext. intros va' Hva'.
      rewrite Hc1 by (rewrite MAXVA_eq; lia). by rewrite decide_False by lia. }
    destruct (IH s1 (us1 ++ fl) (va + 4096)) as (s2 & E3 & Hst2 & Hc2);
      [by apply us_inv in Hst1|lia|zl|rewrite MAXVA_eq; lia|by rewrite E2|rewrite E2; nodup_perm Hnd|].
    rewrite E2 in Hst2. exists s2. split_and!.
    + rewrite E1, u32_small by zl. rewrite <- E3. f_equal. zl.
    + rewrite rev_app_distr. replace (rev us1) with us1; [by eapply unmap_step_trans|].
      subst us1. destruct d; [|done]. cbn. by case_match.
    + rewrite Nat2Z.inj_succ. eapply clears_S; [lia|done|done].
Qed.

Lemma uvmunmap_ok s pt ps fl va n d :
  let us := freed d (leafs (k_mem s) pt va (Z.to_nat n)) in
  vm_inv s pt ps fl → 0 <= va → va mod 4096 = 0 → 0 <= n → va + n * 4096 <= MAXVA →
  Forall page_ok us → NoDup (pt :: ps ++ us ++ fl) →
  ∃ s', uvmunmap pt va n d s = Ok tt s' ∧
    unmap_step pt ps fl (rev us) s s' ∧ clears (k_mem s) (k_mem s') pt va n.
Proof.
  intros us Hi Hva Hal Hn Hm Hok Hnd. unfold uvmunmap. change PGSIZE with 4096.
  rewrite Hal. cbn [negb Z.eqb]. rewrite MAXVA_eq in Hm. rewrite !u32_small by (rewrite ?u32_small; lia).
  destruct (uvmunmap_loop_ok pt ps d (Z.to_nat n) s fl va) as (s' & E & Hst & Hc);
    [done|done|done|rewrite MAXVA_eq; lia|done|done|].
  rewrite Z2Nat.id in * by lia. by exists s'.
Qed.

(** [uvmdealloc] back to a page boundary [old] from the page boundary [a]. *)
Lemma uvmdealloc_pages s pt ps fl a old :
  let us := leafs (k_mem s) pt old (Z.to_nat ((a - old) / 4096)) in
  vm_inv s pt ps fl → 0 <= old <= a → old mod 4096 = 0 → a mod 4096 = 0 → a <= MAXVA →
  Forall page_ok us → NoDup (pt :: ps ++ us ++ fl) →
  ∃ r s', uvmdealloc pt a old s = Ok r s' ∧ unmap_step pt ps fl (rev us) s s' ∧
    clears (k_mem s) (k_mem s') pt old ((a - old) / 4096).
Proof.
  intros us Hi Ho Hal Hal' Hm Hok Hnd. unfold uvmdealloc. rewrite MAXVA_eq in Hm.
  destruct (Z.leb_spec a old).
  { assert (a = old) as -> by lia. subst us. rewrite Z.sub_diag, Z.div_0_l in * by done.
    exists old, s. split_and!; [done|by apply unmap_step_0|]. apply clears_id. lia. }
  rewrite !PGROUNDUP_id by (done || lia). change PGSIZE with 4096.
  destruct (Z.ltb_spec old a); [|lia]. cbn [when].
  destruct (uvmunmap_ok s pt ps fl old ((a - old) / 4096) true) as (s' & E & Hst & Hc);
    [done|lia|done|zl|rewrite MAXVA_eq; zl|done|done|].
  rewrite (bind_Ok _ _ _ _ _ E). by eexists _, s'.
Qed.

(** ** Pages handed to user memory *)
Lemma vm_alloc s pt ps p fl :
  vm_inv s pt ps (p :: fl) →
  kalloc s = Ok p (pop_page s) ∧ vm_inv (pop_page s) pt ps fl ∧ page_ok p ∧ p ∉ pt :: ps ++ fl.
Proof.
  intros [He Hk Hwf Hnd]. destruct (kalloc_cons s p fl He Hk) as (E & Hk' & Hp & Hni).
  rewrite <- (Permutation_middle (pt :: ps) fl p) in Hnd. apply NoDup_cons in Hnd as [Hn1 Hn2].
  split_and!; [done| |done|done]. split; [by apply (kenv_frame s)|done..].
Qed.

Lemma frame_out us m m' p a :
  frame us m m' → Forall page_ok us → page_ok p → p ∉ us → in_page p a → ldb m' a = ldb m a.
Proof.
  intros Hf Hus Hp Hni Ha. apply Hf. intros q Hq Hx. rewrite Forall_forall in Hus.
  eapply pages_disjoint; [..|exact Ha|exact Hx];
    [by apply page_ok_aligned|by apply page_ok_aligned, Hus|set_solver].
Qed.

(** Writes to pages that are neither table nor free pages. *)
Lemma vm_write s pt ps fl us m' :
  vm_inv s pt ps fl → frame us (k_mem s) m' → Forall page_ok us →
  (∀ p, p ∈ us → p ∉ pt :: ps ++ fl) →
  vm_inv (with_k_mem m' s) pt ps fl ∧ 
  ∀ va, pte_addr m' pt va = pte_addr (k_mem s) pt va ∧ pte_of m' pt va = pte_of (k_mem s) pt va.
Proof.
  intros Hi Hf Hus Hd.
  assert (∀ q a, q ∈ pt :: ps ++ fl → in_page q a → ldb m' a = ldb (k_mem s) a) as Hq.
  { intros q a Hq. eapply frame_out; [done|done|by eapply vi_page|]. intros ?. by eapply Hd. }
  split; [|intros va; split].
  - apply vm_inv_mem; [done|]. intros q a Hx. apply Hq. set_solver.
  - apply pte_addr_ext. intros a. apply Hq. set_solver.
  - eapply pte_of_ext; [by eapply vi_wf|]. intros q a Hx. apply Hq. set_solver.
Qed.

Definition zeroed (m : mem) (p : Z) : Prop := ∀ a, in_page p a → ldb m a = 0.

Lemma zero_page p m :
  page_ok p → zeroed (memset m p 0 PGSIZE) p ∧ frame [p] m (memset m p 0 PGSIZE).
Proof.
  intros Hp. split; intros a Ha; rewrite ldb_memset by zl.
  - by apply decide_True.
  - apply decide_False. apply Ha. set_solver.
Qed.

(** Mapping a page [p] taken from the free list and filled ([m1]): it is
    mapped with its contents, or nothing is and no free page is left. *)
Lemma map_fresh s pt ps p fl m1 va perm :
  vm_inv s pt ps (p :: fl) → frame [p] (k_mem s) m1 →
  0 <= va < MAXVA → va mod 4096 = 0 → pte_of (k_mem s) pt va = 0 → 0 <= perm < 4096 →
  ∃ r s' ps' fl', mappages pt va PGSIZE p perm (with_k_mem m1 (pop_page s)) = Ok r s' ∧
    vm_step pt ps fl (with_k_mem m1 (pop_page s)) ps' fl' s' ∧
    page_ok p ∧ p ∉ pt :: ps' ++ fl' ∧
    (∀ a, in_page p a → ldb (k_mem s') a = ldb m1 a) ∧
    (length fl <= S (length fl'))%nat ∧
    (r = 0 ∧ maps_range (k_mem s) (k_mem s') pt va 1 p perm ∨
     r = -1 ∧ maps_range (k_mem s) (k_mem s') pt va 0 p perm ∧ fl' = []).
Proof.
  intros Hi Hf Hva Hal Hz Hperm. rewrite MAXVA_eq in Hva.
  destruct (vm_alloc s pt ps p fl Hi) as (_ & Hi1 & Hp & Hni).
  destruct (vm_write (pop_page s) pt ps fl [p] m1) as [Hi2 Hpte];
    [done|done|by constructor|by intros q ->%list_elem_of_singleton|].
  change (k_mem (pop_page s)) with (k_mem s) in Hpte.
  pose proof (page_ok_pos p Hp) as [? ?].
  destruct (mappages_ok _ pt ps fl va PGSIZE p perm Hi2)
    as (r & k & s' & ps' & fl' & E & Hst & Hm & Hlen & Hr);
    [lia|done|done|done|rewrite MAXVA_eq; zl|lia|apply Hp|zl|done|..].
  { intros va' Hva'. cbn. rewrite (proj2 (Hpte va')).
    by rewrite (pte_of_vpn _ _ va' va), Hz by (rewrite ?MAXVA_eq; zl). }
  assert (∀ k, maps_range m1 (k_mem s') pt va k p perm →
               maps_range (k_mem s) (k_mem s') pt va k p perm) as HM.
  { intros j Hj va' Hva'. rewrite Hj by done. case_decide; [done|]. apply Hpte. }
  exists r, s', ps', fl'. split_and!; [done|done|done| | | |].
  - pose proof (st_perm _ _ _ _ _ _ _ Hst) as Hpm. revert Hni. by rewrite !elem_of_cons, Hpm.
  - intros a Ha.
    eapply frame_out; [exact (st_frame _ _ _ _ _ _ _ Hst)| |exact Hp|exact Hni|exact Ha].
    apply Forall_forall. intros q. by eapply vi_page.
  - revert Hlen. change (PGSIZE / 4096) with 1. lia.
  - change (PGSIZE / 4096) with 1 in Hr. destruct Hr as [[-> ->]|(-> & ? & ->)]; [left|right].
    + split; [done|]. by apply HM.
    + assert (k = 0) as -> by lia. split_and!; [done|by apply HM|done].
Qed.

(** Giving the page back after a failed mapping. *)
Lemma unmap_fresh s pt ps p fl m1 s' ps' fl' :
  vm_inv s pt ps (p :: fl) → frame [p] (k_mem s) m1 →
  vm_step pt ps fl (with_k_mem m1 (pop_page s)) ps' fl' s' → page_ok p → p ∉ pt :: ps' ++ fl' →
  (∀ va, 0 <= va < MAXVA → pte_of (k_mem s') pt va = pte_of (k_mem s) pt va) →
  ∃ s'', kfree p s' = Ok tt s'' ∧ vm_step pt ps (p :: fl) s ps' (p :: fl') s'' ∧
    ∀ va, 0 <= va < MAXVA → pte_of (k_mem s'') pt va = pte_of (k_mem s) pt va.
Proof.
  intros Hi Hf [S1 S2 S3 S4] Hp Hni Hs.
  destruct (vm_free s' pt ps' fl' p S1 Hp Hni) as (E & Hi' & Hr & Hf' & Hpte).
  exists (push_page p s'). split_and!; [done|split; [done| | |]|].
  - rewrite <- !Permutation_middle. by rewrite S2.
  - eapply memrel_trans; [|exact Hr]. eapply memrel_trans; [|exact S3].
    eapply memrel_trans; [apply memrel_freelist|apply memrel_mem].
  - eapply frame_trans; [eapply frame_weaken; [|exact Hf]; set_solver|].
    eapply frame_trans; eapply frame_weaken; [|exact S4| |exact Hf']; set_solver.
  - intros va Hva. rewrite (proj2 (Hpte va)). by apply Hs.
Qed.

(** ** uvmalloc *)
(** After [n] pages from [old] have been added to the table of [s0]. *)
Record grown (s0 : kstate) (pt : Z) (ps0 fl0 : list Z) (old perm : Z) (n : nat)
    (s : kstate) (ps us fl : list Z) : Prop := {
  gr_inv : vm_inv s pt ps fl;
  gr_perm : ps ++ us ++ fl ≡ₚ ps0 ++ fl0;
  gr_rel : memrel s0 s;
  gr_frame : frame (pt :: ps0 ++ fl0) (k_mem s0) (k_mem s);
  gr_us : us = leafs (k_mem s) pt old n;
  gr_n : length us = n;
  gr_zero : Forall (zeroed (k_mem s)) us;
  gr_map : ∀ va, 0 <= va < MAXVA → ¬ (old <= va < old + Z.of_nat n * 4096) →
    pte_of (k_mem s) pt va = pte_of (k_mem s0) pt va;
  gr_new : ∀ va, 0 <= va < MAXVA → old <= va < old + Z.of_nat n * 4096 →
    ∃ p, us !! Z.to_nat ((va - old) / 4096) = Some p ∧ pte_of (k_mem s) pt va = entry p perm }.

Lemma grown_0 s pt ps fl old perm : vm_inv s pt ps fl → grown s pt ps fl old perm 0 s ps [] fl.
Proof.
  intros Hi. split; try done; try lia. apply memrel_refl.
Qed.

Lemma grown_pages s0 pt ps0 fl0 old perm n s ps us fl :
  vm_inv s0 pt ps0 fl0 → grown s0 pt ps0 fl0 old perm n s ps us fl →
  NoDup (pt :: ps ++ us ++ fl) ∧ Forall page_ok us.
Proof.
  intros Hi Hg. pose proof (gr_perm _ _ _ _ _ _ _ _ _ _ _ Hg) as Hp. split.
  - rewrite Hp. by eapply vi_nodup.
  - apply Forall_forall. intros p Hin. eapply vi_page; [exact Hi|].
    rewrite elem_of_cons. right. rewrite <- Hp. set_solver.
Qed.

(** One more page. *)
Lemma grown_S s0 pt ps0 fl0 old perm n s ps us p fl s' ps' fl' :
  vm_inv s0 pt ps0 fl0 → grown s0 pt ps0 fl0 old perm n s ps us (p :: fl) →
  let va := old + Z.of_nat n * 4096 in
  let s1 := with_k_mem (memset (k_mem s) p 0 PGSIZE) (pop_page s) in
  0 <= old → old mod 4096 = 0 → va < MAXVA → 0 <= perm < 4096 →
  vm_step pt ps fl s1 ps' fl' s' → p ∉ pt :: ps' ++ fl' →
  (∀ a, in_page p a → ldb (k_mem s') a = ldb (k_mem s1) a) →
  maps_range (k_mem s) (k_mem s') pt va 1 p perm →
  grown s0 pt ps0 fl0 old perm (S n) s' ps' (us ++ [p]) fl'.
Proof.
  intros Hi Hg va s1 Ho Hal Hva Hperm Hst Hni Hpg Hm.
  destruct (grown_pages _ _ _ _ _ _ _ _ _ _ _ Hi Hg) as [Hnd Hus].
  destruct Hg as [G1 G2 G3 G4 G5 G6 G7 G8 G9]. destruct Hst as [S1 S2 S3 S4].
  destruct (vm_alloc s pt ps p fl G1) as (_ & _ & Hp & _).
  destruct (zero_page p (k_mem s) Hp) as [Hz Hzf].
  destruct (PTE2PA_entry p perm) as [Epa _]; [apply page_ok_pos in Hp; zl|apply Hp|done|].
  assert (∀ a, (∀ q, q ∈ pt :: ps ++ p :: fl → ¬ in_page q a) → ldb (k_mem s') a = ldb (k_mem s) a) as Hfr.
  { intros a Ha. rewrite (S4 a) by (intros q Hq; apply Ha; set_solver).
    apply Hzf. intros q Hq. apply Ha. set_solver. }
  assert (has (entry p perm) PTE_V = true) as HV by apply has_V_or.
  pose proof MAXVA_eq as HMX. split.
  - done.
  - rewrite <- G2. transitivity ((us ++ [p]) ++ ps' ++ fl'); [perm_solve|].
    rewrite S2. perm_solve.
  - eapply memrel_trans; [exact G3|]. eapply memrel_trans; [|exact S3].
    eapply memrel_trans; [apply memrel_freelist|apply memrel_mem].
  - intros a Ha. rewrite Hfr; [by apply G4|]. intros q Hq. apply Ha.
    rewrite elem_of_cons in *. rewrite <- G2. set_solver.
  - replace (S n) with (n + 1)%nat by lia. rewrite leafs_app. f_equal.
    + rewrite G5. symmetry. apply leafs_ext. intros va' Hva'.
      rewrite Hm by lia. by rewrite decide_False by lia.
    + cbn [leafs]. rewrite Hm by lia. rewrite decide_True by lia.
      fold va. rewrite Z.sub_diag, Z.div_0_l, Z.mul_0_l, Z.add_0_r by lia.
      rewrite HV. unfold entry. by rewrite Epa.
  - rewrite length_app. cbn. lia.
  - apply Forall_app. split; [|constructor; [|done]].
    + rewrite Forall_forall in *. intros q Hq a Ha. rewrite Hfr; [by apply (G7 q)|].
      intros q' Hq' Hx. eapply pages_disjoint; [..|exact Ha|exact Hx];
        [by apply page_ok_aligned, Hus|by eapply page_ok_aligned, (vi_page s)|].
      intros <-. assert (NoDup (us ++ pt :: ps ++ p :: fl)) as (_ & Hd & _)%NoDup_app
        by nodup_perm Hnd. by eapply Hd.
    + intros a Ha. rewrite Hpg by done. by apply Hz.
  - intros va' Hva' Hn. rewrite Hm by lia.
    rewrite decide_False by lia. apply G8; lia.
  - intros va' Hva' Hn. rewrite Hm by done. case_decide as Hd.
    + exists p. replace (Z.to_nat ((va' - old) / 4096)) with n by zl.
      rewrite lookup_app_r by lia. rewrite G6, Nat.sub_diag. split; [done|]. f_equal. zl.
    + destruct (G9 va' Hva') as (q & Hq & E); [lia|]. exists q. split; [|done].
      by apply lookup_app_l_Some.
Qed.

(** A step of the tables that leaves all entries as they are. *)
Lemma grown_same s0 pt ps0 fl0 old perm n s ps us fl s' ps' fl' :
  vm_inv s0 pt ps0 fl0 → grown s0 pt ps0 fl0 old perm n s ps us fl →
  0 <= old → old + Z.of_nat n * 4096 <= MAXVA →
  vm_step pt ps fl s ps' fl' s' →
  (∀ va, 0 <= va < MAXVA → pte_of (k_mem s') pt va = pte_of (k_mem s) pt va) →
  grown s0 pt ps0 fl0 old perm n s' ps' us fl'.
Proof.
  intros Hi Hg Ho Hm [S1 S2 S3 S4] Hs.
  destruct (grown_pages _ _ _ _ _ _ _ _ _ _ _ Hi Hg) as [Hnd Hus].
  destruct Hg as [G1 G2 G3 G4 G5 G6 G7 G8 G9]. split; [done| | | | |done| | |].
  - rewrite <- G2. transitivity (us ++ ps' ++ fl'); [perm_solve|]. rewrite S2. perm_solve.
  - by eapply memrel_trans.
  - eapply frame_trans; [exact G4|]. eapply frame_weaken; [|exact S4].
    intros q. rewrite !elem_of_cons, <- G2. set_solver.
  - rewrite G5. symmetry. apply leafs_ext. intros. apply Hs. lia.
  - rewrite Forall_forall in *. intros q Hq a Ha.
    rewrite (frame_out _ _ _ q a S4); [by apply (G7 q)| |by apply Hus| |done].
    + apply Forall_forall. intros q'. by apply (vi_page s).
    + intros Hx. assert (NoDup (us ++ pt :: ps ++ fl)) as (_ & Hd & _)%NoDup_app
        by nodup_perm Hnd. by eapply Hd.
  - intros. rewrite Hs by done. by apply G8.
  - intros. rewrite Hs by done. by apply G9.
Qed.

(** Undoing the growth gives every page back. *)
Lemma grown_undo s0 pt ps0 fl0 old perm n s ps us fl :
  vm_inv s0 pt ps0 fl0 → grown s0 pt ps0 fl0 old perm n s ps us fl →
  0 <= old → old mod 4096 = 0 → old + Z.of_nat n * 4096 <= MAXVA →
  (∀ va, old <= va < old + Z.of_nat n * 4096 → pte_of (k_mem s0) pt va = 0) →
  ∃ r s', uvmdealloc pt (old + Z.of_nat n * 4096) old s = Ok r s' ∧
    vm_step pt ps0 fl0 s0 ps (rev us ++ fl) s' ∧
    ∀ va, 0 <= va < MAXVA → pte_of (k_mem s') pt va = pte_of (k_mem s0) pt va.
Proof.
  intros Hi Hg Ho Hal Hm Hz.
  destruct (grown_pages _ _ _ _ _ _ _ _ _ _ _ Hi Hg) as [Hnd Hus].
  destruct Hg as [G1 G2 G3 G4 G5 G6 G7 G8 G9].
  assert ((old + Z.of_nat n * 4096 - old) / 4096 = Z.of_nat n) as En by zl.
  destruct (uvmdealloc_pages s pt ps fl (old + Z.of_nat n * 4096) old)
    as (r & s' & E & [U1 U2 U3] & Hc); try done; try lia; try zl;
    rewrite ?En, ?Nat2Z.id, <- ?G5 in *; [done|done|].
  exists r, s'. split_and!; [done|split|].
  - done.
  - rewrite <- G2, <- Permutation_rev. done.
  - by eapply memrel_trans.
  - eapply frame_trans; [exact G4|]. eapply frame_weaken; [|exact U3].
    intros q. rewrite !elem_of_cons, <- G2, <- Permutation_rev. set_solver.
  - intros va Hva. rewrite Hc by done. case_decide as Hd.
    + destruct (G9 va Hva Hd) as (p & _ & ->). rewrite Hz by done.
      unfold entry. by rewrite has_V_or.
    + by apply G8.
Qed.

Definition uperm (xperm : Z) : Z := Z.lor (Z.lor PTE_R PTE_U) xperm.

Lemma uvmalloc_loop_ok s0 pt ps0 fl0 old newsz xperm k : ∀ f n s ps us fl,
  (k < f)%nat →
  vm_inv s0 pt ps0 fl0 → grown s0 pt ps0 fl0 old (uperm xperm) n s ps us fl →
  (length fl0 <= 2 * n + length fl)%nat →
  0 <= old → old mod 4096 = 0 → old + Z.of_nat (n + k) * 4096 <= MAXVA → 0 <= xperm < 4096 →
  old + (Z.of_nat (n + k) - 1) * 4096 < newsz <= old + Z.of_nat (n + k) * 4096 →
  (∀ va, old <= va < old + Z.of_nat (n + k) * 4096 → pte_of (k_mem s0) pt va = 0) →
  ∃ r s' ps' fl', uvmalloc_loop f pt (old + Z.of_nat n * 4096) old newsz xperm s = Ok r s' ∧
   (r = newsz ∧ (∃ us', grown s0 pt ps0 fl0 old (uperm xperm) (n + k) s' ps' us' fl') ∨
    r = 0 ∧ vm_step pt ps0 fl0 s0 ps' fl' s' ∧
    (∀ va, 0 <= va < MAXVA → pte_of (k_mem s') pt va = pte_of (k_mem s0) pt va) ∧
    (length fl0 <= 2 * (n + k))%nat).
Proof.
  induction k as [|k IH]; intros f n s ps us fl Hf Hi Hg Hlen Ho Hal Hm Hx Hns Hz;
    (destruct f as [|f]; [lia|]); cbn [uvmalloc_loop].
  { destruct (Z.leb_spec newsz (old + Z.of_nat n * 4096)); [|lia]. exists newsz, s, ps, fl.
    split; [done|]. left. split; [done|]. rewrite Nat.add_0_r. by eexists. }
  destruct (Z.leb_spec newsz (old + Z.of_nat n * 4096)); [lia|].
  pose proof (gr_inv _ _ _ _ _ _ _ _ _ _ _ Hg) as Hi1. pose proof MAXVA_eq as HMX.
  assert (0 <= uperm xperm < 4096) as Hup by (by apply lor_range12).
  destruct fl as [|p fl].
  { rewrite (bind_Ok _ _ _ _ _ (kalloc_nil s (vi_env _ _ _ _ Hi1) (vi_kmem _ _ _ _ Hi1))). cbn [Z.eqb].
    destruct (grown_undo _ _ _ _ _ _ _ _ _ _ _ Hi Hg) as (r & s' & E & Hst & Hs);
      [done|done|lia|intros; apply Hz; lia|].
    rewrite (bind_Ok _ _ _ _ _ E). exists 0, s', ps, (rev us ++ []). split; [done|]. right.
    split_and!; [done..|cbn in *; lia]. }
  destruct (vm_alloc s pt ps p fl Hi1) as (Ek & _ & Hp & _). rewrite (bind_Ok _ _ _ _ _ Ek).
  destruct (Z.eqb_spec p 0) as [|_]; [apply page_ok_pos in Hp; lia|].
  unfold kmemset. rewrite bind_modify. fold (uperm xperm).
  destruct (zero_page p (k_mem s) Hp) as [Hzp Hzf].
  destruct (map_fresh s pt ps p fl _ (old + Z.of_nat n * 4096) (uperm xperm) Hi1 Hzf)
    as (r & s' & ps' & fl' & Em & Hst & _ & Hni & Hpg & Hlen' & Hr); [lia|zl| |done|].
  { rewrite (gr_map _ _ _ _ _ _ _ _ _ _ _ Hg) by lia. apply Hz. lia. }
  change (k_mem (pop_page s)) with (k_mem s). rewrite (bind_Ok _ _ _ _ _ Em).
  destruct Hr as [[-> Hmr]|(-> & Hmr & ->)]; cbn [Z.eqb negb].
  - rewrite u32_small by zl. cbn [length] in Hlen.
    replace (old + Z.of_nat n * 4096 + PGSIZE) with (old + Z.of_nat (S n) * 4096) by zl.
    rewrite <- Nat.add_succ_comm in *.
    apply (IH f (S n) s' ps' (us ++ [p]) fl'); [lia|done| |lia|done..].
    eapply grown_S; [done|exact Hg|done|done|lia|done|exact Hst|done|done|done].
  - destruct (unmap_fresh s pt ps p fl _ s' ps' [] Hi1 Hzf Hst Hp Hni) as (s2 & Ef & Hst2 & Hs2).
    { intros va Hva. by rewrite (Hmr va Hva), decide_False by lia. }
    rewrite (bind_Ok _ _ _ _ _ Ef).
    pose proof (grown_same _ _ _ _ _ _ _ _ _ _ _ _ _ _ Hi Hg Ho ltac:(lia) Hst2 Hs2) as Hg2.
    destruct (grown_undo _ _ _ _ _ _ _ _ _ _ _ Hi Hg2) as (r & s3 & E & Hst3 & Hs3);
      [done|done|lia|intros; apply Hz; lia|].
    rewrite (bind_Ok _ _ _ _ _ E). eexists 0, s3, _, _. split; [done|]. right.
    split_and!; [done|exact Hst3|done|cbn in *; lia].
Qed.
End vmuser.
