(* ===== verification/VmCopy.v ===== *)
(** * Copying between kernel and user memory

    [uaddr m pt va] is the physical address user address [va] translates to.
    [umem s pt ps fl] says that user pages are allocatable pages, each used
    once, apart from table and free pages.  Under it [copyout] writes exactly
    the user bytes asked for and [copyin] reads them back. *)

From S2P Require Import Prelude Machine State CString Spinlock Emu Kalloc Vm VmSpec VmUser.

Section vmcopy.
Context `{P : Platform} {HP : PlatformOk P}.

Definition uaddr (m : mem) (pt va : Z) : Z := PTE2PA (pte_of m pt va) + va mod 4096.
Definition uvalid (m : mem) (pt va : Z) : bool :=
  has (pte_of m pt va) PTE_V && has (pte_of m pt va) PTE_U.
Definition uwritable (m : mem) (pt va : Z) : bool :=
  uvalid m pt va && has (pte_of m pt va) PTE_W.

Record umem (s : kstate) (pt : Z) (ps fl : list Z) : Prop := {
  um_inv : vm_inv s pt ps fl;
  um_page : ∀ va, 0 <= va < MAXVA → uvalid (k_mem s) pt va = true →
    page_ok (PTE2PA (pte_of (k_mem s) pt va)) ∧ PTE2PA (pte_of (k_mem s) pt va) ∉ pt :: ps ++ fl;
  um_inj : ∀ va va', 0 <= va < MAXVA → 0 <= va' < MAXVA →
    uvalid (k_mem s) pt va = true → uvalid (k_mem s) pt va' = true →
    PTE2PA (pte_of (k_mem s) pt va) = PTE2PA (pte_of (k_mem s) pt va') → va / 4096 = va' / 4096 }.

(** ** Reading the table *)
Lemma load_leaf {B} pt ps va s (f : Z → KM B) :
  pt_wf (k_mem s) pt ps → 0 <= va < MAXVA →
  (pte ← walk pt va false; if pte =? 0 then f 0 else e ← load32 pte; f e) s =
  f (pte_of (k_mem s) pt va) s.
Proof.
  intros Hwf Hva. rewrite (bind_Ok _ _ _ _ _ (walk_false pt va s ltac:(lia))).
  unfold pte_of. destruct (pte_addr (k_mem s) pt va) as [a|] eqn:E; cbn [default]; [|done].
  pose proof (pte_addr_pos _ _ _ _ _ Hwf E). cbn. by destruct (Z.eqb_spec a 0); [lia|].
Qed.

Lemma walkaddr_ok pt ps va s :
  pt_wf (k_mem s) pt ps → 0 <= va < MAXVA →
  walkaddr pt va s =
    Ok (if uvalid (k_mem s) pt va then PTE2PA (pte_of (k_mem s) pt va) else 0) s.
Proof.
  intros Hwf Hva. unfold walkaddr. destruct (Z.leb_spec MAXVA va); [lia|].
  etrans; [apply (load_leaf pt ps va s (λ e,
    if negb (has e PTE_V) then mret 0 else if negb (has e PTE_U) then mret 0 else mret (PTE2PA e))); done|].
  unfold uvalid. by destruct (has _ PTE_V), (has _ PTE_U).
Qed.

Lemma walkaddr_high pt va s : MAXVA <= va → walkaddr pt va s = Ok 0 s.
Proof. intros. unfold walkaddr. by destruct (Z.leb_spec MAXVA va); [|lia]. Qed.

Lemma ismapped_ok pt ps va s :
  pt_wf (k_mem s) pt ps → 0 <= va < MAXVA →
  ismapped pt va s = Ok (if has (pte_of (k_mem s) pt va) PTE_V then 1 else 0) s.
Proof.
  intros Hwf Hva. unfold ismapped.
  etrans; [apply (load_leaf pt ps va s (λ e, mret (if has e PTE_V then 1 else 0))); done|]. done.
Qed.

Lemma uaddr_vpn m pt va va' :
  0 <= va < MAXVA → 0 <= va' < MAXVA → va / 4096 = va' / 4096 →
  uaddr m pt va = uaddr m pt va' + (va - va') ∧ uvalid m pt va = uvalid m pt va'
  ∧ uwritable m pt va = uwritable m pt va'.
Proof.
  intros H H' E. unfold uaddr, uwritable, uvalid. rewrite (pte_of_vpn m pt va va') by done.
  split; [zl|done].
Qed.

Lemma ldb_stbytes l : ∀ m a b,
  ldb (stbytes m a l) b =
    if decide (a <= b < a + Z.of_nat (length l)) then u8 (nth (Z.to_nat (b - a)) l 0) else ldb m b.
Proof.
  induction l as [|x l IH]; intros m a b; cbn [stbytes length].
  { by rewrite decide_False by lia. }
  rewrite IH, ldb_stb. repeat case_decide; try lia; try done; try (exfalso; lia).
  - replace (Z.to_nat (b - a)) with (S (Z.to_nat (b - (a + 1)))) by lia. done.
  - by replace (Z.to_nat (b - a)) with 0%nat by lia.
Qed.

(** Bytes written to user pages change neither the tables nor the free list. *)
Lemma umem_write s pt ps fl va0 m' :
  umem s pt ps fl → 0 <= va0 < MAXVA → uvalid (k_mem s) pt va0 = true →
  frame [PTE2PA (pte_of (k_mem s) pt va0)] (k_mem s) m' →
  umem (with_k_mem m' s) pt ps fl ∧ ∀ va, pte_of m' pt va = pte_of (k_mem s) pt va.
Proof.
  intros [U1 U2 U3] Hva Hv Hf. destruct (U2 va0 Hva Hv) as [Hok Hni].
  destruct (vm_write s pt ps fl _ m' U1 Hf) as [Hi Hp];
    [by constructor|by intros ? ->%list_elem_of_singleton|].
  assert (∀ va, pte_of m' pt va = pte_of (k_mem s) pt va) as Hs by apply Hp.
  split; [|done]. split; [done|..]; unfold uvalid; cbn [k_mem with_k_mem].
  - intros va. rewrite Hs. apply U2.
  - intros va va'. rewrite !Hs. apply U3.
Qed.

Lemma uaddr_inj s pt ps fl va va' :
  umem s pt ps fl → 0 <= va < MAXVA → 0 <= va' < MAXVA →
  uvalid (k_mem s) pt va = true → uvalid (k_mem s) pt va' = true →
  uaddr (k_mem s) pt va = uaddr (k_mem s) pt va' → va = va'.
Proof.
  intros [_ U2 U3] H H' V V' E. unfold uaddr in E.
  destruct (U2 va H V) as [[A _] _], (U2 va' H' V') as [[A' _] _].
  assert (va / 4096 = va' / 4096) by (apply U3; [done..|zl]). zl.
Qed.

(** The bytes of a user range. *)
Definition ubytes (m : mem) (pt va : Z) (n : nat) : list Z :=
  map (λ i, ldb m (uaddr m pt (va + Z.of_nat i))) (seq 0 n).

Lemma ubytes_app m pt va n k :
  ubytes m pt va (n + k) = ubytes m pt va n ++ ubytes m pt (va + Z.of_nat n) k.
Proof.
  unfold ubytes. rewrite seq_app, map_app. f_equal. apply list_eq. intros i.
  rewrite !list_lookup_fmap. destruct (decide (i < k)%nat).
  - rewrite !lookup_seq_lt by done. cbn. do 3 f_equal. lia.
  - by rewrite !lookup_seq_ge by lia.
Qed.

(** A range inside one page is contiguous in physical memory. *)
Lemma ubytes_page m pt va n :
  0 <= va < MAXVA → va mod 4096 + Z.of_nat n <= 4096 →
  ubytes m pt va n = ldbytes m (uaddr m pt va) n.
Proof.
  rewrite MAXVA_eq. intros Hva Hn. apply list_eq. intros i. unfold ubytes.
  rewrite list_lookup_fmap. destruct (decide (i < n)%nat) as [Hi|Hi].
  - rewrite lookup_ldbytes by done. rewrite lookup_seq_lt by done. cbn. do 2 f_equal.
    destruct (uaddr_vpn m pt (va + Z.of_nat i) va) as [E _]; rewrite ?MAXVA_eq; [zl..|lia].
  - rewrite lookup_seq_ge by lia. symmetry. apply lookup_ge_None. rewrite length_ldbytes. lia.
Qed.

Lemma copyin_loop_ok pt ps fl s fuel : ∀ va len dst,
  umem s pt ps fl → 0 <= va → 0 <= len <= Z.of_nat fuel → va + len <= MAXVA →
  (∀ va', va <= va' < va + len → uvalid (k_mem s) pt va' = true) →
  copyin_loop fuel pt va len dst s = Ok (0, dst ++ ubytes (k_mem s) pt va (Z.to_nat len)) s.
Proof.
  pose proof MAXVA_eq as HMX.
  induction fuel as [|f IH]; intros va len dst Hu Hva Hlen Hmax Hv; cbn [copyin_loop];
    destruct (Z.leb_spec len 0);
    try (assert (len = 0) as -> by lia; cbn; by rewrite app_nil_r).
  rewrite PGROUNDDOWN_eq by lia. pose proof (um_inv _ _ _ _ Hu) as Hi.
  assert (uvalid (k_mem s) pt va = true) as Hv0 by (apply Hv; lia).
  destruct (uaddr_vpn (k_mem s) pt (va - va mod 4096) va) as (E1 & E2 & _); [zl..|].
  rewrite (bind_Ok _ _ _ _ _ (walkaddr_ok _ _ (va - va mod 4096) _ (vi_wf _ _ _ _ Hi) ltac:(zl))), E2, Hv0.
  destruct (um_page _ _ _ _ Hu va) as [Hp _]; [lia|done|].
  rewrite (pte_of_vpn _ _ (va - va mod 4096) va) by zl.
  pose proof (page_ok_pos _ Hp). destruct (Z.eqb_spec (PTE2PA (pte_of (k_mem s) pt va)) 0); [lia|].
  rewrite bind_ret. destruct (Z.eqb_spec (PTE2PA (pte_of (k_mem s) pt va)) 0); [lia|].
  unfold get_bytes. rewrite bind_gets.
  set (k := Z.min (PGSIZE - (va - (va - va mod 4096))) len).
  assert (0 < k <= len ∧ va mod 4096 + k <= 4096 ∧ (k < len → va mod 4096 + k = 4096))
    as (Hk1 & Hk2 & Hk3) by (subst k; zl).
  replace (_ + (va - (va - va mod 4096))) with (uaddr (k_mem s) pt va) by (unfold uaddr; lia).
  rewrite <- ubytes_page by lia.
  replace (Z.to_nat len) with (Z.to_nat k + Z.to_nat (len - k))%nat by lia.
  rewrite ubytes_app, app_assoc. destruct (decide (k = len)) as [->|].
  - rewrite Z.sub_diag. cbn [Z.to_nat ubytes seq map]. rewrite app_nil_r.
    destruct f; cbn; done.
  - rewrite u32_small by zl. replace (va - va mod 4096 + PGSIZE) with (va + k) by zl.
    rewrite IH; [by rewrite Z2Nat.id by lia|done|lia..|]. intros. apply Hv. lia.
Qed.

(** [m'] is [m] with the user bytes from [va] set to [l]. *)
Definition uwrites (m m' : mem) (pt va : Z) (l : list Z) : Prop :=
  (∀ i, (i < length l)%nat → ldb m' (uaddr m pt (va + Z.of_nat i)) = u8 (nth i l 0)) ∧
  (∀ a, (∀ i, (i < length l)%nat → a ≠ uaddr m pt (va + Z.of_nat i)) → ldb m' a = ldb m a).

Lemma uwrites_page s pt ps fl va l :
  umem s pt ps fl → 0 <= va < MAXVA → uvalid (k_mem s) pt va = true →
  va mod 4096 + Z.of_nat (length l) <= 4096 →
  let m' := stbytes (k_mem s) (uaddr (k_mem s) pt va) l in
  uwrites (k_mem s) m' pt va l ∧ umem (with_k_mem m' s) pt ps fl
  ∧ ∀ va', pte_of m' pt va' = pte_of (k_mem s) pt va'.
Proof.
  rewrite MAXVA_eq. intros Hu Hva Hv Hl m'.
  assert (∀ i, (i < length l)%nat →
    uaddr (k_mem s) pt (va + Z.of_nat i) = uaddr (k_mem s) pt va + Z.of_nat i) as Ha.
  { intros i Hi. destruct (uaddr_vpn (k_mem s) pt (va + Z.of_nat i) va) as [-> _];
      rewrite ?MAXVA_eq; [zl..|lia]. }
  split; [split|].
  - intros i Hi. rewrite Ha by done. unfold m'. rewrite ldb_stbytes, decide_True by lia.
    do 2 f_equal. lia.
  - intros a Hn. unfold m'. rewrite ldb_stbytes. case_decide; [|done]. exfalso.
    apply (Hn (Z.to_nat (a - uaddr (k_mem s) pt va))); [lia|]. rewrite Ha; lia.
  - apply (umem_write s pt ps fl va); [done|by rewrite MAXVA_eq|done|].
    intros a Hn. unfold m'. rewrite ldb_stbytes. apply decide_False. intros Hx.
    eapply (Hn _); [by apply list_elem_of_singleton|]. unfold in_page, uaddr in *. zl.
Qed.

Lemma uwrites_app s pt ps fl va l1 l2 m1 m2 :
  umem s pt ps fl → 0 <= va → va + Z.of_nat (length (l1 ++ l2)) <= MAXVA →
  (∀ va', va <= va' < va + Z.of_nat (length (l1 ++ l2)) → uvalid (k_mem s) pt va' = true) →
  (∀ va', pte_of m1 pt va' = pte_of (k_mem s) pt va') →
  uwrites (k_mem s) m1 pt va l1 → uwrites m1 m2 pt (va + Z.of_nat (length l1)) l2 →
  uwrites (k_mem s) m2 pt va (l1 ++ l2).
Proof.
  intros Hu Hva Hmax Hv Hs [A1 A2] [B1 B2]. rewrite length_app in *.
  assert (∀ va', uaddr m1 pt va' = uaddr (k_mem s) pt va') as Hua
    by (intros; unfold uaddr; by rewrite Hs).
  split.
  - intros i Hi. rewrite length_app in Hi. destruct (decide (i < length l1)%nat).
    + rewrite app_nth1 by done. rewrite B2; [by apply A1|]. intros j Hj E. rewrite Hua in E.
      assert (va + Z.of_nat i = va + Z.of_nat (length l1) + Z.of_nat j); [|lia].
      eapply uaddr_inj; [exact Hu|..|exact E]; first [apply Hv; lia|lia].
    + rewrite app_nth2 by lia. rewrite <- (B1 (i - length l1)%nat) by lia. rewrite Hua. do 2 f_equal. lia.
  - intros a Ha. rewrite length_app in Ha. rewrite B2; [apply A2|].
    + intros i Hi. apply Ha. lia.
    + intros i Hi. rewrite Hua, <- Z.add_assoc, <- Nat2Z.inj_add. apply Ha. lia.
Qed.

(** The bytes of one round of copyout. *)
Definition chunk (va : Z) (l : list Z) : nat :=
  Z.to_nat (Z.min (PGSIZE - va mod 4096) (Z.of_nat (length l))).

Lemma uwritable_valid m pt va : uwritable m pt va = true → uvalid m pt va = true.
Proof. by intros [? _]%andb_prop. Qed.

Lemma load_writable m pt va :
  uvalid m pt va = true → ld32 m (default 0 (pte_addr m pt va)) = pte_of m pt va.
Proof. unfold uvalid, pte_of. by destruct (pte_addr m pt va). Qed.

Lemma copyout_iter f pt ps fl s va x l :
  let src := x :: l in let k := chunk va src in
  umem s pt ps fl → 0 <= va < MAXVA → uwritable (k_mem s) pt va = true →
  copyout_loop (S f) pt va src s =
    copyout_loop f pt (u32 (va - va mod 4096 + PGSIZE)) (drop k src)
      (with_k_mem (stbytes (k_mem s) (uaddr (k_mem s) pt va) (take k src)) s).
Proof.
  intros src k Hu Hva Hw0. rewrite MAXVA_eq in Hva.
  pose proof (um_inv _ _ _ _ Hu) as Hi. pose proof (vi_wf _ _ _ _ Hi) as Hwf.
  pose proof (andb_prop _ _ Hw0) as [Hv0 HW]. cbn [copyout_loop]. unfold src at 1.
  rewrite PGROUNDDOWN_eq by lia. set (va0 := va - va mod 4096).
  assert (0 <= va0 < MAXVA ∧ va0 / 4096 = va / 4096 ∧ va - va0 = va mod 4096 ∧ 0 <= va < MAXVA)
    as (Hr0 & Hn0 & Ho & ?) by (subst va0; rewrite MAXVA_eq; zl).
  destruct (Z.leb_spec MAXVA va0); [lia|].
  destruct (uaddr_vpn (k_mem s) pt va0 va) as (E1 & E2 & _); [done..|].
  rewrite (bind_Ok _ _ _ _ _ (walkaddr_ok _ _ va0 _ Hwf Hr0)), E2, Hv0.
  destruct (um_page _ _ _ _ Hu va) as [Hp _]; [done..|].
  rewrite (pte_of_vpn _ _ va0 va) by done. pose proof (page_ok_pos _ Hp).
  destruct (Z.eqb_spec (PTE2PA (pte_of (k_mem s) pt va)) 0) as [|Hne]; [lia|]. rewrite bind_ret.
  rewrite (proj2 (Z.eqb_neq _ _) Hne).
  rewrite (bind_Ok _ _ _ _ _ (walk_false pt va0 s ltac:(lia))). unfold load32. rewrite bind_gets.
  rewrite load_writable by congruence. rewrite (pte_of_vpn _ _ va0 va), HW by done.
  cbn [negb]. unfold put_bytes. rewrite bind_modify, Ho. done.
Qed.

Lemma copyout_loop_ok pt ps fl fuel : ∀ s va src,
  umem s pt ps fl → 0 <= va → (length src <= fuel)%nat →
  va + Z.of_nat (length src) <= MAXVA →
  (∀ va', va <= va' < va + Z.of_nat (length src) → uwritable (k_mem s) pt va' = true) →
  ∃ m', copyout_loop fuel pt va src s = Ok 0 (with_k_mem m' s) ∧
    uwrites (k_mem s) m' pt va src ∧ umem (with_k_mem m' s) pt ps fl ∧
    ∀ va', pte_of m' pt va' = pte_of (k_mem s) pt va'.
Proof.
  pose proof MAXVA_eq as HMX.
  induction fuel as [|f IH]; intros s va src Hu Hva Hlen Hmax Hw;
    (destruct src as [|x src];
      [exists (k_mem s); split_and!; [by destruct s|split;(done||cbn; lia)|by destruct s|done]|]);
    [cbn in *; lia|].
  rewrite (copyout_iter f pt ps fl) by (done || (cbn in *; lia) || (apply Hw; cbn; lia)).
  set (l := x :: src) in *. set (k := chunk va l).
  assert (0 < length l)%nat as Hl by (unfold l; cbn; lia). clearbody l.
  assert (0 < k <= length l)%nat as Hk1 by (subst k; unfold chunk; zl).
  assert (va mod 4096 + Z.of_nat k <= 4096) as Hk2 by (subst k; unfold chunk; zl).
  assert (k = length l ∨ va mod 4096 + Z.of_nat k = 4096) as Hk3 by (subst k; unfold chunk; zl).
  destruct (uwrites_page s pt ps fl va (take k l)) as (W1 & U1 & S1); [done|lia| | |].
  { apply uwritable_valid, Hw. lia. } { rewrite length_take. lia. }
  set (m1 := stbytes _ _ _) in *.
  assert (length (take k l) = k) as Hlt by (rewrite length_take; lia).
  assert (∃ m', copyout_loop f pt (u32 (va - va mod 4096 + PGSIZE)) (drop k l) (with_k_mem m1 s) =
      Ok 0 (with_k_mem m' s) ∧ uwrites m1 m' pt (va + Z.of_nat k) (drop k l)
      ∧ umem (with_k_mem m' s) pt ps fl ∧ ∀ va', pte_of m' pt va' = pte_of m1 pt va') as (m' & E & W & U & S).
  { destruct Hk3 as [->|Hk3].
    - rewrite drop_all. exists m1. split_and!; [by destruct f|split;(done||cbn; lia)|done|done].
    - rewrite u32_small by zl. replace (va - va mod 4096 + PGSIZE) with (va + Z.of_nat k) by zl.
      apply (IH (with_k_mem m1 s)); [done|lia|rewrite length_drop; lia..|].
      intros va' Hva'. unfold uwritable, uvalid. cbn [k_mem with_k_mem]. rewrite S1.
      apply Hw. rewrite length_drop in Hva'. lia. }
  exists m'. split_and!; [done| |done|by intros; rewrite S].
  rewrite <- (take_drop k l). eapply uwrites_app; [done|lia|by rewrite take_drop| |done..|by rewrite Hlt].
  intros va' Hva'. rewrite take_drop in Hva'. by apply uwritable_valid, Hw.
Qed.

(** What was written is what is there. *)
Lemma ubytes_uwrites m m' pt va l :
  uwrites m m' pt va l → (∀ va', pte_of m' pt va' = pte_of m pt va') →
  Forall (λ b, 0 <= b < 256) l → ubytes m' pt va (length l) = l.
Proof.
  intros [H _] Hs Hb. apply list_eq. intros i. unfold ubytes. rewrite list_lookup_fmap.
  destruct (decide (i < length l)%nat) as [Hi|Hi].
  - rewrite lookup_seq_lt by done. cbn.
    replace (uaddr m' pt _) with (uaddr m pt (va + Z.of_nat i)) by (unfold uaddr; by rewrite Hs).
    rewrite H by done. destruct (nth_lookup_or_length l i 0) as [E|]; [|lia].
    rewrite E. f_equal. apply (Forall_lookup_1 _ _ _ _ Hb) in E. zl.
  - rewrite lookup_seq_ge by lia. symmetry. apply lookup_ge_None. lia.
Qed.

(** ** vmfault *)
(** The running process is table entry [i], with contents [p]. *)
Definition running (s : kstate) (i : nat) (p : proc) : Prop :=
  c_proc (k_cpu s) = Some i ∧ k_procs s !! i = Some p.

Lemma myproc_running {B} (f : proc → KM B) s i p :
  kctx s → running s i p → (o ← myproc; i ← deref o; q ← getproc i; f q) s = f p s.
Proof.
  intros Hk [H1 H2]. rewrite (bind_Ok _ _ _ _ _ (myproc_kctx s Hk)), H1. cbn [deref].
  rewrite bind_ret. unfold getproc. rewrite bind_assoc, bind_gets, H2. done.
Qed.
End vmcopy.
