(* ===== verification/VmThms.v ===== *)
(** * Theorems on vm.c: mapping, growing, unmapping, faulting, copying *)

From S2P Require Import Prelude Machine State CString Spinlock Emu Kalloc Vm VmSpec VmUser VmCopy.

Section vmthms.
Context `{P : Platform} {HP : PlatformOk P}.

(** C11: [mappages] on an unmapped, page-aligned range maps every page of it
    to the corresponding physical page with the permissions asked for and
    leaves the entries of all other addresses alone.  It returns -1 only when
    the allocator has no page left for a table, after mapping a prefix of the
    range.  It turns free pages into table pages, loses none, and writes
    nowhere else. *)
Theorem mappages_spec s pt ps fl va size pa perm :
  vm_inv s pt ps fl → 0 <= va → va mod PGSIZE = 0 → 0 < size → size mod PGSIZE = 0 →
  va + size <= MAXVA → 0 <= pa → pa mod PGSIZE = 0 → pa + size <= 4294967296 → 0 <= perm < 4096 →
  (∀ va', va <= va' < va + size → has (pte_of (k_mem s) pt va') PTE_V = false) →
  ∃ r k s' ps' fl',
    mappages pt va size pa perm s = Ok r s' ∧ vm_step pt ps fl s ps' fl' s' ∧
    maps_range (k_mem s) (k_mem s') pt va k pa perm ∧
    (r = 0 ∧ k = size / PGSIZE ∨ r = -1 ∧ 0 <= k < size / PGSIZE ∧ fl' = []).
Proof.
  intros H1 H2 H3 H4 H5 H6 H7 H8 H9 H10 H11.
  destruct (mappages_ok s pt ps fl va size pa perm H1 H2 H3 H4 H5 H6 H7 H8 H9 H10 H11)
    as (r & k & s' & ps' & fl' & E & Hst & Hm & _ & Hr).
  by exists r, k, s', ps', fl'.
Qed.

(** C10: when nothing is mapped between the rounded old and new sizes (the
    trampoline and the trap frame are, further up), [uvmalloc] either returns
    the new size with every page between the rounded old size and the new size
    mapped user-readable with [xperm] to its own zero-filled page taken from
    the allocator, or returns 0 with every translation as before and all pages
    (tables apart) given back.  It fails only when no more than two pages per
    page requested are free. *)
Theorem uvmalloc_all_or_nothing s pt ps fl oldsz newsz xperm :
  vm_inv s pt ps fl → 0 <= oldsz <= newsz → newsz <= MAXVA - PGSIZE → 0 <= xperm < 4096 →
  let old := PGROUNDUP oldsz in
  let n := Z.to_nat ((PGROUNDUP newsz - old) / PGSIZE) in
  (∀ va, old <= va < PGROUNDUP newsz → pte_of (k_mem s) pt va = 0) →
  ∃ r s' ps' fl', uvmalloc pt oldsz newsz xperm s = Ok r s' ∧
   (r = newsz ∧ (∃ us, grown s pt ps fl old (uperm xperm) n s' ps' us fl') ∨
    r = 0 ∧ vm_step pt ps fl s ps' fl' s' ∧
    (∀ va, 0 <= va < MAXVA → pte_of (k_mem s') pt va = pte_of (k_mem s) pt va) ∧
    (length fl <= 2 * n)%nat).
Proof.
  intros Hi Ho Hn Hx old n Hz. pose proof MAXVA_eq as HMX. unfold uvmalloc.
  destruct (Z.ltb_spec newsz oldsz); [lia|]. fold old.
  assert (old = (oldsz + 4095) / 4096 * 4096) as Eo by (apply PGROUNDUP_eq; zl).
  assert (PGROUNDUP newsz = (newsz + 4095) / 4096 * 4096) as En by (apply PGROUNDUP_eq; zl).
  assert (Z.of_nat n = (PGROUNDUP newsz - old) / 4096) as Ezn by (unfold n; clearbody old; zl).
  destruct (uvmalloc_loop_ok s pt ps fl old newsz xperm n
      (S (Z.to_nat ((newsz - old) / PGSIZE + 1))) 0 s ps [] fl)
    as (r & s' & ps' & fl' & E & Hr); try done; try lia;
    try (intros; apply Hz); clearbody old n; try zl; [by apply grown_0|].
  rewrite Z.mul_0_l, Z.add_0_r in E. by exists r, s', ps', fl'.
Qed.

(** C12: [uvmunmap] clears exactly the valid entries of the range; with
    [do_free] it gives each page they mapped back to the allocator, once. *)
Theorem uvmunmap_spec s pt ps fl va n d :
  let us := freed d (leafs (k_mem s) pt va (Z.to_nat n)) in
  vm_inv s pt ps fl → 0 <= va → va mod PGSIZE = 0 → 0 <= n → va + n * PGSIZE <= MAXVA →
  Forall page_ok us → NoDup (pt :: ps ++ us ++ fl) →
  ∃ s', uvmunmap pt va n d s = Ok tt s' ∧ vm_inv s' pt ps (rev us ++ fl) ∧ memrel s s' ∧
    frame (pt :: ps ++ us ++ fl) (k_mem s) (k_mem s') ∧ clears (k_mem s) (k_mem s') pt va n.
Proof.
  intros us H1 H2 H3 H4 H5 H6 H7.
  destruct (uvmunmap_ok s pt ps fl va n d H1 H2 H3 H4 H5 H6 H7) as (s' & E & [U1 U2 U3] & Hc).
  exists s'. split_and!; try done. by rewrite (Permutation_rev us).
Qed.

(** C13: [copyout] of [src] to a user range mapped writable succeeds, sets
    exactly the bytes of that range and keeps the address space as it is;
    [copyin] of the range then returns [src]. *)
Theorem copyout_copyin_roundtrip s pt ps fl va src :
  umem s pt ps fl → 0 <= va → va + Z.of_nat (length src) <= MAXVA →
  Forall (λ b, 0 <= b < 256) src →
  (∀ va', va <= va' < va + Z.of_nat (length src) → uwritable (k_mem s) pt va' = true) →
  ∃ m', copyout pt va src s = Ok 0 (with_k_mem m' s) ∧
    uwrites (k_mem s) m' pt va src ∧ umem (with_k_mem m' s) pt ps fl ∧
    copyin pt va (Z.of_nat (length src)) (with_k_mem m' s) = Ok (0, src) (with_k_mem m' s).
Proof.
  intros Hu Hva Hmax Hb Hw.
  destruct (copyout_loop_ok pt ps fl (length src) s va src) as (m' & E & HW & Hu' & Hs); [done..|].
  exists m'. split_and!; [done..|]. unfold copyin.
  rewrite (copyin_loop_ok pt ps fl); [|done|done|lia|done|].
  - do 2 f_equal. cbn [app k_mem with_k_mem]. rewrite Nat2Z.id. by eapply ubytes_uwrites.
  - intros va' Hva'. apply uwritable_valid. unfold uwritable, uvalid. cbn [k_mem with_k_mem].
    rewrite Hs. by apply Hw.
Qed.

Definition fault_perm : Z := Z.lor (Z.lor PTE_W PTE_U) PTE_R.

(** C14: a page fault of the running process below its size, on an unmapped
    page of its table, maps a fresh zero-filled page there, writable by the
    user, and returns its address; it returns 0 and changes no translation
    when the address is beyond the size, already mapped, or memory is out. *)
Theorem vmfault_lazy s pt ps fl i p va read :
  vm_inv s pt ps fl → running s i p → p_pagetable p = pt → p_sz p <= MAXVA →
  0 <= va < 4294967296 →
  let va0 := PGROUNDDOWN va in
  (va < p_sz p → has (pte_of (k_mem s) pt va0) PTE_V = false → pte_of (k_mem s) pt va0 = 0) →
  ∃ r s' ps' fl', vmfault pt va read s = Ok r s' ∧ vm_inv s' pt ps' fl' ∧ memrel s s' ∧
    frame (pt :: ps ++ fl) (k_mem s) (k_mem s') ∧
    (r = 0 ∧ ps' ++ fl' ≡ₚ ps ++ fl ∧
       (∀ va', 0 <= va' < MAXVA → pte_of (k_mem s') pt va' = pte_of (k_mem s) pt va') ∧
       (p_sz p <= va ∨ has (pte_of (k_mem s) pt va0) PTE_V = true ∨ (length fl <= 2)%nat) ∨
     0 < r ∧ r :: ps' ++ fl' ≡ₚ ps ++ fl ∧ zeroed (k_mem s') r ∧ va < p_sz p ∧
       maps_range (k_mem s) (k_mem s') pt va0 1 r fault_perm).
Proof.
  intros Hi Hr Hpt Hsz Hva va0 Hz. pose proof MAXVA_eq as HMX. unfold vmfault.
  pose proof (proj1 (vi_env _ _ _ _ Hi)) as Hk.
  rewrite (myproc_running _ s i p Hk Hr). destruct (Z.leb_spec (p_sz p) va).
  { exists 0, s, ps, fl. split_and!; [done|done|apply memrel_refl|apply frame_refl|]. left.
    split_and!; [done..|by left]. }
  assert (va0 = va - va mod 4096) as E0 by by apply PGROUNDDOWN_eq. fold va0.
  rewrite (bind_Ok _ _ _ _ _ (ismapped_ok _ _ va0 _ (vi_wf _ _ _ _ Hi) ltac:(zl))).
  destruct (has (pte_of (k_mem s) pt va0) PTE_V) eqn:Ev; cbn [Z.eqb negb].
  { exists 0, s, ps, fl. split_and!; [done|done|apply memrel_refl|apply frame_refl|]. left.
    split_and!; [done..|by right; left]. }
  destruct fl as [|q fl].
  { rewrite (bind_Ok _ _ _ _ _ (kalloc_nil s (vi_env _ _ _ _ Hi) (vi_kmem _ _ _ _ Hi))). cbn [Z.eqb].
    exists 0, s, ps, []. split_and!; [done|done|apply memrel_refl|apply frame_refl|]. left.
    split_and!; [done..|right; right; cbn; lia]. }
  destruct (vm_alloc s pt ps q fl Hi) as (Ek & _ & Hp & _). rewrite (bind_Ok _ _ _ _ _ Ek).
  pose proof (page_ok_pos q Hp) as [Hq _]. destruct (Z.eqb_spec q 0) as [|_]; [lia|].
  unfold kmemset. rewrite bind_modify. fold fault_perm. rewrite Hpt.
  destruct (zero_page q (k_mem s) Hp) as [Hzp Hzf].
  destruct (map_fresh s pt ps q fl _ va0 fault_perm Hi Hzf)
    as (r & s' & ps' & fl' & Em & Hst & _ & Hni & Hpg & Hlen & Hm); [zl|zl|by apply Hz|done|].
  change (k_mem (pop_page s)) with (k_mem s). rewrite (bind_Ok _ _ _ _ _ Em).
  destruct Hm as [[-> Hmr]|(-> & Hmr & ->)]; cbn [Z.eqb negb].
  - exists q, s', ps', fl'. split_and!; [done|by eapply st_inv|..].
    + eapply memrel_trans; [|exact (st_rel _ _ _ _ _ _ _ Hst)].
      eapply memrel_trans; [apply memrel_freelist|apply memrel_mem].
    + eapply frame_trans; eapply frame_weaken;
        [|exact Hzf| |exact (st_frame _ _ _ _ _ _ _ Hst)]; set_solver.
    + right. split_and!; [done| | |done|done].
      * rewrite (st_perm _ _ _ _ _ _ _ Hst). perm_solve.
      * intros a Ha. rewrite Hpg by done. by apply Hzp.
  - destruct (unmap_fresh s pt ps q fl _ s' ps' [] Hi Hzf Hst Hp Hni) as (s2 & Ef & Hst2 & Hs2).
    { intros va' Hva'. by rewrite (Hmr va' Hva'), decide_False by lia. }
    rewrite (bind_Ok _ _ _ _ _ Ef). destruct Hst2 as [T1 T2 T3 T4].
    exists 0, s2, ps', [q]. split_and!; [done..|]. left. split_and!; [done..|right; right].
    cbn in *. lia.
Qed.
End vmthms.

(** ** Witnesses *)
(** An empty table at 0x30000 and free pages 0x31000, 0x32000, 0x33000; the
    process in slot 0 runs on it. *)
Definition demo_proc : proc := with_p_sz 8192 (with_p_pagetable 196608 proc0).
Definition vm_demo : kstate :=
  with_k_procs [demo_proc] (with_k_cpu (with_c_proc (Some 0%nat) (k_cpu kstate0))
   (with_k_locks boot_locks (with_k_freelist 200704
     (with_k_mem (st32 (st32 ∅ 200704 204800) 204800 208896) kstate0)))).

Lemma vm_demo_inv : vm_inv (P := emu) vm_demo 196608 [] [200704; 204800; 208896].
Proof.
  assert (∀ i, 0 <= i < 1024 → l1e (k_mem vm_demo) 196608 i = 0) as Hz.
  { intros i Hi. unfold l1e, vm_demo. cbn [k_mem with_k_mem with_k_procs with_k_cpu with_k_locks with_k_freelist].
    rewrite !ld32_st32_ne by lia. by apply ld32_zero. }
  split.
  - split; [split; cbn; done || lia|]. exists "lock". vm_compute. reflexivity.
  - split; [by vm_compute|repeat constructor; cbn; done || zl|repeat constructor; set_solver].
  - split; [split; cbn; done || zl|done|set_solver|..].
    + intros i Hi. by rewrite Hz.
    + intros i j Hi Hj. by rewrite Hz.
  - repeat constructor; set_solver.
Qed.

Lemma vm_demo_empty va : pte_of (k_mem vm_demo) 196608 va = 0.
Proof.
  unfold pte_of, pte_addr, l1e. pose proof (PX_range 1 va). unfold vm_demo.
  cbn [k_mem with_k_mem with_k_procs with_k_cpu with_k_locks with_k_freelist].
  rewrite !ld32_st32_ne by lia. by rewrite ld32_zero.
Qed.

Lemma mappages_spec_witness :
  ∃ r k s' ps' fl',
    mappages 196608 4096 8192 0 PTE_R vm_demo = Ok r s' ∧
    vm_step (P := emu) 196608 [] [200704; 204800; 208896] vm_demo ps' fl' s' ∧
    maps_range (k_mem vm_demo) (k_mem s') 196608 4096 k 0 PTE_R ∧
    (r = 0 ∧ k = 8192 / PGSIZE ∨ r = -1 ∧ 0 <= k < 8192 / PGSIZE ∧ fl' = []).
Proof.
  apply (mappages_spec (P := emu)); try done. { apply vm_demo_inv. }
  intros va' _. by rewrite vm_demo_empty.
Defined.

Lemma vmfault_lazy_witness :
  ∃ r s' ps' fl', vmfault (P := emu) 196608 5000 false vm_demo = Ok r s' ∧
    vm_inv (P := emu) s' 196608 ps' fl' ∧ memrel vm_demo s' ∧
    frame (196608 :: [] ++ [200704; 204800; 208896]) (k_mem vm_demo) (k_mem s') ∧
    (r = 0 ∧ ps' ++ fl' ≡ₚ [] ++ [200704; 204800; 208896] ∧
       (∀ va', 0 <= va' < MAXVA → pte_of (k_mem s') 196608 va' = pte_of (k_mem vm_demo) 196608 va') ∧
       (8192 <= 5000 ∨ has (pte_of (k_mem vm_demo) 196608 (PGROUNDDOWN 5000)) PTE_V = true ∨ (3 <= 2)%nat) ∨
     0 < r ∧ r :: ps' ++ fl' ≡ₚ [] ++ [200704; 204800; 208896] ∧ zeroed (k_mem s') r ∧ 5000 < 8192 ∧
       maps_range (k_mem vm_demo) (k_mem s') 196608 (PGROUNDDOWN 5000) 1 r fault_perm).
Proof.
  apply (vmfault_lazy (P := emu) vm_demo 196608 [] [200704; 204800; 208896] 0 demo_proc); try done.
  apply vm_demo_inv.
Defined.

(** [vm_demo] after user page 0 was mapped to 0x32000. *)
Definition vm_demo1 : kstate :=
  let s1 := with_k_mem (add_table 200704 196608 0 (k_mem vm_demo)) (pop_page vm_demo) in
  let s2 := pop_page s1 in
  with_k_mem (st32 (k_mem s2) 200704 (entry 204800 fault_perm)) s2.

Lemma vm_demo1_ok :
  vm_inv (P := emu) vm_demo1 196608 [200704] [208896] ∧
  ∀ va, 0 <= va < MAXVA →
    pte_of (k_mem vm_demo1) 196608 va = if decide (va < 4096) then entry 204800 fault_perm else 0.
Proof.
  pose proof vm_demo_inv as Hi.
  assert (has (l1e (k_mem vm_demo) 196608 0) PTE_V = false) as Hv by (vm_compute; done).
  pose proof (add_table_step (P := emu) _ _ _ _ _ 0 Hi ltac:(lia) Hv) as [Hi1 _ _ _].
  destruct (vm_alloc (P := emu) _ _ _ _ _ Hi1) as (_ & Hi2 & Hok & _).
  destruct (store_entry (P := emu) _ _ _ _ 0 200704 204800 fault_perm Hi2) as [[Hi3 _ _ _] Hm];
    [done|done| |done|done|done|].
  { vm_compute. done. }
  split; [exact Hi3|]. intros va Hva. etrans; [apply Hm; done|].
  repeat case_decide; try lia; [f_equal; zl|].
  etrans; [|apply (vm_demo_empty va)].
  exact (pte_of_add_table (P := emu) vm_demo 196608 [] 200704 [204800; 208896] 0 va Hi ltac:(lia) Hv).
Qed.

Lemma vm_demo1_umem : umem (P := emu) vm_demo1 196608 [200704] [208896].
Proof.
  destruct vm_demo1_ok as [Hi Hp]. split; [done|..].
  - intros va Hva. unfold uvalid. rewrite Hp by done. case_decide; [|done]. intros _.
    change (PTE2PA (entry 204800 fault_perm)) with 204800.
    split; [split; cbn; done || zl|]. (clear; set_solver).
  - intros va va' Hva Hva'. unfold uvalid. rewrite (Hp va Hva), (Hp va' Hva').
    repeat case_decide; try done. zl.
Qed.

(** ** A process's table
    As proc_pagetable leaves it: the trampoline and the trap frame are mapped,
    in the table page 0x31000; 0x32000, 0x33000 and 0x34000 are free. *)
Definition vm_bare : kstate :=
  with_k_locks boot_locks (with_k_freelist 200704
    (with_k_mem (st32 (st32 (st32 ∅ 200704 204800) 204800 208896) 208896 212992) kstate0)).
Definition vm_proc_table : kstate :=
  let s1 := with_k_mem (add_table 200704 196608 (PX 1 TRAMPOLINE) (k_mem vm_bare)) (pop_page vm_bare) in
  let s2 := with_k_mem (st32 (k_mem s1) (200704 + 4 * PX 0 TRAMPOLINE) (entry 32768 (Z.lor PTE_R PTE_X))) s1 in
  with_k_mem (st32 (k_mem s2) (200704 + 4 * PX 0 TRAPFRAME) (entry 217088 (Z.lor PTE_R PTE_W))) s2.

Lemma vm_bare_ok :
  vm_inv (P := emu) vm_bare 196608 [] [200704; 204800; 208896; 212992] ∧
  ∀ va, pte_of (k_mem vm_bare) 196608 va = 0.
Proof.
  assert (∀ i, 0 <= i < 1024 → l1e (k_mem vm_bare) 196608 i = 0) as Hz.
  { intros i Hi. unfold l1e, vm_bare. cbn [k_mem with_k_mem with_k_locks with_k_freelist].
    rewrite !ld32_st32_ne by lia. by apply ld32_zero. }
  split; [split|].
  - split; [split; cbn; done || lia|]. exists "lock". vm_compute. reflexivity.
  - split; [by vm_compute|repeat constructor; cbn; done || zl|repeat constructor; set_solver].
  - split; [split; cbn; done || zl|done|set_solver|..].
    + intros i Hi. by rewrite Hz.
    + intros i j Hi Hj. by rewrite Hz.
  - repeat constructor; set_solver.
  - intros va. unfold pte_of, pte_addr. rewrite Hz by apply PX_range. done.
Qed.

Lemma vm_proc_table_ok :
  vm_inv (P := emu) vm_proc_table 196608 [200704] [204800; 208896; 212992] ∧
  ∀ va, 0 <= va < MAXVA → pte_of (k_mem vm_proc_table) 196608 va =
    if decide (TRAPFRAME <= va < TRAPFRAME + PGSIZE) then entry 217088 (Z.lor PTE_R PTE_W)
    else if decide (TRAMPOLINE <= va < TRAMPOLINE + PGSIZE) then entry 32768 (Z.lor PTE_R PTE_X) else 0.
Proof.
  destruct vm_bare_ok as [Hi Hz].
  assert (has (l1e (k_mem vm_bare) 196608 (PX 1 TRAMPOLINE)) PTE_V = false) as Hv by (vm_compute; done).
  pose proof (add_table_step (P := emu) _ _ _ _ _ (PX 1 TRAMPOLINE) Hi (PX_range 1 TRAMPOLINE) Hv) as [Hi1 _ _ _].
  set (s1 := with_k_mem _ _) in Hi1.
  destruct (store_entry (P := emu) s1 _ _ _ TRAMPOLINE (200704 + 4 * PX 0 TRAMPOLINE) 32768 (Z.lor PTE_R PTE_X) Hi1) as [[Hi2 _ _ _] Hm2];
    [done|done|vm_compute; done|done|done|done|].
  set (s2 := with_k_mem _ s1) in Hi2.
  destruct (store_entry (P := emu) s2 _ _ _ TRAPFRAME (200704 + 4 * PX 0 TRAPFRAME) 217088 (Z.lor PTE_R PTE_W) Hi2) as [[Hi3 _ _ _] Hm3];
    [done|done|vm_compute; done|done|done|done|].
  split; [exact Hi3|]. intros va Hva. etrans; [apply Hm3; done|].
  rewrite Z.mul_1_l. change 4096 with PGSIZE. case_decide.
  { f_equal. zl. }
  etrans; [apply Hm2; done|]. rewrite Z.mul_1_l. change 4096 with PGSIZE. case_decide.
  { f_equal. zl. }
  etrans; [|apply (Hz va)].
  exact (pte_of_add_table (P := emu) vm_bare 196608 [] 200704 [204800; 208896; 212992] _ va Hi (PX_range 1 TRAMPOLINE) Hv).
Qed.

Lemma uvmalloc_all_or_nothing_witness :
  ∃ r s' ps' fl', uvmalloc (P := emu) 196608 0 4096 PTE_W vm_proc_table = Ok r s' ∧
   (r = 4096 ∧ (∃ us, grown (P := emu) vm_proc_table 196608 [200704] [204800; 208896; 212992] (PGROUNDUP 0)
                        (uperm PTE_W) (Z.to_nat ((PGROUNDUP 4096 - PGROUNDUP 0) / PGSIZE)) s' ps' us fl') ∨
    r = 0 ∧ vm_step (P := emu) 196608 [200704] [204800; 208896; 212992] vm_proc_table ps' fl' s' ∧
    (∀ va, 0 <= va < MAXVA → pte_of (k_mem s') 196608 va = pte_of (k_mem vm_proc_table) 196608 va) ∧
    (3 <= 2 * Z.to_nat ((PGROUNDUP 4096 - PGROUNDUP 0) / PGSIZE))%nat).
Proof.
  destruct vm_proc_table_ok as [Hi Hp].
  apply (uvmalloc_all_or_nothing (P := emu) vm_proc_table 196608 [200704] [204800; 208896; 212992]); try done.
  intros va Hva. change (PGROUNDUP 0) with 0 in Hva. change (PGROUNDUP 4096) with 4096 in Hva.
  rewrite Hp by (rewrite MAXVA_eq; lia). rewrite !decide_False by (unfold TRAPFRAME, TRAMPOLINE, PGSIZE; lia). done.
Defined.

Lemma uvmunmap_spec_witness :
  ∃ s', uvmunmap (P := emu) 196608 0 2 true vm_demo1 = Ok tt s' ∧
    vm_inv (P := emu) s' 196608 [200704] (rev [204800] ++ [208896]) ∧ memrel vm_demo1 s' ∧
    frame (196608 :: [200704] ++ [204800] ++ [208896]) (k_mem vm_demo1) (k_mem s') ∧
    clears (k_mem vm_demo1) (k_mem s') 196608 0 2.
Proof.
  destruct vm_demo1_ok as [Hi Hp].
  apply (uvmunmap_spec (P := emu) vm_demo1 196608 [200704] [208896] 0 2 true); try done.
  - change (Forall (page_ok (P := emu)) [204800]). repeat constructor; cbn; done || zl.
  - change (NoDup [196608; 200704; 204800; 208896]). repeat constructor; (clear; set_solver).
Defined.

Lemma copyout_copyin_roundtrip_witness :
  ∃ m', copyout (P := emu) 196608 100 [104; 105] vm_demo1 = Ok 0 (with_k_mem m' vm_demo1) ∧
    uwrites (k_mem vm_demo1) m' 196608 100 [104; 105] ∧
    umem (P := emu) (with_k_mem m' vm_demo1) 196608 [200704] [208896] ∧
    copyin (P := emu) 196608 100 2 (with_k_mem m' vm_demo1) = Ok (0, [104; 105]) (with_k_mem m' vm_demo1).
Proof.
  apply (copyout_copyin_roundtrip (P := emu) vm_demo1 196608 [200704] [208896] 100 [104; 105]).
  - apply vm_demo1_umem.
  - lia.
  - rewrite MAXVA_eq. cbn [length]. lia.
  - repeat constructor; lia.
  - cbn [length]. intros va' Hva'. destruct vm_demo1_ok as [_ Hp]. unfold uwritable, uvalid.
    rewrite Hp by (rewrite MAXVA_eq; lia). by rewrite decide_True by lia.
Defined.
