(* ===== verification/Sched.v ===== *)
(** * kernel/proc.c: sleep, wakeup and giving up the CPU; kernel/sleeplock.c

    A kernel thread that calls [swtch] to the scheduler stops with the outcome
    [Sleep]: the state it carries is the one the scheduler and the other
    processes continue from.  What the thread does once it is scheduled again
    is the second half of the function: [sched_resume], [sleep_resume],
    [yield_resume], [acquiresleep_resume].  Register contents saved by
    [swtch] (assembly) are not part of the state. *)

From S2P Require Import Prelude Machine State CString Spinlock Emu Kalloc Vm VmSpec VmUser VmCopy.

Section sched.

Definition set_proc (i : nat) (p : proc) : KM unit :=
  modify (λ s, with_k_procs (<[i := p]> (k_procs s)) s).
Definition upd_proc (i : nat) (f : proc → proc) : KM unit := p ← getproc i; set_proc i (f p).
(** [myproc()] dereferenced: the running process. *)
Definition curproc : KM nat := o ← myproc; deref o.

Definition park {A} : KM A := λ s, Sleep s.

Definition sched : KM unit :=
  i ← curproc;
  h ← holding (LkProc i);
  if negb h then panic "sched p->lock" else
  c ← mycpu;
  if negb (c_noff c =? 1) then panic "sched locks" else
  p ← getproc i;
  if decide (p_state p = RUNNING) then panic "sched RUNNING" else
  ie ← intr_get;
  if ie : bool then panic "sched interruptible" else
  park.
(** After the switch back: [mycpu()->intena = intena]. *)
Definition sched_resume (intena : bool) : KM unit :=
  c ← mycpu; set_cpu (with_c_intena intena c).

Definition yield : KM unit :=
  i ← curproc;
  acquire (LkProc i);;
  upd_proc i (with_p_state RUNNABLE);;
  sched.
Definition yield_resume (intena : bool) : KM unit :=
  sched_resume intena;;
  i ← curproc;
  release (LkProc i).

Definition sleep (ch : chan) (lk : lockid) : KM unit :=
  i ← curproc;
  acquire (LkProc i);;
  release lk;;
  upd_proc i (with_p_chan (Some ch));;
  upd_proc i (with_p_state SLEEPING);;
  sched.
Definition sleep_resume (intena : bool) (lk : lockid) : KM unit :=
  sched_resume intena;;
  i ← curproc;
  upd_proc i (with_p_chan None);;
  release (LkProc i);;
  acquire lk.

Definition wakeup (ch : option chan) : KM unit :=
  for_each (seq 0 NPROC) (λ i,
    o ← myproc;
    when (negb (bool_decide (o = Some i)))
      (acquire (LkProc i);;
       p ← getproc i;
       when (bool_decide (p_state p = SLEEPING) && bool_decide (p_chan p = ch))
         (set_proc i (with_p_state RUNNABLE p));;
       release (LkProc i))).

Definition allocpid : KM Z :=
  acquire LkPid;;
  pid ← gets k_nextpid;
  modify (with_k_nextpid (i32 (pid + 1)));;
  release LkPid;;
  mret pid.

Definition procinit : KM unit :=
  initlock LkPid "nextpid";;
  initlock LkWait "wait_lock";;
  for_each (seq 0 NPROC) (λ i,
    initlock (LkProc i) "proc";;
    upd_proc i (with_p_state UNUSED);;
    upd_proc i (with_p_kstack (KSTACK (Z.of_nat i)))).

Definition setkilled (i : nat) : KM unit :=
  acquire (LkProc i);; upd_proc i (with_p_killed 1);; release (LkProc i).
Definition killed (i : nat) : KM Z :=
  acquire (LkProc i);; p ← getproc i; release (LkProc i);; mret (p_killed p).

Fixpoint kkill_loop (l : list nat) (pid : Z) : KM Z :=
  match l with
  | [] => mret (-1)
  | i :: l' =>
      acquire (LkProc i);;
      p ← getproc i;
      if p_pid p =? pid then
        upd_proc i (with_p_killed 1);;
        p ← getproc i;
        when (bool_decide (p_state p = SLEEPING)) (upd_proc i (with_p_state RUNNABLE));;
        release (LkProc i);;
        mret 0
      else release (LkProc i);; kkill_loop l' pid
  end.
Definition kkill (pid : Z) : KM Z := kkill_loop (seq 0 NPROC) pid.

(** ** scheduler *)
(** One round of the inner loop up to the switch: whether [p] was picked. *)
Definition scheduler_pick (i : nat) : KM bool :=
  acquire (LkProc i);;
  p ← getproc i;
  if decide (p_state p = RUNNABLE) then
    set_proc i (with_p_state RUNNING p);;
    c ← mycpu;
    set_cpu (with_c_proc (Some i) c);;
    mret true
  else release (LkProc i);; mret false.
(** From the switch back to the scheduler to the end of the round. *)
Definition scheduler_return (i : nat) : KM unit :=
  c ← mycpu;
  set_cpu (with_c_proc None c);;
  release (LkProc i).

(** ** kernel/sleeplock.c *)
Definition sleeplock0 : sleeplock := mk_sleeplock 0 "" 0.
Definition slock_at (s : kstate) (l : slid) : sleeplock := default sleeplock0 (k_slocks s !! l).
Definition set_slock (l : slid) (v : sleeplock) : KM unit :=
  modify (λ s, with_k_slocks (<[l := v]> (k_slocks s)) s).
Definition upd_slock (l : slid) (f : sleeplock → sleeplock) : KM unit :=
  v ← gets (λ s, slock_at s l); set_slock l (f v).

Definition initsleeplock (l : slid) (name : string) : KM unit :=
  initlock (LkSleep l) "sleep lock";;
  upd_slock l (with_sl_name name);;
  upd_slock l (with_sl_locked 0);;
  upd_slock l (with_sl_pid 0).

(** From the test of the loop on, the inner lock held. *)
Definition acquiresleep_loop (l : slid) : KM unit :=
  v ← gets (λ s, slock_at s l);
  if negb (sl_locked v =? 0) then sleep (ChSleep l) (LkSleep l) else
  upd_slock l (with_sl_locked 1);;
  i ← curproc;
  p ← getproc i;
  upd_slock l (with_sl_pid (p_pid p));;
  release (LkSleep l).
Definition acquiresleep (l : slid) : KM unit := acquire (LkSleep l);; acquiresleep_loop l.
Definition acquiresleep_resume (intena : bool) (l : slid) : KM unit :=
  sleep_resume intena (LkSleep l);; acquiresleep_loop l.

Definition releasesleep (l : slid) : KM unit :=
  acquire (LkSleep l);;
  upd_slock l (with_sl_locked 0);;
  upd_slock l (with_sl_pid 0);;
  wakeup (Some (ChSleep l));;
  release (LkSleep l).

Definition holdingsleep (l : slid) : KM bool :=
  acquire (LkSleep l);;
  v ← gets (λ s, slock_at s l);
  r ← (if sl_locked v =? 0 then mret false else
       i ← curproc;
       p ← getproc i;
       mret (sl_pid v =? p_pid p));
  release (LkSleep l);;
  mret r.

(** ** The context of system calls that may sleep *)
(** The locks that exist from boot on (a pipe brings its own). *)
Definition static (lk : lockid) : Prop :=
  match lk with
  | LkPipe _ => False
  | LkProc i => (i < NPROC)%nat
  | LkSleep (SlBuf i) => (i < NBUF)%nat
  | LkSleep (SlInode i) => (i < NINODE)%nat
  | _ => True
  end.

Record calm (s : kstate) : Prop := {
  calm_ctx : kctx s;
  calm_locks : ∀ lk, static lk → lock_ready lk s;
  calm_procs : length (k_procs s) = NPROC;
  calm_cur : ∃ i p, running s i p }.

Definition cur_pid (s : kstate) : Z :=
  match c_proc (k_cpu s) ≫= λ i, k_procs s !! i with Some p => p_pid p | None => 0 end.

(** What [wakeup] does to the process table. *)
Definition wake1 (ch : option chan) (p : proc) : proc :=
  if bool_decide (p_state p = SLEEPING) && bool_decide (p_chan p = ch)
  then with_p_state RUNNABLE p else p.
Definition wake (ch : option chan) (cur : option nat) (l : list proc) : list proc :=
  imap (λ i p, if bool_decide (cur = Some i) then p else wake1 ch p) l.
Definition woken (ch : option chan) (s : kstate) : kstate :=
  with_k_procs (wake ch (c_proc (k_cpu s)) (k_procs s)) s.

Lemma getproc_ok {B} (f : proc → KM B) s i p :
  k_procs s !! i = Some p → (q ← getproc i; f q) s = f p s.
Proof. intros H. unfold getproc. by rewrite bind_assoc, bind_gets, H. Qed.

Lemma curproc_ok {B} (f : nat → KM B) s i p :
  kctx s → running s i p → (j ← curproc; f j) s = f i s.
Proof.
  intros Hk [H1 _]. unfold curproc. rewrite bind_assoc, (bind_Ok _ _ _ _ _ (myproc_kctx s Hk)), H1. done.
Qed.

Lemma upd_proc_ok i f s p :
  k_procs s !! i = Some p → upd_proc i f s = Ok tt (with_k_procs (<[i := f p]> (k_procs s)) s).
Proof. intros H. unfold upd_proc. by rewrite (getproc_ok _ s i p). Qed.

(** One iteration of [wakeup]. *)
Lemma wakeup_iter {B} ch i p s (k : KM B) :
  kctx s → k_procs s !! i = Some p → (c_proc (k_cpu s) ≠ Some i → lock_ready (LkProc i) s) →
  ((o ← myproc;
    when (negb (bool_decide (o = Some i)))
      (acquire (LkProc i);;
       p ← getproc i;
       when (bool_decide (p_state p = SLEEPING) && bool_decide (p_chan p = ch))
         (set_proc i (with_p_state RUNNABLE p));;
       release (LkProc i)));; k) s =
  k (with_k_procs (<[i := if bool_decide (c_proc (k_cpu s) = Some i) then p else wake1 ch p]> (k_procs s)) s).
Proof.
  intros Hk Hp Hl. rewrite bind_assoc, (bind_Ok _ _ _ _ _ (myproc_kctx s Hk)).
  case_bool_decide as Hc; cbn [negb when].
  { rewrite bind_ret, list_insert_id by done. by destruct s. }
  specialize (Hl Hc). rewrite bind_assoc, (bind_Ok _ _ _ _ _ (acquire_ready _ _ Hk Hl)).
  rewrite bind_assoc, (getproc_ok _ (acq (LkProc i) s) i p Hp), bind_assoc. unfold wake1.
  destruct (_ && _); cbn [when].
  - unfold set_proc. rewrite bind_modify. set (s' := with_k_procs _ s).
    erewrite (bind_Ok (release _)); [|apply (release_acq_id (LkProc i) s')].
    + done.
    + destruct Hk; by split.
    + destruct Hl as [n Hl]. by exists n.
  - rewrite bind_ret. erewrite (bind_Ok (release _)); [|by apply (release_acq_id (LkProc i) s)].
    rewrite list_insert_id by done. by destruct s.
Qed.

Lemma wakeup_ok ch s :
  kctx s → length (k_procs s) = NPROC →
  (∀ i, (i < NPROC)%nat → c_proc (k_cpu s) ≠ Some i → lock_ready (LkProc i) s) →
  wakeup ch s = Ok tt (woken ch s).
Proof.
  intros Hk Hlen Hl. unfold wakeup, woken. set (w := wake ch (c_proc (k_cpu s)) (k_procs s)).
  set (body := λ i, _).
  assert (∀ n a, (a + n = NPROC)%nat →
    for_each (seq a n) body (with_k_procs (take a w ++ drop a (k_procs s)) s) = Ok tt (with_k_procs w s))
    as H; [|specialize (H NPROC 0%nat eq_refl); cbn [take drop app] in H; rewrite <- H; by destruct s].
  assert (length w = NPROC) as Hw by (unfold w, wake; by rewrite length_imap).
  induction n as [|n IH]; intros a Ha; cbn [seq for_each].
  { rewrite Nat.add_0_r in Ha. rewrite take_ge, drop_ge, app_nil_r by lia. done. }
  destruct (lookup_lt_is_Some_2 (k_procs s) a ltac:(lia)) as [p Hp].
  assert (w !! a = Some (if bool_decide (c_proc (k_cpu s) = Some a) then p else wake1 ch p)) as Hwa.
  { unfold w, wake. by rewrite list_lookup_imap, Hp. }
  assert (length (take a w) = a) as Hta by (rewrite length_take; lia).
  etrans; [apply (wakeup_iter ch a p)|].
  - destruct Hk; by split.
  - cbn. rewrite lookup_app_r by lia. by rewrite Hta, Nat.sub_diag, lookup_drop, Nat.add_0_r.
  - intros Hc. destruct (Hl a) as [nm ?]; [lia|done|]. by exists nm.
  - cbn [k_procs with_k_procs k_cpu]. rewrite insert_app_r_alt by lia.
    rewrite Hta, Nat.sub_diag. erewrite (drop_S (k_procs s)) by exact Hp. cbn [insert list_insert].
    rewrite <- (IH (S a)) by lia. f_equal.
    rewrite (take_S_r _ _ _ Hwa), <- app_assoc. by destruct s.
Qed.

Lemma killed_ok {B} i p s (f : Z → KM B) :
  kctx s → lock_ready (LkProc i) s → k_procs s !! i = Some p →
  (q ← killed i; f q) s = f (p_killed p) s.
Proof.
  intros Hk Hl Hp. unfold killed. rewrite bind_assoc, (bind_Ok _ _ _ _ _ (acquire_ready _ _ Hk Hl)).
  rewrite bind_assoc, (getproc_ok _ (acq (LkProc i) s) i p Hp), bind_assoc.
  by rewrite (bind_Ok _ _ _ _ _ (release_acq_id (LkProc i) s Hk Hl)), bind_ret.
Qed.

Lemma kctx_ext s s' : k_regs s' = k_regs s → k_cpu s' = k_cpu s → kctx s → kctx s'.
Proof. intros H1 H2 [A B C D]. split; by rewrite ?H1, ?H2. Qed.
Lemma lock_ready_ext lk s s' : k_locks s' = k_locks s → lock_ready lk s → lock_ready lk s'.
Proof. intros H [n ?]. exists n. by rewrite H. Qed.

(** [s'] runs the same process in the same locking context. *)
Definition same_ctx (s s' : kstate) : Prop :=
  k_regs s' = k_regs s ∧ k_cpu s' = k_cpu s ∧ k_locks s' = k_locks s ∧
  length (k_procs s') = length (k_procs s) ∧
  ∀ i, c_proc (k_cpu s) = Some i → k_procs s' !! i = k_procs s !! i.

Lemma calm_same s s' : same_ctx s s' → calm s → calm s'.
Proof.
  intros (H1 & H2 & H3 & H4 & H5) [A B C (i & p & D1 & D2)]. split.
  - by eapply kctx_ext.
  - intros lk Hlk. eapply lock_ready_ext; [exact H3|by apply B].
  - by rewrite H4.
  - exists i, p. split; [by rewrite H2|by rewrite H5].
Qed.
Lemma same_ctx_refl s : same_ctx s s.
Proof. done. Qed.
Lemma same_ctx_trans s1 s2 s3 : same_ctx s1 s2 → same_ctx s2 s3 → same_ctx s1 s3.
Proof.
  intros (H1 & H2 & H3 & H4 & H5) (K1 & K2 & K3 & K4 & K5).
  split_and!; [congruence..|]. intros i Hi. rewrite K5 by (by rewrite H2). by apply H5.
Qed.

Lemma lookup_wake ch cur l i p :
  l !! i = Some p → wake ch cur l !! i = Some (if bool_decide (cur = Some i) then p else wake1 ch p).
Proof. intros H. unfold wake. by rewrite list_lookup_imap, H. Qed.

Lemma woken_same ch s : same_ctx s (woken ch s).
Proof.
  split_and!; try done; cbn; [by unfold wake; rewrite length_imap|].
  intros i Hi. unfold wake. rewrite list_lookup_imap. rewrite Hi.
  destruct (k_procs s !! i); cbn; [|done]. by rewrite bool_decide_true.
Qed.

Lemma acquire_calm {B} lk s (k : KM B) :
  calm s → static lk → (acquire lk;; k) s = k (acq lk s).
Proof.
  intros Hc Hl. apply (bind_Ok (acquire lk) (λ _, k) s tt). apply acquire_ready; [apply Hc|by apply (calm_locks s Hc)].
Qed.
Lemma release_calm lk s : calm s → static lk → release lk (acq lk s) = Ok tt s.
Proof. intros Hc Hl. apply release_acq_id; [apply Hc|by apply (calm_locks s Hc)]. Qed.

Lemma calm_pid s i p : running s i p → p_pid p = cur_pid s.
Proof. intros [H1 H2]. unfold cur_pid. rewrite H1. cbn. by rewrite H2. Qed.

(** ** Sleep locks *)
Definition set_sl (l : slid) (v : sleeplock) (s : kstate) : kstate :=
  with_k_slocks (<[l := v]> (k_slocks s)) s.

Lemma set_sl_same l v s : same_ctx s (set_sl l v s).
Proof. done. Qed.

Lemma slock_at_set l v s : slock_at (set_sl l v s) l = v.
Proof. unfold slock_at. cbn. by rewrite lookup_insert_eq. Qed.

Lemma upd_slock_eq {B} l f s (k : KM B) :
  (upd_slock l f;; k) s = k (set_sl l (f (slock_at s l)) s).
Proof. done. Qed.

Lemma set_sl_twice l v w s : set_sl l v (set_sl l w s) = set_sl l v s.
Proof. unfold set_sl. cbn. by rewrite insert_insert_eq. Qed.

Lemma acquiresleep_loop_free l s :
  calm s → static (LkSleep l) → sl_locked (slock_at s l) = 0 →
  acquiresleep_loop l (acq (LkSleep l) s) =
    Ok tt (set_sl l (mk_sleeplock 1 (sl_name (slock_at s l)) (cur_pid s)) s).
Proof.
  intros Hc Hl H0. unfold acquiresleep_loop. rewrite bind_gets. change (slock_at (acq _ s) l) with (slock_at s l).
  rewrite H0. cbn [Z.eqb negb]. rewrite upd_slock_eq. destruct (calm_cur s Hc) as (i & p & Hr).
  set (s1 := set_sl l (with_sl_locked 1 (slock_at s l)) s).
  change (set_sl l _ (acq (LkSleep l) s)) with (acq (LkSleep l) s1).
  assert (calm s1) as Hc1 by by eapply calm_same, Hc.
  rewrite (curproc_ok _ _ i p); [|by apply acq_kctx, Hc1|exact Hr].
  rewrite (getproc_ok _ _ i p); [|exact (proj2 Hr)].
  rewrite upd_slock_eq, (calm_pid s i p Hr).
  change (slock_at (acq _ s1) l) with (slock_at s1 l). unfold s1 at 1. rewrite slock_at_set.
  change (set_sl l ?v (acq (LkSleep l) s1)) with (acq (LkSleep l) (set_sl l v s1)).
  rewrite release_calm; [|by eapply calm_same, Hc|done].
  unfold s1. by rewrite set_sl_twice.
Qed.

Lemma acquiresleep_free l s :
  calm s → static (LkSleep l) → sl_locked (slock_at s l) = 0 →
  acquiresleep l s = Ok tt (set_sl l (mk_sleeplock 1 (sl_name (slock_at s l)) (cur_pid s)) s).
Proof. intros Hc Hl H0. unfold acquiresleep. rewrite acquire_calm by done. by apply acquiresleep_loop_free. Qed.

Lemma releasesleep_calm l s :
  calm s → static (LkSleep l) →
  releasesleep l s = Ok tt (woken (Some (ChSleep l)) (set_sl l (mk_sleeplock 0 (sl_name (slock_at s l)) 0) s)).
Proof.
  intros Hc Hl. unfold releasesleep. rewrite acquire_calm by done. rewrite !upd_slock_eq.
  change (slock_at (acq _ s) l) with (slock_at s l).
  change (slock_at (set_sl l ?v (acq ?k s)) l) with (slock_at (set_sl l v s) l). rewrite slock_at_set.
  rewrite set_sl_twice.
  change (set_sl l ?v (acq (LkSleep l) s)) with (acq (LkSleep l) (set_sl l v s)).
  set (s2 := set_sl l _ s). assert (calm s2) as Hc2 by by eapply calm_same, Hc.
  rewrite (bind_Ok _ _ _ tt (acq (LkSleep l) (woken (Some (ChSleep l)) s2))).
  - apply release_calm; [|done]. eapply calm_same, Hc2. apply woken_same.
  - apply wakeup_ok; [by apply acq_kctx, Hc2|apply Hc2|]. intros i Hi _.
    apply lock_ready_acq; [by apply Hc2|done].
Qed.

Lemma holdingsleep_calm l s :
  calm s → static (LkSleep l) →
  holdingsleep l s =
    Ok (negb (sl_locked (slock_at s l) =? 0) && (sl_pid (slock_at s l) =? cur_pid s)) s.
Proof.
  intros Hc Hl. unfold holdingsleep. rewrite acquire_calm by done. rewrite bind_gets.
  change (slock_at (acq _ s) l) with (slock_at s l). destruct (calm_cur s Hc) as (i & p & Hr).
  destruct (Z.eqb_spec (sl_locked (slock_at s l)) 0); cbn [negb andb].
  - rewrite bind_ret. rewrite (bind_Ok _ _ _ _ _ (release_calm _ s Hc Hl)). done.
  - rewrite bind_assoc, (curproc_ok _ _ i p); [|by apply acq_kctx, Hc|exact Hr].
    rewrite bind_assoc, (getproc_ok _ _ i p); [|exact (proj2 Hr)]. rewrite bind_ret.
    rewrite (bind_Ok _ _ _ _ _ (release_calm _ s Hc Hl)). by rewrite (calm_pid s i p Hr).
Qed.

End sched.

(** ** Frames of the locking and scheduling code *)
(** [π] is a part of the state outside the locks, the CPU, its registers and
    the process table. *)
Class elsewhere {X} (π : kstate → X) : Prop := {
  ew_locks : ∀ s v, π (with_k_locks v s) = π s;
  ew_cpu : ∀ s v, π (with_k_cpu v s) = π s;
  ew_regs : ∀ s v, π (with_k_regs v s) = π s;
  ew_procs : ∀ s v, π (with_k_procs v s) = π s }.

#[export] Instance slocks_elsewhere : elsewhere k_slocks.
Proof. split; by intros []. Qed.

Section elsewhere.
Context {X} (π : kstate → X) `{E : !elsewhere π}.

Lemma keeps_push_off : keeps π push_off.
Proof. destruct E. unfold push_off, mycpu, set_cpu, intr_get, intr_off, set_status. keeps; by apply keeps_modify. Qed.
Lemma keeps_pop_off : keeps π pop_off.
Proof. destruct E. unfold pop_off, mycpu, set_cpu, intr_get, intr_on, set_status. keeps; by apply keeps_modify. Qed.
#[local] Hint Resolve keeps_push_off keeps_pop_off : keeps.
Lemma keeps_acquire lk : keeps π (acquire lk).
Proof. destruct E. unfold acquire, holding, cas_lock, set_lock. keeps; by apply keeps_modify. Qed.
Lemma keeps_release lk : keeps π (release lk).
Proof. destruct E. unfold release, holding, set_lock. keeps; by apply keeps_modify. Qed.
Lemma keeps_myproc : keeps π myproc.
Proof. unfold myproc, mycpu. keeps. Qed.
#[local] Hint Resolve keeps_acquire keeps_release keeps_myproc : keeps.
Lemma keeps_getproc i : keeps π (getproc i).
Proof. unfold getproc, deref. keeps. Qed.
Lemma keeps_curproc : keeps π curproc.
Proof. unfold curproc, deref. keeps. Qed.
#[local] Hint Resolve keeps_getproc keeps_curproc : keeps.
Lemma keeps_upd_proc i f : keeps π (upd_proc i f).
Proof. destruct E. unfold upd_proc, set_proc. keeps; by apply keeps_modify. Qed.
Lemma keeps_wakeup ch : keeps π (wakeup ch).
Proof. destruct E. unfold wakeup, set_proc. keeps; by apply keeps_modify. Qed.
Lemma keeps_sched : keeps π sched.
Proof. unfold sched, holding, mycpu, intr_get. keeps. Qed.
#[local] Hint Resolve keeps_upd_proc keeps_sched : keeps.
Lemma keeps_sleep ch lk : keeps π (sleep ch lk).
Proof. unfold sleep. keeps. Qed.
Lemma keeps_sleep_resume ie lk : keeps π (sleep_resume ie lk).
Proof. destruct E. unfold sleep_resume, sched_resume, set_cpu, mycpu. keeps; by apply keeps_modify. Qed.
End elsewhere.

#[export] Hint Extern 1 (keeps _ (acquire _)) => exact (keeps_acquire _ _) : keeps.
#[export] Hint Extern 1 (keeps _ (release _)) => exact (keeps_release _ _) : keeps.
#[export] Hint Extern 1 (keeps _ myproc) => exact (keeps_myproc _) : keeps.
#[export] Hint Extern 1 (keeps _ (getproc _)) => exact (keeps_getproc _ _) : keeps.
#[export] Hint Extern 1 (keeps _ curproc) => exact (keeps_curproc _) : keeps.
#[export] Hint Extern 1 (keeps _ (upd_proc _ _)) => exact (keeps_upd_proc _ _ _) : keeps.
#[export] Hint Extern 1 (keeps _ (wakeup _)) => exact (keeps_wakeup _ _) : keeps.
#[export] Hint Extern 1 (keeps _ (sleep _ _)) => exact (keeps_sleep _ _ _) : keeps.
#[export] Hint Extern 1 (keeps _ (sleep_resume _ _)) => exact (keeps_sleep_resume _ _ _) : keeps.

(** A call of [sleep] never returns to its caller directly. *)
Lemma sleep_not_Ok ch lk s a s' : sleep ch lk s ≠ Ok a s'.
Proof.
  intros E. unfold sleep in E. do 5 (apply bind_Ok_inv in E as (? & ? & _ & E)). unfold sched in E.
  do 2 (apply bind_Ok_inv in E as (? & ? & _ & E)). case_match; [done|].
  apply bind_Ok_inv in E as (? & ? & _ & E). case_match; [done|].
  apply bind_Ok_inv in E as (? & ? & _ & E). case_match; [done|].
  apply bind_Ok_inv in E as (? & ? & _ & E). by case_match.
Qed.

Section sleeping.

(** ** Going to sleep *)
Lemma acq_comm lk lk' s : lk ≠ lk' → acq lk (acq lk' s) = acq lk' (acq lk s).
Proof.
  intros H. unfold acq, lock_at. cbn. rewrite !lookup_insert_ne by done.
  by rewrite insert_insert_ne by done.
Qed.

(** Process [i], asleep on [ch]. *)
Definition asleep (ch : chan) (p : proc) : proc := with_p_state SLEEPING (with_p_chan (Some ch) p).
Definition parked (i : nat) (p : proc) (ch : chan) (s : kstate) : kstate :=
  acq (LkProc i) (with_k_procs (<[i := asleep ch p]> (k_procs s)) s).

Lemma sleep_parks ch lk s i p :
  calm s → running s i p → c_noff (k_cpu s) = 0 → lock_ready lk s → lk ≠ LkProc i →
  sleep ch lk (acq lk s) = Sleep (parked i p ch s).
Proof.
  intros Hc Hr Hn Hl Hne. pose proof Hr as [Hr1 Hr2].
  assert (static (LkProc i)) as Hi by (cbn; apply lookup_lt_Some in Hr2; by rewrite calm_procs in Hr2).
  unfold sleep. rewrite (curproc_ok _ _ i p); [|by apply acq_kctx, Hc|done].
  rewrite (bind_Ok _ _ _ _ _ (acquire_ready (LkProc i) (acq lk s) (acq_kctx _ _ (calm_ctx s Hc))
             (lock_ready_acq _ _ _ (calm_locks s Hc _ Hi) (not_eq_sym Hne)))).
  rewrite acq_comm by done.
  rewrite (bind_Ok _ _ _ tt (acq (LkProc i) s)); [|apply release_acq_id;
    [by apply acq_kctx, Hc|by apply lock_ready_acq]].
  rewrite (bind_Ok _ _ _ _ _ (upd_proc_ok i _ (acq (LkProc i) s) p Hr2)).
  erewrite (bind_Ok (upd_proc i (with_p_state SLEEPING)));
    [|apply upd_proc_ok; cbn; apply list_lookup_insert_eq; by eapply lookup_lt_Some].
  cbn [k_procs with_k_procs]. rewrite list_insert_insert_eq. fold (asleep ch p).
  change (with_k_procs ?x (with_k_procs _ (acq (LkProc i) s))) with (acq (LkProc i) (with_k_procs x s)).
  fold (parked i p ch s). assert (k_procs (parked i p ch s) !! i = Some (asleep ch p)) as Hp'
    by (cbn; apply list_lookup_insert_eq; by eapply lookup_lt_Some).
  assert (kctx (parked i p ch s)) as Hk.
  { apply acq_kctx. eapply kctx_ext, Hc; done. }
  unfold sched. rewrite (curproc_ok _ _ i (asleep ch p)) by done.
  assert (holding (LkProc i) (parked i p ch s) = Ok true (parked i p ch s)) as Hh
    by apply holding_acq.
  rewrite (bind_Ok _ _ _ _ _ Hh). cbn [negb]. unfold mycpu. rewrite bind_gets.
  change (c_noff (k_cpu (parked i p ch s))) with (c_noff (k_cpu s) + 1). rewrite Hn.
  change (negb (0 + 1 =? 1)) with false. cbv iota.
  rewrite (getproc_ok _ _ i (asleep ch p)) by done. rewrite decide_False by done.
  unfold intr_get. rewrite bind_gets. by rewrite (kctx_off _ Hk).
Qed.

Lemma acquiresleep_loop_busy l s i p :
  calm s → running s i p → c_noff (k_cpu s) = 0 → static (LkSleep l) →
  sl_locked (slock_at s l) ≠ 0 →
  acquiresleep_loop l (acq (LkSleep l) s) = Sleep (parked i p (ChSleep l) s).
Proof.
  intros Hc Hr Hn Hl Hb. unfold acquiresleep_loop. rewrite bind_gets. change (slock_at (acq _ s) l) with (slock_at s l).
  destruct (Z.eqb_spec (sl_locked (slock_at s l)) 0); [done|]. cbn [negb].
  apply sleep_parks; try done. by apply (calm_locks s Hc).
Qed.

(** ** Waking up *)
(** The table after [sleep] has tidied up. *)
Definition unchan (i : nat) (p : proc) (s : kstate) : kstate :=
  with_k_procs (<[i := with_p_chan None p]> (k_procs s)) s.

Lemma unchan_running i p s : running s i p → running (unchan i p s) i (with_p_chan None p).
Proof. intros [H1 H2]. split; [done|]. cbn. apply list_lookup_insert_eq. by eapply lookup_lt_Some. Qed.
Lemma unchan_calm i p s : calm s → running s i p → calm (unchan i p s).
Proof.
  intros Hc Hr. destruct Hc as [K1 K2 K3 _]. split; [by destruct K1|done|cbn; by rewrite length_insert|].
  eexists i, _. by apply unchan_running.
Qed.

Lemma running_static s i p : calm s → running s i p → static (LkProc i).
Proof. intros Hc [_ H]. cbn. rewrite <- (calm_procs s Hc). by eapply lookup_lt_Some. Qed.

(** The scheduler has switched back with the process lock held. *)
Lemma sleep_resume_ok lk s i p :
  calm s → running s i p → lock_ready lk s →
  sleep_resume false lk (acq (LkProc i) s) = Ok tt (acq lk (unchan i p s)).
Proof.
  intros Hc Hr Hl. pose proof (calm_ctx s Hc) as Hk. unfold sleep_resume, sched_resume, mycpu, set_cpu.
  rewrite bind_assoc, bind_gets, bind_modify.
  assert (with_k_cpu (with_c_intena false (k_cpu (acq (LkProc i) s))) (acq (LkProc i) s) = acq (LkProc i) s) as ->.
  { unfold acq. cbn. rewrite <- (kctx_intena s Hk). by destruct (k_cpu s). }
  rewrite (curproc_ok _ _ i p); [|by apply acq_kctx|done].
  rewrite (bind_Ok _ _ _ _ _ (upd_proc_ok i _ (acq (LkProc i) s) p (proj2 Hr))).
  change (with_k_procs _ (acq (LkProc i) s)) with (acq (LkProc i) (unchan i p s)).
  pose proof (unchan_calm i p s Hc Hr) as Hc'.
  rewrite (bind_Ok _ _ _ _ _ (release_calm (LkProc i) _ Hc' (running_static s i p Hc Hr))).
  apply acquire_ready; [apply Hc'|]. destruct Hl as [n Hl]. by exists n.
Qed.

Lemma acquiresleep_resume_ok l s i p :
  calm s → running s i p → c_noff (k_cpu s) = 0 → static (LkSleep l) →
  acquiresleep_resume false l (acq (LkProc i) s) =
    (if sl_locked (slock_at s l) =? 0
     then Ok tt (set_sl l (mk_sleeplock 1 (sl_name (slock_at s l)) (p_pid p)) (unchan i p s))
     else Sleep (parked i (with_p_chan None p) (ChSleep l) (unchan i p s))).
Proof.
  intros Hc Hr Hn Hl. unfold acquiresleep_resume.
  rewrite (bind_Ok _ _ _ _ _ (sleep_resume_ok (LkSleep l) s i p Hc Hr (calm_locks s Hc _ Hl))).
  pose proof (unchan_calm i p s Hc Hr) as Hc'. pose proof (unchan_running i p s Hr) as Hr'.
  destruct (Z.eqb_spec (sl_locked (slock_at s l)) 0).
  - rewrite acquiresleep_loop_free by done. by rewrite <- (calm_pid _ _ _ Hr').
  - by apply acquiresleep_loop_busy.
Qed.

(** Both ways into the loop of [acquiresleep] test the lock. *)
Lemma acquiresleep_loop_taken l s s' :
  acquiresleep_loop l s = Ok tt s' → sl_locked (slock_at s l) = 0 ∧ sl_locked (slock_at s' l) = 1.
Proof.
  unfold acquiresleep_loop. rewrite bind_gets. destruct (Z.eqb_spec (sl_locked (slock_at s l)) 0) as [E|E]; cbn [negb].
  2:{ by intros ?%sleep_not_Ok. }
  rewrite upd_slock_eq. intros (i & s1 & E1 & (q & s2 & E2 & E')%bind_Ok_inv)%bind_Ok_inv. split; [done|].
  rewrite upd_slock_eq in E'. apply (keeps_Ok k_slocks) in E1, E2, E'; [|keeps..].
  unfold slock_at. rewrite E'. cbn. rewrite lookup_insert_eq. cbn. unfold slock_at. rewrite E2, E1. cbn.
  by rewrite lookup_insert_eq.
Qed.
Lemma acquiresleep_taken ie l s s' :
  acquiresleep l s = Ok tt s' ∨ acquiresleep_resume ie l s = Ok tt s' →
  sl_locked (slock_at s l) = 0 ∧ sl_locked (slock_at s' l) = 1.
Proof.
  intros [E|E]; apply bind_Ok_inv in E as (? & s1 & E1 & E); apply acquiresleep_loop_taken in E as [H1 H2];
    (apply (keeps_Ok k_slocks) in E1; [|keeps]); unfold slock_at in *; by rewrite E1 in H1.
Qed.

(** [sleep] while somebody else has the process lock: it waits for it, and
    until then does not let go of [lk]. *)
Lemma sleep_keeps_lock ch lk s i p name c :
  kctx s → running s i p → lk ≠ LkProc i → k_locks s !! LkProc i = Some (mk_spinlock 1 name (Some c)) → c ≠ cpuid →
  ∃ s', sleep ch lk (acq lk s) = Spin s' ∧ lk_locked (lock_at s' lk) = 1 ∧ lk_cpu (lock_at s' lk) = Some cpuid.
Proof.
  intros Hk Hr Hne Hb Hcpu. unfold sleep. rewrite (curproc_ok _ _ i p); [|by apply acq_kctx|done].
  eexists. split.
  - apply bind_Spin. unfold acquire. erewrite bind_Ok by by apply push_off_kctx, acq_kctx.
    unfold holding, cas_lock, gets, mbind, M_bind, mret, M_ret, lock_at. cbn.
    rewrite lookup_insert_ne, Hb by done. cbn. rewrite bool_decide_false by congruence. cbn.
    rewrite lookup_insert_ne, Hb by done. cbn. done.
  - unfold lock_at. cbn. by rewrite lookup_insert_eq.
Qed.

(** C15: sleep locks exclude, and no wakeup is lost.  [acquiresleep] of a free
    lock takes it for the calling process, and only that process holds it.
    [acquiresleep] of a taken lock parks the caller: it is SLEEPING on the
    lock with its process lock held, the inner lock is free again and the
    sleep lock is untouched.  [releasesleep] frees the lock and makes every
    process sleeping on it RUNNABLE, and no other process changes state.  A
    process that was woken tests the lock again: it takes it if it is free and
    sleeps again if another was faster.  Neither the first call nor the one
    that resumes returns with a lock that was taken, in any state.  And
    [sleep] takes the process lock, which [wakeup] needs, before it gives up
    the inner lock: while somebody else has the process lock, it waits with
    the inner lock held. *)
Theorem sleeplock_exclusive l s i p :
  calm s → running s i p → c_noff (k_cpu s) = 0 → static (LkSleep l) →
  (sl_locked (slock_at s l) = 0 →
     wp (acquiresleep l;; holdingsleep l)
        (λ h s', h = true ∧ sl_pid (slock_at s' l) = p_pid p ∧ calm s') s) ∧
  (sl_locked (slock_at s l) ≠ 0 →
     acquiresleep l s = Sleep (parked i p (ChSleep l) s)) ∧
  wp (releasesleep l)
     (λ _ s', sl_locked (slock_at s' l) = 0 ∧ calm s' ∧
        ∀ j q, k_procs s !! j = Some q → j ≠ i →
          k_procs s' !! j =
            Some (if bool_decide (p_state q = SLEEPING ∧ p_chan q = Some (ChSleep l))
                  then with_p_state RUNNABLE q else q)) s ∧
  acquiresleep_resume false l (acq (LkProc i) s) =
    (if sl_locked (slock_at s l) =? 0
     then Ok tt (set_sl l (mk_sleeplock 1 (sl_name (slock_at s l)) (p_pid p)) (unchan i p s))
     else Sleep (parked i (with_p_chan None p) (ChSleep l) (unchan i p s))) ∧
  (∀ ie t t', acquiresleep l t = Ok tt t' ∨ acquiresleep_resume ie l t = Ok tt t' →
     sl_locked (slock_at t l) = 0 ∧ sl_locked (slock_at t' l) = 1) ∧
  (∀ t name c, t = with_k_locks (<[LkProc i := mk_spinlock 1 name (Some c)]> (k_locks s)) s → c ≠ cpuid →
     ∃ t', sleep (ChSleep l) (LkSleep l) (acq (LkSleep l) t) = Spin t' ∧
       lk_locked (lock_at t' (LkSleep l)) = 1 ∧ lk_cpu (lock_at t' (LkSleep l)) = Some cpuid).
Proof.
  intros Hc Hr Hn Hl. split_and!.
  - intros H0. pose proof (acquiresleep_free l s Hc Hl H0) as E.
    set (s' := set_sl l _ s) in E. assert (calm s') as Hc' by by eapply calm_same, Hc.
    eapply wp_Ok; [rewrite (bind_Ok _ _ _ _ _ E); by apply holdingsleep_calm|].
    unfold s'. rewrite slock_at_set. cbn [sl_locked sl_pid]. split_and!; [|by rewrite (calm_pid s i p)|done].
    cbn [Z.eqb negb andb]. apply Z.eqb_refl.
  - intros Hb. unfold acquiresleep. rewrite acquire_calm by done. by apply acquiresleep_loop_busy.
  - eapply wp_Ok; [by apply releasesleep_calm|]. split_and!.
    + unfold woken, slock_at. cbn. by rewrite lookup_insert_eq.
    + eapply calm_same; [apply woken_same|]. by eapply calm_same, Hc.
    + intros j q Hq Hj.
      change (k_procs (woken ?ch _)) with (wake ch (c_proc (k_cpu s)) (k_procs s)).
      rewrite (lookup_wake _ _ _ j q Hq). rewrite bool_decide_false
        by (destruct Hr as [-> _]; congruence). unfold wake1. by rewrite bool_decide_and.
  - by apply acquiresleep_resume_ok.
  - intros ie t t'. apply acquiresleep_taken.
  - intros t name c -> Hcpu. apply (sleep_keeps_lock _ _ _ i p name c); try done.
    + by destruct (calm_ctx s Hc).
    + cbn. apply lookup_insert_eq.
Qed.
End sleeping.

(** A kernel with all locks free, process 0 (pid 7) running, buffer lock 3 free. *)
Definition sched_demo : kstate :=
  with_k_locks boot_locks
    (with_k_cpu (with_c_proc (Some 0%nat) (k_cpu kstate0))
      (with_k_procs (<[0%nat := with_p_state RUNNING (with_p_pid 7 proc0)]> (replicate NPROC proc0)) kstate0)).

Lemma boot_locks_ready lk : static lk → boot_locks !! lk = Some (mk_spinlock 0 "lock" None).
Proof.
  intros H. unfold boot_locks. apply elem_of_list_to_map_1'.
  - intros y Hy. apply list_elem_of_fmap in Hy as (? & [= <- <-] & _). done.
  - apply list_elem_of_fmap. exists lk. split; [done|].
    destruct lk as [| | |i| | | | | | | | | |[i|i]|]; cbn in H;
      try (apply elem_of_app; left; clear; set_solver); [..|destruct H].
    + apply elem_of_app; right; apply elem_of_app; left. apply list_elem_of_fmap.
      exists i. split; [done|]. apply elem_of_seq. lia.
    + do 2 (apply elem_of_app; right); apply elem_of_app; left. apply list_elem_of_fmap.
      exists i. split; [done|]. apply elem_of_seq. lia.
    + do 3 (apply elem_of_app; right). apply list_elem_of_fmap.
      exists i. split; [done|]. apply elem_of_seq. lia.
Qed.

Lemma sched_demo_calm : calm sched_demo.
Proof.
  split; [split; cbn; done || lia| |done|].
  - intros lk Hlk. exists "lock". by apply boot_locks_ready.
  - by eexists 0%nat, _.
Qed.

(** The same with the lock taken by process 9. *)
Definition sched_busy : kstate := set_sl (SlBuf 3) (mk_sleeplock 1 "buffer" 9) sched_demo.

Lemma sleeplock_exclusive_witness :
  let p := with_p_state RUNNING (with_p_pid 7 proc0) in
  wp (acquiresleep (SlBuf 3);; holdingsleep (SlBuf 3))
     (λ h s', h = true ∧ sl_pid (slock_at s' (SlBuf 3)) = 7 ∧ calm s') sched_demo ∧
  acquiresleep (SlBuf 3) sched_busy = Sleep (parked 0 p (ChSleep (SlBuf 3)) sched_busy) ∧
  acquiresleep_resume false (SlBuf 3) (acq (LkProc 0) sched_busy) =
    Sleep (parked 0 (with_p_chan None p) (ChSleep (SlBuf 3)) (unchan 0 p sched_busy)) ∧
  acquiresleep_resume false (SlBuf 3) (acq (LkProc 0) sched_demo) =
    Ok tt (set_sl (SlBuf 3) (mk_sleeplock 1 (sl_name (slock_at sched_demo (SlBuf 3))) 7) (unchan 0 p sched_demo)).
Proof.
  pose (p := with_p_state RUNNING (with_p_pid 7 proc0)).
  assert (calm sched_busy) as Hb by (apply (calm_same sched_demo); [apply set_sl_same|apply sched_demo_calm]).
  assert (static (LkSleep (SlBuf 3))) as Hl by (apply Nat.ltb_lt; reflexivity).
  destruct (sleeplock_exclusive (SlBuf 3) sched_demo 0 p) as (A1 & _ & _ & A4 & _);
    [apply sched_demo_calm|split; reflexivity|reflexivity|exact Hl|].
  destruct (sleeplock_exclusive (SlBuf 3) sched_busy 0 p) as (_ & B2 & _ & B4 & _);
    [exact Hb|split; reflexivity|reflexivity|exact Hl|].
  split; [exact (A1 eq_refl)|]. split; [apply B2; discriminate|]. split; [exact B4|exact A4].
Defined.
