(* ===== verification/Bytes.v ===== *)
(** * Structures laid out in byte buffers

    The kernel overlays structs on block data (log header, on-disk inodes,
    directory entries, ELF headers) and reads and writes their little-endian
    fields.  [getb n off l] reads an [n]-byte field, [putb n off v l] stores
    one; [put_at] is the general store of bytes at an offset. *)

From S2P Require Import Prelude Machine.

Fixpoint bytes_of (n : nat) (v : Z) : list Z :=
  match n with O => [] | S n' => u8 v :: bytes_of n' (v / 256) end.
Fixpoint of_bytes (l : list Z) : Z :=
  match l with [] => 0 | b :: l' => u8 b + 256 * of_bytes l' end.

Definition put_at (off : nat) (bs l : list Z) : list Z :=
  take off l ++ bs ++ drop (off + length bs) l.
Definition getb (n off : nat) (l : list Z) : Z := of_bytes (take n (drop off l)).
Definition putb (n off : nat) (v : Z) (l : list Z) : list Z := put_at off (bytes_of n v) l.

Lemma length_bytes_of n v : length (bytes_of n v) = n.
Proof. revert v. induction n; intros; cbn; auto. Qed.

Lemma of_bytes_of n : ∀ v, of_bytes (bytes_of n v) = v mod 256 ^ Z.of_nat n.
Proof.
  induction n as [|n IH]; intros v; cbn [bytes_of of_bytes].
  { change (256 ^ Z.of_nat 0) with 1. by rewrite Z.mod_1_r. }
  rewrite IH, Nat2Z.inj_succ, Z.pow_succ_r by lia. unfold u8. rewrite Z.mod_mod by lia.
  rewrite (Z.mul_comm 256), Z.rem_mul_r by (try apply Z.pow_pos_nonneg; lia). lia.
Qed.

Lemma of_bytes_range l : 0 <= of_bytes l < 256 ^ Z.of_nat (length l).
Proof.
  induction l as [|b l IH]; cbn [of_bytes length]; [cbn; lia|].
  rewrite Nat2Z.inj_succ, Z.pow_succ_r by lia. pose proof (u8_range b). lia.
Qed.

Lemma length_put_at off bs l :
  (off + length bs <= length l)%nat → length (put_at off bs l) = length l.
Proof. intros. unfold put_at. rewrite !length_app, length_take, length_drop. lia. Qed.

Lemma lookup_put_at off bs l i :
  (off + length bs <= length l)%nat →
  put_at off bs l !! i =
    if decide (off <= i < off + length bs)%nat then bs !! (i - off)%nat else l !! i.
Proof.
  intros H. unfold put_at. assert (length (take off l) = off) as E by (rewrite length_take; lia).
  case_decide.
  - rewrite lookup_app_r, E by lia. by rewrite lookup_app_l by lia.
  - destruct (decide (i < off)%nat).
    + rewrite lookup_app_l by lia. by rewrite lookup_take_lt.
    + rewrite lookup_app_r, E, lookup_app_r, lookup_drop by lia. f_equal. lia.
Qed.

(** Reading bytes not touched by a store. *)
Lemma slice_put_ne off bs l n k :
  (off + length bs <= length l)%nat → (k + n <= off ∨ off + length bs <= k)%nat →
  take n (drop k (put_at off bs l)) = take n (drop k l).
Proof.
  intros H Hd. apply list_eq. intros i. destruct (decide (i < n)%nat).
  - rewrite !lookup_take_lt, !lookup_drop, lookup_put_at by done. by rewrite decide_False by lia.
  - by rewrite !lookup_take_ge by lia.
Qed.
Lemma slice_put_eq off bs l :
  (off + length bs <= length l)%nat → take (length bs) (drop off (put_at off bs l)) = bs.
Proof.
  intros H. apply list_eq. intros i. destruct (decide (i < length bs)%nat).
  - rewrite lookup_take_lt, lookup_drop, lookup_put_at by done. rewrite decide_True by lia. f_equal. lia.
  - rewrite lookup_take_ge by lia. symmetry. by apply lookup_ge_None_2, Nat.nlt_ge.
Qed.

Lemma length_putb n off v l : (off + n <= length l)%nat → length (putb n off v l) = length l.
Proof. intros. apply length_put_at. by rewrite length_bytes_of. Qed.
Lemma getb_putb_eq n off v l :
  (off + n <= length l)%nat → getb n off (putb n off v l) = v mod 256 ^ Z.of_nat n.
Proof.
  intros. unfold getb, putb. rewrite <- of_bytes_of. f_equal.
  rewrite <- (length_bytes_of n v) at 1. apply slice_put_eq. by rewrite length_bytes_of.
Qed.
Lemma getb_putb_ne n off v l n' off' :
  (off + n <= length l)%nat → (off' + n' <= off ∨ off + n <= off')%nat →
  getb n' off' (putb n off v l) = getb n' off' l.
Proof. intros. unfold getb, putb. f_equal. apply slice_put_ne; by rewrite length_bytes_of. Qed.

Lemma getb_range n off l : 0 <= getb n off l < 256 ^ Z.of_nat n.
Proof.
  unfold getb. pose proof (of_bytes_range (take n (drop off l))) as H. split; [lia|].
  eapply Z.lt_le_trans; [apply H|]. apply Z.pow_le_mono_r; [lia|]. rewrite length_take. lia.
Qed.

(** The field at [off] depends only on the first [off + n] bytes. *)
Lemma getb_prefix n off l l' :
  take (off + n) l = take (off + n) l' → getb n off l = getb n off l'.
Proof.
  intros H. unfold getb. f_equal.
  assert (∀ m : list Z, take n (drop off m) = drop off (take (off + n) m)) as E.
  { intros m. rewrite take_drop_commute. done. }
  by rewrite !E, H.
Qed.
