(* ===== verification/Bio.v ===== *)
(** * kernel/virtio_disk.c and kernel/bio.c: the block driver and the buffer cache

    A buffer is named by its index in [bcache_buf]; index [NBUF] is the list
    head [bcache_head].  The driver copies through the bounce buffer and
    issues one device command per 512-byte sector. *)

From S2P Require Import Prelude Machine State CString Spinlock Emu Kalloc Vm VmSpec VmUser VmCopy Sched.

Definition BSIZE : Z := 1024.
Definition SECTORS_PER_BLOCK : Z := 2.

Section bio.
Context `{P : Platform}.

(** ** Buffers *)
Definition get_buf (i : nat) : KM buf := o ← gets (λ s, k_bufs s !! i); deref o.
Definition upd_buf (i : nat) (f : buf → buf) : KM unit :=
  b ← get_buf i; modify (λ s, with_k_bufs (<[i := f b]> (k_bufs s)) s).
Definition bhead : nat := NBUF.

(** ** The driver *)
Definition upd_disk (f : blkdev → blkdev) : KM unit := modify (λ s, with_k_disk (f (k_disk s)) s).

Definition virtio_disk_init : KM unit :=
  initlock LkDisk "blkdev";; upd_disk (with_d_ctrl 0).

(** Writing BLK_SECTOR, BLK_BUFFER and BLK_CMD: the device executes the
    command on the part of the bounce buffer for sector [sct] of the block. *)
Definition blk_command (write : bool) (sector : Z) (sct : nat) : KM unit :=
  d ← gets k_disk;
  let part := take SECTOR_SIZE (drop (sct * SECTOR_SIZE) (d_bounce d)) in
  let '(img, part', st) :=
    blk_exec (d_image d) (if write then BLK_CMD_WRITE else BLK_CMD_READ) sector part in
  upd_disk (λ d,
    with_d_trace (if write then d_trace d ++ [(sector, part)] else d_trace d)
      (with_d_bounce (take (sct * SECTOR_SIZE) (d_bounce d) ++ part'
                        ++ drop (sct * SECTOR_SIZE + SECTOR_SIZE) (d_bounce d))
        (with_d_status st (with_d_image img d)))).

(** The body of the loop over the sectors of the block. *)
Definition virtio_disk_sector (i : nat) (write : bool) (sct : nat) : KM unit :=
  b ← get_buf i;
  let sector := u32 (b_blockno b * SECTORS_PER_BLOCK + Z.of_nat sct) in
  blk_command write sector sct;;
  st ← gets (λ s, d_status (k_disk s));
  if st =? BLK_STATUS_BUSY then spin else
  when (st =? BLK_STATUS_ERR) (panic "virtio_disk_rw: I/O error").

Definition virtio_disk_rw (i : nat) (write : bool) : KM unit :=
  acquire LkDisk;;
  st ← gets (λ s, d_status (k_disk s));
  if st =? BLK_STATUS_BUSY then spin else
  when write (b ← get_buf i; upd_disk (with_d_bounce (b_data b)));;
  for_each (seq 0 (Z.to_nat SECTORS_PER_BLOCK)) (virtio_disk_sector i write);;
  when (negb write) (d ← gets k_disk; upd_buf i (with_b_data (d_bounce d)));;
  release LkDisk.

(** [inflight] is never set: the driver polls. *)
Definition virtio_disk_intr : KM unit := acquire LkDisk;; release LkDisk.

(** ** The cache *)
(** Linking [b] behind the head, as binit and brelse do. *)
Definition link_front (i : nat) (with_lock : KM unit) : KM unit :=
  h ← get_buf bhead;
  upd_buf i (with_b_next (b_next h));;
  upd_buf i (with_b_prev bhead);;
  with_lock;;
  h ← get_buf bhead;
  upd_buf (b_next h) (with_b_prev i);;
  upd_buf bhead (with_b_next i).

Definition binit : KM unit :=
  initlock LkBcache "bcache";;
  upd_buf bhead (with_b_prev bhead);;
  upd_buf bhead (with_b_next bhead);;
  for_each (seq 0 NBUF) (λ i, link_front i (initsleeplock (SlBuf i) "buffer")).

(** [for(b = bhead->next; b != bhead; b = b->next)]: the block's buffer. *)
Fixpoint bget_find (fuel : nat) (i : nat) (dev blockno : Z) : KM (option nat) :=
  match fuel with
  | O => spin
  | S f =>
      if decide (i = bhead) then mret None else
      b ← get_buf i;
      if (b_dev b =? dev) && (b_blockno b =? blockno) then mret (Some i)
      else bget_find f (b_next b) dev blockno
  end.

(** [for(b = bhead->prev; b != bhead; b = b->prev)]: an unused buffer. *)
Fixpoint bget_unused (fuel : nat) (i : nat) : KM (option nat) :=
  match fuel with
  | O => spin
  | S f =>
      if decide (i = bhead) then mret None else
      b ← get_buf i;
      if b_refcnt b =? 0 then mret (Some i) else bget_unused f (b_prev b)
  end.

(** The list holds NBUF buffers, so NBUF+1 rounds end each loop. *)
Definition bget (dev blockno : Z) : KM nat :=
  acquire LkBcache;;
  h ← get_buf bhead;
  o ← bget_find (S NBUF) (b_next h) dev blockno;
  match o with
  | Some i =>
      upd_buf i (λ b, with_b_refcnt (u32 (b_refcnt b + 1)) b);;
      release LkBcache;;
      acquiresleep (SlBuf i);;
      mret i
  | None =>
      h ← get_buf bhead;
      o ← bget_unused (S NBUF) (b_prev h);
      match o with
      | Some i =>
          upd_buf i (with_b_dev dev);;
          upd_buf i (with_b_blockno blockno);;
          upd_buf i (with_b_valid 0);;
          upd_buf i (with_b_refcnt 1);;
          release LkBcache;;
          acquiresleep (SlBuf i);;
          mret i
      | None => panic "bget: no buffers"
      end
  end.

Definition bread (dev blockno : Z) : KM nat :=
  i ← bget dev blockno;
  b ← get_buf i;
  when (b_valid b =? 0)
    (virtio_disk_rw i false;;
     upd_buf i (with_b_valid 1));;
  mret i.

Definition bwrite (i : nat) : KM unit :=
  h ← holdingsleep (SlBuf i);
  if negb h then panic "bwrite" else
  virtio_disk_rw i true.

Definition brelse (i : nat) : KM unit :=
  h ← holdingsleep (SlBuf i);
  if negb h then panic "brelse" else
  releasesleep (SlBuf i);;
  acquire LkBcache;;
  upd_buf i (λ b, with_b_refcnt (u32 (b_refcnt b - 1)) b);;
  b ← get_buf i;
  when (b_refcnt b =? 0)
    (b ← get_buf i;
     upd_buf (b_next b) (with_b_prev (b_prev b));;
     b ← get_buf i;
     upd_buf (b_prev b) (with_b_next (b_next b));;
     link_front i (mret tt));;
  release LkBcache.

Definition bpin (i : nat) : KM unit :=
  acquire LkBcache;;
  upd_buf i (λ b, with_b_refcnt (u32 (b_refcnt b + 1)) b);;
  release LkBcache.

Definition bunpin (i : nat) : KM unit :=
  acquire LkBcache;;
  upd_buf i (λ b, with_b_refcnt (u32 (b_refcnt b - 1)) b);;
  release LkBcache.
End bio.
