(* ===== verification/BioSpec.v ===== *)
(** * The buffer cache: disk blocks, the LRU ring, and the cache's contract

    [blk d b] is block [b] of the disk image [d].  [dseg nx pv x l y] is a
    doubly linked segment from [x] through [l] to [y]; the cache's list is the
    ring [dseg h l h].  [bio s l] is the cache invariant with [l] the buffers
    from most to least recently used, and [cview s b] the content of block [b]
    as readers of the cache see it. *)

From stdpp Require Import functions.
From S2P Require Import Prelude Machine State CString Spinlock Emu Kalloc Vm VmSpec VmUser VmCopy Sched Bio.

(** ** Disk blocks *)
Definition img_ok (d : gmap Z (list Z)) : Prop := ∀ n, length (sector d n) = SECTOR_SIZE.
Definition blk (d : gmap Z (list Z)) (b : Z) : list Z := sector d (2 * b) ++ sector d (2 * b + 1).
Definition wr_blk (d : gmap Z (list Z)) (b : Z) (data : list Z) : gmap Z (list Z) :=
  <[2 * b + 1 := drop SECTOR_SIZE data]> (<[2 * b := take SECTOR_SIZE data]> d).

Lemma sector_insert d n m l : sector (<[n := l]> d) m = if decide (n = m) then l else sector d m.
Proof.
  unfold sector. case_decide as H; [subst; by rewrite lookup_insert_eq|by rewrite lookup_insert_ne].
Qed.

Lemma length_blk d b : img_ok d → length (blk d b) = Z.to_nat BSIZE.
Proof. intros H. unfold blk. rewrite length_app, !H. done. Qed.

Lemma blk_wr d b data b' :
  blk (wr_blk d b data) b' = if decide (b = b') then data else blk d b'.
Proof.
  unfold blk, wr_blk. rewrite !sector_insert. destruct (decide (b = b')) as [->|].
  - rewrite (decide_False (P := 2 * b' + 1 = 2 * b')), !decide_True by lia. apply take_drop.
  - by rewrite !decide_False by lia.
Qed.

Lemma img_ok_wr d b data : img_ok d → length data = Z.to_nat BSIZE → img_ok (wr_blk d b data).
Proof.
  intros H Hl n. change (Z.to_nat BSIZE) with 1024%nat in Hl. unfold wr_blk, SECTOR_SIZE in *.
  rewrite !sector_insert. repeat case_decide; [rewrite length_drop; lia|rewrite length_take; lia|apply H].
Qed.

Section disk.
Context `{P : Platform} {HP : PlatformOk P}.

Definition blk_ok (b : Z) : Prop := 0 <= b ∧ 2 * b + 1 < blk_sectors.
Record disk_ready (d : blkdev) : Prop := {
  dr_idle : d_status d = BLK_STATUS_IDLE;
  dr_bounce : length (d_bounce d) = Z.to_nat BSIZE;
  dr_img : img_ok (d_image d) }.

Definition disk_rd (b : Z) (d : blkdev) : blkdev := with_d_bounce (blk (d_image d) b) d.
Definition disk_wr (b : Z) (data : list Z) (d : blkdev) : blkdev :=
  mk_blkdev (wr_blk (d_image d) b data) (d_status d) (d_ctrl d) data
    (d_trace d ++ [(2 * b, take SECTOR_SIZE data); (2 * b + 1, drop SECTOR_SIZE data)]).

Lemma get_buf_ok {B} (f : buf → KM B) s i b :
  k_bufs s !! i = Some b → (q ← get_buf i; f q) s = f b s.
Proof. intros H. unfold get_buf. by rewrite bind_assoc, bind_gets, H. Qed.

Lemma upd_buf_ok i f s b :
  k_bufs s !! i = Some b → upd_buf i f s = Ok tt (with_k_bufs (<[i := f b]> (k_bufs s)) s).
Proof. intros H. unfold upd_buf. by rewrite (get_buf_ok _ s i b). Qed.

(** The bounce buffer after the device wrote [part] at sector [sct]. *)
Definition splice (l : list Z) (sct : nat) (part : list Z) : list Z :=
  take (sct * SECTOR_SIZE) l ++ part ++ drop (sct * SECTOR_SIZE + SECTOR_SIZE) l.

Lemma disk_sector_rd s i b sct :
  k_bufs s !! i = Some b → blk_ok (b_blockno b) → (sct < 2)%nat →
  let d := k_disk s in let n := 2 * b_blockno b + Z.of_nat sct in
  virtio_disk_sector i false sct s =
    Ok tt (with_k_disk (with_d_bounce (splice (d_bounce d) sct (sector (d_image d) n))
            (with_d_status BLK_STATUS_IDLE d)) s).
Proof.
  intros Hb [Hr1 Hr2] Hs d n. pose proof blk_sectors_ok. unfold virtio_disk_sector.
  rewrite (get_buf_ok _ s i b) by done. unfold SECTORS_PER_BLOCK.
  rewrite u32_small by lia. replace (b_blockno b * 2 + Z.of_nat sct) with n by lia.
  unfold blk_command. rewrite bind_assoc, bind_gets, blk_read_ok by lia.
  unfold upd_disk. rewrite bind_modify, bind_gets. cbn. unfold mret, M_ret.
  f_equal.
Qed.

Lemma disk_sector_wr s i b sct :
  k_bufs s !! i = Some b → blk_ok (b_blockno b) → (sct < 2)%nat →
  let d := k_disk s in let n := 2 * b_blockno b + Z.of_nat sct in
  let part := take SECTOR_SIZE (drop (sct * SECTOR_SIZE) (d_bounce d)) in
  length part = SECTOR_SIZE →
  virtio_disk_sector i true sct s =
    Ok tt (with_k_disk (mk_blkdev (<[n := part]> (d_image d)) BLK_STATUS_IDLE (d_ctrl d)
            (splice (d_bounce d) sct part) (d_trace d ++ [(n, part)])) s).
Proof.
  intros Hb [Hr1 Hr2] Hs d n part Hl. pose proof blk_sectors_ok. unfold virtio_disk_sector.
  rewrite (get_buf_ok _ s i b) by done. unfold SECTORS_PER_BLOCK.
  rewrite u32_small by lia. replace (b_blockno b * 2 + Z.of_nat sct) with n by lia.
  unfold blk_command. rewrite bind_assoc, bind_gets, blk_write_ok by (lia || exact Hl).
  unfold upd_disk. rewrite bind_modify, bind_gets. done.
Qed.

Lemma splice_both l a b :
  length l = Z.to_nat BSIZE → length a = SECTOR_SIZE → length b = SECTOR_SIZE →
  splice (splice l 0 a) 1 b = a ++ b.
Proof.
  unfold splice, SECTOR_SIZE. change (Z.to_nat BSIZE) with 1024%nat. intros Hl Ha Hb.
  rewrite Nat.mul_0_l, Nat.mul_1_l, take_0. cbn [app].
  rewrite take_app_length' by lia. f_equal. rewrite drop_ge; [by rewrite app_nil_r|].
  rewrite length_app, length_drop. lia.
Qed.

Lemma with_status_id d : d_status d = BLK_STATUS_IDLE → with_d_status BLK_STATUS_IDLE d = d.
Proof. destruct d; cbn. by intros ->. Qed.

Lemma disk_read s i b :
  calm s → disk_ready (k_disk s) → k_bufs s !! i = Some b → blk_ok (b_blockno b) →
  virtio_disk_rw i false s =
    Ok tt (with_k_bufs (<[i := with_b_data (blk (d_image (k_disk s)) (b_blockno b)) b]> (k_bufs s))
            (with_k_disk (disk_rd (b_blockno b) (k_disk s)) s)).
Proof.
  intros Hc [D1 D2 D3] Hb Hok. unfold virtio_disk_rw. rewrite acquire_calm by done.
  rewrite bind_gets. change (k_disk (acq _ s)) with (k_disk s). rewrite D1.
  change (BLK_STATUS_IDLE =? BLK_STATUS_BUSY) with false. cbv iota. cbn [when]. rewrite bind_ret.
  change (seq 0 (Z.to_nat SECTORS_PER_BLOCK)) with [0%nat; 1%nat]. cbn [for_each].
  rewrite bind_assoc, (bind_Ok _ _ _ _ _ (disk_sector_rd (acq LkDisk s) i b 0 Hb Hok ltac:(lia))).
  rewrite bind_assoc. erewrite (bind_Ok (virtio_disk_sector i false 1)); [|by apply (disk_sector_rd _ i b 1); [exact Hb|exact Hok|lia]].
  rewrite bind_ret. cbn [negb when]. rewrite bind_assoc, bind_gets. cbn [k_disk with_k_disk].
  erewrite bind_Ok; [|apply upd_buf_ok; exact Hb]. cbn [d_bounce with_d_bounce with_d_status d_image k_disk acq with_k_locks with_k_cpu].
  rewrite splice_both by (done || apply D3). rewrite Z.add_0_r.
  change (Z.of_nat 1) with 1. fold (blk (d_image (k_disk s)) (b_blockno b)).
  transitivity (Ok tt (with_k_bufs (<[i := with_b_data (blk (d_image (k_disk s)) (b_blockno b)) b]> (k_bufs s))
            (with_k_disk (disk_rd (b_blockno b) (with_d_status BLK_STATUS_IDLE (k_disk s))) s))).
  2: by rewrite with_status_id.
  match goal with |- release LkDisk ?t = Ok tt ?u => change t with (acq LkDisk u) end.
  apply release_calm; [|done]. by eapply calm_same, Hc.
Qed.

Lemma disk_write s i b :
  calm s → disk_ready (k_disk s) → k_bufs s !! i = Some b → blk_ok (b_blockno b) →
  length (b_data b) = Z.to_nat BSIZE →
  virtio_disk_rw i true s = Ok tt (with_k_disk (disk_wr (b_blockno b) (b_data b) (k_disk s)) s).
Proof.
  intros Hc [D1 D2 D3] Hb Hok Hl. unfold virtio_disk_rw. rewrite acquire_calm by done.
  rewrite bind_gets. change (k_disk (acq _ s)) with (k_disk s). rewrite D1.
  change (BLK_STATUS_IDLE =? BLK_STATUS_BUSY) with false. cbv iota. cbn [when].
  rewrite bind_assoc, (get_buf_ok _ (acq LkDisk s) i b) by done. unfold upd_disk. rewrite bind_modify.
  change (seq 0 (Z.to_nat SECTORS_PER_BLOCK)) with [0%nat; 1%nat]. cbn [for_each].
  change (Z.to_nat BSIZE) with 1024%nat in Hl.
  assert (drop 512 (b_data b) = take 512 (drop 512 (b_data b))) as Ed
    by (rewrite take_ge; [done|rewrite length_drop; lia]).
  rewrite bind_assoc. erewrite (bind_Ok (virtio_disk_sector i true 0)).
  2:{ apply (disk_sector_wr _ i b 0); [exact Hb|exact Hok|lia|].
      cbn [d_bounce with_d_bounce k_disk with_k_disk]. rewrite length_take, length_drop.
      unfold SECTOR_SIZE. lia. }
  cbn [d_bounce with_d_bounce k_disk with_k_disk d_image d_ctrl d_trace].
  assert (splice (b_data b) 0 (take SECTOR_SIZE (drop (0 * SECTOR_SIZE) (b_data b))) = b_data b) as E0.
  { unfold splice, SECTOR_SIZE. rewrite Nat.mul_0_l, take_0, drop_0. cbn [app]. apply take_drop. }
  rewrite E0. rewrite bind_assoc. erewrite (bind_Ok (virtio_disk_sector i true 1)).
  2:{ apply (disk_sector_wr _ i b 1); [exact Hb|exact Hok|lia|].
      cbn [d_bounce k_disk with_k_disk]. rewrite length_take, length_drop. unfold SECTOR_SIZE. lia. }
  cbn [d_bounce with_d_bounce k_disk with_k_disk d_image d_ctrl d_trace].
  assert (splice (b_data b) 1 (take SECTOR_SIZE (drop (1 * SECTOR_SIZE) (b_data b))) = b_data b) as E1.
  { unfold splice, SECTOR_SIZE. rewrite Nat.mul_1_l, <- Ed. rewrite (drop_ge (b_data b) (512 + 512)) by lia.
    rewrite app_nil_r. apply take_drop. }
  rewrite E1, bind_ret. cbn [negb when]. rewrite bind_ret.
  rewrite Nat.mul_0_l, drop_0, Nat.mul_1_l. unfold SECTOR_SIZE. rewrite <- Ed, Z.add_0_r.
  rewrite <- app_assoc. cbn [app].
  transitivity (Ok tt (with_k_disk (disk_wr (b_blockno b) (b_data b) (with_d_status BLK_STATUS_IDLE (k_disk s))) s)).
  2: by rewrite with_status_id.
  match goal with |- release LkDisk ?t = Ok tt ?u => change t with (acq LkDisk u) end.
  apply release_calm; [|done]. by eapply calm_same, Hc.
Qed.
End disk.

(** ** Doubly linked rings *)
Section ring.
Implicit Types (nx pv : nat → nat) (l : list nat).

Fixpoint dseg nx pv (x : nat) l (y : nat) : Prop :=
  match l with
  | [] => nx x = y ∧ pv y = x
  | z :: l' => nx x = z ∧ pv z = x ∧ dseg nx pv z l' y
  end.

Lemma dseg_frame nx pv nx' pv' l : ∀ x y,
  (∀ a, a ∈ x :: l → nx' a = nx a) → (∀ a, a ∈ l ++ [y] → pv' a = pv a) →
  dseg nx pv x l y → dseg nx' pv' x l y.
Proof.
  induction l as [|z l IH]; intros x y Hn Hp; cbn [dseg].
  - intros [E1 E2]. by rewrite Hn, Hp by set_solver.
  - intros (E1 & E2 & H). split_and!; [by rewrite Hn by set_solver|by rewrite Hp by set_solver|].
    apply IH; [set_solver..|done].
Qed.

Lemma dseg_app nx pv l1 l2 : ∀ x y z,
  dseg nx pv x (l1 ++ z :: l2) y ↔ dseg nx pv x l1 z ∧ dseg nx pv z l2 y.
Proof.
  induction l1 as [|w l1 IH]; intros x y z; cbn [dseg app]; [tauto|]. rewrite IH. tauto.
Qed.

Lemma dseg_prev nx pv l : ∀ x y, dseg nx pv x l y → pv y ∈ x :: l.
Proof.
  induction l as [|z l IH]; intros x y; cbn [dseg]; [intros [_ ->]; set_solver|].
  intros (_ & _ & H). apply IH in H. set_solver.
Qed.
Lemma dseg_next nx pv x l y : dseg nx pv x l y → nx x ∈ l ++ [y].
Proof. destruct l; cbn [dseg]; [intros [-> _]|intros [-> _]]; set_solver. Qed.

Lemma dseg_unlink nx pv b l2 y l1 : ∀ x,
  NoDup (x :: l1 ++ b :: l2) → y ∉ l1 ++ b :: l2 →
  dseg nx pv x l1 b → dseg nx pv b l2 y →
  dseg (<[pv b := nx b]> nx) (<[nx b := pv b]> pv) x (l1 ++ l2) y.
Proof.
  induction l1 as [|z l1 IH]; intros x Hnd Hy H1 H2; cbn [dseg app] in *.
  - destruct H1 as [_ E]. rewrite E. destruct l2 as [|z l2]; cbn [dseg] in *.
    + destruct H2 as [-> _]. by rewrite !fn_lookup_insert.
    + destruct H2 as (-> & _ & H2). rewrite !fn_lookup_insert. split_and!; [done..|].
      apply NoDup_cons in Hnd as [Hx Hnd]. apply NoDup_cons in Hnd as [_ Hnd].
      apply NoDup_cons in Hnd as [Hz _]. eapply dseg_frame; [..|exact H2].
      * intros a Ha. rewrite fn_lookup_insert_ne by set_solver. done.
      * intros a Ha. rewrite fn_lookup_insert_ne by set_solver. done.
  - destruct H1 as (E1 & E2 & H1). apply NoDup_cons in Hnd as [Hx Hnd].
    pose proof (dseg_prev _ _ _ _ _ H1) as Hp. pose proof (dseg_next _ _ _ _ _ H2) as Hn.
    pose proof Hnd as [Hz _]%NoDup_cons.
    assert (pv b ≠ x) by (intros E; rewrite E in Hp; clear -Hp Hx; set_solver).
    assert (nx b ≠ z) by (intros E; rewrite E in Hn; clear -Hn Hz Hy; set_solver).
    split_and!; [| |apply IH; [done|set_solver|done|done]].
    + by rewrite fn_lookup_insert_ne.
    + by rewrite fn_lookup_insert_ne.
Qed.

Lemma dseg_push nx pv h l b :
  NoDup (h :: l) → b ∉ h :: l → dseg nx pv h l h →
  dseg (<[h := b]> (<[b := nx h]> nx)) (<[nx h := b]> (<[b := h]> pv)) h (b :: l) h.
Proof.
  intros [Hh Hnd]%NoDup_cons Hb H. pose proof (dseg_next _ _ _ _ _ H) as Hn. cbn [dseg].
  assert (nx h ≠ b) by (intros E; rewrite E in Hn; clear -Hn Hb; set_solver).
  split_and!; [by rewrite fn_lookup_insert|rewrite fn_lookup_insert_ne by done; apply fn_lookup_insert|].
  destruct l as [|z l]; cbn [dseg] in *.
  - destruct H as [-> _]. rewrite (fn_lookup_insert_ne _ h) by set_solver. by rewrite !fn_lookup_insert.
  - destruct H as (-> & _ & H). rewrite (fn_lookup_insert_ne _ h) by set_solver.
    rewrite !fn_lookup_insert. split_and!; [done..|].
    apply NoDup_cons in Hnd as [Hz _]. eapply dseg_frame; [..|exact H]; intros a Ha;
      by rewrite !fn_lookup_insert_ne by set_solver.
Qed.
End ring.

(** ** The cache invariant *)
Section cache.
Context `{P : Platform} {HP : PlatformOk P}.

Definition nx (bs : list buf) (i : nat) : nat := match bs !! i with Some b => b_next b | None => 0%nat end.
Definition pv (bs : list buf) (i : nat) : nat := match bs !! i with Some b => b_prev b | None => 0%nat end.

(** [l]: the buffers, most recently used first. *)
Record ring (bs : list buf) (l : list nat) : Prop := {
  rg_len : length bs = S NBUF;
  rg_perm : l ≡ₚ seq 0 NBUF;
  rg_ring : dseg (nx bs) (pv bs) bhead l bhead }.

Definition has_key (bno : Z) (b : buf) : bool := (b_dev b =? ROOTDEV) && (b_blockno b =? bno).
(** The buffer that caches block [bno]. *)
Definition cached (bs : list buf) (bno : Z) : option nat :=
  List.find (λ i, match bs !! i with Some b => has_key bno b | None => false end) (seq 0 NBUF).
Definition cview (s : kstate) (bno : Z) : list Z :=
  match cached (k_bufs s) bno ≫= λ i, k_bufs s !! i with
  | Some b => b_data b
  | None => blk (d_image (k_disk s)) bno
  end.

Record buf_ok (img : gmap Z (list Z)) (b : buf) : Prop := {
  bo_len : length (b_data b) = Z.to_nat BSIZE;
  bo_ref : 0 <= b_refcnt b < 2147483648;
  bo_valid : b_dev b = ROOTDEV → b_valid b ≠ 0 ∧ blk_ok (b_blockno b);
  bo_dev : 0 < b_refcnt b → b_dev b = ROOTDEV;
  bo_clean : b_dev b = ROOTDEV → b_refcnt b = 0 → b_data b = blk img (b_blockno b) }.

(** [held]: the buffers the running process has locked. *)
Record bio (s : kstate) (l held : list nat) : Prop := {
  bio_calm : calm s;
  bio_disk : disk_ready (k_disk s);
  bio_ring : ring (k_bufs s) l;
  bio_bufs : ∀ i b, (i < NBUF)%nat → k_bufs s !! i = Some b → buf_ok (d_image (k_disk s)) b;
  bio_uniq : ∀ i j bi bj, (i < NBUF)%nat → (j < NBUF)%nat →
    k_bufs s !! i = Some bi → k_bufs s !! j = Some bj →
    b_dev bi = ROOTDEV → b_dev bj = ROOTDEV → b_blockno bi = b_blockno bj → i = j;
  bio_free : ∀ i, (i < NBUF)%nat → i ∉ held → sl_locked (slock_at s (SlBuf i)) = 0;
  bio_held : ∀ i, i ∈ held → (i < NBUF)%nat ∧ sl_locked (slock_at s (SlBuf i)) = 1 ∧
    sl_pid (slock_at s (SlBuf i)) = cur_pid s ∧
    ∃ b, k_bufs s !! i = Some b ∧ b_dev b = ROOTDEV ∧ 0 < b_refcnt b;
  bio_held_nodup : NoDup held }.

(** Only buffers and their locks, the device and the state of sleeping
    processes differ. *)
Definition bio_frame (s s' : kstate) : Prop :=
  (same_ctx s s' ∧ ∀ i, slock_at s' (SlInode i) = slock_at s (SlInode i)) ∧
  s' = with_k_procs (k_procs s') (with_k_slocks (k_slocks s')
         (with_k_disk (k_disk s') (with_k_bufs (k_bufs s') s))).

Lemma bio_frame_refl s : bio_frame s s.
Proof. split; [done|by destruct s]. Qed.
Lemma bio_frame_trans s1 s2 s3 : bio_frame s1 s2 → bio_frame s2 s3 → bio_frame s1 s3.
Proof.
  intros [[H1 I1] E1] [[H2 I2] E2]. split; [|rewrite E2, E1; by destruct s1].
  split; [by eapply same_ctx_trans|]. intros i. by rewrite I2, I1.
Qed.

Lemma ring_mem bs l i : ring bs l → i ∈ l ↔ (i < NBUF)%nat.
Proof. intros [_ Hp _]. rewrite Hp, elem_of_seq. lia. Qed.
Lemma ring_nodup bs l : ring bs l → NoDup (bhead :: l).
Proof.
  intros H. apply NoDup_cons. split; [rewrite (ring_mem bs) by done; unfold bhead; lia|].
  rewrite (rg_perm _ _ H). apply NoDup_seq.
Qed.
Lemma ring_buf bs l i : ring bs l → i ∈ bhead :: l → ∃ b, bs !! i = Some b.
Proof.
  intros H Hi. apply lookup_lt_is_Some. rewrite (rg_len _ _ H). apply elem_of_cons in Hi as [->|Hi].
  - unfold bhead. lia.
  - apply (ring_mem bs) in Hi; [lia|done].
Qed.

(** ** Looking through the list *)
Lemma dseg_rev f g l : ∀ x y, dseg f g x l y → dseg g f y (rev l) x.
Proof.
  induction l as [|z l IH]; intros x y; cbn [dseg rev]; [tauto|].
  intros (E1 & E2 & H). rewrite dseg_app. split; [by apply IH|done].
Qed.

Definition bufb (bs : list buf) (f : buf → bool) (i : nat) : bool :=
  match bs !! i with Some b => f b | None => false end.

Lemma bget_find_ok s bno l : ∀ x fuel,
  dseg (nx (k_bufs s)) (pv (k_bufs s)) x l bhead → (length l < fuel)%nat → bhead ∉ l →
  (∀ i, i ∈ l → is_Some (k_bufs s !! i)) →
  bget_find fuel (nx (k_bufs s) x) ROOTDEV bno s = Ok (List.find (bufb (k_bufs s) (has_key bno)) l) s.
Proof.
  induction l as [|z l IH]; intros x fuel Hd Hf Hh Hs; (destruct fuel as [|fuel]; [cbn in Hf; lia|]);
    cbn [bget_find dseg] in *.
  - destruct Hd as [-> _]. by rewrite decide_True.
  - destruct Hd as (-> & _ & Hd). rewrite decide_False by set_solver.
    destruct (Hs z) as [b Hb]; [set_solver|]. rewrite (get_buf_ok _ s z b Hb). cbn [List.find].
    unfold bufb at 1. rewrite Hb. fold (has_key bno b). destruct (has_key bno b); [done|].
    replace (b_next b) with (nx (k_bufs s) z) by (unfold nx; by rewrite Hb).
    apply IH; [done|cbn in Hf; lia|set_solver|]. intros i Hi. apply Hs. set_solver.
Qed.

Lemma bget_unused_ok s l : ∀ x fuel,
  dseg (pv (k_bufs s)) (nx (k_bufs s)) x l bhead → (length l < fuel)%nat → bhead ∉ l →
  (∀ i, i ∈ l → is_Some (k_bufs s !! i)) →
  bget_unused fuel (pv (k_bufs s) x) s =
    Ok (List.find (bufb (k_bufs s) (λ b, b_refcnt b =? 0)) l) s.
Proof.
  induction l as [|z l IH]; intros x fuel Hd Hf Hh Hs; (destruct fuel as [|fuel]; [cbn in Hf; lia|]);
    cbn [bget_unused dseg] in *.
  - destruct Hd as [-> _]. by rewrite decide_True.
  - destruct Hd as (-> & _ & Hd). rewrite decide_False by set_solver.
    destruct (Hs z) as [b Hb]; [set_solver|]. rewrite (get_buf_ok _ s z b Hb). cbn [List.find].
    unfold bufb at 1. rewrite Hb. destruct (b_refcnt b =? 0); [done|].
    replace (b_prev b) with (pv (k_bufs s) z) by (unfold pv; by rewrite Hb).
    apply IH; [done|cbn in Hf; lia|set_solver|]. intros i Hi. apply Hs. set_solver.
Qed.

(** ** Keys *)
Definition keys_uniq (bs : list buf) : Prop :=
  ∀ i j bi bj, (i < NBUF)%nat → (j < NBUF)%nat → bs !! i = Some bi → bs !! j = Some bj →
    b_dev bi = ROOTDEV → b_dev bj = ROOTDEV → b_blockno bi = b_blockno bj → i = j.

Lemma has_key_true bno b : has_key bno b = true ↔ b_dev b = ROOTDEV ∧ b_blockno b = bno.
Proof. unfold has_key. by rewrite andb_true_iff, !Z.eqb_eq. Qed.

Lemma find_key bs l bno :
  keys_uniq bs → l ≡ₚ seq 0 NBUF → List.find (bufb bs (has_key bno)) l = cached bs bno.
Proof.
  intros Hu Hl. unfold cached. fold (bufb bs (has_key bno)).
  change (λ i, match bs !! i with Some b => has_key bno b | None => false end) with (bufb bs (has_key bno)).
  assert (∀ i, In i l ↔ (i < NBUF)%nat) as Hin
    by (intros; rewrite <- list_elem_of_In, Hl, elem_of_seq; lia).
  assert (∀ i, In i (seq 0 NBUF) ↔ (i < NBUF)%nat) as Hin' by (intros; rewrite in_seq; lia).
  destruct (List.find _ l) as [i|] eqn:E1, (List.find _ (seq 0 NBUF)) as [j|] eqn:E2; try done.
  - apply find_some in E1 as [I1 K1], E2 as [I2 K2]. unfold bufb in *.
    destruct (bs !! i) as [bi|] eqn:Bi; [|done]. destruct (bs !! j) as [bj|] eqn:Bj; [|done].
    apply has_key_true in K1 as [? ?], K2 as [? ?]. f_equal.
    eapply Hu; [by apply Hin|by apply Hin'|exact Bi|exact Bj|done|done|congruence].
  - apply find_some in E1 as [I1 K1]. rewrite (find_none _ _ E2 i) in K1; [done|by apply Hin', Hin].
  - apply find_some in E2 as [I2 K2]. rewrite (find_none _ _ E1 j) in K2; [done|by apply Hin, Hin'].
Qed.

Lemma cached_Some bs bno i b :
  keys_uniq bs → (i < NBUF)%nat → bs !! i = Some b → has_key bno b = true → cached bs bno = Some i.
Proof.
  intros Hu Hi Hb Hk. unfold cached. destruct (List.find _ _) as [j|] eqn:E.
  - apply find_some in E as [Hj Kj]. apply in_seq in Hj. destruct (bs !! j) as [bj|] eqn:Bj; [|done].
    apply has_key_true in Hk as [? ?], Kj as [? ?]. f_equal.
    eapply (Hu j i); [lia|done|exact Bj|exact Hb|done|done|congruence].
  - pose proof (find_none _ _ E i) as Hn. cbv beta in Hn. rewrite Hb, Hk in Hn. discriminate Hn. apply in_seq. lia.
Qed.

Lemma cached_inv bs bno i :
  cached bs bno = Some i → (i < NBUF)%nat ∧ ∃ b, bs !! i = Some b ∧ has_key bno b = true.
Proof.
  unfold cached. intros [Hi K]%find_some. apply in_seq in Hi. split; [lia|].
  destruct (bs !! i) as [b|]; [|done]. by exists b.
Qed.

Lemma cached_None bs bno :
  cached bs bno = None ↔ ∀ i b, (i < NBUF)%nat → bs !! i = Some b → has_key bno b = false.
Proof.
  unfold cached. split.
  - intros E i b Hi Hb. pose proof (find_none _ _ E i) as Hn. cbv beta in Hn. rewrite Hb in Hn. apply Hn, in_seq. lia.
  - intros H. destruct (List.find _ _) as [i|] eqn:E; [|done]. apply find_some in E as [Hi K].
    apply in_seq in Hi. destruct (bs !! i) as [b|] eqn:Hb; [|done]. rewrite (H i b) in K; [done|lia|done].
Qed.

Lemma cview_hit s i b bno :
  keys_uniq (k_bufs s) → (i < NBUF)%nat → k_bufs s !! i = Some b → has_key bno b = true →
  cview s bno = b_data b.
Proof. intros Hu Hi Hb Hk. unfold cview. rewrite (cached_Some _ _ i b) by done. cbn. by rewrite Hb. Qed.
Lemma cview_miss s bno :
  (∀ i b, (i < NBUF)%nat → k_bufs s !! i = Some b → has_key bno b = false) →
  cview s bno = blk (d_image (k_disk s)) bno.
Proof. intros H. unfold cview. by rewrite (proj2 (cached_None _ _) H). Qed.

(** ** Taking buffer [i] for block [bno] *)
Definition take_buf (i : nat) (b' : buf) (d' : blkdev) (s : kstate) : kstate :=
  set_sl (SlBuf i) (mk_sleeplock 1 (sl_name (slock_at s (SlBuf i))) (cur_pid s))
    (with_k_disk d' (with_k_bufs (<[i := b']> (k_bufs s)) s)).

Lemma ring_ext bs bs' l :
  length bs' = length bs → (∀ i, nx bs' i = nx bs i) → (∀ i, pv bs' i = pv bs i) → ring bs l → ring bs' l.
Proof.
  intros H1 H2 H3 [A B C]. split; [by rewrite H1|done|]. eapply dseg_frame; [..|exact C]; auto.
Qed.

Lemma ring_insert bs l i b b' :
  bs !! i = Some b → b_next b' = b_next b → b_prev b' = b_prev b → ring bs l → ring (<[i := b']> bs) l.
Proof.
  intros Hb Hn Hp. apply ring_ext; [apply length_insert| |]; intros j; unfold nx, pv;
    (destruct (decide (i = j)) as [<-|];
      [rewrite list_lookup_insert_eq by (by eapply lookup_lt_Some); by rewrite Hb
      |by rewrite list_lookup_insert_ne]).
Qed.

Lemma slock_at_set_ne l l' v s : l ≠ l' → slock_at (set_sl l v s) l' = slock_at s l'.
Proof. intros H. unfold slock_at, set_sl. cbn. by rewrite lookup_insert_ne. Qed.

Lemma take_buf_bio s l held i b b' d' :
  bio s l held → (i < NBUF)%nat → i ∉ held → k_bufs s !! i = Some b →
  b_next b' = b_next b → b_prev b' = b_prev b →
  buf_ok (d_image (k_disk s)) b' → b_dev b' = ROOTDEV → 0 < b_refcnt b' →
  disk_ready d' → d_image d' = d_image (k_disk s) →
  (∀ j bj, (j < NBUF)%nat → j ≠ i → k_bufs s !! j = Some bj → has_key (b_blockno b') bj = false) →
  bio (take_buf i b' d' s) l (i :: held).
Proof.
  intros [C D R B U F H N] Hi Hni Hb Hnx Hpv Hok Hdev Href Hd Himg Huq.
  assert (i < length (k_bufs s))%nat as Hlt by by eapply lookup_lt_Some.
  split.
  - eapply calm_same; [|exact C]. done.
  - done.
  - by eapply ring_insert.
  - cbn. rewrite Himg. intros j bj Hj. destruct (decide (i = j)) as [<-|].
    + rewrite list_lookup_insert_eq by done. by intros [= <-].
    + rewrite list_lookup_insert_ne by done. by apply B.
  - cbn. assert (∀ j bj, (j < NBUF)%nat → j ≠ i → k_bufs s !! j = Some bj → b_dev bj = ROOTDEV →
      b_blockno b' = b_blockno bj → False) as Huq'.
    { intros j bj Hj Hji Hbj Hdj E. specialize (Huq j bj Hj Hji Hbj).
      apply not_true_iff_false in Huq. apply Huq, has_key_true. done. }
    intros j k bj bk Hj Hk. destruct (decide (i = j)) as [<-|], (decide (i = k)) as [<-|];
      rewrite ?list_lookup_insert_eq, ?list_lookup_insert_ne by done; try done.
    + intros [= <-] Hbk _ Hdk E. exfalso. by eapply (Huq' k bk).
    + intros Hbj [= <-] Hdj _ E. exfalso. eapply (Huq' j bj); try done.
    + by apply U.
  - intros j Hj Hnj. unfold take_buf. rewrite slock_at_set_ne by set_solver. apply F; set_solver.
  - intros j [->|Hj]%elem_of_cons.
    + unfold take_buf. rewrite slock_at_set. split_and!; [done..|]. exists b'. cbn.
      by rewrite list_lookup_insert_eq.
    + destruct (H j Hj) as (A1 & A2 & A3 & b2 & A4 & A5 & A6). assert (i ≠ j) by set_solver.
      unfold take_buf. rewrite slock_at_set_ne by congruence. split_and!; [done..|].
      exists b2. cbn. by rewrite list_lookup_insert_ne.
  - by constructor.
Qed.

(** The reference count of the buffer that caches a block. *)
Definition refs (s : kstate) (bno : Z) : Z :=
  match cached (k_bufs s) bno ≫= λ i, k_bufs s !! i with Some b => b_refcnt b | None => 0 end.

Lemma refs_hit s i b bno :
  keys_uniq (k_bufs s) → (i < NBUF)%nat → k_bufs s !! i = Some b → has_key bno b = true →
  refs s bno = b_refcnt b.
Proof. intros Hu Hi Hb Hk. unfold refs. rewrite (cached_Some _ _ i b) by done. cbn. by rewrite Hb. Qed.
Lemma refs_miss s bno :
  (∀ i b, (i < NBUF)%nat → k_bufs s !! i = Some b → has_key bno b = false) → refs s bno = 0.
Proof. intros H. unfold refs. by rewrite (proj2 (cached_None _ _) H). Qed.

(** Two states whose buffers agree except at [i], seen block by block. *)
Lemma key_cases (bs : list buf) i bno :
  (∃ j b, (j < NBUF)%nat ∧ j ≠ i ∧ bs !! j = Some b ∧ has_key bno b = true) ∨
  (∀ j b, (j < NBUF)%nat → j ≠ i → bs !! j = Some b → has_key bno b = false).
Proof.
  destruct (decide (Exists (λ j, j ≠ i ∧ bufb bs (has_key bno) j = true) (seq 0 NBUF))) as [H|H].
  - left. apply Exists_exists in H as (j & Hj & Hji & K). apply elem_of_seq in Hj. unfold bufb in K.
    destruct (bs !! j) as [b|] eqn:Hb; [|done]. exists j, b. split_and!; try done; lia.
  - right. intros j b Hj Hji Hb. destruct (has_key bno b) eqn:E; [|done].
    destruct H. apply Exists_exists. exists j.
    split; [apply elem_of_seq; lia|]. split; [done|]. unfold bufb. by rewrite Hb.
Qed.

Lemma view_others s s' i bno :
  keys_uniq (k_bufs s) → keys_uniq (k_bufs s') →
  (∀ j, j ≠ i → k_bufs s' !! j = k_bufs s !! j) →
  (∀ b, (i < NBUF)%nat → k_bufs s !! i = Some b → has_key bno b = true →
        b_refcnt b = 0 ∧ b_data b = blk (d_image (k_disk s)) bno) →
  (∀ b, (i < NBUF)%nat → k_bufs s' !! i = Some b → has_key bno b = false) →
  blk (d_image (k_disk s')) bno = blk (d_image (k_disk s)) bno →
  cview s' bno = cview s bno ∧ refs s' bno = refs s bno.
Proof.
  intros Hu Hu' Ho Hold Hnew Hd.
  destruct (key_cases (k_bufs s) i bno) as [(j & b & Hj & Hji & Hb & K)|Hno].
  - rewrite (cview_hit s j b), (refs_hit s j b) by done.
    rewrite (cview_hit s' j b), (refs_hit s' j b); try done; by rewrite Ho.
  - assert (∀ j b, (j < NBUF)%nat → k_bufs s' !! j = Some b → has_key bno b = false) as Hn'.
    { intros j b Hj Hb. destruct (decide (j = i)) as [->|]; [by eapply Hnew|].
      eapply Hno; [exact Hj|done|]. by rewrite <- Ho. }
    rewrite (cview_miss s'), (refs_miss s'), Hd by done.
    destruct (k_bufs s !! i) as [b|] eqn:Hb.
    + destruct (decide (i < NBUF)%nat) as [Hi|Hi].
      * destruct (has_key bno b) eqn:K.
        -- destruct (Hold b Hi eq_refl K) as [E1 E2].
           by rewrite (cview_hit s i b), (refs_hit s i b) by done.
        -- rewrite cview_miss, refs_miss; try done; intros j b' Hj Hb';
             (destruct (decide (j = i)) as [->|]; [congruence|by eapply Hno]).
      * rewrite cview_miss, refs_miss; try done; intros j b' Hj Hb'; (eapply Hno; [exact Hj|lia|done]).
    + rewrite cview_miss, refs_miss; try done; intros j b' Hj Hb';
        (destruct (decide (j = i)) as [->|]; [congruence|by eapply Hno]).
Qed.

(** ** bread *)
Lemma bio_keys s l held : bio s l held → keys_uniq (k_bufs s).
Proof. intros H. exact (bio_uniq _ _ _ H). Qed.

Lemma bio_buf s l held i : bio s l held → (i <= NBUF)%nat → ∃ b, k_bufs s !! i = Some b.
Proof.
  intros H Hi. apply lookup_lt_is_Some. rewrite (rg_len _ _ (bio_ring _ _ _ H)). lia.
Qed.

(** The search of [bget], under the cache lock. *)
Lemma bget_search {B} s l held bno (k : option nat → KM B) :
  bio s l held →
  (acquire LkBcache;; h ← get_buf bhead; o ← bget_find (S NBUF) (b_next h) ROOTDEV bno; k o) s =
  k (cached (k_bufs s) bno) (acq LkBcache s).
Proof.
  intros Hb. rewrite acquire_calm by (done || apply Hb).
  destruct (bio_buf _ _ _ bhead Hb) as [h Hh]; [unfold bhead; lia|].
  rewrite (get_buf_ok _ (acq LkBcache s) bhead h Hh).
  pose proof (bio_ring _ _ _ Hb) as R. pose proof (ring_nodup _ _ R) as Hnd.
  apply NoDup_cons in Hnd as [Hn _].
  replace (b_next h) with (nx (k_bufs s) bhead) by (unfold nx; by rewrite Hh).
  erewrite bind_Ok; [|apply (bget_find_ok (acq LkBcache s) bno l bhead)].
  - cbn [k_bufs acq with_k_locks with_k_cpu]. by rewrite (find_key _ _ _ (bio_keys _ _ _ Hb) (rg_perm _ _ R)).
  - apply R.
  - rewrite (rg_perm _ _ R), length_seq. lia.
  - done.
  - intros i Hi. destruct (ring_buf _ _ i R) as [b ?]; [set_solver|]. by exists b.
Qed.

Definition lru_unused (s : kstate) (l : list nat) : option nat :=
  List.find (bufb (k_bufs s) (λ b, b_refcnt b =? 0)) (rev l).

Lemma bget_evict {B} s l held (k : option nat → KM B) :
  bio s l held →
  (h ← get_buf bhead; o ← bget_unused (S NBUF) (b_prev h); k o) (acq LkBcache s) =
  k (lru_unused s l) (acq LkBcache s).
Proof.
  intros Hb. destruct (bio_buf _ _ _ bhead Hb) as [h Hh]; [unfold bhead; lia|].
  rewrite (get_buf_ok _ (acq LkBcache s) bhead h Hh).
  pose proof (bio_ring _ _ _ Hb) as R. pose proof (ring_nodup _ _ R) as Hnd.
  apply NoDup_cons in Hnd as [Hn _].
  replace (b_prev h) with (pv (k_bufs s) bhead) by (unfold pv; by rewrite Hh).
  erewrite bind_Ok; [done|apply (bget_unused_ok (acq LkBcache s) (rev l) bhead)].
  - apply dseg_rev, R.
  - rewrite length_rev, (rg_perm _ _ R), length_seq. lia.
  - by rewrite <- Permutation_rev.
  - intros i Hi. rewrite <- Permutation_rev in Hi.
    destruct (ring_buf _ _ i R) as [b ?]; [set_solver|]. by exists b.
Qed.

(** Releasing the cache lock and locking buffer [i]. *)
Lemma bget_lock s i (b : buf) :
  calm s → (i < NBUF)%nat → sl_locked (slock_at s (SlBuf i)) = 0 →
  (release LkBcache;; acquiresleep (SlBuf i);; mret i) (acq LkBcache s) =
  Ok i (set_sl (SlBuf i) (mk_sleeplock 1 (sl_name (slock_at s (SlBuf i))) (cur_pid s)) s).
Proof.
  intros Hc Hi Hl. rewrite (bind_Ok _ _ _ _ _ (release_calm LkBcache s Hc I)).
  erewrite bind_Ok; [|by apply acquiresleep_free]. done.
Qed.

Lemma bget_hit s l held i b bno :
  bio s l held → (i < NBUF)%nat → i ∉ held → k_bufs s !! i = Some b → has_key bno b = true →
  b_refcnt b + 1 < 2147483648 →
  bget ROOTDEV bno s = Ok i (take_buf i (with_b_refcnt (b_refcnt b + 1) b) (k_disk s) s).
Proof.
  intros Hb Hi Hni Hbi K Hr. pose proof (bio_calm _ _ _ Hb) as Hc.
  pose proof (bio_bufs _ _ _ Hb i b Hi Hbi) as [_ Hrf _ _ _].
  unfold bget. etrans; [apply (bget_search s l held bno _ Hb)|].
  rewrite (cached_Some _ _ i b) by (done || by eapply bio_keys).
  rewrite (bind_Ok _ _ _ _ _ (upd_buf_ok i _ (acq LkBcache s) b Hbi)). rewrite u32_small by lia.
  change (with_k_bufs ?x (acq LkBcache s)) with (acq LkBcache (with_k_bufs x s)).
  etrans; [apply bget_lock; [exact b|by eapply calm_same, Hc|done|by apply (bio_free _ _ _ Hb)]|].
  unfold take_buf. by destruct s.
Qed.

Lemma bread_hit s l held i b bno :
  bio s l held → (i < NBUF)%nat → i ∉ held → k_bufs s !! i = Some b → has_key bno b = true →
  b_refcnt b + 1 < 2147483648 →
  bread ROOTDEV bno s = Ok i (take_buf i (with_b_refcnt (b_refcnt b + 1) b) (k_disk s) s).
Proof.
  intros Hb Hi Hni Hbi K Hr. unfold bread.
  rewrite (bind_Ok _ _ _ _ _ (bget_hit s l held i b bno Hb Hi Hni Hbi K Hr)).
  rewrite (get_buf_ok _ _ i (with_b_refcnt (b_refcnt b + 1) b))
    by (cbn; apply list_lookup_insert_eq; by eapply lookup_lt_Some).
  apply has_key_true in K as [Kd _].
  destruct (bo_valid _ _ (bio_bufs _ _ _ Hb i b Hi Hbi) Kd) as [Hv _].
  cbn [b_valid with_b_refcnt]. destruct (Z.eqb_spec (b_valid b) 0); [done|]. done.
Qed.

(** The recycled buffer: all but the links and the data is new. *)
Definition fresh_buf (bno : Z) (data : list Z) (b : buf) : buf :=
  mk_buf 1 (b_disk b) ROOTDEV bno 1 (b_prev b) (b_next b) data.

Lemma upd_buf_again {B} i f s b (k : KM B) :
  (i < length (k_bufs s))%nat →
  (upd_buf i f;; k) (with_k_bufs (<[i := b]> (k_bufs s)) s) = k (with_k_bufs (<[i := f b]> (k_bufs s)) s).
Proof.
  intros Hi. erewrite bind_Ok; [|apply upd_buf_ok; cbn; by apply list_lookup_insert_eq].
  cbn. by rewrite list_insert_insert_eq.
Qed.

Lemma bread_miss s l held i b bno :
  bio s l held → (i < NBUF)%nat → i ∉ held → k_bufs s !! i = Some b →
  cached (k_bufs s) bno = None → lru_unused s l = Some i → blk_ok bno →
  bread ROOTDEV bno s =
    Ok i (take_buf i (fresh_buf bno (blk (d_image (k_disk s)) bno) b) (disk_rd bno (k_disk s)) s).
Proof.
  intros Hb Hi Hni Hbi Hk Hu Hok. pose proof (bio_calm _ _ _ Hb) as Hc.
  assert (i < length (k_bufs s))%nat as Hlt by by eapply lookup_lt_Some.
  set (b1 := mk_buf 0 (b_disk b) ROOTDEV bno 1 (b_prev b) (b_next b) (b_data b)).
  assert (bget ROOTDEV bno s = Ok i (take_buf i b1 (k_disk s) s)) as E.
  { unfold bget. etrans; [apply (bget_search s l held bno _ Hb)|]. rewrite Hk.
    etrans; [apply (bget_evict s l held _ Hb)|]. rewrite Hu.
    rewrite (bind_Ok _ _ _ _ _ (upd_buf_ok i _ (acq LkBcache s) b Hbi)).
    rewrite !(upd_buf_again i _ (acq LkBcache s)) by done.
    change (with_k_bufs ?x (acq LkBcache s)) with (acq LkBcache (with_k_bufs x s)).
    etrans; [apply bget_lock; [exact b|by eapply calm_same, Hc|done|by apply (bio_free _ _ _ Hb)]|].
    unfold take_buf. by destruct s. }
  unfold bread. rewrite (bind_Ok _ _ _ _ _ E).
  assert (k_bufs (take_buf i b1 (k_disk s) s) !! i = Some b1) as Hb1 by by apply list_lookup_insert_eq.
  rewrite (get_buf_ok _ _ i b1 Hb1). cbn [b_valid b1 Z.eqb when].
  rewrite bind_assoc. erewrite bind_Ok;
    [|apply (disk_read _ i b1); [by eapply calm_same, Hc|apply Hb|exact Hb1|exact Hok]].
  cbn [k_bufs take_buf set_sl with_k_slocks with_k_disk with_k_bufs k_disk].
  rewrite list_insert_insert_eq.
  erewrite bind_Ok; [|apply upd_buf_ok; cbn; by apply list_lookup_insert_eq].
  cbn [k_bufs with_k_disk with_k_bufs]. rewrite list_insert_insert_eq. unfold take_buf. by destruct s.
Qed.

(** An unused buffer exists as long as the referenced blocks are few. *)
Lemma lru_unused_Some s l held L :
  bio s l held → (∀ x, 0 < refs s x → x ∈ L) → (length L < NBUF)%nat →
  ∃ i b, lru_unused s l = Some i ∧ (i < NBUF)%nat ∧ k_bufs s !! i = Some b ∧ b_refcnt b = 0 ∧ i ∉ held.
Proof.
  intros Hb HL Hlen. pose proof (bio_ring _ _ _ Hb) as R. unfold lru_unused.
  destruct (List.find _ (rev l)) as [i|] eqn:E.
  - apply find_some in E as [Hin K]. rewrite <- list_elem_of_In, <- Permutation_rev, (ring_mem _ _ _ R) in Hin.
    unfold bufb in K. destruct (k_bufs s !! i) as [b|] eqn:Hbi; [|done]. apply Z.eqb_eq in K.
    exists i, b. split_and!; try done. intros Hh. destruct (bio_held _ _ _ Hb i Hh) as (_ & _ & _ & b' & ? & _ & ?).
    simplify_eq. lia.
  - exfalso. set (f := λ i, match k_bufs s !! i with Some b => b_blockno b | None => 0 end).
    assert (∀ i, (i < NBUF)%nat → ∃ b, k_bufs s !! i = Some b ∧ 0 < b_refcnt b ∧ b_dev b = ROOTDEV) as Hall.
    { intros i Hi. destruct (bio_buf _ _ _ i Hb) as [b Hbi]; [lia|]. exists b.
      pose proof (find_none _ _ E i) as Hn. unfold bufb in Hn. rewrite Hbi in Hn.
      rewrite <- list_elem_of_In, <- Permutation_rev, (ring_mem _ _ _ R), Z.eqb_neq in Hn.
      destruct (bio_bufs _ _ _ Hb i b Hi Hbi) as [_ ? _ Hd _]. specialize (Hn Hi).
      assert (0 < b_refcnt b) by lia. auto. }
    assert (NoDup (f <$> seq 0 NBUF)) as Hnd.
    { apply NoDup_fmap_2_strong; [|apply NoDup_seq]. intros i j Hi%elem_of_seq Hj%elem_of_seq.
      destruct (Hall i) as (bi & Ei & _ & Di); [lia|]. destruct (Hall j) as (bj & Ej & _ & Dj); [lia|].
      unfold f. rewrite Ei, Ej. apply (bio_uniq _ _ _ Hb); try done; lia. }
    assert (length (f <$> seq 0 NBUF) <= length L)%nat as Hle.
    { apply submseteq_length, NoDup_submseteq; [done|]. intros x (i & -> & Hi%elem_of_seq)%list_elem_of_fmap.
      destruct (Hall i) as (b & Ei & Hr & Hd); [lia|]. apply HL. unfold f. rewrite Ei.
      rewrite (refs_hit s i b); [done|by eapply bio_keys|lia|done|]. by apply has_key_true. }
    rewrite length_fmap, length_seq in Hle. lia.
Qed.

(** What a successful [bread] of [bno] does. *)
Record bread_post (s : kstate) (l held : list nat) (bno : Z) (i : nat) (s' : kstate) : Prop := {
  bp_bio : bio s' l (i :: held);
  bp_fresh : i ∉ held;
  bp_frame : bio_frame s s';
  bp_image : d_image (k_disk s') = d_image (k_disk s);
  bp_trace : d_trace (k_disk s') = d_trace (k_disk s);
  bp_buf : ∃ b, k_bufs s' !! i = Some b ∧ has_key bno b = true ∧ b_data b = cview s bno
                ∧ b_refcnt b = refs s bno + 1;
  bp_view : ∀ x, cview s' x = cview s x;
  bp_refs : ∀ x, refs s' x = if decide (x = bno) then refs s x + 1 else refs s x;
  bp_other : ∀ j, j ≠ i → k_bufs s' !! j = k_bufs s !! j }.

Lemma take_buf_post s l held i b b' d' bno :
  bio s l held → (i < NBUF)%nat → i ∉ held → k_bufs s !! i = Some b →
  b_next b' = b_next b → b_prev b' = b_prev b →
  buf_ok (d_image (k_disk s)) b' → has_key bno b' = true →
  disk_ready d' → d_image d' = d_image (k_disk s) → d_trace d' = d_trace (k_disk s) →
  (∀ j bj, (j < NBUF)%nat → j ≠ i → k_bufs s !! j = Some bj → has_key bno bj = false) →
  b_data b' = cview s bno → b_refcnt b' = refs s bno + 1 → 0 < b_refcnt b' →
  (∀ x, x ≠ bno → has_key x b = true → b_refcnt b = 0) →
  bread_post s l held bno i (take_buf i b' d' s).
Proof.
  intros Hb Hi Hni Hbi Hn Hp Hok K Hd Himg Htr Huq Hdat Hrf Hpos Hold.
  pose proof K as [Kd Kb]%has_key_true.
  assert (i < length (k_bufs s))%nat as Hlt by by eapply lookup_lt_Some.
  assert (k_bufs (take_buf i b' d' s) !! i = Some b') as Hbi' by by apply list_lookup_insert_eq.
  assert (∀ j, j ≠ i → k_bufs (take_buf i b' d' s) !! j = k_bufs s !! j) as Hoth
    by (intros; by apply list_lookup_insert_ne).
  assert (bio (take_buf i b' d' s) l (i :: held)) as Hb'.
  { eapply take_buf_bio; try done. by rewrite Kb. }
  assert (∀ x, x ≠ bno → cview (take_buf i b' d' s) x = cview s x ∧ refs (take_buf i b' d' s) x = refs s x) as Hv.
  { intros x Hx. eapply (view_others s _ i);
      [by eapply bio_keys|by eapply bio_keys|exact Hoth| | |cbn; by rewrite Himg].
    - intros b2 _ Hb2 K2. rewrite Hbi in Hb2. injection Hb2 as <-.
      assert (b_refcnt b = 0) as Hr0 by by eapply Hold. split; [done|].
      apply has_key_true in K2 as [K3 <-]. by apply (bio_bufs _ _ _ Hb i b Hi Hbi).
    - intros b2 _ Hb2. rewrite Hbi' in Hb2. injection Hb2 as <-. apply not_true_iff_false.
      rewrite has_key_true. naive_solver. }
  split; try done.
  - split; [|by destruct s]. split; [done|]. intros k. unfold take_buf. by rewrite slock_at_set_ne.
  - by exists b'.
  - intros x. destruct (decide (x = bno)) as [->|]; [|by apply Hv].
    rewrite (cview_hit _ i b'); [done|by eapply bio_keys|done..].
  - intros x. case_decide as Hx; [|by apply Hv]. rewrite Hx.
    rewrite (refs_hit _ i b'); [done|by eapply bio_keys|done..].
Qed.

(** The cache can take one more block: fewer blocks than buffers are in use. *)
Definition spare (s : kstate) : Prop := ∃ L, (∀ x, 0 < refs s x → x ∈ L) ∧ (length L < NBUF)%nat.

Lemma bread_ok s l held bno :
  bio s l held → blk_ok bno →
  (∀ i b, i ∈ held → k_bufs s !! i = Some b → b_blockno b ≠ bno) →
  refs s bno + 1 < 2147483648 → (0 < refs s bno ∨ spare s) →
  ∃ i s', bread ROOTDEV bno s = Ok i s' ∧ bread_post s l held bno i s'.
Proof.
  intros Hb Hok Hh Hr Hsp. pose proof (bio_keys _ _ _ Hb) as Hu.
  destruct (cached (k_bufs s) bno) as [i|] eqn:E.
  - apply cached_inv in E as (Hi & b & Hbi & K). pose proof K as [Kd Kb]%has_key_true.
    assert (i ∉ held) as Hni by (intros Hin; by apply (Hh i b)).
    rewrite (refs_hit s i b) in Hr by done.
    eexists i, _. split; [by eapply bread_hit|]. pose proof (bio_bufs _ _ _ Hb i b Hi Hbi) as [B1 B2 B3 B4 B5].
    eapply take_buf_post; try done; [|apply Hb|..].
    + split; cbn; try done; try lia.
    + intros j bj Hj Hji Hbj. apply not_true_iff_false. rewrite has_key_true. intros [D1 D2].
      apply Hji. by eapply Hu; try done; congruence.
    + cbn. by rewrite (cview_hit s i b).
    + cbn. by rewrite (refs_hit s i b).
    + cbn. lia.
    + intros x Hx Kx. apply has_key_true in Kx as [_ Kx]. congruence.
  - pose proof (proj1 (cached_None _ _) E) as Hno. rewrite (refs_miss s bno Hno) in Hsp.
    destruct Hsp as [?|(L & HL & Hlen)]; [lia|].
    destruct (lru_unused_Some s l held L Hb HL Hlen) as (i & b & Hl & Hi & Hbi & Hr0 & Hni).
    eexists i, _. split; [by eapply bread_miss|]. pose proof (bio_bufs _ _ _ Hb i b Hi Hbi) as [B1 B2 B3 B4 B5].
    pose proof (bio_disk _ _ _ Hb) as [D1 D2 D3].
    eapply take_buf_post; try done.
    + split; cbn; try done; try lia. by apply length_blk.
    + apply has_key_true. done.
    + split; cbn; [done|by apply length_blk|done].
    + intros j bj Hj _. by apply Hno.
    + by rewrite (cview_miss s bno Hno).
    + by rewrite (refs_miss s bno Hno).
Qed.

(** ** Moving a buffer to the front of the list *)
Definition core (b : buf) : buf := with_b_prev 0 (with_b_next 0 b).
Definition setn (j v : nat) (bs : list buf) : list buf := alter (with_b_next v) j bs.
Definition setp (j v : nat) (bs : list buf) : list buf := alter (with_b_prev v) j bs.

Lemma upd_buf_alter i f s :
  (i < length (k_bufs s))%nat → upd_buf i f s = Ok tt (with_k_bufs (alter f i (k_bufs s)) s).
Proof.
  intros [b Hb]%lookup_lt_is_Some. rewrite (upd_buf_ok i f s b Hb). do 2 f_equal. symmetry.
  apply list_eq. intros j. destruct (decide (i = j)) as [<-|].
  - rewrite list_lookup_alter_eq, Hb, list_lookup_insert_eq; [done|by eapply lookup_lt_Some].
  - by rewrite list_lookup_alter_ne, list_lookup_insert_ne.
Qed.

Lemma links_setn j v bs k :
  (j < length bs)%nat →
  nx (setn j v bs) k = (<[j := v]> (nx bs)) k ∧ pv (setn j v bs) k = pv bs k
  ∧ core <$> setn j v bs !! k = core <$> bs !! k.
Proof.
  intros [b Hb]%lookup_lt_is_Some. unfold nx, pv, setn. destruct (decide (j = k)) as [<-|].
  - rewrite list_lookup_alter_eq, Hb, fn_lookup_insert. done.
  - by rewrite list_lookup_alter_ne, fn_lookup_insert_ne by done.
Qed.
Lemma links_setp j v bs k :
  (j < length bs)%nat →
  nx (setp j v bs) k = nx bs k ∧ pv (setp j v bs) k = (<[j := v]> (pv bs)) k
  ∧ core <$> setp j v bs !! k = core <$> bs !! k.
Proof.
  intros [b Hb]%lookup_lt_is_Some. unfold nx, pv, setp. destruct (decide (j = k)) as [<-|].
  - rewrite list_lookup_alter_eq, Hb, fn_lookup_insert. done.
  - by rewrite list_lookup_alter_ne, fn_lookup_insert_ne by done.
Qed.
Lemma length_setn j v bs : length (setn j v bs) = length bs.
Proof. apply length_alter. Qed.
Lemma length_setp j v bs : length (setp j v bs) = length bs.
Proof. apply length_alter. Qed.

Lemma buf_link bs i :
  (i < length bs)%nat → ∃ b, bs !! i = Some b ∧ b_next b = nx bs i ∧ b_prev b = pv bs i.
Proof.
  intros [b Hb]%lookup_lt_is_Some. exists b. split; [done|]. unfold nx, pv. by rewrite Hb.
Qed.

Lemma link_front_ok s i :
  let bs := k_bufs s in let n0 := nx bs bhead in
  (i < length bs)%nat → (bhead < length bs)%nat → (n0 < length bs)%nat → i ≠ bhead →
  link_front i (mret tt) s =
    Ok tt (with_k_bufs (setn bhead i (setp n0 i (setp i bhead (setn i n0 bs)))) s).
Proof.
  intros bs n0 Hi Hh Hn Hne. unfold link_front.
  destruct (buf_link bs bhead Hh) as (h & Eh & E1 & _). rewrite (get_buf_ok _ s bhead h Eh), E1. fold n0.
  rewrite (bind_Ok _ _ _ _ _ (upd_buf_alter i _ s Hi)). fold bs. fold (setn i n0 bs).
  erewrite bind_Ok; [|apply upd_buf_alter; cbn; by rewrite length_setn].
  cbn [k_bufs with_k_bufs]. fold (setp i bhead (setn i n0 bs)). rewrite bind_ret.
  destruct (buf_link (setp i bhead (setn i n0 bs)) bhead) as (h' & Eh' & E2 & _);
    [by rewrite length_setp, length_setn|].
  rewrite (get_buf_ok _ _ bhead h') by exact Eh'.
  rewrite (proj1 (links_setp i bhead (setn i n0 bs) bhead ltac:(by rewrite length_setn))) in E2.
  rewrite (proj1 (links_setn _ _ _ _ Hi)), fn_lookup_insert_ne in E2 by done. rewrite E2. fold n0.
  erewrite bind_Ok; [|apply upd_buf_alter; cbn; by rewrite length_setp, length_setn].
  cbn [k_bufs with_k_bufs]. fold (setp n0 i (setp i bhead (setn i n0 bs))).
  rewrite upd_buf_alter; [|cbn; by rewrite !length_setp, length_setn]. done.
Qed.

Lemma ring_links bs l i :
  ring bs l → i ∈ l →
  (nx bs i < length bs)%nat ∧ (pv bs i < length bs)%nat ∧ nx bs i ≠ i ∧ pv bs i ≠ i ∧
  ∃ l1 l2, l = l1 ++ i :: l2 ∧ dseg (nx bs) (pv bs) bhead l1 i ∧ dseg (nx bs) (pv bs) i l2 bhead.
Proof.
  intros R Hi. pose proof (ring_nodup _ _ R) as Hnd. pose proof (ring_mem _ _ i R) as Hm.
  pose proof (rg_len _ _ R) as HL. destruct R as [_ Hp Hr].
  apply list_elem_of_split in Hi as (l1 & l2 & ->). apply dseg_app in Hr as [H1 H2].
  assert (∀ x, x ∈ bhead :: l1 ++ i :: l2 → (x < length bs)%nat) as Hb.
  { intros x. rewrite elem_of_cons, Hp, elem_of_seq, HL. unfold bhead. lia. }
  apply NoDup_cons in Hnd as [Hh Hnd]. apply NoDup_app in Hnd as (_ & Hd & Hnd2).
  apply NoDup_cons in Hnd2 as [Hi2 _].
  pose proof (dseg_next _ _ _ _ _ H2) as Hn. pose proof (dseg_prev _ _ _ _ _ H1) as Hv.
  split_and!; [apply Hb; set_solver|apply Hb; set_solver| | |by exists l1, l2].
  - intros E. rewrite E in Hn. set_solver.
  - intros E. rewrite E in Hv. set_solver.
Qed.

Lemma fn_insert_ext (f g : nat → nat) a v k : (∀ x, f x = g x) → (<[a := v]> f) k = (<[a := v]> g) k.
Proof.
  intros H. destruct (decide (a = k)) as [<-|]; [by rewrite !fn_lookup_insert|].
  by rewrite !fn_lookup_insert_ne.
Qed.

Definition unlink (i : nat) (bs : list buf) : list buf :=
  setn (pv bs i) (nx bs i) (setp (nx bs i) (pv bs i) bs).
Definition push (i n0 : nat) (bs : list buf) : list buf :=
  setn bhead i (setp n0 i (setp i bhead (setn i n0 bs))).

Lemma unlink_links i bs k :
  (nx bs i < length bs)%nat → (pv bs i < length bs)%nat →
  nx (unlink i bs) k = (<[pv bs i := nx bs i]> (nx bs)) k ∧
  pv (unlink i bs) k = (<[nx bs i := pv bs i]> (pv bs)) k ∧
  core <$> unlink i bs !! k = core <$> bs !! k.
Proof.
  intros L1 L2. unfold unlink.
  pose proof (λ x, links_setp (nx bs i) (pv bs i) bs x L1) as A.
  set (bs1 := setp (nx bs i) (pv bs i) bs) in *.
  destruct (links_setn (pv bs i) (nx bs i) bs1 k) as (B1 & B2 & B3); [unfold bs1; by rewrite length_setp|].
  rewrite B1, B2, B3. split_and!; [|apply A..]. apply fn_insert_ext. intros. apply A.
Qed.

Lemma push_links i n0 bs k :
  (i < length bs)%nat → (bhead < length bs)%nat → (n0 < length bs)%nat →
  nx (push i n0 bs) k = (<[bhead := i]> (<[i := n0]> (nx bs))) k ∧
  pv (push i n0 bs) k = (<[n0 := i]> (<[i := bhead]> (pv bs))) k ∧
  core <$> push i n0 bs !! k = core <$> bs !! k.
Proof.
  intros Li Lh Ln. unfold push. pose proof (λ x, links_setn i n0 bs x Li) as A.
  set (b1 := setn i n0 bs) in *. assert (length b1 = length bs) as E1 by apply length_setn.
  pose proof (λ x, links_setp i bhead b1 x ltac:(by rewrite E1)) as B.
  set (b2 := setp i bhead b1) in *. assert (length b2 = length bs) as E2 by (unfold b2; by rewrite length_setp).
  pose proof (λ x, links_setp n0 i b2 x ltac:(by rewrite E2)) as C.
  set (b3 := setp n0 i b2) in *. assert (length b3 = length bs) as E3 by (unfold b3; by rewrite length_setp).
  destruct (links_setn bhead i b3 k) as (D1 & D2 & D3); [by rewrite E3|].
  rewrite D1, D2, D3. split_and!.
  - apply fn_insert_ext. intros x. destruct (C x) as (-> & _ & _), (B x) as (-> & _ & _). apply A.
  - destruct (C k) as (_ & -> & _). apply fn_insert_ext. intros x. destruct (B x) as (_ & -> & _).
    apply fn_insert_ext. intros. apply A.
  - destruct (C k) as (_ & _ & ->), (B k) as (_ & _ & ->). apply A.
Qed.

Lemma to_front_ring bs l i l1 l2 :
  ring bs l → l = l1 ++ i :: l2 →
  let n0 := nx (unlink i bs) bhead in
  ring (push i n0 (unlink i bs)) (i :: l1 ++ l2) ∧ (n0 < length bs)%nat ∧ i ≠ bhead ∧
  ∀ k, core <$> push i n0 (unlink i bs) !! k = core <$> bs !! k.
Proof.
  intros R -> n0. pose proof (ring_nodup _ _ R) as Hnd.
  destruct (ring_links bs _ i R) as (L1 & L2 & N1 & N2 & _); [set_solver|].
  destruct (ring_buf _ _ i R) as [b0 Li%lookup_lt_Some]; [set_solver|].
  destruct (ring_buf _ _ bhead R) as [b1 Lh%lookup_lt_Some]; [set_solver|].
  pose proof R as [HL Hp Hr]. apply dseg_app in Hr as [H1 H2].
  assert (bhead ∉ l1 ++ i :: l2) as Hh by by apply NoDup_cons in Hnd as [? _].
  pose proof (dseg_unlink _ _ i l2 bhead l1 bhead Hnd Hh H1 H2) as Hu.
  pose proof (λ k, unlink_links i bs k L1 L2) as K2. set (bs2 := unlink i bs) in *.
  assert (length bs2 = length bs) as HL2 by (unfold bs2, unlink; by rewrite length_setn, length_setp).
  assert (dseg (nx bs2) (pv bs2) bhead (l1 ++ l2) bhead) as Hd2.
  { eapply dseg_frame; [..|exact Hu]; intros a _; apply K2. }
  assert (NoDup (bhead :: l1 ++ l2) ∧ i ∉ bhead :: l1 ++ l2) as [Hnd2 Hni].
  { assert (NoDup (i :: bhead :: l1 ++ l2)) as [? ?]%NoDup_cons by nodup_perm Hnd. done. }
  assert (n0 < length bs)%nat as Ln.
  { pose proof (dseg_next _ _ _ _ _ Hd2) as Hn. fold n0 in Hn.
    assert (n0 ∈ bhead :: l1 ++ i :: l2) as Hn' by set_solver.
    destruct (ring_buf _ _ n0 R Hn') as [b Hb]. by eapply lookup_lt_Some. }
  pose proof (dseg_push _ _ bhead (l1 ++ l2) i Hnd2 Hni Hd2) as Hpush. fold n0 in Hpush.
  rewrite <- HL2 in Ln, Li, Lh. pose proof (λ k, push_links i n0 bs2 k Li Lh Ln) as K3.
  split_and!; [split| | |].
  - unfold push. by rewrite length_setn, !length_setp, length_setn, HL2.
  - rewrite <- Hp. perm_solve.
  - eapply dseg_frame; [..|exact Hpush]; intros a _; apply K3.
  - by rewrite <- HL2.
  - set_solver.
  - intros k. destruct (K3 k) as (_ & _ & ->). apply K2.
Qed.

(** ** Changing one buffer in place *)
Definition put_buf (i : nat) (b' : buf) (s : kstate) : kstate :=
  with_k_bufs (<[i := b']> (k_bufs s)) s.

Lemma put_buf_bio s l held i b b' :
  bio s l held → (i < NBUF)%nat → k_bufs s !! i = Some b →
  b_next b' = b_next b → b_prev b' = b_prev b → b_dev b' = b_dev b → b_blockno b' = b_blockno b →
  buf_ok (d_image (k_disk s)) b' → (i ∈ held → 0 < b_refcnt b') →
  bio (put_buf i b' s) l held.
Proof.
  intros [C D R B U F H N] Hi Hb Hn Hp Hdv Hbn Hok Hr.
  assert (i < length (k_bufs s))%nat as Hlt by by eapply lookup_lt_Some.
  split; try done.
  - by eapply calm_same, C.
  - by eapply ring_insert.
  - cbn. intros j bj Hj. destruct (decide (i = j)) as [<-|].
    + rewrite list_lookup_insert_eq by done. by intros [= <-].
    + rewrite list_lookup_insert_ne by done. by apply B.
  - cbn. intros j k bj bk Hj Hk. destruct (decide (i = j)) as [<-|], (decide (i = k)) as [<-|];
      rewrite ?list_lookup_insert_eq, ?list_lookup_insert_ne by done; try done.
    + intros [= <-] Hbk ?? E. eapply U; [exact Hj|exact Hk|exact Hb|exact Hbk|congruence..].
    + intros Hbj [= <-] ?? E. eapply U; [exact Hj|exact Hk|exact Hbj|exact Hb|congruence..].
    + by apply U.
  - intros j Hj. destruct (H j Hj) as (A1 & A2 & A3 & b2 & A4 & A5 & A6). split_and!; try done.
    destruct (decide (i = j)) as [<-|].
    + exists b'. cbn. rewrite list_lookup_insert_eq by done. rewrite Hb in A4. injection A4 as <-.
      split_and!; [done|congruence|by apply Hr].
    + exists b2. cbn. by rewrite list_lookup_insert_ne.
Qed.

Lemma put_buf_view s l held i b b' x :
  bio s l held → bio (put_buf i b' s) l held → (i < NBUF)%nat → k_bufs s !! i = Some b →
  b_dev b = ROOTDEV → b_dev b' = b_dev b → b_blockno b' = b_blockno b →
  cview (put_buf i b' s) x = (if decide (x = b_blockno b) then b_data b' else cview s x) ∧
  refs (put_buf i b' s) x = if decide (x = b_blockno b) then b_refcnt b' else refs s x.
Proof.
  intros Hb Hb' Hi Hbi Hd Hd' Hn. assert (i < length (k_bufs s))%nat as Hlt by by eapply lookup_lt_Some.
  assert (k_bufs (put_buf i b' s) !! i = Some b') as Hbi' by by apply list_lookup_insert_eq.
  case_decide as Hx.
  - assert (has_key x b' = true) as K by (apply has_key_true; split; congruence).
    rewrite (cview_hit _ i b'), (refs_hit _ i b'); try done; by eapply bio_keys.
  - eapply (view_others s _ i); [by eapply bio_keys|by eapply bio_keys| | | |done].
    + intros j Hj. by apply list_lookup_insert_ne.
    + intros b2 _ Hb2 K. simplify_eq. by apply has_key_true in K as [_ ?].
    + intros b2 _ Hb2. simplify_eq. apply not_true_iff_false. rewrite has_key_true. intros [_ E].
      congruence.
Qed.

(** The caller stores [data] in a buffer it holds. *)
Definition set_data (i : nat) (data : list Z) (s : kstate) : kstate :=
  match k_bufs s !! i with Some b => put_buf i (with_b_data data b) s | None => s end.

Lemma upd_data s i b data :
  k_bufs s !! i = Some b → upd_buf i (with_b_data data) s = Ok tt (set_data i data s).
Proof. intros Hb. rewrite (upd_buf_ok _ _ _ _ Hb). unfold set_data. by rewrite Hb. Qed.

Lemma set_data_bio s l held i b data :
  bio s l held → i ∈ held → k_bufs s !! i = Some b → length data = Z.to_nat BSIZE →
  bio (set_data i data s) l held ∧
  (∀ x, cview (set_data i data s) x = if decide (x = b_blockno b) then data else cview s x) ∧
  (∀ x, refs (set_data i data s) x = refs s x) ∧ bio_frame s (set_data i data s).
Proof.
  intros Hb Hh Hbi Hl. destruct (bio_held _ _ _ Hb i Hh) as (Hi & _ & _ & b2 & E & Hd & Hr).
  rewrite Hbi in E. injection E as <-. unfold set_data. rewrite Hbi.
  destruct (bio_bufs _ _ _ Hb i b Hi Hbi) as [B1 B2 B3 B4 B5].
  assert (bio (put_buf i (with_b_data data b) s) l held) as Hb'.
  { eapply put_buf_bio; try done. split; cbn; try done; lia. }
  pose proof (λ x, put_buf_view s l held i b _ x Hb Hb' Hi Hbi Hd eq_refl eq_refl) as V.
  split_and!; [done|intros; apply V| |split; [done|by destruct s]].
  intros x. rewrite (proj2 (V x)). case_decide as Hx; [|done]. cbn. symmetry.
  apply (refs_hit s i b); [by eapply bio_keys|done..|]. by apply has_key_true.
Qed.

(** ** bwrite *)
Lemma bwrite_ok s l held i b :
  bio s l held → i ∈ held → k_bufs s !! i = Some b →
  let s' := with_k_disk (disk_wr (b_blockno b) (b_data b) (k_disk s)) s in
  bwrite i s = Ok tt s' ∧ bio s' l held ∧ bio_frame s s' ∧
  (∀ x, cview s' x = cview s x) ∧ (∀ x, refs s' x = refs s x).
Proof.
  intros Hb Hh Hbi s'. destruct (bio_held _ _ _ Hb i Hh) as (Hi & L1 & L2 & b2 & E & Hd & Hr).
  rewrite Hbi in E. injection E as <-. pose proof (bio_bufs _ _ _ Hb i b Hi Hbi) as [B1 B2 B3 B4 B5].
  pose proof (bio_calm _ _ _ Hb) as Hc. destruct (B3 Hd) as [Hv Hok].
  pose proof (bio_disk _ _ _ Hb) as [D1 D2 D3].
  assert (bwrite i s = Ok tt s') as Ew.
  { unfold bwrite. rewrite (bind_Ok _ _ _ _ _ (holdingsleep_calm (SlBuf i) s Hc Hi)), L1, L2, Z.eqb_refl.
    cbn [negb andb Z.eqb]. by apply disk_write. }
  assert (bio s' l held) as Hb'.
  { destruct Hb as [C D R B U F H N]. split; try done.
    - by eapply calm_same, C.
    - split; cbn; [done|done|by apply img_ok_wr].
    - cbn. intros j bj Hj Hbj. destruct (B j bj Hj Hbj) as [C1 C2 C3 C4 C5]. split; try done.
      intros Dj R0. rewrite blk_wr. case_decide as Eb; [|by apply C5].
      assert (i = j) as <- by (eapply U; try done). simplify_eq. lia. }
  split_and!; [done|done|split; [done|by destruct s]| |done].
  intros x. unfold cview. cbn [k_bufs with_k_disk s']. destruct (cached (k_bufs s) x) as [j|] eqn:Ec.
  - apply cached_inv in Ec as (_ & bj & Hbj & _). cbn. by rewrite Hbj.
  - cbn. rewrite blk_wr. case_decide as Eb; [|done]. exfalso.
    pose proof (proj1 (cached_None _ _) Ec i b Hi Hbi) as K. apply not_true_iff_false in K.
    apply K, has_key_true. done.
Qed.

(** ** brelse *)
Lemma core_fields (bs bs' : list buf) k b' :
  core <$> bs' !! k = core <$> bs !! k → bs' !! k = Some b' →
  ∃ b, bs !! k = Some b ∧ b_valid b' = b_valid b ∧ b_dev b' = b_dev b ∧
       b_blockno b' = b_blockno b ∧ b_refcnt b' = b_refcnt b ∧ b_data b' = b_data b.
Proof.
  intros H Hb. rewrite Hb in H. cbn in H. destruct (bs !! k) as [b|]; [|done]. exists b.
  injection H as E1 E2 E3 E4 E5 E6. by split_and!.
Qed.

(** Relinking changes neither contents nor counts. *)
Lemma relink_bio s l l' held bs' :
  bio s l held → ring bs' l' → (∀ k, core <$> bs' !! k = core <$> k_bufs s !! k) →
  bio (with_k_bufs bs' s) l' held ∧
  ∀ x, cview (with_k_bufs bs' s) x = cview s x ∧ refs (with_k_bufs bs' s) x = refs s x.
Proof.
  intros Hb R' Hk. pose proof Hb as [C D R B U F H N].
  assert (bio (with_k_bufs bs' s) l' held) as Hb'.
  { split; try done.
    - by eapply calm_same, C.
    - cbn. intros i b' Hi Hb'. destruct (core_fields _ _ _ _ (Hk i) Hb') as (b & E & E1 & E2 & E3 & E4 & E5).
      destruct (B i b Hi E) as [B1 B2 B3 B4 B5]. split; rewrite ?E1, ?E2, ?E3, ?E4, ?E5; done.
    - cbn. intros i j bi bj Hi Hj Hbi Hbj.
      destruct (core_fields _ _ _ _ (Hk i) Hbi) as (b1 & ? & _ & -> & -> & _).
      destruct (core_fields _ _ _ _ (Hk j) Hbj) as (b2 & ? & _ & -> & -> & _). by apply U.
    - intros i Hi. destruct (H i Hi) as (A1 & A2 & A3 & b & A4 & A5 & A6). split_and!; try done.
      cbn. destruct (bs' !! i) as [b'|] eqn:E.
      + destruct (core_fields _ _ _ _ (Hk i) E) as (b2 & ? & _ & E2 & _ & E4 & _). exists b'.
        split_and!; congruence.
      + specialize (Hk i). rewrite E, A4 in Hk. done. }
  split; [done|]. intros x.
  destruct (cached (k_bufs s) x) as [i|] eqn:Ec.
  - apply cached_inv in Ec as (Hi & b & Hbi & K). destruct (bs' !! i) as [b'|] eqn:E.
    2:{ specialize (Hk i). by rewrite E, Hbi in Hk. }
    destruct (core_fields _ _ _ _ (Hk i) E) as (b2 & E1 & _ & E2 & E3 & E4 & E5).
    rewrite Hbi in E1. injection E1 as <-.
    assert (has_key x b' = true) as K' by (apply has_key_true in K; apply has_key_true; rewrite E2, E3; done).
    rewrite (cview_hit s i b), (refs_hit s i b) by (done || by eapply bio_keys).
    rewrite (cview_hit _ i b'), (refs_hit _ i b') by (done || by eapply bio_keys). done.
  - rewrite (cview_miss s), (refs_miss s) by by apply cached_None.
    assert (∀ i b, (i < NBUF)%nat → k_bufs (with_k_bufs bs' s) !! i = Some b → has_key x b = false) as Hn.
    { intros i b' Hi Hb2. destruct (core_fields _ _ _ _ (Hk i) Hb2) as (b & E1 & _ & E2 & E3 & _ & _).
      unfold has_key. rewrite E2, E3. by eapply (proj1 (cached_None _ _) Ec i b). }
    by rewrite cview_miss, refs_miss.
Qed.

Lemma drop_lock_bio s l held i :
  bio s l held → i ∈ held →
  let s' := woken (Some (ChSleep (SlBuf i)))
              (set_sl (SlBuf i) (mk_sleeplock 0 (sl_name (slock_at s (SlBuf i))) 0) s) in
  bio s' l (filter (.≠ i) held) ∧ bio_frame s s'.
Proof.
  intros [C D R B U F H N] Hi s'.
  assert (same_ctx s s') as Hsc by (eapply same_ctx_trans; [apply set_sl_same|apply woken_same]).
  assert (cur_pid s' = cur_pid s) as Ep.
  { unfold cur_pid. destruct Hsc as (_ & -> & _ & _ & Hp).
    destruct (c_proc (k_cpu s)) as [j|]; [|done]. cbn. by rewrite Hp. }
  assert (∀ j, slock_at s' (SlBuf j) = if decide (i = j) then mk_sleeplock 0 (sl_name (slock_at s (SlBuf i))) 0
    else slock_at s (SlBuf j)) as Hsl.
  { intros j. change (slock_at s' ?l) with (slock_at (set_sl (SlBuf i) (mk_sleeplock 0 (sl_name (slock_at s (SlBuf i))) 0) s) l).
    case_decide; [subst; apply slock_at_set|]. apply slock_at_set_ne. congruence. }
  split; [split; try done|split; [split; [done|intros k; unshelve eapply slock_at_set_ne; done]|by destruct s]].
  - by eapply calm_same.
  - intros j Hj Hn. rewrite Hsl. case_decide as Hd; [done|]. apply F; [done|].
    intros Hin. apply Hn. apply list_elem_of_filter. split; [congruence|done].
  - intros j [Hne Hj]%list_elem_of_filter. rewrite Hsl, decide_False, Ep by congruence. by apply H.
  - by apply NoDup_filter.
Qed.

Lemma front_ok s t l held i :
  bio s l held → (i < NBUF)%nat → k_bufs t = k_bufs s →
  ∃ bs' l1 l2, l = l1 ++ i :: l2 ∧ ring bs' (i :: l1 ++ l2) ∧
    (∀ k, core <$> bs' !! k = core <$> k_bufs s !! k) ∧
    (b ← get_buf i; upd_buf (b_next b) (with_b_prev (b_prev b));;
     b ← get_buf i; upd_buf (b_prev b) (with_b_next (b_next b));;
     link_front i (mret tt)) t = Ok tt (with_k_bufs bs' t).
Proof.
  intros Hb Hi Ht. pose proof (bio_ring _ _ _ Hb) as R. rewrite <- Ht in *. set (bs := k_bufs t) in *.
  destruct (ring_links bs l i R) as (L1 & L2 & N1 & N2 & l1 & l2 & El & _); [by apply (ring_mem bs)|].
  destruct (to_front_ring bs l i l1 l2 R El) as (R' & Ln & Hne & Hk).
  eexists _, l1, l2. split_and!; [done|exact R'|exact Hk|].
  assert (i < length bs)%nat as Li by (rewrite (rg_len _ _ R); lia).
  assert (bhead < length bs)%nat as Lh by (rewrite (rg_len _ _ R); unfold bhead; lia).
  destruct (buf_link bs i Li) as (b & Eb & En & Ep). rewrite (get_buf_ok _ t i b Eb), En, Ep.
  rewrite (bind_Ok _ _ _ _ _ (upd_buf_alter _ _ t L1)). fold bs. fold (setp (nx bs i) (pv bs i) bs).
  set (bs1 := setp (nx bs i) (pv bs i) bs). assert (length bs1 = length bs) as E1 by apply length_setp.
  destruct (buf_link bs1 i) as (b1 & Eb1 & En1 & Ep1); [by rewrite E1|].
  rewrite (get_buf_ok _ _ i b1) by exact Eb1.
  destruct (links_setp (nx bs i) (pv bs i) bs i L1) as (A1 & A2 & _). fold bs1 in A1, A2.
  rewrite A2, fn_lookup_insert_ne in Ep1 by done. rewrite A1 in En1. rewrite En1, Ep1.
  erewrite bind_Ok; [|apply upd_buf_alter; cbn; by rewrite E1].
  cbn [k_bufs with_k_bufs]. 
  change (alter (with_b_next (nx bs i)) (pv bs i) bs1) with (unlink i bs).
  assert (length (unlink i bs) = length bs) as E2 by (unfold unlink; by rewrite length_setn, length_setp).
  rewrite link_front_ok; cbn [k_bufs with_k_bufs]; [done|by rewrite E2..|done].
Qed.

Record brelse_post (s : kstate) (l held : list nat) (i : nat) (bno : Z) (l' : list nat) (s' : kstate) : Prop := {
  br_bio : bio s' l' (filter (.≠ i) held);
  br_frame : bio_frame s s';
  br_disk : k_disk s' = k_disk s;
  br_view : ∀ x, cview s' x = cview s x;
  br_refs : ∀ x, refs s' x = if decide (x = bno) then refs s x - 1 else refs s x;
  br_core : ∀ k, k ≠ i → core <$> k_bufs s' !! k = core <$> k_bufs s !! k }.

Lemma cached_view s s' : k_bufs s' = k_bufs s → k_disk s' = k_disk s →
  (∀ x, cview s' x = cview s x) ∧ (∀ x, refs s' x = refs s x).
Proof. intros H1 H2. unfold cview, refs. by rewrite H1, H2. Qed.

(** The end of [brelse], the count already decremented. *)
Lemma brelse_tail s l held i b :
  bio s l held → (i < NBUF)%nat → k_bufs s !! i = Some b →
  ∃ l' s',
    (b ← get_buf i;
     when (b_refcnt b =? 0)
       (b ← get_buf i;
        upd_buf (b_next b) (with_b_prev (b_prev b));;
        b ← get_buf i;
        upd_buf (b_prev b) (with_b_next (b_next b));;
        link_front i (mret tt));;
     release LkBcache) (acq LkBcache s) = Ok tt s' ∧
    bio s' l' held ∧ bio_frame s s' ∧ k_disk s' = k_disk s ∧
    (∀ x, cview s' x = cview s x ∧ refs s' x = refs s x) ∧
    (∀ k, core <$> k_bufs s' !! k = core <$> k_bufs s !! k) ∧
    (l' = l ∧ b_refcnt b ≠ 0 ∨ (∃ l1 l2, l = l1 ++ i :: l2 ∧ l' = i :: l1 ++ l2) ∧ b_refcnt b = 0).
Proof.
  intros Hb Hi Hbi. rewrite (get_buf_ok _ (acq LkBcache s) i b Hbi).
  destruct (Z.eqb_spec (b_refcnt b) 0) as [E0|E0]; cbn [when].
  - destruct (front_ok s (acq LkBcache s) l held i Hb Hi eq_refl) as (bs' & l1 & l2 & El & R' & Hk & Ef).
    rewrite (bind_Ok _ _ _ _ _ Ef).
    change (with_k_bufs bs' (acq LkBcache s)) with (acq LkBcache (with_k_bufs bs' s)).
    destruct (relink_bio s l _ held bs' Hb R' Hk) as [Hb' V].
    rewrite (release_calm LkBcache _ (bio_calm _ _ _ Hb')) by done.
    eexists _, _. split_and!; [done|exact Hb'|split; [done|by destruct s]|done|exact V|exact Hk|].
    right. split; [by exists l1, l2|done].
  - rewrite bind_ret, (release_calm LkBcache _ (bio_calm _ _ _ Hb)) by done.
    exists l, s. split_and!; try done; [apply bio_frame_refl|by left].
Qed.

Lemma brelse_ok s l held i b :
  bio s l held → i ∈ held → k_bufs s !! i = Some b →
  (b_refcnt b = 1 → b_data b = blk (d_image (k_disk s)) (b_blockno b)) →
  ∃ l' s', brelse i s = Ok tt s' ∧ brelse_post s l held i (b_blockno b) l' s' ∧
    (l' = l ∧ 1 < b_refcnt b ∨ (∃ l1 l2, l = l1 ++ i :: l2 ∧ l' = i :: l1 ++ l2) ∧ b_refcnt b = 1).
Proof.
  intros Hb Hh Hbi Hcl. destruct (bio_held _ _ _ Hb i Hh) as (Hi & L1 & L2 & b2 & E & Hd & Hr).
  rewrite Hbi in E. injection E as <-. pose proof (bio_calm _ _ _ Hb) as Hc.
  destruct (bio_bufs _ _ _ Hb i b Hi Hbi) as [B1 B2 B3 B4 B5].
  pose proof (cview_hit s i b (b_blockno b) (bio_keys _ _ _ Hb) Hi Hbi) as Evw.
  pose proof (refs_hit s i b (b_blockno b) (bio_keys _ _ _ Hb) Hi Hbi) as Erf.
  rewrite has_key_true in Evw, Erf.
  unfold brelse. rewrite (bind_Ok _ _ _ _ _ (holdingsleep_calm (SlBuf i) s Hc Hi)), L1, L2, Z.eqb_refl.
  cbn [negb andb Z.eqb]. rewrite (bind_Ok _ _ _ _ _ (releasesleep_calm (SlBuf i) s Hc Hi)).
  destruct (drop_lock_bio s l held i Hb Hh) as [Hb1 Hf1]. set (s1 := woken _ _) in *.
  destruct (cached_view s s1) as [V1 V2]; [done..|].
  rewrite acquire_calm by (done || apply Hb1).
  rewrite (bind_Ok _ _ _ _ _ (upd_buf_ok i _ (acq LkBcache s1) b Hbi)), u32_small by lia.
  set (b' := with_b_refcnt (b_refcnt b - 1) b).
  change (with_k_bufs _ (acq LkBcache s1)) with (acq LkBcache (put_buf i b' s1)).
  assert (bio (put_buf i b' s1) l (filter (.≠ i) held)) as Hb2.
  { eapply put_buf_bio; try done.
    - split; cbn; try done; try lia. intros _ ?. apply Hcl. lia.
    - intros [? _]%list_elem_of_filter. done. }
  pose proof (λ x, put_buf_view s1 l _ i b b' x Hb1 Hb2 Hi Hbi Hd eq_refl eq_refl) as V3.
  destruct (brelse_tail _ l _ i b' Hb2 Hi) as (l' & s' & Et & Hb' & Hf & Hdk & V4 & Hk & Hl).
  { apply list_lookup_insert_eq. by eapply lookup_lt_Some. }
  exists l', s'. split_and!; [exact Et| |cbn in Hl; destruct Hl as [[-> ?]|[? ?]]; [left|right]; split; (done || lia)].
  split; [done| |done| | |].
  - eapply bio_frame_trans; [exact Hf1|]. eapply bio_frame_trans; [|exact Hf]. split; [done|by destruct s1].
  - intros x. rewrite (proj1 (V4 x)), (proj1 (V3 x)). case_decide as Hx; [|apply V1]. by rewrite Hx, Evw.
  - intros x. rewrite (proj2 (V4 x)), (proj2 (V3 x)). case_decide as Hx; [|apply V2]. rewrite Hx, Erf; done.
  - intros k Hki. rewrite Hk. cbn. by rewrite list_lookup_insert_ne.
Qed.

(** ** bpin and bunpin *)
Lemma bpin_ok s l held i b :
  bio s l held → (i < NBUF)%nat → k_bufs s !! i = Some b → b_dev b = ROOTDEV →
  b_refcnt b + 1 < 2147483648 →
  let s' := put_buf i (with_b_refcnt (b_refcnt b + 1) b) s in
  bpin i s = Ok tt s' ∧ bio s' l held ∧ bio_frame s s' ∧ (∀ x, cview s' x = cview s x) ∧
  ∀ x, refs s' x = if decide (x = b_blockno b) then refs s x + 1 else refs s x.
Proof.
  intros Hb Hi Hbi Hd Hr s'. destruct (bio_bufs _ _ _ Hb i b Hi Hbi) as [B1 B2 B3 B4 B5].
  assert (bio s' l held) as Hb' by (eapply put_buf_bio; try done; [split; cbn; done || lia|cbn; lia]).
  pose proof (λ x, put_buf_view s l held i b _ x Hb Hb' Hi Hbi Hd eq_refl eq_refl) as V.
  split_and!; [|done|split; [done|by destruct s]|intros x|intros x].
  - unfold bpin. rewrite acquire_calm by (done || apply Hb).
    rewrite (bind_Ok _ _ _ _ _ (upd_buf_ok i _ (acq LkBcache s) b Hbi)), u32_small by lia.
    change (with_k_bufs _ (acq LkBcache s)) with (acq LkBcache s'). apply release_calm; [apply Hb'|done].
  - unfold s'. rewrite (proj1 (V x)). case_decide as Hx; [|done]. cbn. symmetry.
    apply (cview_hit s i b); [by eapply bio_keys|done..|by apply has_key_true].
  - unfold s'. rewrite (proj2 (V x)). case_decide as Hx; [|done]. cbn. f_equal. symmetry.
    apply (refs_hit s i b); [by eapply bio_keys|done..|by apply has_key_true].
Qed.

Lemma bunpin_ok s l held i b :
  bio s l held → (i < NBUF)%nat → k_bufs s !! i = Some b → b_dev b = ROOTDEV → 1 < b_refcnt b →
  let s' := put_buf i (with_b_refcnt (b_refcnt b - 1) b) s in
  bunpin i s = Ok tt s' ∧ bio s' l held ∧ bio_frame s s' ∧ (∀ x, cview s' x = cview s x) ∧
  ∀ x, refs s' x = if decide (x = b_blockno b) then refs s x - 1 else refs s x.
Proof.
  intros Hb Hi Hbi Hd Hr s'. destruct (bio_bufs _ _ _ Hb i b Hi Hbi) as [B1 B2 B3 B4 B5].
  assert (bio s' l held) as Hb' by (eapply put_buf_bio; try done; [split; cbn; done || lia|cbn; lia]).
  pose proof (λ x, put_buf_view s l held i b _ x Hb Hb' Hi Hbi Hd eq_refl eq_refl) as V.
  split_and!; [|done|split; [done|by destruct s]|intros x|intros x].
  - unfold bunpin. rewrite acquire_calm by (done || apply Hb).
    rewrite (bind_Ok _ _ _ _ _ (upd_buf_ok i _ (acq LkBcache s) b Hbi)), u32_small by lia.
    change (with_k_bufs _ (acq LkBcache s)) with (acq LkBcache s'). apply release_calm; [apply Hb'|done].
  - unfold s'. rewrite (proj1 (V x)). case_decide as Hx; [|done]. cbn. symmetry.
    apply (cview_hit s i b); [by eapply bio_keys|done..|by apply has_key_true].
  - unfold s'. rewrite (proj2 (V x)). case_decide as Hx; [|done]. cbn. f_equal. symmetry.
    apply (refs_hit s i b); [by eapply bio_keys|done..|by apply has_key_true].
Qed.
End cache.
