(* ===== verification/Log.v ===== *)
(** * kernel/log.c: the write-ahead log

    The globals [log_start], [log_outstanding], [log_committing], [log_dev]
    and [log_lh] are the record [k_log].  [begin_op] may sleep: what it does
    when it runs again is [begin_op_resume].  An index outside [log_lh.block]
    (undefined in C) is a panic of the model. *)

From S2P Require Import Prelude Machine State CString Spinlock Printf Emu Kalloc Vm VmSpec VmUser VmCopy Sched Bytes Bio.

Section log.
Context `{P : Platform}.

Definition upd_log (f : log → log) : KM unit := modify (λ s, with_k_log (f (k_log s)) s).
Definition get_log : KM log := gets k_log.

(** [log_lh.block[i]] *)
Definition lh_block (i : nat) : KM Z :=
  l ← get_log;
  match l_block l !! i with Some b => mret b | None => panic "log_lh.block out of range" end.
Definition set_lh_block (i : nat) (v : Z) : KM unit :=
  l ← get_log;
  if (i <? length (l_block l))%nat then upd_log (λ l, with_l_block (<[i := v]> (l_block l)) l)
  else panic "log_lh.block out of range".

(** The loops [for (tail = 0; tail < log_lh.n; tail++)]: n is fixed meanwhile. *)
Definition log_tails : KM (list nat) := l ← get_log; mret (seq 0 (Z.to_nat (l_n l))).

Definition install_trans (recovering : bool) : KM unit :=
  tails ← log_tails;
  for_each tails (λ tail,
    (if recovering then
       dst ← lh_block tail;
       printf (str "recovering tail %d dst %d
") [AInt (Z.of_nat tail); AInt dst];; mret tt
     else mret tt);;
    l ← get_log;
    lbuf ← bread (l_dev l) (u32 (l_start l + Z.of_nat tail + 1));
    dst ← lh_block tail;
    dbuf ← bread (l_dev l) (u32 dst);
    lb ← get_buf lbuf;
    upd_buf dbuf (with_b_data (b_data lb));;
    bwrite dbuf;;
    when (negb recovering) (bunpin dbuf);;
    brelse lbuf;;
    brelse dbuf).

(** struct logheader overlaid on a block *)
Definition lh_n (data : list Z) : Z := i32 (getb 4 0 data).
Definition lh_blk (i : nat) (data : list Z) : Z := i32 (getb 4 (4 + 4 * i) data).

Definition read_head : KM unit :=
  l ← get_log;
  i ← bread (l_dev l) (u32 (l_start l));
  b ← get_buf i;
  upd_log (with_l_n (lh_n (b_data b)));;
  for_each (seq 0 (Z.to_nat (lh_n (b_data b)))) (λ k, set_lh_block k (lh_blk k (b_data b)));;
  brelse i.

Definition write_head : KM unit :=
  l ← get_log;
  i ← bread (l_dev l) (u32 (l_start l));
  upd_buf i (λ b, with_b_data (putb 4 0 (l_n l) (b_data b)) b);;
  for_each (seq 0 (Z.to_nat (l_n l))) (λ k,
    v ← lh_block k;
    upd_buf i (λ b, with_b_data (putb 4 (4 + 4 * k) v (b_data b)) b));;
  bwrite i;;
  brelse i.

Definition recover_from_log : KM unit :=
  read_head;;
  install_trans true;;
  upd_log (with_l_n 0);;
  write_head.

(** [sizeof(struct logheader)] is 4 + 4 * LOGBLOCKS. *)
Definition initlog (dev : Z) (sb : superblock) : KM unit :=
  if BSIZE <=? 4 + 4 * LOGBLOCKS then panic "initlog: too big logheader" else
  initlock LkLog "log";;
  upd_log (with_l_start (sb_logstart sb));;
  upd_log (with_l_dev dev);;
  recover_from_log.

(** From the head of the loop on, the log lock held. *)
Definition begin_op_loop : KM unit :=
  l ← get_log;
  if negb (l_committing l =? 0) then sleep ChLog LkLog
  else if LOGBLOCKS <? l_n l + (l_outstanding l + 1) * MAXOPBLOCKS then sleep ChLog LkLog
  else upd_log (λ l, with_l_outstanding (l_outstanding l + 1) l);; release LkLog.
Definition begin_op : KM unit := acquire LkLog;; begin_op_loop.
Definition begin_op_resume (intena : bool) : KM unit := sleep_resume intena LkLog;; begin_op_loop.

Definition write_log : KM unit :=
  tails ← log_tails;
  for_each tails (λ tail,
    l ← get_log;
    to ← bread (l_dev l) (u32 (l_start l + Z.of_nat tail + 1));
    src ← lh_block tail;
    from ← bread (l_dev l) (u32 src);
    fb ← get_buf from;
    upd_buf to (with_b_data (b_data fb));;
    bwrite to;;
    brelse from;;
    brelse to).

Definition commit : KM unit :=
  l ← get_log;
  when (0 <? l_n l)
    (write_log;;
     write_head;;
     install_trans false;;
     upd_log (with_l_n 0);;
     write_head).

Definition end_op : KM unit :=
  acquire LkLog;;
  upd_log (λ l, with_l_outstanding (l_outstanding l - 1) l);;
  l ← get_log;
  if negb (l_committing l =? 0) then panic "log_committing" else
  do_commit ← (if l_outstanding l =? 0 then upd_log (with_l_committing 1);; mret true
               else wakeup (Some ChLog);; mret false);
  release LkLog;;
  if do_commit : bool then
    commit;;
    acquire LkLog;;
    upd_log (with_l_committing 0);;
    wakeup (Some ChLog);;
    release LkLog
  else mret tt.

(** The search of log_write: the first index of [blockno], or n. *)
Fixpoint log_find (n : nat) (i : nat) (blocks : list Z) (blockno : Z) : nat :=
  match n with
  | O => i
  | S n' => if bool_decide (blocks !! i = Some blockno) then i else log_find n' (S i) blocks blockno
  end.

Definition log_write (bi : nat) : KM unit :=
  acquire LkLog;;
  l ← get_log;
  if LOGBLOCKS <=? l_n l then panic "too big a transaction" else
  if l_outstanding l <? 1 then panic "log_write outside of trans" else
  b ← get_buf bi;
  let i := log_find (Z.to_nat (l_n l)) 0 (l_block l) (i32 (b_blockno b)) in
  set_lh_block i (i32 (b_blockno b));;
  when (Z.of_nat i =? l_n l)
    (bpin bi;;
     upd_log (λ l, with_l_n (l_n l + 1) l));;
  release LkLog.
End log.
