(* ===== verification/Cache.v ===== *)
(** * The contract of the buffer cache

    [cs s0 s H img tr V R] is what clients of bio.c reason with: in [s] the
    running process holds the buffers [H] (index and block number), the disk
    holds [img] and has been sent the sector writes [tr], readers see block
    [b] as [V b], and block [b] is referenced [R b] times; nothing but the
    cache differs from [s0].  Each operation of bio.c is one rule. *)

From S2P Require Import Prelude Machine State CString Spinlock Emu Kalloc Vm VmSpec VmUser VmCopy Sched Bytes Bio BioSpec.

(** Pointwise update. *)
Definition fset {A} (f : Z → A) (b : Z) (v : A) : Z → A := λ x, if decide (x = b) then v else f x.
Lemma fset_eq {A} (f : Z → A) b v : fset f b v b = v.
Proof. unfold fset. by rewrite decide_True. Qed.
Lemma fset_ne {A} (f : Z → A) b v x : x ≠ b → fset f b v x = f x.
Proof. intros. unfold fset. by rewrite decide_False. Qed.

(** The sector writes that store [data] in block [b]. *)
Definition wr_trace (b : Z) (data : list Z) : list (Z * list Z) :=
  [(2 * b, take SECTOR_SIZE data); (2 * b + 1, drop SECTOR_SIZE data)].

Section cache_rules.
Context `{P : Platform} {HP : PlatformOk P}.

Definition key (s : kstate) (i : nat) (b : Z) : Prop :=
  ∃ bf, k_bufs s !! i = Some bf ∧ has_key b bf = true.

Record cs (s0 s : kstate) (H : list (nat * Z)) (img : gmap Z (list Z)) (tr : list (Z * list Z))
    (V : Z → list Z) (R : Z → Z) : Prop := {
  cs_bio : ∃ l, bio s l H.*1;
  cs_keys : ∀ i b, (i, b) ∈ H → key s i b;
  cs_img : d_image (k_disk s) = img;
  cs_tr : d_trace (k_disk s) = tr;
  cs_view : ∀ x, cview s x = V x;
  cs_refs : ∀ x, refs s x = R x;
  cs_frame : bio_frame s0 s }.

Lemma cs_ext s0 s H img tr V V' R R' :
  (∀ x, V' x = V x) → (∀ x, R' x = R x) → cs s0 s H img tr V R → cs s0 s H img tr V' R'.
Proof.
  intros HV HR [C1 C2 C3 C4 C5 C6 C7]. split; try done; intros; [by rewrite HV|by rewrite HR].
Qed.

Lemma cs_rebase s0 s1 s H img tr V R :
  bio_frame s0 s1 → cs s1 s H img tr V R → cs s0 s H img tr V R.
Proof. intros Hf [C1 C2 C3 C4 C5 C6 C7]. split; try done. by eapply bio_frame_trans. Qed.

(** A held buffer: its contents and count are what the view says. *)
Lemma cs_buf s0 s H img tr V R i b :
  cs s0 s H img tr V R → (i, b) ∈ H →
  ∃ bf, k_bufs s !! i = Some bf ∧ b_dev bf = ROOTDEV ∧ b_blockno bf = b ∧ b_data bf = V b ∧
        b_refcnt bf = R b ∧ 0 < R b ∧ R b < 2147483648 ∧ length (V b) = Z.to_nat BSIZE ∧
        (i < NBUF)%nat ∧ blk_ok b ∧ i ∈ H.*1.
Proof.
  intros [[l Hb] C2 _ _ C5 C6 _] Hin. destruct (C2 i b Hin) as (bf & Hbf & K).
  assert (i ∈ H.*1) as Hi by (apply list_elem_of_fmap; by exists (i, b)).
  destruct (bio_held _ _ _ Hb i Hi) as (Hlt & _ & _ & bf' & E & Hd & Hr).
  rewrite Hbf in E. injection E as <-.
  destruct (bio_bufs _ _ _ Hb i bf Hlt Hbf) as [B1 B2 B3 B4 B5].
  pose proof (cview_hit s i bf b (bio_keys _ _ _ Hb) Hlt Hbf K) as Ev.
  pose proof (refs_hit s i bf b (bio_keys _ _ _ Hb) Hlt Hbf K) as Er.
  apply has_key_true in K as [_ Kb]. rewrite C5 in Ev. rewrite C6 in Er.
  exists bf. rewrite Ev, Er, <- Kb. split_and!; try done; try lia; by apply B3.
Qed.

Lemma cs_get s0 s H img tr V R i b :
  cs s0 s H img tr V R → (i, b) ∈ H →
  ∃ bf, get_buf i s = Ok bf s ∧ b_data bf = V b ∧ b_blockno bf = b ∧ b_dev bf = ROOTDEV.
Proof.
  intros C Hin. destruct (cs_buf _ _ _ _ _ _ _ _ _ C Hin) as (bf & Hbf & ? & ? & ? & _).
  exists bf. split; [|done]. unfold get_buf. rewrite bind_gets, Hbf. done.
Qed.

(** ** The rules *)
Definition roomy (R : Z → Z) : Prop := ∃ L, (∀ x, 0 < R x → x ∈ L) ∧ (length L < NBUF)%nat.

Lemma cs_bread s0 s H img tr V R b :
  cs s0 s H img tr V R → blk_ok b → b ∉ H.*2 → R b + 1 < 2147483648 → (0 < R b ∨ roomy R) →
  ∃ i s', bread ROOTDEV b s = Ok i s' ∧ i ∉ H.*1 ∧
          cs s0 s' ((i, b) :: H) img tr V (fset R b (R b + 1)).
Proof.
  intros C Hok Hni Hr Hsp. pose proof C as [[l Hb] C2 C3 C4 C5 C6 C7].
  destruct (bread_ok s l H.*1 b Hb Hok) as (i & s' & E & [P1 P2 P3 P4 P5 (bf & Q1 & Q2 & _) P7 P8 P9]).
  - intros j bj Hj Hbj Ebj. apply list_elem_of_fmap in Hj as ([j' bn] & -> & Hin).
    destruct (cs_buf _ _ _ _ _ _ _ _ _ C Hin) as (bf & Hbf & _ & E1 & _). cbn in Hbj.
    rewrite Hbf in Hbj. injection Hbj as <-. apply Hni, list_elem_of_fmap. exists (j', bn).
    split; [cbn; congruence|done].
  - by rewrite C6.
  - destruct Hsp as [?|(L & HL & ?)]; [left; by rewrite C6|right]. exists L. split; [|done].
    intros x. rewrite C6. apply HL.
  - exists i, s'. split_and!; [done|done|]. split.
    + by exists l.
    + intros j bj [[= -> ->]|Hin]%elem_of_cons; [by exists bf|].
      destruct (C2 j bj Hin) as (bj' & ? & ?). exists bj'. split; [|done]. rewrite P9; [done|].
      intros ->. apply P2, list_elem_of_fmap. by exists (i, bj).
    + congruence.
    + congruence.
    + intros x. by rewrite P7.
    + intros x. rewrite P8, C6. unfold fset. by case_decide as Hx; [rewrite Hx|].
    + by eapply bio_frame_trans.
Qed.

Lemma cs_upd s0 s H img tr V R i b f d :
  cs s0 s H img tr V R → (i, b) ∈ H → length d = Z.to_nat BSIZE →
  (∀ bf, b_data bf = V b → f bf = with_b_data d bf) →
  ∃ s', upd_buf i f s = Ok tt s' ∧ cs s0 s' H img tr (fset V b d) R.
Proof.
  intros C Hin Hd Hf. pose proof C as [[l Hb] C2 C3 C4 C5 C6 C7].
  destruct (cs_buf _ _ _ _ _ _ _ _ _ C Hin) as (bf & Hbf & E0 & E1 & E2 & _ & _ & _ & _ & Hlt & _ & Hi1).
  destruct (set_data_bio s l _ i bf d Hb Hi1 Hbf Hd) as (S1 & S2 & S3 & S4).
  exists (set_data i d s). split.
  - rewrite (upd_buf_ok i f s bf Hbf), (Hf bf E2). unfold set_data. by rewrite Hbf.
  - split.
    + by exists l.
    + intros j bj Hj. destruct (C2 j bj Hj) as (bj' & Hbj & K). unfold set_data. rewrite Hbf.
      unfold key. cbn. destruct (decide (i = j)) as [<-|].
      * rewrite Hbf in Hbj. injection Hbj as <-. eexists.
        split; [apply list_lookup_insert_eq; by eapply lookup_lt_Some|done].
      * exists bj'. by rewrite list_lookup_insert_ne.
    + unfold set_data. by rewrite Hbf.
    + unfold set_data. by rewrite Hbf.
    + intros x. rewrite S2, C5, E1. done.
    + intros x. by rewrite S3, C6.
    + by eapply bio_frame_trans.
Qed.

Lemma cs_bwrite s0 s H img tr V R i b :
  cs s0 s H img tr V R → (i, b) ∈ H →
  ∃ s', bwrite i s = Ok tt s' ∧ cs s0 s' H (wr_blk img b (V b)) (tr ++ wr_trace b (V b)) V R.
Proof.
  intros C Hin. pose proof C as [[l Hb] C2 C3 C4 C5 C6 C7].
  destruct (cs_buf _ _ _ _ _ _ _ _ _ C Hin) as (bf & Hbf & E0 & E1 & E2 & _ & _ & _ & _ & Hlt & _ & Hi1).
  destruct (bwrite_ok s l _ i bf Hb Hi1 Hbf) as (W1 & W2 & W3 & W4 & W5).
  eexists. split; [exact W1|]. split.
  - by exists l.
  - intros j bj Hj. destruct (C2 j bj Hj) as (bj' & ? & ?). by exists bj'.
  - cbn. by rewrite C3, E1, E2.
  - cbn. by rewrite C4, E1, E2.
  - intros x. by rewrite W4.
  - intros x. by rewrite W5.
  - by eapply bio_frame_trans.
Qed.

Lemma cs_brelse s0 s H img tr V R i b :
  cs s0 s H img tr V R → (i, b) ∈ H → (R b = 1 → V b = blk img b) →
  ∃ s', brelse i s = Ok tt s' ∧
        cs s0 s' (filter (λ p, p.1 ≠ i) H) img tr V (fset R b (R b - 1)).
Proof.
  intros C Hin Hcl. pose proof C as [[l Hb] C2 C3 C4 C5 C6 C7].
  destruct (cs_buf _ _ _ _ _ _ _ _ _ C Hin) as (bf & Hbf & E0 & E1 & E2 & E3 & _ & _ & _ & Hlt & _ & Hi1).
  destruct (brelse_ok s l _ i bf Hb Hi1 Hbf) as (l' & s' & E & [B1 B2 B3 B4 B5 B6] & _).
  { rewrite E3, E2, E1, C3. exact Hcl. }
  exists s'. split; [done|]. split.
  - exists l'. assert (∀ K : list (nat * Z), (filter (λ p, p.1 ≠ i) K).*1 = filter (.≠ i) K.*1) as EK.
    { induction K as [|[j bj] K IH]; [done|]. rewrite fmap_cons, !filter_cons. cbn [fst].
      case_decide; [rewrite fmap_cons; by f_equal|done]. }
    by rewrite EK.
  - intros j bj [Hne Hj]%list_elem_of_filter. cbn in Hne. destruct (C2 j bj Hj) as (bj' & Hbj & K).
    specialize (B6 j Hne). destruct (k_bufs s' !! j) as [b2|] eqn:Eb; [|by rewrite Hbj in B6].
    exists b2. split; [done|]. rewrite Hbj in B6. cbn in B6. unfold core, has_key in *.
    injection B6 as ? ? F3 F4 ? ?. by rewrite F3, F4.
  - congruence.
  - congruence.
  - intros x. by rewrite B4.
  - intros x. rewrite B5, C6, E1. unfold fset. by case_decide as Hx; [rewrite Hx|].
  - by eapply bio_frame_trans.
Qed.

Lemma cs_put s0 s H img tr V R i b bf r :
  cs s0 s H img tr V R → (i, b) ∈ H → k_bufs s !! i = Some bf →
  let s' := put_buf i (with_b_refcnt r bf) s in
  (∃ l, bio s l H.*1 ∧ bio s' l H.*1) → bio_frame s s' → (∀ x, cview s' x = cview s x) →
  (∀ x, refs s' x = if decide (x = b) then r else refs s x) →
  cs s0 s' H img tr V (fset R b r).
Proof.
  intros [_ C2 C3 C4 C5 C6 C7] Hin Hbf s' (l & _ & Hl) Hf HV HR. split; try done.
  - by exists l.
  - intros j bj Hj. destruct (C2 j bj Hj) as (bj' & Hbj & K). unfold key. cbn.
    destruct (decide (i = j)) as [<-|].
    + rewrite Hbf in Hbj. injection Hbj as <-. eexists.
      split; [apply list_lookup_insert_eq; by eapply lookup_lt_Some|done].
    + exists bj'. by rewrite list_lookup_insert_ne.
  - intros x. by rewrite HV.
  - intros x. rewrite HR, C6. done.
  - by eapply bio_frame_trans.
Qed.

Lemma cs_bpin s0 s H img tr V R i b :
  cs s0 s H img tr V R → (i, b) ∈ H → R b + 1 < 2147483648 →
  ∃ s', bpin i s = Ok tt s' ∧ cs s0 s' H img tr V (fset R b (R b + 1)).
Proof.
  intros C Hin Hr. pose proof C as [[l Hb] C2 C3 C4 C5 C6 C7].
  destruct (cs_buf _ _ _ _ _ _ _ _ _ C Hin) as (bf & Hbf & E0 & E1 & E2 & E3 & _ & _ & _ & Hlt & _ & _).
  destruct (bpin_ok s l _ i bf Hb Hlt Hbf E0) as (W1 & W2 & W3 & W4 & W5); [lia|].
  eexists. split; [exact W1|]. rewrite <- E3. eapply cs_put; try done; [by exists l|].
  intros x. rewrite W5, E1. case_decide as Hx; [|done]. rewrite Hx, C6. lia.
Qed.

Lemma cs_bunpin s0 s H img tr V R i b :
  cs s0 s H img tr V R → (i, b) ∈ H → 1 < R b →
  ∃ s', bunpin i s = Ok tt s' ∧ cs s0 s' H img tr V (fset R b (R b - 1)).
Proof.
  intros C Hin Hr. pose proof C as [[l Hb] C2 C3 C4 C5 C6 C7].
  destruct (cs_buf _ _ _ _ _ _ _ _ _ C Hin) as (bf & Hbf & E0 & E1 & E2 & E3 & _ & _ & _ & Hlt & _ & _).
  destruct (bunpin_ok s l _ i bf Hb Hlt Hbf E0) as (W1 & W2 & W3 & W4 & W5); [lia|].
  eexists. split; [exact W1|]. rewrite <- E3. eapply cs_put; try done; [by exists l|].
  intros x. rewrite W5, E1. case_decide as Hx; [|done]. rewrite Hx, C6. lia.
Qed.
End cache_rules.
