(* ===== verification/LogImg.v ===== *)
(** * Crash safety of the log, on disk images

    [apply_w img W] is the image after the sector writes [W].  [commit_writes]
    is the sequence of sector writes a commit issues and [recover_img] the
    image recovery produces.  The main lemma: recovery after any prefix of a
    commit's writes gives, outside the log, either the old contents or all of
    the transaction. *)

From S2P Require Import Prelude Machine State Bytes Spinlock Sched Bio BioSpec Cache Log.

Definition apply_w (img : gmap Z (list Z)) (W : list (Z * list Z)) : gmap Z (list Z) :=
  foldl (λ m p, <[p.1 := p.2]> m) img W.

Lemma apply_w_app img W1 W2 : apply_w img (W1 ++ W2) = apply_w (apply_w img W1) W2.
Proof. apply foldl_app. Qed.
Lemma apply_w_wr img b d : apply_w img (wr_trace b d) = wr_blk img b d.
Proof. done. Qed.

Lemma sector_apply_notin W : ∀ img n, n ∉ W.*1 → sector (apply_w img W) n = sector img n.
Proof.
  induction W as [|[m d] W IH]; intros img n Hn; [done|]. cbn [apply_w foldl].
  change (foldl _ _ W) with (apply_w (<[m := d]> img) W). rewrite IH by set_solver.
  rewrite sector_insert. apply decide_False. set_solver.
Qed.

(** ** The writes of a commit *)
Fixpoint log_writes (b : Z) (ds : list (list Z)) : list (Z * list Z) :=
  match ds with [] => [] | d :: ds' => wr_trace b d ++ log_writes (b + 1) ds' end.
Fixpoint home_writes (bs : list Z) (ds : list (list Z)) : list (Z * list Z) :=
  match bs, ds with b :: bs', d :: ds' => wr_trace b d ++ home_writes bs' ds' | _, _ => [] end.

(** The header with count [n] and block numbers [bs] stored over [d]. *)
Fixpoint put_blocks (k : nat) (bs : list Z) (d : list Z) : list Z :=
  match bs with [] => d | b :: bs' => put_blocks (S k) bs' (putb 4 (4 + 4 * k) b d) end.
Definition mk_header (bs : list Z) (d : list Z) : list Z :=
  put_blocks 0 bs (putb 4 0 (Z.of_nat (length bs)) d).

Definition commit_writes (start : Z) (bs : list Z) (ds : list (list Z)) (hdr : list Z) : list (Z * list Z) :=
  log_writes (start + 1) ds ++ wr_trace start (mk_header bs hdr) ++ home_writes bs ds
    ++ wr_trace start (mk_header [] (mk_header bs hdr)).

(** What recovery makes of an image. *)
Definition hdr_blocks (hdr : list Z) : list Z := map (λ k, lh_blk k hdr) (seq 0 (Z.to_nat (lh_n hdr))).
Definition log_datas (img : gmap Z (list Z)) (start : Z) (n : nat) : list (list Z) :=
  map (λ k, blk img (start + 1 + Z.of_nat k)) (seq 0 n).
Definition recover_img (start : Z) (img : gmap Z (list Z)) : gmap Z (list Z) :=
  let hdr := blk img start in
  let bs := hdr_blocks hdr in
  wr_blk (apply_w img (home_writes bs (log_datas img start (length bs)))) start (mk_header [] hdr).

(** ** Headers *)
Lemma length_put_blocks bs : ∀ k d,
  (4 + 4 * (k + length bs) <= length d)%nat → length (put_blocks k bs d) = length d.
Proof.
  induction bs as [|b bs IH]; intros k d Hl; [done|]. cbn [put_blocks length] in *.
  rewrite IH; rewrite length_putb; lia.
Qed.
Lemma length_mk_header bs d :
  (4 + 4 * length bs <= length d)%nat → length (mk_header bs d) = length d.
Proof. intros. unfold mk_header. rewrite length_put_blocks; rewrite length_putb; lia. Qed.

Lemma getb_put_blocks bs : ∀ k d off,
  (4 + 4 * (k + length bs) <= length d)%nat → (off + 4 <= 4 + 4 * k)%nat →
  getb 4 off (put_blocks k bs d) = getb 4 off d.
Proof.
  induction bs as [|b bs IH]; intros k d off Hl Ho; [done|]. cbn [put_blocks length] in *.
  rewrite IH; [|rewrite length_putb; lia|lia]. apply getb_putb_ne; lia.
Qed.

Lemma lh_blk_put_blocks bs : ∀ k d j b,
  (4 + 4 * (k + length bs) <= length d)%nat → bs !! j = Some b → -2147483648 <= b < 2147483648 →
  lh_blk (k + j) (put_blocks k bs d) = b.
Proof.
  induction bs as [|b0 bs IH]; intros k d j b Hl Hj Hb; [done|]. cbn [put_blocks length] in *.
  destruct j as [|j]; cbn in Hj.
  - injection Hj as ->. rewrite Nat.add_0_r. unfold lh_blk.
    rewrite getb_put_blocks; [|rewrite length_putb; lia|lia].
    rewrite getb_putb_eq by lia. change (256 ^ Z.of_nat 4) with 4294967296. apply i32_u32_small. done.
  - replace (k + S j)%nat with (S k + j)%nat by lia. apply IH; [rewrite length_putb; lia|done|done].
Qed.

Definition int_ok (b : Z) : Prop := -2147483648 <= b < 2147483648.

Lemma mk_header_n bs d :
  (4 + 4 * length bs <= length d)%nat → Z.of_nat (length bs) < 2147483648 →
  lh_n (mk_header bs d) = Z.of_nat (length bs).
Proof.
  intros Hl Hn. unfold lh_n, mk_header. rewrite getb_put_blocks; [|rewrite length_putb; lia|lia].
  rewrite getb_putb_eq by lia. change (256 ^ Z.of_nat 4) with 4294967296. apply i32_u32_small. lia.
Qed.

Lemma hdr_blocks_mk bs d :
  (4 + 4 * length bs <= length d)%nat → Z.of_nat (length bs) < 2147483648 → Forall int_ok bs →
  hdr_blocks (mk_header bs d) = bs.
Proof.
  intros Hl Hn Hb. unfold hdr_blocks. rewrite mk_header_n, Nat2Z.id by done.
  apply list_eq. intros j. rewrite list_lookup_fmap. destruct (bs !! j) as [b|] eqn:E.
  - rewrite lookup_seq_lt by (by eapply lookup_lt_Some). cbn. f_equal.
    apply (lh_blk_put_blocks bs 0); [rewrite length_putb; lia|done|]. by eapply (Forall_lookup_1 int_ok).
  - apply lookup_ge_None in E. by rewrite lookup_seq_ge.
Qed.

(** The fields of the header lie in the block's first sector. *)
Lemma hdr_blocks_prefix h h' :
  take 124 h = take 124 h' → (Z.to_nat (lh_n h) <= 30)%nat → hdr_blocks h = hdr_blocks h' ∧ lh_n h = lh_n h'.
Proof.
  intros H Hn.
  assert (∀ off, (off + 4 <= 124)%nat → getb 4 off h = getb 4 off h') as G.
  { intros off Ho. apply getb_prefix.
    assert (∀ x : list Z, take (off + 4) x = take (off + 4) (take 124 x)) as E
      by (intros; rewrite take_take; f_equal; lia).
    by rewrite (E h), (E h'), H. }
  assert (lh_n h = lh_n h') as En by (unfold lh_n; by rewrite G by lia).
  split; [|done]. unfold hdr_blocks. rewrite <- En. apply map_ext_in. intros k Hk%in_seq.
  unfold lh_blk. by rewrite G by lia.
Qed.

(** ** Where writes go *)
Lemma home_writes_sectors bs : ∀ ds n, n ∈ (home_writes bs ds).*1 → n / 2 ∈ bs.
Proof.
  induction bs as [|b bs IH]; intros [|d ds] n; cbn; try set_solver.
  intros [->|[->|H]%elem_of_cons]%elem_of_cons.
  - apply elem_of_cons. left. zl.
  - apply elem_of_cons. left. zl.
  - apply elem_of_cons. right. by apply (IH ds).
Qed.
Lemma log_writes_sectors ds : ∀ b n,
  n ∈ (log_writes b ds).*1 → b <= n / 2 < b + Z.of_nat (length ds).
Proof.
  induction ds as [|d ds IH]; intros b n; cbn [log_writes wr_trace fmap list_fmap app length]; [set_solver|].
  intros [->|[->|H]%elem_of_cons]%elem_of_cons; [cbn; zl|cbn; zl|]. apply IH in H. lia.
Qed.

Lemma blk_apply_notin img W x :
  (∀ n, n ∈ W.*1 → n / 2 ≠ x) → blk (apply_w img W) x = blk img x.
Proof.
  intros H. unfold blk. rewrite !sector_apply_notin; [done|intros Hn; apply (H _ Hn); zl..].
Qed.

Lemma fmap_take_sub {A B} (f : A → B) k l x : x ∈ f <$> take k l → x ∈ f <$> l.
Proof.
  intros (y & -> & Hy)%list_elem_of_fmap. apply list_elem_of_fmap. exists y. split; [done|].
  by eapply elem_of_take in Hy as (i & ? & ?); apply list_elem_of_lookup; exists i.
Qed.

Lemma blk_home_out img bs ds x j :
  x ∉ bs → blk (apply_w img (take j (home_writes bs ds))) x = blk img x.
Proof.
  intros Hx. apply blk_apply_notin. intros n Hn%fmap_take_sub E. apply Hx. rewrite <- E.
  by apply (home_writes_sectors bs ds).
Qed.
Lemma blk_home_out' img bs ds x : x ∉ bs → blk (apply_w img (home_writes bs ds)) x = blk img x.
Proof. intros Hx. rewrite <- (take_ge (home_writes bs ds) _ (le_n _)). by apply blk_home_out. Qed.
Lemma blk_log_out img b ds x j :
  ¬ (b <= x < b + Z.of_nat (length ds)) → blk (apply_w img (take j (log_writes b ds))) x = blk img x.
Proof.
  intros Hx. apply blk_apply_notin. intros n Hn%fmap_take_sub E. apply Hx. rewrite <- E.
  by apply log_writes_sectors.
Qed.

Lemma blk_home_in bs : ∀ ds img k x d,
  NoDup bs → bs !! k = Some x → ds !! k = Some d → blk (apply_w img (home_writes bs ds)) x = d.
Proof.
  induction bs as [|b bs IH]; intros [|d0 ds] img k x d Hnd Hx Hd; try done.
  cbn [home_writes]. rewrite apply_w_app, apply_w_wr. apply NoDup_cons in Hnd as [Hb Hnd].
  destruct k as [|k]; cbn in Hx, Hd.
  - simplify_eq. rewrite blk_home_out' by done. by rewrite blk_wr, decide_True.
  - by eapply IH.
Qed.

Lemma blk_log_in ds : ∀ img b k d,
  ds !! k = Some d → blk (apply_w img (log_writes b ds)) (b + Z.of_nat k) = d.
Proof.
  induction ds as [|d0 ds IH]; intros img b k d Hd; [done|].
  cbn [log_writes]. rewrite apply_w_app, apply_w_wr. destruct k as [|k]; cbn in Hd.
  - simplify_eq. rewrite <- (take_ge (log_writes (b + 1) ds) (length (log_writes (b + 1) ds))) by lia.
    rewrite blk_log_out by lia. rewrite blk_wr, decide_True by lia. done.
  - replace (b + Z.of_nat (S k)) with (b + 1 + Z.of_nat k) by lia. by apply IH.
Qed.

(** [home_writes] over two images that agree outside [bs] gives the same. *)
Lemma blk_home_agree bs ds m m' x :
  NoDup bs → length ds = length bs → (x ∉ bs → blk m x = blk m' x) →
  blk (apply_w m (home_writes bs ds)) x = blk (apply_w m' (home_writes bs ds)) x.
Proof.
  intros Hnd Hl H. destruct (decide (x ∈ bs)) as [Hin|Hni].
  - apply list_elem_of_lookup in Hin as [k Hk].
    destruct (lookup_lt_is_Some_2 ds k) as [d Hd]; [rewrite Hl; by eapply lookup_lt_Some|].
    by rewrite !(blk_home_in bs ds _ k x d).
  - rewrite !blk_home_out' by done. by apply H.
Qed.

(** ** Crash points of a commit *)
Section crash.
Context (start : Z) (bs : list Z) (ds : list (list Z)) (img0 : gmap Z (list Z)).
Hypothesis Himg : img_ok img0.
Hypothesis Hn : (length bs <= 30)%nat.
Hypothesis Hds : length ds = length bs.
Hypothesis Hdlen : Forall (λ d, length d = Z.to_nat BSIZE) ds.
Hypothesis Hnd : NoDup bs.
Hypothesis Hint : Forall int_ok bs.
Hypothesis Hout : Forall (λ b, b < start ∨ start + 30 < b) bs.
Hypothesis Hclean : lh_n (blk img0 start) = 0.

Let h1 := mk_header bs (blk img0 start).
Let h2 := mk_header [] h1.

Lemma len_hdr : length (blk img0 start) = 1024%nat.
Proof. by apply length_blk. Qed.
Lemma len_h1 : length h1 = 1024%nat.
Proof. unfold h1. rewrite length_mk_header; rewrite len_hdr; [done|lia]. Qed.
Lemma len_h2 : length h2 = 1024%nat.
Proof. unfold h2. rewrite length_mk_header; rewrite len_h1; [done|cbn; lia]. Qed.

(** The header as recovery reads it, from the first sector. *)
Lemma hdr_of_sector m h :
  sector m (2 * start) = take 512 h → length h = 1024%nat → (Z.to_nat (lh_n h) <= 30)%nat →
  hdr_blocks (blk m start) = hdr_blocks h ∧ lh_n (blk m start) = lh_n h.
Proof.
  intros H Hl Hb. assert (take 124 h = take 124 (blk m start)) as E.
  { unfold blk. rewrite H. rewrite take_app_le by (rewrite length_take; lia). rewrite take_take. f_equal. }
  destruct (hdr_blocks_prefix h (blk m start) E Hb). done.
Qed.

(** The images recovery can meet: the transaction does not count yet, *)
Definition old_img (m : gmap Z (list Z)) : Prop :=
  hdr_blocks (blk m start) = [] ∧ lh_n (blk m start) = 0 ∧
  ∀ x, x < start ∨ start + 30 < x → blk m x = blk img0 x.
(** or it does: installed and cleared, or complete in the log. *)
Definition new_img (m : gmap Z (list Z)) : Prop :=
  (hdr_blocks (blk m start) = [] ∧ lh_n (blk m start) = 0 ∧
   ∀ x, x < start ∨ start + 30 < x → blk m x = blk (apply_w img0 (home_writes bs ds)) x) ∨
  (hdr_blocks (blk m start) = bs ∧ log_datas m start (length bs) = ds ∧
   ∀ x, x < start ∨ start + 30 < x → x ∉ bs → blk m x = blk img0 x).

Lemma sector_out m W x : (∀ n, n ∈ W.*1 → n / 2 ≠ x) → sector (apply_w m W) (2 * x) = sector m (2 * x).
Proof. intros H. apply sector_apply_notin. intros Hn'. apply (H _ Hn'). zl. Qed.

Lemma home_not_start j n : n ∈ (take j (home_writes bs ds)).*1 → n / 2 ≠ start.
Proof.
  intros Hx%fmap_take_sub%home_writes_sectors E. rewrite Forall_forall in Hout.
  apply Hout in Hx. lia.
Qed.
Lemma log_not_start j n : n ∈ (take j (log_writes (start + 1) ds)).*1 → n / 2 ≠ start.
Proof. intros Hx%fmap_take_sub%log_writes_sectors E. lia. Qed.

(** Before the header is written: the old state. *)
Lemma crash_before j : old_img (apply_w img0 (take j (log_writes (start + 1) ds))).
Proof.
  set (m := apply_w _ _).
  assert (sector m (2 * start) = take 512 (blk img0 start)) as Hs.
  { unfold m. rewrite sector_out by apply log_not_start. unfold blk.
    symmetry. apply take_app_length'. apply eq_sym, Himg. }
  destruct (hdr_of_sector m (blk img0 start) Hs len_hdr) as [E1 E2]; [rewrite Hclean; cbn; lia|].
  split_and!; [rewrite E1; unfold hdr_blocks; by rewrite Hclean|by rewrite E2|].
  intros x Hx. apply blk_log_out. lia.
Qed.

(** Once the first sector of the header is written, the transaction counts. *)
Lemma crash_committed M j :
  sector M (2 * start) = take 512 h1 →
  (∀ k d, ds !! k = Some d → blk M (start + 1 + Z.of_nat k) = d) →
  (∀ x, x < start ∨ start + 30 < x → blk M x = blk img0 x) →
  new_img (apply_w M (take j (home_writes bs ds))).
Proof.
  intros Hs Hl Hx. right. set (m := apply_w _ _).
  assert (lh_n h1 = Z.of_nat (length bs)) as En1 by (apply mk_header_n; rewrite ?len_hdr; lia).
  assert (sector m (2 * start) = take 512 h1) as Hs'
    by (unfold m; by rewrite sector_out by apply home_not_start).
  destruct (hdr_of_sector m h1 Hs' len_h1) as [E1 E2]; [rewrite En1; lia|].
  split_and!.
  - rewrite E1. apply hdr_blocks_mk; rewrite ?len_hdr; (done || lia).
  - unfold log_datas. apply list_eq. intros k. rewrite list_lookup_fmap.
    destruct (ds !! k) as [d|] eqn:Ek.
    + assert (k < length bs)%nat by (rewrite <- Hds; by eapply lookup_lt_Some).
      rewrite lookup_seq_lt by done. cbn. f_equal. unfold m.
      rewrite blk_home_out; [by apply Hl|]. intros Hin. rewrite Forall_forall in Hout.
      apply Hout in Hin. lia.
    + apply lookup_ge_None in Ek. rewrite Hds in Ek. by rewrite lookup_seq_ge.
  - intros x Hxo Hni. unfold m. rewrite blk_home_out by done. by apply Hx.
Qed.

(** After the header was cleared: the new state. *)
Lemma crash_after m :
  sector m (2 * start) = take 512 h2 →
  (∀ x, x < start ∨ start + 30 < x → blk m x = blk (apply_w img0 (home_writes bs ds)) x) →
  new_img m.
Proof.
  intros Hs Hx. left.
  assert (lh_n h2 = 0) as E0 by (apply (mk_header_n []); [rewrite len_h1; cbn; lia|done]).
  destruct (hdr_of_sector m h2 Hs len_h2) as [E1 E2]; [rewrite E0; cbn; lia|].
  split_and!; [rewrite E1; unfold hdr_blocks; by rewrite E0|by rewrite E2|done].
Qed.

Lemma blk_sector_start m n d x : n = 2 * start ∨ n = 2 * start + 1 → x < start ∨ start + 30 < x →
  blk (<[n := d]> m) x = blk m x.
Proof. intros Hm Hx. unfold blk. rewrite !sector_insert, !decide_False by lia. done. Qed.

Lemma blk_hdr_out m b' d x : x ≠ b' → blk (wr_blk m b' d) x = blk m x.
Proof. intros. rewrite blk_wr. by apply decide_False. Qed.

(** Crash points during installation and when the log is cleared. *)
Lemma crash_tail M k :
  sector M (2 * start) = take 512 h1 →
  (∀ k d, ds !! k = Some d → blk M (start + 1 + Z.of_nat k) = d) →
  (∀ x, x < start ∨ start + 30 < x → blk M x = blk img0 x) →
  new_img (apply_w M (take k (home_writes bs ds ++ wr_trace start h2))).
Proof.
  intros Hs Hl Hx. set (C := home_writes bs ds). rewrite take_app, apply_w_app.
  destruct (decide (k <= length C)%nat) as [Hk|Hk].
  { replace (k - length C)%nat with 0%nat by lia. rewrite take_0. by apply crash_committed. }
  rewrite (take_ge C) by lia. set (k' := (k - length C)%nat).
  assert (∀ x, x < start ∨ start + 30 < x →
    blk (apply_w M C) x = blk (apply_w img0 (home_writes bs ds)) x) as HC.
  { intros x Hxo. apply blk_home_agree; [done|done|]. intros _. by apply Hx. }
  destruct (decide (k' = 1%nat)) as [->|Hk'].
  - apply crash_after; cbn.
    + by rewrite sector_insert, decide_True.
    + intros x Hxo. rewrite blk_sector_start by auto. by apply HC.
  - rewrite (take_ge (wr_trace start h2)) by (cbn; lia). rewrite apply_w_wr. apply crash_after.
    + unfold wr_blk. rewrite !sector_insert, decide_False, decide_True by lia. done.
    + intros x Hxo. rewrite blk_hdr_out by lia. by apply HC.
Qed.

(** The commit point: the first sector of the header, which is the write
    after those to the log. *)
Definition commit_point : nat := length (log_writes (start + 1) ds).

Lemma crash_old k :
  (k <= commit_point)%nat → old_img (apply_w img0 (take k (commit_writes start bs ds (blk img0 start)))).
Proof.
  unfold commit_point, commit_writes. intros Hk. rewrite take_app_le by done. apply crash_before.
Qed.

Lemma crash_new k :
  (commit_point < k)%nat → new_img (apply_w img0 (take k (commit_writes start bs ds (blk img0 start)))).
Proof.
  unfold commit_point, commit_writes. fold h1 h2. set (A := log_writes (start + 1) ds). set (C := home_writes bs ds).
  intros Hk. rewrite take_app, apply_w_app, (take_ge A) by lia. set (M0 := apply_w img0 A).
  assert (∀ x, x < start ∨ start + 30 < x → blk M0 x = blk img0 x) as HM0.
  { intros x Hx. unfold M0, A. rewrite <- (take_ge (log_writes _ _) (length A)) by done. apply blk_log_out. lia. }
  assert (∀ k d, ds !! k = Some d → blk M0 (start + 1 + Z.of_nat k) = d) as HL0 by (intros; by apply blk_log_in).
  set (k1 := (k - length A)%nat). rewrite take_app, apply_w_app.
  change (length (wr_trace start h1)) with 2%nat. destruct (decide (k1 = 1%nat)) as [->|Hk1].
  { cbn [take wr_trace Nat.sub app]. rewrite take_0.
    change (apply_w _ []) with (apply_w (apply_w M0 [(2 * start, take SECTOR_SIZE h1)]) (take 0 (home_writes bs ds))).
    apply crash_committed; cbn.
    - by rewrite sector_insert, decide_True.
    - intros j d Hd. unfold blk. rewrite !sector_insert, !decide_False by lia. by apply HL0.
    - intros x Hx. rewrite blk_sector_start by auto. by apply HM0. }
  rewrite (take_ge (wr_trace start h1)) by (cbn; lia). rewrite apply_w_wr. set (M1 := wr_blk M0 start h1).
  apply crash_tail.
  - unfold M1, wr_blk. rewrite !sector_insert, decide_False, decide_True by lia. done.
  - intros j d Hd. unfold M1. rewrite blk_hdr_out by lia. by apply HL0.
  - intros x Hx. unfold M1. rewrite blk_hdr_out by lia. by apply HM0.
Qed.

(** Recovery from such an image: the old or the new contents, log empty. *)
Lemma recover_clears m : length (blk m start) = 1024%nat → lh_n (blk (recover_img start m) start) = 0.
Proof.
  intros Hlen. unfold recover_img. rewrite blk_wr, decide_True by done. apply (mk_header_n []); [cbn; lia|done].
Qed.
Lemma recover_old m x :
  old_img m → x < start ∨ start + 30 < x → blk (recover_img start m) x = blk img0 x.
Proof.
  intros (E1 & E2 & Hx) Hxo. unfold recover_img. rewrite E1, blk_hdr_out by lia. by apply Hx.
Qed.
Lemma recover_new m x :
  new_img m → x < start ∨ start + 30 < x →
  blk (recover_img start m) x = blk (apply_w img0 (home_writes bs ds)) x.
Proof.
  intros Hm Hxo. unfold recover_img. destruct Hm as [(E1 & E2 & Hx)|(E1 & E2 & Hx)]; rewrite E1, blk_hdr_out by lia.
  - by apply Hx.
  - rewrite E2. apply blk_home_agree; auto.
Qed.
End crash.
