(* ===== verification/LogSpec.v ===== *)
(** * log.c against the cache contract: commit, recovery, crash safety

    [log_ok start s]: the log is configured at block [start], its in-memory
    header is well formed, and exactly the logged blocks are pinned, once
    each.  [commit] is shown to issue the writes [commit_writes], recovery to
    compute [recover_img]. *)

From S2P Require Import Prelude Machine State CString Spinlock Printf Emu Kalloc Vm VmSpec VmUser VmCopy Sched Bytes Bio BioSpec Cache Log LogImg.

Section logspec.
Context `{P : Platform} {HP : PlatformOk P}.

Lemma img_ok_apply W : ∀ img,
  img_ok img → Forall (λ p, length p.2 = SECTOR_SIZE) W → img_ok (apply_w img W).
Proof.
  induction W as [|[n d] W IH]; intros img Hi Hw; [done|]. apply Forall_cons in Hw as [Hd Hw].
  cbn [apply_w foldl]. apply IH; [|done]. intros m. rewrite sector_insert. case_decide; [done|apply Hi].
Qed.

Lemma frame_log s s' : bio_frame s s' → k_log s' = k_log s.
Proof. intros [_ ->]. by destruct s. Qed.

(** ** One step of write_log *)
Definition write_log_step (tail : nat) : KM unit :=
  l ← get_log;
  to ← bread (l_dev l) (u32 (l_start l + Z.of_nat tail + 1));
  src ← lh_block tail;
  from ← bread (l_dev l) (u32 src);
  fb ← get_buf from;
  upd_buf to (with_b_data (b_data fb));;
  bwrite to;;
  brelse from;;
  brelse to.

Definition in_range (b : Z) : Prop := blk_ok b ∧ b < 2147483648.

Lemma lh_block_ok {B} s tail b (f : Z → KM B) :
  l_block (k_log s) !! tail = Some b → (x ← lh_block tail; f x) s = f b s.
Proof. intros H. unfold lh_block, get_log. rewrite bind_assoc, bind_gets, H. done. Qed.

Lemma u32_blk b : in_range b → u32 b = b.
Proof. intros [[? ?] ?]. apply u32_small. lia. Qed.

Lemma write_log_step_ok s0 s img tr V R start tail src :
  cs s0 s [] img tr V R → l_dev (k_log s0) = ROOTDEV → l_start (k_log s0) = start →
  l_block (k_log s0) !! tail = Some src →
  let lb := start + Z.of_nat tail + 1 in
  in_range lb → in_range src → lb ≠ src → R lb = 0 → 0 < R src → R src + 1 < 2147483648 → roomy R →
  ∃ s', write_log_step tail s = Ok tt s' ∧
    cs s0 s' [] (wr_blk img lb (V src)) (tr ++ wr_trace lb (V src)) (fset V lb (V src)) R.
Proof.
  intros C Hdev Hst Hb lb Hlb Hsrc Hne Rl Rs Rs2 Hroom. unfold write_log_step, get_log.
  rewrite bind_gets, (frame_log s0 s (cs_frame _ _ _ _ _ _ _ C)), Hdev, Hst.
  fold lb. rewrite (u32_blk lb Hlb).
  destruct (cs_bread _ _ _ _ _ _ _ lb C) as (i & s1 & E1 & _ & C1); [apply Hlb|set_solver|lia|by right|].
  rewrite (bind_Ok _ _ _ _ _ E1).
  rewrite (lh_block_ok _ tail src) by (by rewrite (frame_log s0 s1 (cs_frame _ _ _ _ _ _ _ C1))).
  rewrite (u32_blk src Hsrc).
  destruct (cs_bread _ _ _ _ _ _ _ src C1) as (j & s2 & E2 & Hji & C2); cbn [fmap list_fmap fst snd] in *;
    [apply Hsrc|set_solver|rewrite fset_ne by done; lia|left; by rewrite fset_ne|].
  rewrite (bind_Ok _ _ _ _ _ E2). rewrite (fset_ne R) in C2 by done.
  destruct (cs_get _ _ _ _ _ _ _ j src C2) as (fb & Eg & Ed & _); [set_solver|].
  rewrite (bind_Ok _ _ _ _ _ Eg), Ed.
  destruct (cs_buf _ _ _ _ _ _ _ j src C2) as (_ & _ & _ & _ & _ & _ & _ & _ & Hlen & _); [set_solver|].
  destruct (cs_upd _ _ _ _ _ _ _ i lb (with_b_data (V src)) (V src) C2) as (s3 & E3 & C3); [set_solver|done|done|].
  rewrite (bind_Ok _ _ _ _ _ E3).
  destruct (cs_bwrite _ _ _ _ _ _ _ i lb C3) as (s4 & E4 & C4); [set_solver|].
  rewrite (bind_Ok _ _ _ _ _ E4). rewrite fset_eq in C4.
  destruct (cs_brelse _ _ _ _ _ _ _ j src C4) as (s5 & E5 & C5); [set_solver|rewrite fset_eq; lia|].
  rewrite (bind_Ok _ _ _ _ _ E5). rewrite fset_eq in C5.
  rewrite filter_cons_False, filter_cons_True in C5 by (cbn; set_solver).
  destruct (cs_brelse _ _ _ _ _ _ _ i lb C5) as (s6 & E6 & C6); [set_solver| |].
  { intros _. by rewrite fset_eq, blk_wr, decide_True. }
  exists s6. split; [done|]. rewrite filter_cons_False in C6 by (cbn; set_solver).
  eapply cs_ext; [done| |exact C6]. intros x. unfold fset. repeat case_decide; subst; lia || done.
Qed.

(** ** write_log *)
Fixpoint log_view (V : Z → list Z) (b : Z) (ds : list (list Z)) : Z → list Z :=
  match ds with [] => V | d :: ds' => log_view (fset V b d) (b + 1) ds' end.

Lemma log_view_out ds : ∀ V b x,
  ¬ (b <= x < b + Z.of_nat (length ds)) → log_view V b ds x = V x.
Proof.
  induction ds as [|d ds IH]; intros V b x Hx; [done|]. cbn [log_view length] in *.
  rewrite IH by lia. apply fset_ne. lia.
Qed.
Lemma log_view_in ds : ∀ V b k d, ds !! k = Some d → log_view V b ds (b + Z.of_nat k) = d.
Proof.
  induction ds as [|d0 ds IH]; intros V b k d Hk; [done|]. cbn [log_view].
  destruct k as [|k]; cbn in Hk.
  - injection Hk as ->. rewrite log_view_out by lia. rewrite Z.add_0_r. apply fset_eq.
  - replace (b + Z.of_nat (S k)) with (b + 1 + Z.of_nat k) by lia. by apply IH.
Qed.

(** The log's configuration, with the block numbers [bs] in its header. *)
Record log_cfg (L : log) (start : Z) (bs : list Z) : Prop := {
  lc_dev : l_dev L = ROOTDEV;
  lc_start : l_start L = start;
  lc_n : l_n L = Z.of_nat (length bs);
  lc_len : length (l_block L) = Z.to_nat LOGBLOCKS;
  lc_blocks : ∀ k b, bs !! k = Some b → l_block L !! k = Some b }.

(** Block numbers that may be logged: on the disk, outside the log area. *)
Definition home (start b : Z) : Prop := in_range b ∧ (b < start ∨ start + LOGBLOCKS < b).
Definition area (start : Z) : Prop := ∀ x, start <= x <= start + LOGBLOCKS → in_range x.

Lemma write_log_loop s0 start : ∀ bs k s img tr V R,
  cs s0 s [] img tr V R → l_dev (k_log s0) = ROOTDEV → l_start (k_log s0) = start →
  area start → (k + length bs <= Z.to_nat LOGBLOCKS)%nat →
  (∀ j b, bs !! j = Some b → l_block (k_log s0) !! (k + j)%nat = Some b) →
  Forall (λ b, home start b ∧ R b = 1) bs →
  (∀ x, start <= x <= start + LOGBLOCKS → R x = 0) → roomy R →
  let W := log_writes (start + 1 + Z.of_nat k) (map V bs) in
  ∃ s', for_each (seq k (length bs)) write_log_step s = Ok tt s' ∧
    cs s0 s' [] (apply_w img W) (tr ++ W) (log_view V (start + 1 + Z.of_nat k) (map V bs)) R.
Proof.
  induction bs as [|b bs IH]; intros k s img tr V R C Hd Hs Ha Hk Hb Hbs HR0 Hroom W.
  { exists s. split; [done|]. subst W. cbn. by rewrite app_nil_r. }
  apply Forall_cons in Hbs as [[[Hbr Hbo] Rb] Hbs]. cbn [length seq for_each] in *.
  pose proof (Hb 0%nat b eq_refl) as Hb0. rewrite Nat.add_0_r in Hb0.
  unfold area in *. change LOGBLOCKS with 30 in *.
  destruct (write_log_step_ok s0 s img tr V R start k b C Hd Hs Hb0) as (s1 & E1 & C1);
    [apply Ha; lia|done|lia|apply HR0; lia|lia|lia|done|].
  rewrite (bind_Ok _ _ _ _ _ E1).
  replace (start + Z.of_nat k + 1) with (start + 1 + Z.of_nat k) in C1 by lia.
  set (lb := start + 1 + Z.of_nat k) in *.
  destruct (IH (S k) s1 _ _ _ _ C1 Hd Hs Ha) as (s2 & E2 & C2); [lia| |done|done|done|].
  { intros j b' Hj. rewrite Nat.add_succ_l, <- Nat.add_succ_r. by apply Hb. }
  exists s2. split; [done|].
  assert (map (fset V lb (V b)) bs = map V bs) as Em.
  { apply map_ext_in. intros x Hx%list_elem_of_In. apply fset_ne. rewrite Forall_forall in Hbs.
    destruct (Hbs x Hx) as [[_ Ho] _]. change LOGBLOCKS with 30 in Ho. lia. }
  rewrite Em in C2. replace (start + 1 + Z.of_nat (S k)) with (lb + 1) in C2 by lia.
  subst W. cbn [map log_writes log_view]. by rewrite apply_w_app, apply_w_wr, app_assoc.
Qed.

(** ** write_head *)
Definition put_block_step (i k : nat) : KM unit :=
  v ← lh_block k;
  upd_buf i (λ b, with_b_data (putb 4 (4 + 4 * k) v (b_data b)) b).

Lemma with_b_data_eq d bf : b_data bf = d → ∀ f, with_b_data (f (b_data bf)) bf = with_b_data (f d) bf.
Proof. by intros ->. Qed.

Lemma put_blocks_loop s0 i b : ∀ bs k s img tr V R,
  cs s0 s [(i, b)] img tr V R → (k + length bs <= Z.to_nat LOGBLOCKS)%nat →
  (∀ j x, bs !! j = Some x → l_block (k_log s0) !! (k + j)%nat = Some x) →
  ∃ s', for_each (seq k (length bs)) (put_block_step i) s = Ok tt s' ∧
    cs s0 s' [(i, b)] img tr (fset V b (put_blocks k bs (V b))) R.
Proof.
  induction bs as [|x bs IH]; intros k s img tr V R C Hk Hb.
  { exists s. split; [done|]. eapply cs_ext; [|done|exact C]. intros y. cbn. unfold fset. by case_decide; subst. }
  cbn [length seq for_each put_blocks] in *. change (Z.to_nat LOGBLOCKS) with 30%nat in *.
  pose proof (Hb 0%nat x eq_refl) as Hx. rewrite Nat.add_0_r in Hx.
  destruct (cs_buf _ _ _ _ _ _ _ i b C) as (_ & _ & _ & _ & _ & _ & _ & _ & Hlen & _); [set_solver|].
  change (Z.to_nat BSIZE) with 1024%nat in Hlen.
  destruct (cs_upd _ _ _ _ _ _ _ i b (λ q, with_b_data (putb 4 (4 + 4 * k) x (b_data q)) q)
              (putb 4 (4 + 4 * k) x (V b)) C) as (s1 & E1 & C1);
    [set_solver|rewrite length_putb; [done|lia]|by intros bf ->|].
  assert (put_block_step i k s = Ok tt s1) as Ep.
  { unfold put_block_step. rewrite (lh_block_ok s k x); [done|].
    by rewrite (frame_log s0 s (cs_frame _ _ _ _ _ _ _ C)). }
  rewrite (bind_Ok _ _ _ _ _ Ep).
  destruct (IH (S k) s1 _ _ _ _ C1) as (s2 & E2 & C2); [lia| |].
  { intros j y Hj. rewrite Nat.add_succ_l, <- Nat.add_succ_r. by apply Hb. }
  exists s2. split; [done|]. eapply cs_ext; [|done|exact C2]. intros y. rewrite fset_eq.
  unfold fset. by case_decide.
Qed.

Lemma write_head_ok s0 s img tr V R start bs :
  cs s0 s [] img tr V R → log_cfg (k_log s0) start bs → area start →
  (length bs <= Z.to_nat LOGBLOCKS)%nat → R start = 0 → roomy R →
  let h := mk_header bs (V start) in
  ∃ s', write_head s = Ok tt s' ∧
    cs s0 s' [] (wr_blk img start h) (tr ++ wr_trace start h) (fset V start h) R.
Proof.
  intros C [L1 L2 L3 L4 L5] Ha Hn R0 Hroom h. change LOGBLOCKS with 30 in *.
  unfold write_head, get_log.
  rewrite bind_gets, (frame_log s0 s (cs_frame _ _ _ _ _ _ _ C)), L1, L2, L3.
  assert (in_range start) as Hst by (apply Ha; change LOGBLOCKS with 30; lia). rewrite (u32_blk start Hst), Nat2Z.id.
  destruct (cs_bread _ _ _ _ _ _ _ start C) as (i & s1 & E1 & _ & C1); [apply Hst|set_solver|lia|by right|].
  rewrite (bind_Ok _ _ _ _ _ E1).
  destruct (cs_buf _ _ _ _ _ _ _ i start C1) as (_ & _ & _ & _ & _ & _ & _ & _ & Hlen & _); [set_solver|].
  change (Z.to_nat BSIZE) with 1024%nat in Hlen.
  destruct (cs_upd _ _ _ _ _ _ _ i start (λ q, with_b_data (putb 4 0 (Z.of_nat (length bs)) (b_data q)) q)
              (putb 4 0 (Z.of_nat (length bs)) (V start)) C1) as (s2 & E2 & C2);
    [set_solver|rewrite length_putb; [done|lia]|by intros bf ->|].
  rewrite (bind_Ok _ _ _ _ _ E2).
  destruct (put_blocks_loop s0 i start bs 0 s2 _ _ _ _ C2) as (s3 & E3 & C3); [change LOGBLOCKS with 30; lia|done|].
  rewrite (bind_Ok _ _ _ _ _ E3). rewrite fset_eq in C3.
  destruct (cs_bwrite _ _ _ _ _ _ _ i start C3) as (s4 & E4 & C4); [set_solver|].
  rewrite (bind_Ok _ _ _ _ _ E4). rewrite fset_eq in C4. fold (mk_header bs (V start)) in C4. fold h in C4.
  destruct (cs_brelse _ _ _ _ _ _ _ i start C4) as (s5 & E5 & C5); [set_solver| |].
  { intros _. by rewrite fset_eq, blk_wr, decide_True. }
  exists s5. split; [done|]. rewrite filter_cons_False in C5 by (cbn; set_solver).
  eapply cs_ext; [| |exact C5]; intros x; unfold fset; repeat case_decide; subst; lia || done.
Qed.

(** ** install_trans *)
Definition install_core (recovering : bool) (tail : nat) : KM unit :=
  l ← get_log;
  lbuf ← bread (l_dev l) (u32 (l_start l + Z.of_nat tail + 1));
  dst ← lh_block tail;
  dbuf ← bread (l_dev l) (u32 dst);
  lb ← get_buf lbuf;
  upd_buf dbuf (with_b_data (b_data lb));;
  bwrite dbuf;;
  when (negb recovering) (bunpin dbuf);;
  brelse lbuf;;
  brelse dbuf.

Definition pins (recovering : bool) : Z := if recovering then 0 else 1.

Lemma maybe_unpin (rec : bool) s0 s H img tr V R i b :
  cs s0 s H img tr V R → (i, b) ∈ H → R b = pins rec + 1 →
  ∃ s', when (negb rec) (bunpin i) s = Ok tt s' ∧ cs s0 s' H img tr V (fset R b 1).
Proof.
  intros C Hin HR. destruct rec; cbn [negb when pins] in *.
  - exists s. split; [done|]. eapply cs_ext; [done| |exact C]. intros x. unfold fset. case_decide; subst; lia.
  - destruct (cs_bunpin _ _ _ _ _ _ _ i b C Hin) as (s' & E & C'); [lia|]. exists s'. split; [done|].
    by rewrite HR in C'.
Qed.

Lemma install_core_ok (rec : bool) s0 s img tr V R start tail dst :
  cs s0 s [] img tr V R → l_dev (k_log s0) = ROOTDEV → l_start (k_log s0) = start →
  l_block (k_log s0) !! tail = Some dst →
  let lb := start + Z.of_nat tail + 1 in
  in_range lb → in_range dst → lb ≠ dst → R lb = 0 → V lb = blk img lb → R dst = pins rec →
  (∃ L, (∀ x, 0 < R x → x ∈ L) ∧ (length L + 1 < NBUF)%nat) ∨ rec = false ∧ roomy R →
  ∃ s', install_core rec tail s = Ok tt s' ∧
    cs s0 s' [] (wr_blk img dst (V lb)) (tr ++ wr_trace dst (V lb)) (fset V dst (V lb)) (fset R dst 0).
Proof.
  intros C Hdev Hst Hb lb Hlb Hdst Hne Rl Vl Rd Hroom. unfold install_core, get_log.
  rewrite bind_gets, (frame_log s0 s (cs_frame _ _ _ _ _ _ _ C)), Hdev, Hst.
  fold lb. rewrite (u32_blk lb Hlb).
  destruct (cs_bread _ _ _ _ _ _ _ lb C) as (i & s1 & E1 & _ & C1); [apply Hlb|set_solver|lia| |].
  { right. destruct Hroom as [(L & ? & ?)|[_ ?]]; [|done]. exists L. split; [done|lia]. }
  rewrite (bind_Ok _ _ _ _ _ E1), Rl in *.
  rewrite (lh_block_ok _ tail dst) by (by rewrite (frame_log s0 s1 (cs_frame _ _ _ _ _ _ _ C1))).
  rewrite (u32_blk dst Hdst).
  assert (fset R lb (0 + 1) dst = pins rec) as Rd1 by (by rewrite fset_ne).
  destruct (cs_bread _ _ _ _ _ _ _ dst C1) as (j & s2 & E2 & Hji & C2); cbn [fmap list_fmap fst snd] in *;
    [apply Hdst|set_solver|rewrite Rd1; destruct rec; cbn; lia| |].
  { rewrite Rd1. destruct Hroom as [(L & HL & ?)|[-> ?]]; [right|left; cbn; lia]. exists (lb :: L). split; [|cbn; lia].
    intros x. unfold fset. case_decide; [set_solver|]. intros. apply elem_of_cons. right. by apply HL. }
  rewrite (bind_Ok _ _ _ _ _ E2). rewrite Rd1 in C2.
  destruct (cs_get _ _ _ _ _ _ _ i lb C2) as (fb & Eg & Ed & _); [set_solver|].
  rewrite (bind_Ok _ _ _ _ _ Eg), Ed.
  destruct (cs_buf _ _ _ _ _ _ _ i lb C2) as (_ & _ & _ & _ & _ & _ & _ & _ & Hlen & _); [set_solver|].
  destruct (cs_upd _ _ _ _ _ _ _ j dst (with_b_data (V lb)) (V lb) C2) as (s3 & E3 & C3); [set_solver|done|done|].
  rewrite (bind_Ok _ _ _ _ _ E3).
  destruct (cs_bwrite _ _ _ _ _ _ _ j dst C3) as (s4 & E4 & C4); [set_solver|].
  rewrite (bind_Ok _ _ _ _ _ E4). rewrite fset_eq in C4.
  destruct (maybe_unpin rec _ _ _ _ _ _ _ j dst C4) as (s5 & E5 & C5); [set_solver|by rewrite fset_eq|].
  rewrite (bind_Ok _ _ _ _ _ E5).
  destruct (cs_brelse _ _ _ _ _ _ _ i lb C5) as (s6 & E6 & C6); [set_solver| |].
  { intros _. rewrite fset_ne by done. rewrite blk_wr. by rewrite decide_False. }
  rewrite (bind_Ok _ _ _ _ _ E6).
  rewrite filter_cons_True, filter_cons_False in C6 by (cbn; set_solver).
  destruct (cs_brelse _ _ _ _ _ _ _ j dst C6) as (s7 & E7 & C7); [set_solver| |].
  { intros _. by rewrite fset_eq, blk_wr, decide_True. }
  exists s7. split; [done|]. rewrite filter_cons_False in C7 by (cbn; set_solver).
  eapply cs_ext; [done| |exact C7]. intros x. unfold fset. repeat case_decide; subst; lia || done.
Qed.

Lemma for_each_ext {A} (l : list A) (f g : A → KM unit) s :
  (∀ x s, f x s = g x s) → for_each l f s = for_each l g s.
Proof.
  intros H. revert s. induction l as [|x l IH]; intros s; [done|]. cbn [for_each].
  unfold mbind, M_bind. rewrite H. destruct (g x s); auto.
Qed.

Lemma roomy_mono R R' : (∀ x, 0 < R' x → 0 < R x) → roomy R → roomy R'.
Proof. intros H (L & HL & ?). exists L. split; [|done]. intros x Hx. by apply HL, H. Qed.

Lemma roomy_0 : roomy (λ _, 0).
Proof. exists []. split; [intros x; lia|by apply Nat.ltb_lt]. Qed.

Lemma install_loop_commit s0 start : ∀ bs k s img tr V R,
  cs s0 s [] img tr V R → l_dev (k_log s0) = ROOTDEV → l_start (k_log s0) = start →
  area start → (k + length bs <= Z.to_nat LOGBLOCKS)%nat → NoDup bs →
  (∀ j b, bs !! j = Some b → l_block (k_log s0) !! (k + j)%nat = Some b ∧
     V (start + 1 + Z.of_nat (k + j)) = V b) →
  Forall (λ b, home start b ∧ R b = 1) bs →
  (∀ x, start <= x <= start + LOGBLOCKS → R x = 0 ∧ V x = blk img x) → roomy R →
  let W := home_writes bs (map V bs) in
  ∃ s', for_each (seq k (length bs)) (install_core false) s = Ok tt s' ∧
    cs s0 s' [] (apply_w img W) (tr ++ W) V (λ x, if decide (x ∈ bs) then 0 else R x).
Proof.
  induction bs as [|b bs IH]; intros k s img tr V R C Hd Hs Ha Hk Hnd Hb Hbs HR0 Hroom W.
  { exists s. split; [done|]. subst W. cbn [map home_writes apply_w foldl]. rewrite app_nil_r.
    eapply cs_ext; [done| |exact C]. intros x. by rewrite decide_False by set_solver. }
  apply Forall_cons in Hbs as [[[Hbr Hbo] Rb] Hbs]. apply NoDup_cons in Hnd as [Hnb Hnd].
  cbn [length seq for_each] in *. unfold area, home in *. change LOGBLOCKS with 30 in *.
  destruct (Hb 0%nat b eq_refl) as [Hb0 HV0]. rewrite Nat.add_0_r in Hb0, HV0.
  replace (start + 1 + Z.of_nat k) with (start + Z.of_nat k + 1) in HV0 by lia.
  destruct (install_core_ok false s0 s img tr V R start k b C Hd Hs Hb0) as (s1 & E1 & C1);
    [apply Ha; lia|done|lia|apply HR0; lia|apply HR0; lia|done|by right|].
  rewrite (bind_Ok _ _ _ _ _ E1). rewrite HV0 in C1.
  assert (∀ x, fset V b (V b) x = V x) as HVf by (intros x; unfold fset; by case_decide; subst).
  apply (cs_ext _ _ _ _ _ _ V _ (fset R b 0)) in C1; [|done|done].
  destruct (IH (S k) s1 _ _ _ _ C1 Hd Hs Ha) as (s2 & E2 & C2); [lia|done| | | | |].
  { intros j b' Hj. rewrite Nat.add_succ_l, <- Nat.add_succ_r. by apply Hb. }
  { rewrite Forall_forall in Hbs |- *. intros x Hx. rewrite fset_ne by set_solver. by apply Hbs. }
  { intros x Hx. destruct (HR0 x Hx). rewrite fset_ne, blk_wr, decide_False by lia. done. }
  { eapply roomy_mono; [|done]. intros x. unfold fset. case_decide; [lia|done]. }
  exists s2. split; [done|]. subst W. cbn [map home_writes].
  rewrite apply_w_app, apply_w_wr, app_assoc. eapply cs_ext; [done| |exact C2].
  intros x. cbn beta. unfold fset. destruct (decide (x ∈ b :: bs)) as [Hx|Hx]; cbn beta iota; repeat case_decide; set_solver.
Qed.

(** ** commit *)
Lemma cs_log L s0 s H img tr V R :
  cs s0 s H img tr V R → cs (with_k_log L s0) (with_k_log L s) H img tr V R.
Proof.
  intros [[l [B1 B2 B3 B4 B5 B6 B7 B8]] C2 C3 C4 C5 C6 [C7 C8]]. split; try done.
  - exists l. split; try done. by apply (calm_same s).
  - split; [done|]. rewrite C8 at 1. by destruct s0.
Qed.

Lemma cs_clean s0 s H img tr V R x :
  cs s0 s H img tr V R → R x = 0 → V x = blk img x.
Proof.
  intros [[l Hb] _ E _ HV HR _] Hx. rewrite <- HV. rewrite <- HR in Hx. unfold cview, refs in *.
  destruct (cached (k_bufs s) x) as [i|] eqn:Ec; cbn [mbind option_bind] in *; [|by rewrite E].
  destruct (k_bufs s !! i) as [bf|] eqn:Eb; [|by rewrite E].
  unfold cached in Ec. apply List.find_some in Ec as [Hi K]. rewrite Eb in K.
  apply has_key_true in K as [K1 K2]. apply in_seq in Hi.
  destruct (bio_bufs _ _ _ Hb i bf) as [_ _ _ _ B5]; [lia|done|]. rewrite B5, K2, E; done.
Qed.

Lemma install_trans_false s :
  install_trans false s = for_each (seq 0 (Z.to_nat (l_n (k_log s)))) (install_core false) s.
Proof. unfold install_trans, log_tails, get_log. rewrite bind_assoc, bind_gets, bind_ret. by apply for_each_ext. Qed.

Lemma write_log_eq s :
  write_log s = for_each (seq 0 (Z.to_nat (l_n (k_log s)))) write_log_step s.
Proof. unfold write_log, log_tails, get_log. by rewrite bind_assoc, bind_gets, bind_ret. Qed.

(** What [log_write] has prepared: the blocks [bs] of the transaction are
    pinned once, nothing else is referenced, and there is a spare buffer. *)
Record txn (start : Z) (bs : list Z) (L : log) (R : Z → Z) : Prop := {
  tx_cfg : log_cfg L start bs;
  tx_area : area start;
  tx_home : Forall (home start) bs;
  tx_nodup : NoDup bs;
  tx_room : (length bs < NBUF)%nat;
  tx_refs : ∀ x, R x = if decide (x ∈ bs) then 1 else 0 }.

Lemma txn_roomy start bs L R : txn start bs L R → roomy R.
Proof.
  intros [? ? ? ? H1 H2]. exists bs. split; [|done]. intros x. rewrite H2. case_decide; [done|lia].
Qed.
Lemma txn_out start bs L R x : txn start bs L R → start <= x <= start + LOGBLOCKS → x ∉ bs.
Proof. intros [? ? H _ _ _] Hx Hin. rewrite Forall_forall in H. destruct (H x Hin) as [_ ?]. lia. Qed.
Lemma txn_area0 start bs L R x : txn start bs L R → start <= x <= start + LOGBLOCKS → R x = 0.
Proof. intros Ht Hx. rewrite (tx_refs _ _ _ _ Ht). apply decide_False. by eapply txn_out. Qed.
Lemma txn_home1 start bs L R : txn start bs L R → Forall (λ b, home start b ∧ R b = 1) bs.
Proof.
  intros [? ? H _ _ HR]. rewrite Forall_forall in *. intros x Hx. split; [by apply H|].
  rewrite HR. by apply decide_True.
Qed.

Lemma txn_small start bs L R : txn start bs L R → (length bs <= 30)%nat.
Proof. intros [_ _ _ _ H _]. change NBUF with 30%nat in H. lia. Qed.
Lemma txn_outside start bs L R b :
  txn start bs L R → b ∈ bs → b < start ∨ start + LOGBLOCKS < b.
Proof. intros [_ _ H _ _ _] Hb. rewrite Forall_forall in H. by destruct (H b Hb). Qed.

(** [commit] with a non-empty log issues exactly [commit_writes], unpins
    every block and leaves what readers see unchanged outside the log. *)
Lemma commit_ok s img tr V R start bs :
  cs s s [] img tr V R → txn start bs (k_log s) R → bs ≠ [] →
  let W := commit_writes start bs (map V bs) (blk img start) in
  ∃ s' V', commit s = Ok tt s' ∧
    cs (with_k_log (with_l_n 0 (k_log s)) s) s' [] (apply_w img W) (tr ++ W) V' (λ _, 0) ∧
    (∀ x, x < start ∨ start + LOGBLOCKS < x → V' x = V x).
Proof.
  intros C Ht Hne W. pose proof Ht as [Hcfg Ha Hh Hnd Hlt HR]. pose proof Hcfg as [L1 L2 L3 L4 L5].
  pose proof (txn_roomy _ _ _ _ Ht) as Hroom. pose proof (txn_home1 _ _ _ _ Ht) as Hh1.
  pose proof (λ x, txn_area0 _ _ _ _ x Ht) as HR0. pose proof (λ x, txn_out _ _ _ _ x Ht) as Hxo.
  pose proof (txn_small _ _ _ _ Ht) as Hl30.
  unfold commit, get_log. rewrite bind_gets, L3.
  assert (0 <? Z.of_nat (length bs) = true) as -> by (apply Z.ltb_lt; destruct bs; cbn; [done|lia]).
  cbn [when].
  destruct (write_log_loop s start bs 0 s img tr V R C L1 L2 Ha) as (s1 & E1 & C1); try done.
  rewrite (bind_Ok _ _ s tt s1) by (rewrite write_log_eq, L3, Nat2Z.id; exact E1).
  rewrite Z.add_0_r in C1. set (ds := map V bs) in *. set (V1 := log_view V (start + 1) ds) in *.
  assert (length ds = length bs) as Hds by (unfold ds; by rewrite length_map).
  destruct (write_head_ok s s1 _ _ _ _ start bs C1 Hcfg Ha) as (s2 & E2 & C2);
    [done|apply HR0; unfold LOGBLOCKS, MAXOPBLOCKS; lia|done|].
  rewrite (bind_Ok _ _ _ _ _ E2).
  assert (V1 start = blk img start) as EV1.
  { unfold V1. rewrite log_view_out by lia. eapply cs_clean; [done|]. apply HR0. unfold LOGBLOCKS, MAXOPBLOCKS; lia. }
  rewrite EV1 in C2. set (h1 := mk_header bs (blk img start)) in *. set (V2 := fset V1 start h1) in *.
  assert (∀ x, x < start ∨ start + LOGBLOCKS < x → V2 x = V x) as HV2.
  { intros x Hx. change LOGBLOCKS with 30 in Hx. unfold V2, V1. rewrite fset_ne by lia. apply log_view_out. lia. }
  assert (map V2 bs = ds) as Em.
  { unfold ds. apply map_ext_in. intros x Hx%list_elem_of_In. by eapply HV2, txn_outside. }
  destruct (install_loop_commit s start bs 0 s2 _ _ _ _ C2 L1 L2 Ha) as (s3 & E3 & C3); try done.
  { intros j b Hj. split; [by apply L5|]. rewrite (HV2 b) by (eapply txn_outside; [done|by eapply list_elem_of_lookup_2]).
    unfold V2, V1. rewrite fset_ne by lia. apply log_view_in. unfold ds. change (0 + j)%nat with j. by rewrite list_lookup_fmap, Hj. }
  { intros x Hx. split; [by apply HR0|]. eapply cs_clean; [exact C2|by apply HR0]. }
  rewrite (bind_Ok _ _ s2 tt s3).
  2:{ rewrite install_trans_false, (frame_log s s2 (cs_frame _ _ _ _ _ _ _ C2)), L3, Nat2Z.id. exact E3. }
  rewrite Em in C3. unfold upd_log. rewrite bind_modify, (frame_log s s3 (cs_frame _ _ _ _ _ _ _ C3)).
  apply (cs_log (with_l_n 0 (k_log s))) in C3.
  destruct (write_head_ok _ _ _ _ _ _ start [] C3) as (s4 & E4 & C4).
  { by split. } { done. } { cbn. lia. }
  { cbn beta. rewrite decide_False; [|apply Hxo]; try apply HR0; unfold LOGBLOCKS, MAXOPBLOCKS; lia. }
  { eapply roomy_mono; [|exact Hroom]. intros x. cbn beta. case_decide; [lia|done]. }
  exists s4. eexists. split; [exact E4|]. split.
  - unfold W, commit_writes. fold h1. subst V2. rewrite fset_eq in C4.
    rewrite !apply_w_app, !apply_w_wr, !app_assoc.
    eapply cs_ext; [done| |exact C4]. intros x. cbn beta. rewrite HR. by case_decide.
  - intros x Hx. rewrite fset_ne; [by apply HV2|]. change LOGBLOCKS with 30 in Hx. lia.
Qed.

(** ** Recovery *)
Lemma set_blocks_loop (g : nat → Z) m : ∀ k s,
  (k + m <= length (l_block (k_log s)))%nat →
  ∃ bl, for_each (seq k m) (λ k, set_lh_block k (g k)) s
          = Ok tt (with_k_log (with_l_block bl (k_log s)) s) ∧
        length bl = length (l_block (k_log s)) ∧
        (∀ j, (k <= j < k + m)%nat → bl !! j = Some (g j)) ∧
        (∀ j, (j < k)%nat → bl !! j = l_block (k_log s) !! j).
Proof.
  induction m as [|m IH]; intros k s Hk.
  { exists (l_block (k_log s)). split_and!; [|done|lia|done]. cbn. f_equal.
    destruct s as [? ? ? ? ? ? ? ? ? ? ? ? ? ? ? ? ? ? ? ? ? ? ? ? ?]; cbn. by repeat f_equal; destruct k_log. }
  cbn [seq for_each]. assert (set_lh_block k (g k) s = Ok tt
    (with_k_log (with_l_block (<[k:=g k]> (l_block (k_log s))) (k_log s)) s)) as E0.
  { unfold set_lh_block, get_log, upd_log. rewrite bind_gets.
    by rewrite (proj2 (Nat.ltb_lt _ _)) by lia. }
  rewrite (bind_Ok _ _ _ _ _ E0).
  set (s1 := with_k_log (with_l_block (<[k:=g k]> (l_block (k_log s))) (k_log s)) s).
  destruct (IH (S k) s1) as (bl & E & Hl & H1 & H2); [cbn; rewrite length_insert; lia|].
  cbn in Hl. rewrite length_insert in Hl. exists bl. split_and!; [exact E|done| |].
  - intros j Hj. destruct (decide (j = k)) as [->|]; [|apply H1; lia].
    rewrite H2 by lia. cbn. apply list_lookup_insert_eq. lia.
  - intros j Hj. rewrite H2 by lia. cbn. by apply list_lookup_insert_ne; lia.
Qed.

Definition hdr_ok (h : list Z) : Prop := 0 <= lh_n h <= LOGBLOCKS.

Lemma read_head_ok s img tr start :
  cs s s [] img tr (blk img) (λ _, 0) → l_dev (k_log s) = ROOTDEV → l_start (k_log s) = start →
  length (l_block (k_log s)) = Z.to_nat LOGBLOCKS → in_range start → hdr_ok (blk img start) →
  ∃ s' L, read_head s = Ok tt s' ∧ log_cfg L start (hdr_blocks (blk img start)) ∧
    l_outstanding L = l_outstanding (k_log s) ∧ l_committing L = l_committing (k_log s) ∧
    cs (with_k_log L s) s' [] img tr (blk img) (λ _, 0).
Proof.
  intros C Hd Hs Hlen Hst Hh. unfold read_head, get_log. rewrite bind_gets, Hd, Hs, (u32_blk start Hst).
  destruct (cs_bread _ _ _ _ _ _ _ start C) as (i & s1 & E1 & _ & C1);
    [apply Hst|set_solver|lia|right; apply roomy_0|].
  rewrite (bind_Ok _ _ _ _ _ E1).
  destruct (cs_get _ _ _ _ _ _ _ i start C1) as (fb & Eg & Ed & _); [set_solver|].
  rewrite (bind_Ok _ _ _ _ _ Eg), Ed. set (h := blk img start) in *.
  unfold upd_log. rewrite bind_modify, (frame_log s s1 (cs_frame _ _ _ _ _ _ _ C1)).
  set (L1 := with_l_n (lh_n h) (k_log s)).
  destruct (set_blocks_loop (λ k, lh_blk k h) (Z.to_nat (lh_n h)) 0 (with_k_log L1 s1)) as (bl & E2 & Hl & H1 & _).
  { cbn. rewrite Hlen. unfold hdr_ok in Hh. lia. }
  rewrite (bind_Ok _ _ _ _ _ E2). cbn [k_log with_k_log] in *. change (l_block L1) with (l_block (k_log s)) in Hl.
  set (L2 := with_l_block bl L1) in *.
  apply (cs_log L2) in C1. change (with_k_log L2 (with_k_log L1 s1)) with (with_k_log L2 s1).
  destruct (cs_brelse _ _ _ _ _ _ _ i start C1) as (s3 & E3 & C3); [set_solver|done|].
  exists s3, L2. split_and!; [done| |done|done|].
  - split; cbn; try done; [|congruence|].
    + unfold hdr_blocks. rewrite length_map, length_seq. unfold hdr_ok in Hh. lia.
    + intros k b. unfold hdr_blocks. rewrite list_lookup_fmap. intros (j & Hj & ->)%fmap_Some.
      apply lookup_seq in Hj as [-> Hj]. rewrite Nat.add_0_l. apply H1. lia.
  - rewrite filter_cons_False in C3 by (cbn; set_solver). eapply cs_ext; [done| |exact C3].
    intros x. unfold fset. by repeat case_decide.
Qed.

Lemma cs_emit out s0 s H img tr V R :
  cs s0 s H img tr V R → cs (emit out s0) (emit out s) H img tr V R.
Proof.
  intros [[l [B1 B2 B3 B4 B5 B6 B7 B8]] C2 C3 C4 C5 C6 [C7 C8]]. split; try done.
  - exists l. split; try done. by apply (calm_same s).
  - split; [done|]. unfold emit. rewrite C8. by destruct s0.
Qed.
Lemma frame_tx s s' : bio_frame s s' → tx_ok s → tx_ok s'.
Proof. intros [_ ->] [? ? ?]. by split. Qed.

Definition install_rec (tail : nat) : KM unit :=
  (dst ← lh_block tail;
   printf (str "recovering tail %d dst %d
") [AInt (Z.of_nat tail); AInt dst];; mret tt);;
  install_core true tail.

Lemma install_rec_print s0 s img tr V R tail dst :
  cs s0 s [] img tr V R → tx_ok s0 → l_block (k_log s0) !! tail = Some dst →
  ∃ out, install_rec tail s = install_core true tail (emit out s).
Proof.
  intros C Htx Hb. pose proof (cs_frame _ _ _ _ _ _ _ C) as Hf.
  destruct (cs_bio _ _ _ _ _ _ _ C) as [l Hbio].
  eexists. unfold install_rec. rewrite bind_assoc, (lh_block_ok s tail dst) by (by rewrite (frame_log s0 s)).
  erewrite bind_assoc, bind_Ok; [|apply printf_ok]; [by rewrite bind_ret|apply (bio_calm _ _ _ Hbio)|by eapply frame_tx|].
  by apply (calm_locks s (bio_calm _ _ _ Hbio)).
Qed.

Lemma install_loop_rec start : ∀ bs k s0 s img tr,
  cs s0 s [] img tr (blk img) (λ _, 0) → tx_ok s0 →
  l_dev (k_log s0) = ROOTDEV → l_start (k_log s0) = start →
  area start → (k + length bs <= Z.to_nat LOGBLOCKS)%nat →
  (∀ j b, bs !! j = Some b → l_block (k_log s0) !! (k + j)%nat = Some b) →
  Forall (home start) bs →
  let W := home_writes bs (map (λ j, blk img (start + 1 + Z.of_nat j)) (seq k (length bs))) in
  ∃ s' out, for_each (seq k (length bs)) install_rec s = Ok tt s' ∧
    cs (emit out s0) s' [] (apply_w img W) (tr ++ W) (blk (apply_w img W)) (λ _, 0).
Proof.
  induction bs as [|b bs IH]; intros k s0 s img tr C Htx Hd Hs Ha Hk Hb Hbs W.
  { exists s, []. subst W. cbn [length map home_writes apply_w foldl seq]. rewrite app_nil_r, emit_nil. done. }
  apply Forall_cons in Hbs as [[Hbr Hbo] Hbs].
  pose proof (Hb 0%nat b eq_refl) as Hb0. rewrite Nat.add_0_r in Hb0.
  destruct (install_rec_print _ _ _ _ _ _ k b C Htx Hb0) as [o1 Eo].
  apply (cs_emit o1) in C. cbn [length seq for_each] in *.
  unfold area, home in *. change LOGBLOCKS with 30 in *.
  destruct (install_core_ok true _ _ _ _ _ _ start k b C Hd Hs Hb0) as (s1 & E1 & C1);
    [apply Ha; lia|done|lia|done|done|done|left; exists []; split; [intros x; lia|by apply Nat.ltb_lt]|].
  rewrite (bind_Ok _ _ s tt s1) by (by rewrite Eo).
  set (d := blk img (start + Z.of_nat k + 1)) in *.
  apply (cs_ext _ _ _ _ _ _ (blk (wr_blk img b d)) _ (λ _, 0)) in C1.
  2:{ intros x. rewrite blk_wr. unfold fset. repeat case_decide; congruence. } 2:{ intros x. unfold fset. by case_decide. }
  destruct (IH (S k) _ s1 _ _ C1) as (s2 & o2 & E2 & C2); try done; [by apply emit_tx_ok|lia| |].
  { intros j b' Hj. rewrite Nat.add_succ_l, <- Nat.add_succ_r. by apply Hb. }
  assert (map (λ j, blk (wr_blk img b d) (start + 1 + Z.of_nat j)) (seq (S k) (length bs)) =
          map (λ j, blk img (start + 1 + Z.of_nat j)) (seq (S k) (length bs))) as Em.
  { apply map_ext_in. intros j Hj%in_seq. rewrite blk_wr, decide_False; [done|]. lia. }
  rewrite Em, emit_app in C2. exists s2, (o1 ++ o2). split; [done|].
  subst W. cbn [length seq map home_writes]. replace (start + 1 + Z.of_nat k) with (start + Z.of_nat k + 1) by lia.
  fold d. by rewrite apply_w_app, apply_w_wr, app_assoc.
Qed.

Lemma install_trans_true s :
  install_trans true s = for_each (seq 0 (Z.to_nat (l_n (k_log s)))) install_rec s.
Proof. unfold install_trans, log_tails, get_log. rewrite bind_assoc, bind_gets, bind_ret. done. Qed.

(** What recovery needs of the image: the header names blocks outside the log. *)
Definition log_img_ok (start : Z) (img : gmap Z (list Z)) : Prop :=
  hdr_ok (blk img start) ∧ Forall (home start) (hdr_blocks (blk img start)).

(** [recover_from_log] returns, leaves [recover_img] on the disk, and an
    empty log. *)
Lemma recover_ok s img tr start :
  cs s s [] img tr (blk img) (λ _, 0) → tx_ok s → l_dev (k_log s) = ROOTDEV → l_start (k_log s) = start →
  length (l_block (k_log s)) = Z.to_nat LOGBLOCKS → area start → log_img_ok start img →
  ∃ s' s1 tr' V, recover_from_log s = Ok tt s' ∧ cs s1 s' [] (recover_img start img) tr' V (λ _, 0) ∧
    log_cfg (k_log s1) start [] ∧ l_outstanding (k_log s1) = l_outstanding (k_log s) ∧
    l_committing (k_log s1) = l_committing (k_log s) ∧ k_slocks s1 = k_slocks s.
Proof.
  intros C Htx Hd Hs Hlen Ha [Hh Hhome]. assert (in_range start) as Hst by (apply Ha; unfold LOGBLOCKS, MAXOPBLOCKS; lia).
  unfold recover_from_log.
  destruct (read_head_ok s img tr start C Hd Hs Hlen Hst Hh) as (s1 & L & E1 & [L1 L2 L3 L4 L5] & Ho & Hc & C1).
  rewrite (bind_Ok _ _ _ _ _ E1). set (bs := hdr_blocks (blk img start)) in *.
  destruct (install_loop_rec start bs 0 _ s1 _ _ C1) as (s2 & out & E2 & C2); try done; [by destruct Htx| |].
  { unfold bs, hdr_blocks. rewrite length_map, length_seq. unfold hdr_ok in Hh. lia. }
  rewrite (bind_Ok _ _ s1 tt s2).
  2:{ rewrite install_trans_true, (frame_log _ s1 (cs_frame _ _ _ _ _ _ _ C1)). cbn [k_log with_k_log].
      by rewrite L3, Nat2Z.id. }
  unfold upd_log. rewrite bind_modify, (frame_log _ s2 (cs_frame _ _ _ _ _ _ _ C2)). cbn [k_log with_k_log emit with_k_uart].
  apply (cs_log (with_l_n 0 L)) in C2.
  destruct (write_head_ok _ _ _ _ _ _ start [] C2) as (s3 & E3 & C3); try done; [cbn; lia|apply roomy_0|].
  exists s3. do 3 eexists. split_and!; [exact E3| | | | |].
  - unfold recover_img. fold bs. rewrite blk_home_out' in C3; [exact C3|].
    intros Hin. rewrite Forall_forall in Hhome. destruct (Hhome _ Hin) as [_ ?]. change LOGBLOCKS with 30 in *. lia.
  - by split.
  - done.
  - done.
  - done.
Qed.
End logspec.
