(* ===== verification/LogThms.v ===== *)
(** * The write-ahead log: crash safety, absorption, admission

    The properties of log.c, from [commit_ok] and [recover_ok] (LogSpec), the
    analysis of crash points (LogImg), and the cache contract (Cache). *)

From S2P Require Import Prelude Machine State CString Spinlock Printf Emu Kalloc Vm VmSpec VmUser VmCopy Sched Bytes Bio BioSpec Cache Log LogImg LogSpec.

Section logthms.
Context `{P : Platform} {HP : PlatformOk P}.

(** ** initlog *)
Lemma cs_self s0 s H img tr V R : cs s0 s H img tr V R → cs s s H img tr V R.
Proof. intros [C1 C2 C3 C4 C5 C6 _]. split; try done. apply bio_frame_refl. Qed.

Lemma cs_initlock lk name s H img tr V R :
  cs s s H img tr V R → ∃ s', initlock lk name s = Ok tt s' ∧ cs s' s' H img tr V R ∧
    k_log s' = k_log s ∧ (tx_ok s → tx_ok s').
Proof.
  intros [[l [B1 B2 B3 B4 B5 B6 B7 B8]] C2 C3 C4 C5 C6 _]. eexists. split; [done|].
  split_and!; [|done|by intros [? ? ?]]. split; try done.
  exists l. split; try done. destruct B1 as [K1 K2 K3 K4]. split; try done.
  - destruct K1. by split.
  - intros lk' Hlk. destruct (decide (lk = lk')) as [<-|].
    + exists name. cbn. by rewrite lookup_insert_eq.
    + destruct (K2 lk' Hlk) as [nm E]. exists nm. cbn. by rewrite lookup_insert_ne.
Qed.

(** A kernel that has booted on the image [img], before [initlog]. *)
Record booted (r : kstate) (img : gmap Z (list Z)) : Prop := {
  bt_cs : ∃ tr, cs r r [] img tr (blk img) (λ _, 0);
  bt_tx : tx_ok r;
  bt_len : length (l_block (k_log r)) = Z.to_nat LOGBLOCKS }.

Lemma initlog_ok r img sb :
  booted r img → area (sb_logstart sb) → log_img_ok (sb_logstart sb) img →
  ∃ r' s1 tr V, initlog ROOTDEV sb r = Ok tt r' ∧
    cs s1 r' [] (recover_img (sb_logstart sb) img) tr V (λ _, 0) ∧ log_cfg (k_log s1) (sb_logstart sb) [].
Proof.
  intros [[tr C] Htx Hlen] Ha Hi. unfold initlog.
  change (BSIZE <=? 4 + 4 * LOGBLOCKS) with false. cbn match.
  destruct (cs_initlock LkLog "log" r _ _ _ _ _ C) as (s1 & E1 & C1 & EL & Htx1).
  rewrite (bind_Ok _ _ _ _ _ E1). unfold upd_log. rewrite !bind_modify. cbn [k_log with_k_log]. rewrite EL.
  set (L := with_l_dev ROOTDEV (with_l_start (sb_logstart sb) (k_log r))).
  change (with_k_log L (with_k_log _ s1)) with (with_k_log L s1).
  apply (cs_log L) in C1.
  destruct (recover_ok _ _ _ (sb_logstart sb) C1) as (s' & s2 & tr' & V & E2 & C2 & Hc & _); try done.
  - specialize (Htx1 Htx). by destruct Htx1.
  - by exists s', s2, tr', V.
Qed.

(** ** Crash safety *)
Lemma commit_writes_len start bs ds hdr :
  length hdr = Z.to_nat BSIZE → (length bs <= 30)%nat →
  Forall (λ d, length d = Z.to_nat BSIZE) ds →
  Forall (λ p : Z * list Z, length p.2 = SECTOR_SIZE) (commit_writes start bs ds hdr).
Proof.
  intros Hh Hb Hd. change (Z.to_nat BSIZE) with 1024%nat in *. change SECTOR_SIZE with 512%nat.
  assert (∀ b d, length d = 1024%nat →
    Forall (λ p : Z * list Z, length p.2 = 512%nat) (wr_trace b d)) as Hw.
  { intros b d E. repeat constructor; cbn; rewrite ?length_take, ?length_drop; change SECTOR_SIZE with 512%nat; lia. }
  assert (length (mk_header bs hdr) = 1024%nat) as E1 by (rewrite length_mk_header; lia).
  unfold commit_writes. rewrite !Forall_app. split_and!.
  - generalize (start + 1). induction Hd as [|d ds Ed Hd IH]; intros b; cbn [log_writes]; [done|].
    apply Forall_app. split; [by apply Hw|apply IH].
  - by apply Hw.
  - clear -Hd Hw. revert bs. induction Hd as [|d ds Ed Hd IH]; intros [|b bs]; cbn [home_writes]; try done.
    apply Forall_app. split; [by apply Hw|apply IH].
  - apply Hw. rewrite length_mk_header; [done|cbn; lia].
Qed.

Lemma cs_img_ok s0 s H img tr V R : cs s0 s H img tr V R → img_ok img.
Proof. intros [[l Hb] _ <- _ _ _ _]. apply (bio_disk _ _ _ Hb). Qed.

Lemma cs_len s0 s img tr V R b : cs s0 s [] img tr V R → length (V b) = Z.to_nat BSIZE.
Proof.
  intros C. pose proof (cs_img_ok _ _ _ _ _ _ _ C) as Hi. destruct C as [[l Hb] _ E _ HV _ _].
  rewrite <- HV. unfold cview. destruct (cached (k_bufs s) b) as [i|] eqn:Ec; cbn [mbind option_bind].
  2:{ rewrite E. by apply length_blk. }
  destruct (k_bufs s !! i) as [bf|] eqn:Eb; [|rewrite E; by apply length_blk].
  unfold cached in Ec. apply List.find_some in Ec as [Hin _]. apply in_seq in Hin.
  apply (bio_bufs _ _ _ Hb i bf); [lia|done].
Qed.

Lemma hdr_blocks_n h : 0 < lh_n h → lh_n h = Z.of_nat (length (hdr_blocks h)).
Proof. intros. unfold hdr_blocks. rewrite length_map, length_seq. lia. Qed.

Lemma hdr_n_of_blocks h bs : bs ≠ [] → hdr_blocks h = bs → lh_n h = Z.of_nat (length bs).
Proof.
  intros Hne <-. apply hdr_blocks_n. unfold hdr_blocks in Hne.
  destruct (Z.to_nat (lh_n h)) eqn:E; [done|lia].
Qed.

(** The images recovery can meet name only the transaction's blocks. *)
Lemma old_img_ok start img0 m : old_img start img0 m → log_img_ok start m.
Proof. intros (E1 & E2 & _). unfold log_img_ok, hdr_ok. rewrite E1, E2. split; [done|constructor]. Qed.
Lemma new_img_ok start bs ds img0 m :
  bs ≠ [] → (length bs <= 30)%nat → Forall (home start) bs → new_img start bs ds img0 m → log_img_ok start m.
Proof.
  intros Hne Hl Hh [(E1 & E2 & _)|(E1 & _ & _)]; unfold log_img_ok, hdr_ok; rewrite E1.
  - rewrite E2. split; [done|constructor].
  - rewrite (hdr_n_of_blocks _ bs) by done. split; [|done]. change LOGBLOCKS with 30. lia.
Qed.

Section committing.
Context (s : kstate) (start : Z) (bs : list Z) (img : gmap Z (list Z)) (tr : list (Z * list Z))
  (V : Z → list Z) (R : Z → Z).
Context (C : cs s s [] img tr V R) (Ht : txn start bs (k_log s) R).
Let ds := map V bs.
Let W := commit_writes start bs ds (blk img start).

Lemma commit_datas : length ds = length bs ∧ Forall (λ d, length d = Z.to_nat BSIZE) ds.
Proof.
  split; [apply length_map|]. apply Forall_fmap, Forall_true. intros b. by apply (cs_len s s img tr V R).
Qed.

(** The home locations after the installation. *)
Lemma commit_home b :
  b < start ∨ start + LOGBLOCKS < b → blk (apply_w img (home_writes bs ds)) b = V b.
Proof.
  intros Hb. pose proof Ht as [_ _ _ Hnd _ HR]. destruct (decide (b ∈ bs)) as [Hin|Hni].
  - apply list_elem_of_lookup in Hin as [j Hj]. apply (blk_home_in bs ds _ j b); [done|done|].
    unfold ds. by rewrite list_lookup_fmap, Hj.
  - rewrite blk_home_out' by done. symmetry. eapply cs_clean; [exact C|]. rewrite HR. by apply decide_False.
Qed.

(** What recovery makes of the image after [k] writes. *)
Lemma crash_recovers k : bs ≠ [] → lh_n (blk img start) = 0 →
  let m := apply_w img (take k W) in
  log_img_ok start m ∧ lh_n (blk (recover_img start m) start) = 0 ∧
  ∀ b, b < start ∨ start + LOGBLOCKS < b →
    blk (recover_img start m) b = if (k <=? commit_point start ds)%nat then blk img b else V b.
Proof.
  intros Hne Hcl m. pose proof Ht as [_ Ha Hh Hnd Hlt HR]. pose proof (txn_small _ _ _ _ Ht) as Hl.
  pose proof (cs_img_ok _ _ _ _ _ _ _ C) as Hi. destruct commit_datas as [Hds Hdl].
  assert (length (blk m start) = 1024%nat) as Hlm.
  { apply length_blk, img_ok_apply; [done|]. apply Forall_take, commit_writes_len; try done. by apply length_blk. }
  assert (lh_n (blk (recover_img start m) start) = 0) as Hz by by apply (recover_clears start bs ds).
  destruct (Nat.leb_spec k (commit_point start ds)) as [Hk|Hk].
  - assert (old_img start img m) as Hm by by apply crash_old.
    split_and!; [by eapply old_img_ok|done|]. intros b Hb. by apply (recover_old start bs ds).
  - assert (new_img start bs ds img m) as Hm.
    { apply crash_new; try done; (eapply Forall_impl; [exact Hh|]).
      - intros b [[[? ?] ?] _]. unfold int_ok. lia.
      - by intros b [_ ?]. }
    split_and!; [by eapply new_img_ok|done|]. intros b Hb.
    rewrite (recover_new start bs ds img Hl Hds Hnd m b Hm Hb). by apply commit_home.
Qed.
End committing.

(** C1: a commit is atomic under crashes, and installs the transaction.
    [commit] returns, having sent the disk the sector writes [W]: then every
    block outside the log holds on the disk what readers saw and still see,
    the log is empty in memory and on the disk, and no block stays pinned.
    One write is the commit point: if the machine stops after [k] of the
    writes and another kernel boots on what the disk then holds, [initlog]
    returns with an empty log, and all blocks outside the log hold what the
    disk held before the commit when that write was not reached, and what
    readers saw at the commit when it was. *)
Theorem commit_crash_safe s start bs img tr V R :
  cs s s [] img tr V R → txn start bs (k_log s) R → bs ≠ [] → lh_n (blk img start) = 0 →
  ∃ s' W p, commit s = Ok tt s' ∧ d_trace (k_disk s') = tr ++ W ∧ d_image (k_disk s') = apply_w img W ∧
    l_n (k_log s') = 0 ∧ lh_n (blk (d_image (k_disk s')) start) = 0 ∧
    (∀ b, b < start ∨ start + LOGBLOCKS < b → blk (d_image (k_disk s')) b = V b ∧ cview s' b = V b) ∧
    (∀ b, refs s' b = 0) ∧ (p < length W)%nat ∧
    ∀ k r sb, sb_logstart sb = start → booted r (apply_w img (take k W)) →
    ∃ r', initlog ROOTDEV sb r = Ok tt r' ∧ l_n (k_log r') = 0 ∧
      lh_n (blk (d_image (k_disk r')) start) = 0 ∧
      ∀ b, b < start ∨ start + LOGBLOCKS < b →
        blk (d_image (k_disk r')) b = if (k <=? p)%nat then blk img b else V b.
Proof.
  intros C Ht Hne Hcl. destruct (commit_ok s img tr V R start bs C Ht Hne) as (s' & V' & E & C' & HV').
  set (ds := map V bs) in *. set (W := commit_writes start bs ds (blk img start)) in *.
  destruct (commit_datas s bs img tr V R C) as [Hds Hdl].
  pose proof (cs_img _ _ _ _ _ _ _ C') as Himg. pose proof (tx_area _ _ _ _ Ht) as Ha.
  exists s', W, (commit_point start ds). rewrite Himg. split_and!.
  - done.
  - apply C'.
  - done.
  - by rewrite (frame_log _ _ (cs_frame _ _ _ _ _ _ _ C')).
  - unfold W, commit_writes. rewrite !apply_w_app, !apply_w_wr, blk_wr, decide_True by done.
    pose proof (length_blk img start (cs_img_ok _ _ _ _ _ _ _ C)) as Hl0. pose proof (txn_small _ _ _ _ Ht).
    change (Z.to_nat BSIZE) with 1024%nat in Hl0. apply (mk_header_n []); [|done]. rewrite length_mk_header; cbn; lia.
  - intros b Hb. rewrite (cs_view _ _ _ _ _ _ _ C'), <- (HV' b Hb). split; [|done].
    symmetry. by eapply cs_clean.
  - intros b. apply (cs_refs _ _ _ _ _ _ _ C').
  - unfold W, commit_writes, commit_point. rewrite !length_app. cbn. lia.
  - intros k r sb Hsb Hr. destruct (crash_recovers s start bs img tr V R C Ht k Hne Hcl) as (H1 & H2 & H3).
    fold ds W in H1, H2, H3.
    destruct (initlog_ok r _ sb Hr) as (r' & s1 & tr1 & V1 & E1 & C1 & Hc1); [by rewrite Hsb..|].
    rewrite Hsb in C1. exists r'. rewrite (cs_img _ _ _ _ _ _ _ C1), (frame_log _ _ (cs_frame _ _ _ _ _ _ _ C1)).
    split_and!; [done|apply (lc_n _ _ _ Hc1)|done|done].
Qed.

(** ** log_write *)
Lemma log_find_ge n : ∀ i l b, (i <= log_find n i l b)%nat.
Proof. induction n as [|n IH]; intros i l b; cbn; [done|]. case_bool_decide; [done|]. specialize (IH (S i) l b). lia. Qed.

Lemma log_find_spec n : ∀ i l b,
  let j := log_find n i l b in
  (j < i + n ∧ l !! j = Some b)%nat ∨ (j = i + n ∧ ∀ k, (i <= k < i + n)%nat → l !! k ≠ Some b)%nat.
Proof.
  induction n as [|n IH]; intros i l b j; subst j; cbn [log_find].
  - right. split; [lia|lia].
  - case_bool_decide as Hb; [left; split; [lia|done]|].
    destruct (IH (S i) l b) as [[H1 H2]|[H1 H2]].
    + left. split; [lia|done].
    + right. split; [lia|]. intros k Hk. destruct (decide (k = i)) as [->|]; [done|apply H2; lia].
Qed.

(** In the log's block table, by membership in the transaction. *)
Lemma log_find_cfg L start bs b :
  log_cfg L start bs →
  (b ∈ bs ∧ ∃ j, log_find (length bs) 0 (l_block L) b = j ∧ (j < length bs)%nat ∧ bs !! j = Some b) ∨
  (b ∉ bs ∧ log_find (length bs) 0 (l_block L) b = length bs).
Proof.
  intros [_ _ _ _ L5]. destruct (log_find_spec (length bs) 0 (l_block L) b) as [[H1 H2]|[H1 H2]].
  - left. destruct (lookup_lt_is_Some_2 bs (log_find (length bs) 0 (l_block L) b) H1) as [b' Hb'].
    pose proof (L5 _ _ Hb') as E. rewrite H2 in E. injection E as <-.
    split; [by eapply list_elem_of_lookup_2|]. eexists. by split_and!.
  - right. split; [|done]. intros (j & Hj)%list_elem_of_lookup.
    apply (H2 j); [split; [lia|by eapply lookup_lt_Some]|by apply L5].
Qed.

Lemma log_cfg_same L start bs j b :
  log_cfg L start bs → bs !! j = Some b → log_cfg (with_l_block (<[j := b]> (l_block L)) L) start bs.
Proof.
  intros [L1 L2 L3 L4 L5] Hj. split; cbn; try done; [by rewrite length_insert|].
  intros k b' Hk. destruct (decide (j = k)) as [->|].
  - rewrite list_lookup_insert_eq; [congruence|]. by eapply lookup_lt_Some, L5.
  - rewrite list_lookup_insert_ne by done. by apply L5.
Qed.
Lemma log_cfg_snoc L start bs b :
  log_cfg L start bs → (length bs < Z.to_nat LOGBLOCKS)%nat →
  log_cfg (with_l_n (l_n L + 1) (with_l_block (<[length bs := b]> (l_block L)) L)) start (bs ++ [b]).
Proof.
  intros [L1 L2 L3 L4 L5] Hn. split; cbn; try done.
  - rewrite length_app, L3. cbn. lia.
  - by rewrite length_insert.
  - intros k b' Hk. destruct (decide (length bs = k)) as [<-|].
    + rewrite list_lookup_insert_eq by lia. by rewrite list_lookup_middle in Hk by done.
    + rewrite list_lookup_insert_ne by done. apply L5.
      rewrite lookup_app_l in Hk; [done|]. apply lookup_lt_Some in Hk. rewrite length_app in Hk. cbn in Hk. lia.
Qed.

(** [bpin] with another lock held. *)
Lemma bpin_acq s l held lk i b :
  bio s l held → (i < NBUF)%nat → k_bufs s !! i = Some b → static lk → lk ≠ LkBcache →
  0 <= b_refcnt b → b_refcnt b + 1 < 2147483648 →
  bpin i (acq lk s) = Ok tt (acq lk (put_buf i (with_b_refcnt (b_refcnt b + 1) b) s)).
Proof.
  intros Hb Hi Hbi Hs Hne Hr0 Hr. pose proof (bio_calm _ _ _ Hb) as Hc.
  assert (kctx (acq lk s)) as Hk by (apply acq_kctx, Hc).
  assert (lock_ready LkBcache (acq lk s)) as Hl by (by apply lock_ready_acq; [apply (calm_locks s Hc)|]).
  unfold bpin. rewrite (bind_Ok _ _ _ _ _ (acquire_ready _ _ Hk Hl)).
  rewrite (bind_Ok _ _ _ _ _ (upd_buf_ok i _ (acq LkBcache (acq lk s)) b Hbi)), u32_small by lia.
  set (s1 := put_buf i (with_b_refcnt (b_refcnt b + 1) b) s).
  change (with_k_bufs _ (acq LkBcache (acq lk s))) with (acq LkBcache (acq lk s1)).
  apply release_acq_id; [apply acq_kctx; by destruct (calm_ctx s Hc)|].
  apply lock_ready_acq; [|done]. by apply (calm_locks s Hc).
Qed.

Lemma set_lh_acq lk s j v :
  (j < length (l_block (k_log s)))%nat →
  set_lh_block j v (acq lk s) =
    Ok tt (acq lk (with_k_log (with_l_block (<[j := v]> (l_block (k_log s))) (k_log s)) s)).
Proof.
  intros Hj. unfold set_lh_block, get_log. rewrite bind_gets. cbn [k_log acq with_k_locks with_k_cpu].
  by rewrite (proj2 (Nat.ltb_lt _ _)) by done.
Qed.

(** What log_write does to the header and the reference counts. *)
Definition logged (bs : list Z) (b : Z) : list Z := if decide (b ∈ bs) then bs else bs ++ [b].
Definition pinned (bs : list Z) (b : Z) (R : Z → Z) : Z → Z :=
  if decide (b ∈ bs) then R else fset R b (R b + 1).

Lemma log_write_ok s H img tr V R start bs i b :
  cs s s H img tr V R → (i, b) ∈ H → b < 2147483648 → log_cfg (k_log s) start bs →
  (length bs < Z.to_nat LOGBLOCKS)%nat → 1 <= l_outstanding (k_log s) → R b + 1 < 2147483648 →
  ∃ s' L, log_write i s = Ok tt s' ∧ cs (with_k_log L s) s' H img tr V (pinned bs b R) ∧
    log_cfg L start (logged bs b) ∧
    l_outstanding L = l_outstanding (k_log s) ∧ l_committing L = l_committing (k_log s).
Proof.
  intros C Hin Hb Hcfg Hlen Hout HR. pose proof C as [[l Hbio] _ _ _ _ _ _].
  pose proof (bio_calm _ _ _ Hbio) as Hc.
  destruct (cs_buf _ _ _ _ _ _ _ _ _ C Hin) as (bf & Hbf & E0 & E1 & E2 & E3 & R0 & _ & _ & Hlt & Hok & _).
  unfold log_write, get_log. rewrite acquire_calm by done. rewrite bind_gets. cbn [k_log acq with_k_locks with_k_cpu].
  pose proof Hcfg as [L1 L2 L3 L4 L5]. rewrite (proj2 (Z.leb_gt _ _)) by lia. rewrite (proj2 (Z.ltb_ge _ _)) by lia.
  rewrite (get_buf_ok _ (acq LkLog s) i bf Hbf). rewrite E1.
  assert (i32 b = b) as -> by (destruct Hok; zl). rewrite L3, Nat2Z.id.
  unfold logged, pinned. destruct (log_find_cfg _ _ _ b Hcfg) as [(Hin' & j & -> & Hj & Hbj)|[Hni ->]].
  - rewrite !decide_True by done. exists (with_k_log (with_l_block (<[j := b]> (l_block (k_log s))) (k_log s)) s).
    eexists. split_and!; [|by apply cs_log|by apply log_cfg_same|done|done].
    erewrite bind_Ok by (apply set_lh_acq; rewrite L4; lia).
    rewrite (proj2 (Z.eqb_neq _ _)) by lia. cbn [when]. rewrite bind_ret.
    apply release_calm; [by apply (calm_same s)|done].
  - rewrite !decide_False by done.
    destruct (cs_bpin _ _ _ _ _ _ _ i b C Hin HR) as (s1 & Ep & C1).
    set (L := with_l_block (<[length bs := b]> (l_block (k_log s))) (k_log s)).
    destruct (bpin_ok s l _ i bf Hbio Hlt Hbf E0) as (W1 & _); [lia|]. rewrite W1 in Ep. injection Ep as Es1.
    exists (with_k_log (with_l_n (l_n L + 1) L) s1).
    eexists. split_and!; [|by apply cs_log|exact (log_cfg_snoc _ _ _ b Hcfg Hlen)|done|done].
    erewrite bind_Ok by (apply set_lh_acq; rewrite L4; lia).
    rewrite Z.eqb_refl. cbn [when].
    assert (bio (with_k_log L s) l H.*1) as Hbio' by (apply (cs_log L) in C; destruct C as [[l' Hx] _ _ _ _ _ _];
      destruct Hbio; split; try done; by apply (calm_same s)).
    rewrite bind_assoc, (bind_Ok _ _ _ _ _ (bpin_acq _ l _ LkLog i bf Hbio' Hlt Hbf I (λ e, ltac:(discriminate e)) ltac:(lia) ltac:(lia))).
    unfold upd_log. rewrite bind_modify, <- Es1.
    change (with_k_log ?x (acq LkLog (put_buf i ?y (with_k_log L s)))) with (acq LkLog (with_k_log (with_l_n (l_n L + 1) L) (put_buf i y s))).
    apply release_calm; [|done]. by apply (calm_same s).
Qed.

(** C3: the use of [log_write] its comment describes.  Reading a block,
    modifying the buffer, [log_write] and [brelse] return; afterwards readers
    see the modified block, the disk is untouched, the block is in the
    transaction once however often it was logged before (absorption), and it
    stays pinned in the cache until the commit. *)
Theorem log_update_absorbs s img tr V R start bs b (f : list Z → list Z) :
  cs s s [] img tr V R → txn start bs (k_log s) R → home start b →
  length (f (V b)) = Z.to_nat BSIZE → (length (logged bs b) < NBUF)%nat → 1 <= l_outstanding (k_log s) →
  ∃ s' L, (i ← bread ROOTDEV b;
           upd_buf i (λ q, with_b_data (f (b_data q)) q);;
           log_write i;;
           brelse i) s = Ok tt s' ∧
    cs (with_k_log L s) s' [] img tr (fset V b (f (V b))) (λ x, if decide (x ∈ logged bs b) then 1 else 0) ∧
    txn start (logged bs b) L (λ x, if decide (x ∈ logged bs b) then 1 else 0) ∧
    l_outstanding L = l_outstanding (k_log s) ∧ l_committing L = l_committing (k_log s).
Proof.
  intros C Ht [Hb Hho] Hf Hlen Hout. pose proof Ht as [Hcfg Ha Hh Hnd Hlt HR].
  assert (R b <= 1) as Rb by (rewrite HR; case_decide; lia).
  destruct (cs_bread _ _ _ _ _ _ _ b C) as (i & s1 & E1 & _ & C1);
    [apply Hb|set_solver|lia|right; by eapply txn_roomy|].
  rewrite (bind_Ok _ _ _ _ _ E1).
  destruct (cs_upd _ _ _ _ _ _ _ i b (λ q, with_b_data (f (b_data q)) q) (f (V b)) C1) as (s2 & E2 & C2);
    [set_solver|done|by intros bf ->|].
  rewrite (bind_Ok _ _ _ _ _ E2). pose proof (frame_log _ _ (cs_frame _ _ _ _ _ _ _ C2)) as EL.
  destruct (log_write_ok s2 _ _ _ _ _ start bs i b (cs_self _ _ _ _ _ _ _ C2)) as (s3 & L & E3 & C3 & Hc3 & Ho & Hm);
    [set_solver|apply Hb|by rewrite EL| |by rewrite EL|rewrite fset_eq; lia|].
  { unfold logged in Hlen. change NBUF with 30%nat in *. change (Z.to_nat LOGBLOCKS) with 30%nat. case_decide; [lia|].
    rewrite length_app in Hlen. lia. }
  rewrite (bind_Ok _ _ _ _ _ E3).
  assert (∀ x, pinned bs b (fset R b (R b + 1)) x = fset (λ x, if decide (x ∈ logged bs b) then 1 else 0) b 2 x) as HR3.
  { intros x. unfold pinned, logged, fset. destruct (decide (b ∈ bs)) as [Hin|Hni].
    - rewrite !HR. repeat case_decide; done || lia.
    - rewrite !HR. repeat case_decide; try done; set_solver. }
  destruct (cs_brelse _ _ _ _ _ _ _ i b C3) as (s4 & E4 & C4); [set_solver|rewrite HR3, fset_eq; lia|].
  exists s4, L. rewrite EL in Ho, Hm. split_and!; [done| | |done|done].
  - rewrite filter_cons_False in C4 by (cbn; set_solver). eapply cs_ext; [done| |].
    2:{ eapply cs_rebase; [|exact C4]. exact (cs_frame _ _ _ _ _ _ _ (cs_log L _ _ _ _ _ _ _ C2)). }
    intros x. destruct (decide (x = b)) as [->|Hx]; [|by rewrite fset_ne, HR3, fset_ne].
    rewrite fset_eq, HR3, fset_eq, decide_True; [lia|]. unfold logged. case_decide; set_solver.
  - split; try done; [|].
    + unfold logged. case_decide; [done|]. apply Forall_app. split; [done|apply Forall_singleton; by split].
    + unfold logged. case_decide; [done|]. apply NoDup_app. split_and!; [done|set_solver|apply NoDup_singleton].
Qed.
End logthms.

(** ** Admission: the reservation of log space *)
Section admission.
Context `{P : Platform}.

(** Only log.c touches the log's variables. *)
Instance log_elsewhere : elsewhere k_log.
Proof. split; by intros []. Qed.
Lemma keeps_log_acquiresleep l : keeps k_log (acquiresleep l).
Proof. unfold acquiresleep, acquiresleep_loop, upd_slock, set_slock. keeps. Qed.
Lemma keeps_log_releasesleep l : keeps k_log (releasesleep l).
Proof. unfold releasesleep, upd_slock, set_slock. keeps. Qed.
Lemma keeps_log_holdingsleep l : keeps k_log (holdingsleep l).
Proof. unfold holdingsleep. keeps. Qed.
Lemma keeps_log_get_buf i : keeps k_log (get_buf i).
Proof. unfold get_buf, deref. keeps. Qed.
#[local] Hint Resolve keeps_log_acquiresleep keeps_log_releasesleep keeps_log_holdingsleep keeps_log_get_buf : keeps.
Lemma keeps_log_upd_buf i f : keeps k_log (upd_buf i f).
Proof. unfold upd_buf. keeps. Qed.
#[local] Hint Resolve keeps_log_upd_buf : keeps.
Lemma keeps_log_disk i w : keeps k_log (virtio_disk_rw i w).
Proof. unfold virtio_disk_rw, virtio_disk_sector, blk_command, upd_disk. keeps. Qed.
Lemma keeps_log_find n : ∀ i d b, keeps k_log (bget_find n i d b).
Proof. induction n; intros; cbn [bget_find]; keeps. Qed.
Lemma keeps_log_unused n : ∀ i, keeps k_log (bget_unused n i).
Proof. induction n; intros; cbn [bget_unused]; keeps. Qed.
#[local] Hint Resolve keeps_log_disk keeps_log_find keeps_log_unused : keeps.
Lemma keeps_log_bread d b : keeps k_log (bread d b).
Proof. unfold bread, bget. keeps. Qed.
Lemma keeps_log_bwrite i : keeps k_log (bwrite i).
Proof. unfold bwrite. keeps. Qed.
Lemma keeps_log_brelse i : keeps k_log (brelse i).
Proof. unfold brelse, link_front. keeps. Qed.
Lemma keeps_log_bpin i : keeps k_log (bpin i).
Proof. unfold bpin. keeps. Qed.
Lemma keeps_log_bunpin i : keeps k_log (bunpin i).
Proof. unfold bunpin. keeps. Qed.
#[local] Hint Resolve keeps_log_bread keeps_log_bwrite keeps_log_brelse keeps_log_bpin keeps_log_bunpin : keeps.
Lemma keeps_log_lh k : keeps k_log (lh_block k).
Proof. unfold lh_block, get_log. keeps. Qed.
#[local] Hint Resolve keeps_log_lh : keeps.
Lemma keeps_log_write_head : keeps k_log write_head.
Proof. unfold write_head, get_log. keeps. Qed.
Lemma keeps_log_write_log : keeps k_log write_log.
Proof. unfold write_log, log_tails, get_log. keeps. Qed.
Lemma keeps_log_install : keeps k_log (install_trans false).
Proof. unfold install_trans, log_tails, get_log. keeps. Qed.

(** ** What a returning call did to the log's variables *)
Definition admitted (L L' : log) : Prop :=
  L' = with_l_outstanding (l_outstanding L + 1) L ∧ l_committing L = 0 ∧
  l_n L + (l_outstanding L + 1) * MAXOPBLOCKS <= LOGBLOCKS.

Lemma begin_loop_log s s' : begin_op_loop s = Ok tt s' → admitted (k_log s) (k_log s').
Proof.
  unfold begin_op_loop, get_log. rewrite bind_gets. intros E.
  destruct (Z.eqb_spec (l_committing (k_log s)) 0) as [E0|E0]; cbn [negb] in E; [|by apply sleep_not_Ok in E].
  destruct (Z.ltb_spec LOGBLOCKS (l_n (k_log s) + (l_outstanding (k_log s) + 1) * MAXOPBLOCKS)) as [E1|E1];
    [by apply sleep_not_Ok in E|].
  unfold upd_log in E. rewrite bind_modify in E. apply (keeps_Ok k_log) in E; [|keeps]. by rewrite E.
Qed.

Lemma begin_op_ok s :
  calm s → l_committing (k_log s) = 0 →
  l_n (k_log s) + (l_outstanding (k_log s) + 1) * MAXOPBLOCKS <= LOGBLOCKS →
  begin_op s = Ok tt (with_k_log (with_l_outstanding (l_outstanding (k_log s) + 1) (k_log s)) s).
Proof.
  intros Hc H1 H2. unfold begin_op, begin_op_loop, get_log, upd_log. rewrite acquire_calm by done.
  rewrite bind_gets. cbn [k_log acq with_k_locks with_k_cpu]. rewrite H1, Z.eqb_refl. cbn [negb].
  rewrite (proj2 (Z.ltb_ge _ _)) by done. rewrite bind_modify.
  change (with_k_log ?x (acq LkLog s)) with (acq LkLog (with_k_log x s)).
  apply release_calm; [by apply (calm_same s)|done].
Qed.

Lemma begin_op_log s s' : begin_op s = Ok tt s' → admitted (k_log s) (k_log s').
Proof.
  intros (? & s1 & E1 & E2)%bind_Ok_inv. apply (keeps_Ok k_log) in E1; [|keeps].
  rewrite <- E1. by apply begin_loop_log.
Qed.
Lemma begin_op_resume_log ie s s' : begin_op_resume ie s = Ok tt s' → admitted (k_log s) (k_log s').
Proof.
  intros (? & s1 & E1 & E2)%bind_Ok_inv. apply (keeps_Ok k_log) in E1; [|keeps].
  rewrite <- E1. by apply begin_loop_log.
Qed.

Lemma commit_log s s' :
  commit s = Ok tt s' → k_log s' = if 0 <? l_n (k_log s) then with_l_n 0 (k_log s) else k_log s.
Proof.
  pose proof keeps_log_write_head. pose proof keeps_log_write_log. pose proof keeps_log_install.
  unfold commit, get_log. rewrite bind_gets. destruct (0 <? l_n (k_log s)); cbn [when]; [|by intros [= <-]].
  intros (? & s1 & E1 & (? & s2 & E2 & (? & s3 & E3 & E)%bind_Ok_inv)%bind_Ok_inv)%bind_Ok_inv.
  unfold upd_log in E. rewrite bind_modify in E.
  apply (keeps_Ok k_log) in E1, E2, E3, E; try done. rewrite E. cbn. by rewrite E3, E2, E1.
Qed.

(** end_op: one operation less; the last one empties the log. *)
Lemma end_op_log s s' :
  end_op s = Ok tt s' →
  l_committing (k_log s) = 0 ∧
  k_log s' = with_l_outstanding (l_outstanding (k_log s) - 1)
    (if (l_outstanding (k_log s) - 1 =? 0) then with_l_n (if 0 <? l_n (k_log s) then 0 else l_n (k_log s)) (k_log s)
     else k_log s).
Proof.
  unfold end_op. intros (? & s1 & E1 & E)%bind_Ok_inv. apply (keeps_Ok k_log) in E1; [|keeps].
  unfold upd_log, get_log in E. rewrite bind_modify, bind_gets in E. cbn [k_log with_k_log] in E. rewrite E1 in E.
  destruct (k_log s) as [st out com dev n bl]; cbn in *.
  destruct (Z.eqb_spec com 0) as [->|]; cbn [negb] in E; [|done].
  split; [done|]. destruct (out - 1 =? 0).
  - rewrite bind_assoc, bind_modify, bind_ret in E. cbn [k_log with_k_log] in E.
    apply bind_Ok_inv in E as (? & s2 & E2 & E). apply (keeps_Ok k_log) in E2; [|keeps]. cbn in E2.
    apply bind_Ok_inv in E as (? & s3 & E3 & E). destruct x1. apply commit_log in E3. rewrite E2 in E3.
    apply bind_Ok_inv in E as (? & s4 & E4 & E). apply (keeps_Ok k_log) in E4; [|keeps].
    rewrite bind_modify in E. apply (keeps_Ok k_log) in E; [|keeps]. rewrite E. cbn. rewrite E4, E3. cbn.
    by destruct (0 <? n).
  - rewrite bind_assoc in E. apply bind_Ok_inv in E as (? & s2 & E2 & E). apply (keeps_Ok k_log) in E2; [|keeps].
    rewrite bind_ret in E. apply bind_Ok_inv in E as (? & s3 & E3 & E). apply (keeps_Ok k_log) in E3; [|keeps].
    injection E as <-. rewrite E3, E2. done.
Qed.

(** ** The blocks of the log *)
(** [log_lh.block[0 .. log_lh.n - 1]] *)
Definition log_blocks (L : log) : list Z := take (Z.to_nat (l_n L)) (l_block L).

Lemma log_blocks_lookup L j b :
  log_blocks L !! j = Some b → (j < Z.to_nat (l_n L))%nat ∧ l_block L !! j = Some b.
Proof. intros H. by apply lookup_take_Some in H as [? ?]. Qed.

(** The search of log_write, by membership in the log. *)
Lemma log_find_in L b : (Z.to_nat (l_n L) <= length (l_block L))%nat →
  let j := log_find (Z.to_nat (l_n L)) 0 (l_block L) b in
  (b ∈ log_blocks L ∧ (j < Z.to_nat (l_n L))%nat ∧ l_block L !! j = Some b) ∨
  (b ∉ log_blocks L ∧ j = Z.to_nat (l_n L)).
Proof.
  intros Hn j. destruct (log_find_spec (Z.to_nat (l_n L)) 0 (l_block L) b) as [[H1 H2]|[H1 H2]]; fold j in H1, H2.
  - left. split_and!; [|done|done]. apply list_elem_of_lookup. exists j. by apply lookup_take_Some.
  - right. split; [|done]. intros (k & [H3 H4]%log_blocks_lookup)%list_elem_of_lookup. apply (H2 k); [lia|done].
Qed.

(** What a [log_write] that returns does to the log: the block is added once,
    or absorbed. *)
Definition log_wrote (b : Z) (L L' : log) : Prop :=
  log_blocks L' = logged (log_blocks L) b ∧ l_n L' = Z.of_nat (length (log_blocks L')) ∧
  length (l_block L') = length (l_block L) ∧
  l_outstanding L' = l_outstanding L ∧ l_committing L' = l_committing L.

Lemma log_absorbs L j b :
  b ∈ log_blocks L → l_block L !! j = Some b → 0 <= l_n L <= Z.of_nat (length (l_block L)) →
  log_wrote b L (with_l_block (<[j := b]> (l_block L)) L).
Proof.
  intros Hin Hj Hn. rewrite list_insert_id by done. unfold log_wrote, logged. rewrite decide_True by done.
  unfold log_blocks. cbn. rewrite length_take. split_and!; (done || lia).
Qed.
Lemma log_adds L b :
  b ∉ log_blocks L → 0 <= l_n L < Z.of_nat (length (l_block L)) →
  log_wrote b L (with_l_n (l_n L + 1) (with_l_block (<[Z.to_nat (l_n L) := b]> (l_block L)) L)).
Proof.
  intros Hni Hn. unfold log_wrote, logged. rewrite decide_False by done. unfold log_blocks. cbn.
  replace (Z.to_nat (l_n L + 1)) with (S (Z.to_nat (l_n L))) by lia.
  rewrite (take_S_r _ _ b) by (apply list_lookup_insert_eq; lia). rewrite take_insert_ge by lia.
  rewrite length_app, length_take, length_insert. cbn. split_and!; (done || lia).
Qed.

(** [log_write] in a calm state. *)
Lemma bpin_in_log s i b :
  calm s → k_bufs s !! i = Some b →
  ∃ b', bpin i (acq LkLog s) = Ok tt (acq LkLog (with_k_bufs (<[i := b']> (k_bufs s)) s)).
Proof.
  intros Hc Hb. assert (lock_ready LkBcache (acq LkLog s)) as Hl by (by apply lock_ready_acq; [apply (calm_locks s Hc)|]).
  unfold bpin. rewrite (bind_Ok _ _ _ _ _ (acquire_ready LkBcache _ (acq_kctx _ _ (calm_ctx s Hc)) Hl)).
  rewrite (bind_Ok _ _ _ _ _ (upd_buf_ok i _ (acq LkBcache (acq LkLog s)) b Hb)). eexists.
  change (with_k_bufs ?x (acq LkBcache (acq LkLog s))) with (acq LkBcache (acq LkLog (with_k_bufs x s))).
  apply release_acq_id; [apply acq_kctx; by destruct (calm_ctx s Hc)|].
  apply lock_ready_acq; [|done]. by apply (calm_locks s Hc).
Qed.

Lemma log_write_returns s i b :
  calm s → k_bufs s !! i = Some b → length (l_block (k_log s)) = Z.to_nat LOGBLOCKS →
  0 <= l_n (k_log s) < LOGBLOCKS → 1 <= l_outstanding (k_log s) →
  ∃ s', log_write i s = Ok tt s' ∧ log_wrote (i32 (b_blockno b)) (k_log s) (k_log s').
Proof.
  intros Hc Hb Hlen Hn Hout. unfold log_write, get_log. rewrite acquire_calm by done.
  rewrite bind_gets. cbn [k_log acq with_k_locks with_k_cpu].
  rewrite (proj2 (Z.leb_gt _ _)) by lia. rewrite (proj2 (Z.ltb_ge _ _)) by lia.
  rewrite (get_buf_ok _ (acq LkLog s) i b Hb). set (x := i32 (b_blockno b)).
  destruct (log_find_in (k_log s) x) as [(Hin & Hj & Ej)|[Hni Ej]]; [lia| |]; set (j := log_find _ _ _ _) in *;
    (erewrite bind_Ok by (apply set_lh_acq; lia)); set (L := with_l_block _ _); set (s1 := with_k_log L s);
    (assert (calm s1) as Hc1 by by apply (calm_same s)).
  - rewrite (proj2 (Z.eqb_neq _ _)) by lia. cbn [when]. rewrite bind_ret. exists s1.
    split; [by apply release_calm|]. apply log_absorbs; [done|done|lia].
  - rewrite (proj2 (Z.eqb_eq _ _)) by lia. cbn [when]. destruct (bpin_in_log s1 i b Hc1 Hb) as [b' Ep].
    rewrite bind_assoc, (bind_Ok _ _ _ _ _ Ep). unfold upd_log. rewrite bind_modify. set (s2 := with_k_bufs _ s1).
    exists (with_k_log (with_l_n (l_n L + 1) L) s2). split.
    + change (with_k_log ?x (acq LkLog s2)) with (acq LkLog (with_k_log x s2)).
      apply release_calm; [|done]. by apply (calm_same s1).
    + subst L. rewrite Ej. apply log_adds; [done|lia].
Qed.

(** The test at its head panics on a full log even for a block that would be
    absorbed. *)
Lemma log_write_full s i :
  calm s → LOGBLOCKS <= l_n (k_log s) → log_write i s = Panic "too big a transaction".
Proof.
  intros Hc Hn. unfold log_write, get_log. rewrite acquire_calm by done. rewrite bind_gets.
  cbn [k_log acq with_k_locks with_k_cpu]. by rewrite (proj2 (Z.leb_le _ _)).
Qed.

(** ** Runs of file system operations
    [log_run s U]: [s] is reached from a kernel with an empty log by calls to
    begin_op, log_write and end_op, in any order between any processes, and by
    steps that leave the log's variables alone; [U] lists for each operation
    in progress the set of blocks it has logged, at most MAXOPBLOCKS, however
    often it logged each. *)
Definition op_max : nat := Z.to_nat MAXOPBLOCKS.

Inductive log_run : kstate → list (gset Z) → Prop :=
| lr_init s : l_n (k_log s) = 0 → l_outstanding (k_log s) = 0 → l_committing (k_log s) = 0 →
    length (l_block (k_log s)) = Z.to_nat LOGBLOCKS → log_run s []
| lr_other s s' U : log_run s U → k_log s' = k_log s → log_run s' U
| lr_begin s s' U : log_run s U → begin_op s = Ok tt s' → log_run s' (U ++ [∅])
| lr_resume ie s s' U : log_run s U → begin_op_resume ie s = Ok tt s' → log_run s' (U ++ [∅])
| lr_write s s' U k u i b : log_run s U → U !! k = Some u → calm s → k_bufs s !! i = Some b →
    (size (u ∪ {[i32 (b_blockno b)]}) <= op_max)%nat → log_write i s = Ok tt s' →
    log_run s' (<[k := u ∪ {[i32 (b_blockno b)]}]> U)
| lr_end s s' U k u : log_run s U → U !! k = Some u → end_op s = Ok tt s' → log_run s' (delete k U).

(** What the operations in progress may still log. *)
Definition budget (U : list (gset Z)) : nat := sum_list_with (λ u, op_max - size u)%nat U.

Record log_space (L : log) (U : list (gset Z)) : Prop := {
  ls_out : l_outstanding L = Z.of_nat (length U);
  ls_com : l_committing L = 0;
  ls_n : l_n L = Z.of_nat (length (log_blocks L));
  ls_room : l_n L + Z.of_nat (budget U) <= LOGBLOCKS;
  ls_nodup : NoDup (log_blocks L);
  ls_ops : ∀ k u, U !! k = Some u → ∀ b, b ∈ u → b ∈ log_blocks L;
  ls_len : length (l_block L) = Z.to_nat LOGBLOCKS }.

Lemma budget_app U V : budget (U ++ V) = (budget U + budget V)%nat.
Proof. apply sum_list_with_app. Qed.
Lemma budget_le U : (budget U <= length U * op_max)%nat.
Proof. induction U as [|u U IH]; cbn [budget sum_list_with length] in *; [lia|]. unfold budget in *. lia. Qed.
Lemma budget_split U k u :
  U !! k = Some u → ∃ r, budget U = (op_max - size u + r)%nat ∧ budget (delete k U) = r ∧
    ∀ v, budget (<[k := v]> U) = (op_max - size v + r)%nat.
Proof.
  intros H. rewrite delete_take_drop. exists (budget (take k U) + budget (drop (S k) U))%nat.
  assert (budget U = budget (take k U ++ u :: drop (S k) U)) as -> by (by rewrite take_drop_middle).
  pose proof (lookup_lt_Some _ _ _ H) as Hlt. split_and!.
  - rewrite budget_app. unfold budget. cbn [sum_list_with]. lia.
  - apply budget_app.
  - intros v. rewrite insert_take_drop by done. rewrite budget_app. unfold budget. cbn [sum_list_with]. lia.
Qed.

Lemma admitted_space L L' U : admitted L L' → log_space L U → log_space L' (U ++ [∅]).
Proof.
  intros (-> & E1 & E2) [S1 S2 S3 S4 S5 S6 S7]. pose proof (budget_le U) as Hle.
  change op_max with 10%nat in Hle. change MAXOPBLOCKS with 10 in *. change LOGBLOCKS with 30 in *. split; try done.
  - cbn. rewrite length_app. cbn. lia.
  - rewrite budget_app. unfold budget at 2. cbn [sum_list_with]. rewrite size_empty. change op_max with 10%nat.
    cbn [l_n with_l_outstanding]. change LOGBLOCKS with 30. lia.
  - intros k u [Hk|[_ Hk]]%lookup_app_Some b Hb; [by apply (S6 k u)|].
    apply list_lookup_singleton_Some in Hk as [_ <-]. set_solver.
Qed.

Lemma logged_sub bs b x : x ∈ logged bs b ↔ x ∈ bs ∨ x = b.
Proof. unfold logged. case_decide; set_solver. Qed.
Lemma logged_nodup bs b : NoDup bs → NoDup (logged bs b).
Proof.
  intros H. unfold logged. case_decide; [done|]. apply NoDup_app. split_and!; [done|set_solver|apply NoDup_singleton].
Qed.

Lemma wrote_space L L' U k u b :
  U !! k = Some u → (size (u ∪ {[b]}) <= op_max)%nat → log_wrote b L L' →
  log_space L U → log_space L' (<[k := u ∪ {[b]}]> U).
Proof.
  intros Hk Hsz (W1 & W2 & W3 & W4 & W5) [S1 S2 S3 S4 S5 S6 S7].
  destruct (budget_split U k u Hk) as (r & B1 & _ & B3). split.
  - by rewrite W4, length_insert.
  - by rewrite W5.
  - done.
  - rewrite W2, W1, B3. unfold logged. destruct (decide (b ∈ log_blocks L)) as [Hin|Hni].
    + assert (size u <= size (u ∪ {[b]}))%nat by (apply subseteq_size; set_solver). lia.
    + assert (b ∉ u) by (intros Hb; by apply Hni, (S6 k u)).
      rewrite size_union, size_singleton in * by set_solver. rewrite length_app. cbn [length]. lia.
  - rewrite W1. by apply logged_nodup.
  - intros k' u' [(<- & <- & _)|[Hne Hu']]%list_lookup_insert_Some x Hx; rewrite W1; apply logged_sub.
    + apply elem_of_union in Hx as [Hx|Hx]; [left; by apply (S6 k u)|right; set_solver].
    + left. by apply (S6 k' u').
  - by rewrite W3.
Qed.

Lemma ended_space L U k u :
  U !! k = Some u → log_space L U →
  log_space (with_l_outstanding (l_outstanding L - 1)
    (if (l_outstanding L - 1 =? 0) then with_l_n (if 0 <? l_n L then 0 else l_n L) L else L)) (delete k U).
Proof.
  intros Hk [S1 S2 S3 S4 S5 S6 S7]. destruct (budget_split U k u Hk) as (r & B1 & B2 & _).
  pose proof (lookup_lt_Some _ _ _ Hk). assert (length (delete k U) = length U - 1)%nat as Hl by (by apply length_delete).
  destruct (Z.eqb_spec (l_outstanding L - 1) 0) as [E|E].
  - assert ((if 0 <? l_n L then 0 else l_n L) = 0) as -> by (destruct (Z.ltb_spec 0 (l_n L)); lia).
    destruct (delete k U) as [|] eqn:Ed; [|cbn in Hl; lia]. split; cbn; first [done|lia|apply NoDup_nil_2].
  - split; try done; cbn; try lia. intros k' u' Hk'.
    assert (u' ∈ U) as (k2 & Hk2)%list_elem_of_lookup; [|by apply (S6 k2)].
    rewrite delete_take_drop in Hk'. apply list_elem_of_lookup_2 in Hk'. rewrite <- (take_drop k U).
    apply elem_of_app in Hk' as [?|Hd]; apply elem_of_app; [by left|right].
    rewrite (drop_S U u k) by done. by right.
Qed.

Lemma log_write_room s i s' : log_write i s = Ok tt s' → l_n (k_log s) < LOGBLOCKS.
Proof.
  intros (? & s1 & E1 & E)%bind_Ok_inv. apply (keeps_Ok k_log) in E1; [|keeps].
  unfold get_log in E. rewrite bind_gets, E1 in E. destruct (Z.leb_spec LOGBLOCKS (l_n (k_log s))); [done|lia].
Qed.

Lemma log_run_space s U : log_run s U → log_space (k_log s) U.
Proof.
  induction 1 as [s H1 H2 H3 H4|s s' U _ IH E|s s' U _ IH E|ie s s' U _ IH E|s s' U k u i b _ IH Hk Hc Hb Hs E|s s' U k u _ IH Hk E].
  - split; try done; unfold log_blocks; rewrite H1; try done. constructor.
  - by rewrite E.
  - eapply admitted_space, IH. by apply begin_op_log.
  - eapply admitted_space, IH. by eapply begin_op_resume_log.
  - pose proof (lookup_lt_Some _ _ _ Hk). pose proof (log_write_room _ _ _ E). pose proof IH as [S1 _ S3 _ _ _ S7].
    destruct (log_write_returns s i b) as (s2 & E2 & W); try done; [lia..|].
    rewrite E in E2. injection E2 as ->. by eapply wrote_space.
  - apply end_op_log in E as [_ ->]. by eapply ended_space.
Qed.

(** C2: operations that log at most MAXOPBLOCKS different blocks each never
    overflow the log, whatever other operations run beside them and however
    often they log each block.  In every reachable state the blocks of the log
    are distinct and include those of every operation in progress, and they
    and what the operations may still log fit in LOGBLOCKS.  An operation with
    reservation left can log any block: [log_write] returns, and the block is
    in the log once, taking no space if it was there before.  An operation
    that has used up its reservation can still log its blocks again, unless
    the log is completely full: then [log_write] panics although it would
    need no space. *)
Theorem log_space_reserved s U :
  log_run s U →
  l_n (k_log s) + Z.of_nat (budget U) <= LOGBLOCKS ∧ l_outstanding (k_log s) = Z.of_nat (length U) ∧
  NoDup (log_blocks (k_log s)) ∧
  (∀ k u b, U !! k = Some u → b ∈ u → b ∈ log_blocks (k_log s)) ∧
  ∀ k u i b, U !! k = Some u → calm s → k_bufs s !! i = Some b →
    (size (u ∪ {[i32 (b_blockno b)]}) <= op_max)%nat →
    ((size u < op_max)%nat → l_n (k_log s) < LOGBLOCKS) ∧
    (l_n (k_log s) < LOGBLOCKS → ∃ s', log_write i s = Ok tt s' ∧
       log_blocks (k_log s') = logged (log_blocks (k_log s)) (i32 (b_blockno b)) ∧
       l_n (k_log s') = Z.of_nat (length (log_blocks (k_log s')))) ∧
    (l_n (k_log s) = LOGBLOCKS → log_write i s = Panic "too big a transaction").
Proof.
  intros [S1 S2 S3 S4 S5 S6 S7]%log_run_space. split_and!; [done..|intros k u b Hk Hb; by apply (S6 k u)|].
  intros k u i b Hk Hc Hb Hs. destruct (budget_split U k u Hk) as (r & B1 & _). pose proof (lookup_lt_Some _ _ _ Hk).
  split_and!; [lia| |intros E; apply log_write_full; [done|lia]]. intros Hn.
  destruct (log_write_returns s i b) as (s2 & E2 & W1 & W2 & _); try done; [lia..|]. by exists s2.
Qed.
End admission.

(** ** A concrete transaction
    The log at block 2, an operation in progress, and block 46 logged and not
    yet committed. *)
Definition ring_buf (i : nat) : buf :=
  mk_buf 0 0 0 0 0 (if decide (i = 0%nat) then bhead else i - 1) (if decide (i = bhead) then 0 else S i)
    (replicate 1024 0).
Definition dirty_buf (d : list Z) : buf := mk_buf 1 0 ROOTDEV 46 1 bhead 1 d.
Definition demo_bufs (o : option (list Z)) : list buf :=
  from_option dirty_buf (ring_buf 0) o :: map ring_buf (seq 1 NBUF).
Definition demo_blocks (o : option (list Z)) : list Z := if o then [46] else [].
Definition log_demo (o : option (list Z)) : kstate :=
  with_k_bufs (demo_bufs o)
    (with_k_log (mk_log 2 1 0 ROOTDEV (Z.of_nat (length (demo_blocks o)))
       (<[0%nat := 46]> (replicate (Z.to_nat LOGBLOCKS) 0))) sched_demo).
Definition sevens : list Z := replicate 1024 7.

Definition demo_view (o : option (list Z)) (b : Z) : list Z :=
  match o with Some d => if b =? 46 then d else blk ∅ b | None => blk ∅ b end.
Definition demo_refs (o : option (list Z)) (b : Z) : Z :=
  match o with Some _ => if b =? 46 then 1 else 0 | None => 0 end.

Lemma demo_ring p : ring (demo_bufs p) (seq 0 NBUF).
Proof. split; [by destruct p|done|]. destruct p; cbn; repeat split. Qed.

Lemma demo_buf o i b :
  (i < NBUF)%nat → demo_bufs o !! i = Some b →
  (∃ d, b = dirty_buf d ∧ o = Some d ∧ i = 0%nat) ∨ (b = ring_buf i ∧ (o = None ∨ i ≠ 0%nat)).
Proof.
  intros Hi Hb. destruct i as [|i].
  - cbn in Hb. injection Hb as <-. destruct o as [d|]; [left; by exists d|right; split; [done|by left]].
  - right. cbn [demo_bufs lookup list_lookup] in Hb. apply list_lookup_fmap_Some in Hb as (j & -> & Hj).
    apply lookup_seq in Hj as [-> _]. split; [by f_equal|by right].
Qed.

Lemma demo_bio o : from_option (λ d, length d = Z.to_nat BSIZE) True o → bio (P := emu) (log_demo o) (seq 0 NBUF) [].
Proof.
  intros Ho. split.
  - apply (calm_same sched_demo); [done|apply sched_demo_calm].
  - split; [done|done|]. intros n. change (length (sector ∅ n) = SECTOR_SIZE). unfold sector. by rewrite lookup_empty.
  - apply demo_ring.
  - intros i b Hi Hb. destruct (demo_buf o i b Hi Hb) as [(d & -> & -> & _)|[-> _]]; by split.
  - intros i j bi bj Hi Hj Hbi Hbj Di Dj _.
    destruct (demo_buf o i bi Hi Hbi) as [(? & _ & _ & ->)|[-> _]]; [|done].
    by destruct (demo_buf o j bj Hj Hbj) as [(? & _ & _ & ->)|[-> _]].
  - done.
  - set_solver.
  - constructor.
Qed.

Lemma demo_cached_none b : cached (demo_bufs None) b = None.
Proof. reflexivity. Qed.
Lemma demo_cached_some d b : cached (demo_bufs (Some d)) b = if b =? 46 then Some 0%nat else None.
Proof. unfold cached. cbn. unfold has_key. cbn. rewrite Z.eqb_sym. by destruct (b =? 46). Qed.

Lemma demo_cs o :
  from_option (λ d, length d = Z.to_nat BSIZE) True o →
  cs (P := emu) (log_demo o) (log_demo o) [] ∅ [] (demo_view o) (demo_refs o).
Proof.
  intros Ho. split; [by eexists; apply demo_bio|set_solver|done|done| | |apply bio_frame_refl]; intros x;
    unfold cview, refs, demo_view, demo_refs; change (k_bufs (log_demo o)) with (demo_bufs o); destruct o as [d|].
  - rewrite demo_cached_some. by destruct (x =? 46).
  - by rewrite demo_cached_none.
  - rewrite demo_cached_some. by destruct (x =? 46).
  - by rewrite demo_cached_none.
Qed.

Lemma demo_home : home (P := emu) 2 46.
Proof. split; [split; [split; cbn; lia|lia]|right; zl]. Qed.

Lemma demo_txn o : txn (P := emu) 2 (demo_blocks o) (k_log (log_demo o)) (demo_refs o).
Proof.
  split.
  - split; [done|done|by destruct o|done|]. destruct o; [|done]. by intros [|k] b.
  - intros x Hx. split; [split; cbn; zl|zl].
  - destruct o; repeat constructor; apply demo_home.
  - destruct o; repeat constructor; set_solver.
  - destruct o; by apply Nat.ltb_lt.
  - intros x. unfold demo_refs. destruct o; cbn [demo_blocks]; [|by rewrite decide_False by set_solver].
    destruct (Z.eqb_spec x 46); [subst; by rewrite decide_True by set_solver|by rewrite decide_False by set_solver].
Qed.

Lemma commit_crash_safe_witness :
  ∃ s' W p, commit (P := emu) (log_demo (Some sevens)) = Ok tt s' ∧ d_trace (k_disk s') = W ∧
    d_image (k_disk s') = apply_w ∅ W ∧ l_n (k_log s') = 0 ∧ lh_n (blk (d_image (k_disk s')) 2) = 0 ∧
    (∀ b, b < 2 ∨ 2 + LOGBLOCKS < b →
      blk (d_image (k_disk s')) b = demo_view (Some sevens) b ∧ cview s' b = demo_view (Some sevens) b) ∧
    (∀ b, refs s' b = 0) ∧ (p < length W)%nat ∧
    ∀ k r sb, sb_logstart sb = 2 → booted (P := emu) r (apply_w ∅ (take k W)) →
    ∃ r', initlog (P := emu) ROOTDEV sb r = Ok tt r' ∧ l_n (k_log r') = 0 ∧
      lh_n (blk (d_image (k_disk r')) 2) = 0 ∧
      ∀ b, b < 2 ∨ 2 + LOGBLOCKS < b →
        blk (d_image (k_disk r')) b = if (k <=? p)%nat then blk ∅ b else demo_view (Some sevens) b.
Proof.
  refine (commit_crash_safe (P := emu) (log_demo (Some sevens)) 2 [46] ∅ [] (demo_view (Some sevens)) (demo_refs (Some sevens)) _ _ _ _).
  - by apply (demo_cs (Some sevens)).
  - apply (demo_txn (Some sevens)).
  - discriminate.
  - reflexivity.
Defined.

Lemma log_update_absorbs_witness :
  ∃ s' L, (i ← bread (P := emu) ROOTDEV 46;
           upd_buf i (λ q, with_b_data (replicate 1024 9) q);;
           log_write i;;
           brelse i) (log_demo (Some sevens)) = Ok tt s' ∧
    cs (P := emu) (with_k_log L (log_demo (Some sevens))) s' [] ∅ [] (fset (demo_view (Some sevens)) 46 (replicate 1024 9))
      (λ x, if decide (x ∈ logged [46] 46) then 1 else 0) ∧
    txn (P := emu) 2 (logged [46] 46) L (λ x, if decide (x ∈ logged [46] 46) then 1 else 0) ∧
    l_outstanding L = 1 ∧ l_committing L = 0.
Proof.
  refine (log_update_absorbs (P := emu) (log_demo (Some sevens)) ∅ [] (demo_view (Some sevens)) (demo_refs (Some sevens)) 2 [46] 46
    (λ _, replicate 1024 9) _ _ _ _ _ _).
  - by apply (demo_cs (Some sevens)).
  - apply (demo_txn (Some sevens)).
  - apply demo_home.
  - reflexivity.
  - apply Nat.ltb_lt. reflexivity.
  - cbn. lia.
Defined.

(** One operation has logged one block. *)
Definition log_idle : kstate := with_k_log (mk_log 2 0 0 ROOTDEV 0 (replicate (Z.to_nat LOGBLOCKS) 0)) (log_demo None).

Definition log_busy : kstate := with_k_log (with_l_outstanding 1 (k_log log_idle)) log_idle.

Lemma log_space_reserved_witness :
  l_n (k_log log_busy) + Z.of_nat (budget [∅]) <= LOGBLOCKS ∧ l_outstanding (k_log log_busy) = 1 ∧
  NoDup (log_blocks (k_log log_busy)) ∧
  (∀ k u b, [∅ : gset Z] !! k = Some u → b ∈ u → b ∈ log_blocks (k_log log_busy)) ∧
  ∀ k u i b, [∅ : gset Z] !! k = Some u → calm log_busy → k_bufs log_busy !! i = Some b →
    (size (u ∪ {[i32 (b_blockno b)]}) <= op_max)%nat →
    ((size u < op_max)%nat → l_n (k_log log_busy) < LOGBLOCKS) ∧
    (l_n (k_log log_busy) < LOGBLOCKS → ∃ s', log_write i log_busy = Ok tt s' ∧
       log_blocks (k_log s') = logged (log_blocks (k_log log_busy)) (i32 (b_blockno b)) ∧
       l_n (k_log s') = Z.of_nat (length (log_blocks (k_log s')))) ∧
    (l_n (k_log log_busy) = LOGBLOCKS → log_write i log_busy = Panic "too big a transaction").
Proof.
  refine (log_space_reserved (P := emu) log_busy [∅] _).
  refine (lr_begin log_idle log_busy [] _ _).
  - apply lr_init; reflexivity.
  - apply (begin_op_ok log_idle); [|done|cbn; zl].
    apply (calm_same sched_demo); [done|apply sched_demo_calm].
Defined.
