(* ===== verification/Tx.v ===== *)
(** * The contract of a transaction

    [tx s0 s H t]: the running process holds the buffers [H], the transaction so
    far has logged the blocks [t_bs t], and readers see block [b] as [t_view t
    b]; nothing but the cache, the log
    and the device differs from [s0].  Each way the file system uses a buffer
    is one rule. *)

From S2P Require Import Prelude Machine State CString Spinlock Printf Emu Kalloc Vm VmSpec VmUser VmCopy Sched Bytes Bio BioSpec Cache Log LogImg LogSpec LogThms.

(** What a transaction has done: its log and the number of operations in
    progress, the blocks written, the disk (image and writes sent to it), and
    the blocks as readers see them. *)
Record txst : Type := mk_txst {
  t_start : Z; t_out : Z; t_bs : list Z; t_img : gmap Z (list Z); t_tr : list (Z * list Z); t_view : Z → list Z }.
Definition with_bs (bs : list Z) (t : txst) : txst := mk_txst (t_start t) (t_out t) bs (t_img t) (t_tr t) (t_view t).
Definition with_view (V : Z → list Z) (t : txst) : txst := mk_txst (t_start t) (t_out t) (t_bs t) (t_img t) (t_tr t) V.
(** Block [b] becomes [d] and belongs to the transaction. *)
Definition wrote (b : Z) (d : list Z) (t : txst) : txst :=
  mk_txst (t_start t) (t_out t) (logged (t_bs t) b) (t_img t) (t_tr t) (fset (t_view t) b d).

Section tx.
Context `{P : Platform} {HP : PlatformOk P}.

Definition fs_frame (s0 s : kstate) : Prop := bio_frame (with_k_log (k_log s) s0) s.

Definition trefs (bs : list Z) (H : list (nat * Z)) (x : Z) : Z :=
  (if decide (x ∈ bs) then 1 else 0) + (if decide (x ∈ H.*2) then 1 else 0).

Record tx (s0 s : kstate) (H : list (nat * Z)) (t : txst) : Prop := {
  tx_cs : cs s s H (t_img t) (t_tr t) (t_view t) (trefs (t_bs t) H);
  tx_log : log_cfg (k_log s) (t_start t) (t_bs t);
  tx_larea : area (t_start t);
  tx_homes : Forall (home (t_start t)) (t_bs t);
  tx_bsnd : NoDup (t_bs t);
  tx_out : l_outstanding (k_log s) = t_out t;
  tx_hnd : NoDup H.*2;
  tx_frame : fs_frame s0 s }.

(** *** Frames *)
Lemma with_log_id s : with_k_log (k_log s) s = s.
Proof. by destruct s. Qed.
Lemma fs_frame_refl s : fs_frame s s.
Proof. unfold fs_frame. rewrite with_log_id. apply bio_frame_refl. Qed.
Lemma bio_frame_log L s s' : bio_frame s s' → bio_frame (with_k_log L s) (with_k_log L s').
Proof. intros [H1 H2]. split; [done|]. rewrite H2 at 1. by destruct s. Qed.
Lemma fs_frame_log L s0 s : fs_frame s0 s → fs_frame s0 (with_k_log L s).
Proof. intros H. apply (bio_frame_log L) in H. exact H. Qed.
Lemma fs_frame_bio s0 s s' : fs_frame s0 s → bio_frame s s' → fs_frame s0 s'.
Proof.
  intros H H'. unfold fs_frame. rewrite (frame_log s s' H'). by eapply bio_frame_trans.
Qed.
Lemma fs_frame_trans s1 s2 s3 : fs_frame s1 s2 → fs_frame s2 s3 → fs_frame s1 s3.
Proof.
  intros H1 H2. apply (fs_frame_log (k_log s3)) in H1. unfold fs_frame in *.
  eapply bio_frame_trans; [|exact H2]. exact H1.
Qed.
Lemma frame_sb s s' : fs_frame s s' → k_sb s' = k_sb s.
Proof. intros [_ ->]. by destruct s. Qed.
Lemma frame_inodes s s' : fs_frame s s' → k_inodes s' = k_inodes s.
Proof. intros [_ ->]. by destruct s. Qed.
Lemma frame_mem s s' : fs_frame s s' → k_mem s' = k_mem s.
Proof. intros [_ ->]. by destruct s. Qed.

Lemma frame_slock s s' i : fs_frame s s' → slock_at s' (SlInode i) = slock_at s (SlInode i).
Proof. intros [[_ H] _]. apply H. Qed.

Lemma tx_rebase s0 s1 s H t : fs_frame s0 s1 → tx s1 s H t → tx s0 s H t.
Proof. intros Hf [T1 T2 T3 T4 T5 T6 T7 T8]. split; try done. by eapply fs_frame_trans. Qed.
Lemma tx_self s0 s H t : tx s0 s H t → tx s s H t.
Proof. intros [T1 T2 T3 T4 T5 T6 T7 T8]. split; try done. apply fs_frame_refl. Qed.
Lemma tx_calm s0 s H t : tx s0 s H t → calm s.
Proof. intros T. destruct (cs_bio _ _ _ _ _ _ _ (tx_cs _ _ _ _ T)) as [l Hb]. apply Hb. Qed.

(** A step of the cache that keeps the log. *)
Lemma tx_step s0 s s' H H' t t' :
  tx s0 s H t → cs s s' H' (t_img t') (t_tr t') (t_view t') (trefs (t_bs t') H') →
  t_start t' = t_start t → t_out t' = t_out t → t_bs t' = t_bs t → NoDup H'.*2 → tx s0 s' H' t'.
Proof.
  destruct t, t'. cbn. intros [T1 T2 T3 T4 T5 T6 T7 T8] C -> -> -> Hnd. pose proof (cs_frame _ _ _ _ _ _ _ C) as Hf.
  pose proof (frame_log _ _ Hf) as EL. split; cbn in *; rewrite ?EL; try done.
  - by eapply cs_self.
  - by eapply fs_frame_bio.
Qed.

(** *** The rules *)
Lemma trefs_bound bs H x : 0 <= trefs bs H x <= 2.
Proof. unfold trefs. repeat case_decide; lia. Qed.
Lemma trefs_roomy bs H : (length bs + length H < NBUF)%nat → roomy (trefs bs H).
Proof.
  intros Hl. exists (bs ++ H.*2). rewrite length_app, length_fmap. split; [|done].
  intros x. unfold trefs. repeat case_decide; rewrite elem_of_app; tauto || lia.
Qed.

(** A block that is neither logged nor held is as on the disk. *)
Lemma tx_clean s0 s H t x : tx s0 s H t → x ∉ t_bs t → x ∉ H.*2 → t_view t x = blk (t_img t) x.
Proof.
  intros T Hx Hh. eapply cs_clean; [exact (tx_cs _ _ _ _ T)|]. unfold trefs. by rewrite !decide_False.
Qed.

Lemma tx_bread s0 s H t b :
  tx s0 s H t → blk_ok b → b ∉ H.*2 → (length (t_bs t) + length H < NBUF)%nat →
  ∃ i s', bread ROOTDEV b s = Ok i s' ∧ i ∉ H.*1 ∧ tx s0 s' ((i, b) :: H) t.
Proof.
  intros T Hb Hni Hl. destruct (cs_bread _ _ _ _ _ _ _ b (tx_cs _ _ _ _ T)) as (i & s' & E & Hi & C);
    [done..| | |].
  - pose proof (trefs_bound (t_bs t) H b). lia.
  - right. by apply trefs_roomy.
  - exists i, s'. split_and!; [done..|]. eapply tx_step; [done| |done|done|done|].
    + eapply cs_ext; [done| |exact C]. intros x. unfold fset, trefs. cbn.
      repeat case_decide; subst; try set_solver; lia.
    + cbn. apply NoDup_cons. split; [done|apply T].
Qed.

Lemma tx_data {B} s0 s H t i b (f : list Z → KM B) :
  tx s0 s H t → (i, b) ∈ H →
  (bf ← get_buf i; f (b_data bf)) s = f (t_view t b) s ∧ length (t_view t b) = Z.to_nat BSIZE.
Proof.
  intros T Hin. destruct (cs_buf _ _ _ _ _ _ _ _ _ (tx_cs _ _ _ _ T) Hin)
    as (bf & Hbf & _ & _ & E & _ & _ & _ & Hl & _). split; [|done].
  unfold get_buf. rewrite bind_assoc, bind_gets, Hbf. cbn [deref]. by rewrite bind_ret, E.
Qed.

Lemma tx_upd s0 s H t i b f d :
  tx s0 s H t → (i, b) ∈ H → length d = Z.to_nat BSIZE →
  (∀ bf, b_data bf = t_view t b → f bf = with_b_data d bf) →
  ∃ s', upd_buf i f s = Ok tt s' ∧ tx s0 s' H (with_view (fset (t_view t) b d) t).
Proof.
  intros T Hin Hd Hf.
  destruct (cs_upd _ _ _ _ _ _ _ i b f d (tx_cs _ _ _ _ T) Hin Hd Hf) as (s' & E & C).
  exists s'. split; [done|]. eapply tx_step; try done. apply T.
Qed.

Lemma logged_in bs b : b ∈ logged bs b.
Proof. unfold logged. case_decide; set_solver. Qed.
Lemma length_logged bs b : (length (logged bs b) <= length bs + 1)%nat.
Proof. unfold logged. case_decide; rewrite ?length_app; cbn; lia. Qed.

Lemma tx_log_write s0 s H t i b :
  tx s0 s H t → (i, b) ∈ H → home (t_start t) b → (length (t_bs t) < Z.to_nat LOGBLOCKS)%nat → 1 <= t_out t →
  ∃ s', log_write i s = Ok tt s' ∧ tx s0 s' H (with_bs (logged (t_bs t) b) t).
Proof.
  intros T Hin Hh Hl Ho1. pose proof T as [T1 T2 T3 T4 T5 T6 T7 T8].
  pose proof (trefs_bound (t_bs t) H b).
  destruct (log_write_ok s H _ _ _ _ _ _ i b T1 Hin (proj2 (proj1 Hh)) T2 Hl ltac:(lia)) as (s' & L & E & C & Hc & Ho & Hm);
    [lia|].
  exists s'. split; [done|]. pose proof (frame_log _ _ (cs_frame _ _ _ _ _ _ _ C)) as EL. cbn in EL.
  split; cbn [t_bs t_start t_out t_img t_tr t_view with_bs]; rewrite ?EL; try done.
  - eapply cs_self, cs_ext; [done| |exact C]. intros x. unfold pinned, logged, fset, trefs.
    assert (b ∈ H.*2) by (apply list_elem_of_fmap; by exists (i, b)).
    destruct (decide (b ∈ t_bs t)); [done|]. repeat case_decide; subst; set_solver || lia.
  - unfold logged. case_decide; [done|]. apply Forall_app. split; [done|by apply Forall_singleton].
  - unfold logged. case_decide; [done|]. apply NoDup_app. split_and!; [done|set_solver|apply NoDup_singleton].
  - lia.
  - eapply fs_frame_bio; [|exact (cs_frame _ _ _ _ _ _ _ C)]. by apply fs_frame_log.
Qed.

Lemma filter_others (i : nat) (H : list (nat * Z)) : i ∉ H.*1 → filter (λ p, p.1 ≠ i) H = H.
Proof.
  induction H as [|[j b] H IH]; [done|]. rewrite fmap_cons, not_elem_of_cons. intros [H1 H2].
  rewrite filter_cons_True by (cbn in *; congruence). f_equal. by apply IH.
Qed.

Lemma tx_brelse s0 s H t i b :
  tx s0 s ((i, b) :: H) t → b ∈ t_bs t ∨ t_view t b = blk (t_img t) b →
  ∃ s', brelse i s = Ok tt s' ∧ tx s0 s' H t.
Proof.
  intros T Hcl. pose proof (tx_cs _ _ _ _ T) as C. pose proof (tx_hnd _ _ _ _ T) as Hnd. cbn in Hnd.
  apply NoDup_cons in Hnd as [Hni Hnd].
  destruct (cs_bio _ _ _ _ _ _ _ C) as [l Hb]. pose proof (bio_held_nodup _ _ _ Hb) as Hnd1. cbn in Hnd1.
  apply NoDup_cons in Hnd1 as [Hni1 _].
  destruct (cs_brelse _ _ _ _ _ _ _ i b C) as (s' & E & C'); [left| |].
  { unfold trefs. cbn. rewrite (decide_True (P := b ∈ b :: _)) by left. case_decide; [lia|].
    intros _. by destruct Hcl. }
  exists s'. split; [done|]. eapply tx_step; try done.
  rewrite filter_cons_False in C' by (cbn; tauto). rewrite (filter_others i H Hni1) in C'.
  eapply cs_ext; [done| |exact C']. intros x. unfold fset, trefs. cbn.
  repeat case_decide; subst; set_solver || lia.
Qed.

(** Change a held block, log it, and give it back. *)
Lemma tx_write_done s0 s H t i b f d :
  tx s0 s ((i, b) :: H) t → length d = Z.to_nat BSIZE →
  (∀ bf, b_data bf = t_view t b → f bf = with_b_data d bf) →
  home (t_start t) b → (length (t_bs t) < Z.to_nat LOGBLOCKS)%nat → 1 <= t_out t →
  ∃ s1 s2 s3, upd_buf i f s = Ok tt s1 ∧ log_write i s1 = Ok tt s2 ∧ brelse i s2 = Ok tt s3 ∧
    tx s0 s3 H (wrote b d t).
Proof.
  intros T Hd Hf Hh Hl Ho.
  destruct (tx_upd _ _ _ _ i b f d T) as (s1 & E1 & T1); [left|done..|].
  destruct (tx_log_write _ _ _ _ i b T1) as (s2 & E2 & T2); [left|done..|].
  destruct (tx_brelse _ _ _ _ i b T2) as (s3 & E3 & T3); [left; apply logged_in|].
  by exists s1, s2, s3.
Qed.
End tx.
