(* ===== verification/Console.v ===== *)
(** * kernel/console.c, uart.c, plic.c, and the copy routines of proc.c

    The console's input buffer and its editing, the UART driver and the
    interrupt controller.  Reading [UART_RX] takes the first byte waiting in
    [u_rx]; [UART_STATUS] shows RX available while there is one.  The
    transmitter is ready whenever [u_status] says so.  [consoleread] keeps the
    local variables [dst] and [n] when it sleeps: [consoleread_resume] takes
    them. *)

From S2P Require Import Prelude Machine State CString Spinlock Printf Emu Kalloc Vm VmSpec VmUser VmCopy Sched.
From Stdlib Require Import Ascii.

Section console.
Context `{P : Platform}.

(** ** kernel/proc.c: copying to and from a user or kernel address *)
Definition either_copyout (user_dst : bool) (dst : Z) (src : list Z) : KM Z :=
  o ← myproc;
  if user_dst then
    i ← deref o;
    p ← getproc i;
    copyout (p_pagetable p) dst src
  else put_bytes dst src;; mret 0.

Definition either_copyin (user_src : bool) (src len : Z) : KM (Z * list Z) :=
  o ← myproc;
  if user_src then
    i ← deref o;
    p ← getproc i;
    copyin (p_pagetable p) src len
  else l ← get_bytes src len; mret (0, l).

(** A C string in an array: the bytes before the first NUL. *)
Fixpoint cstr (l : list Z) : list Z :=
  match l with [] => [] | c :: l' => if c =? 0 then [] else c :: cstr l' end.

(** [procdump]: one line per process in use. *)
Definition state_name (st : procstate) : list Z :=
  str (match st with
       | UNUSED => "unused" | USED => "used" | SLEEPING => "sleep "
       | RUNNABLE => "runble" | RUNNING => "run   " | ZOMBIE => "zombie"
       end).
Definition procdump : KM unit :=
  printf (str "
") [];;
  for_each (seq 0 NPROC) (λ i,
    p ← getproc i;
    if decide (p_state p = UNUSED) then mret tt else
    printf (str "%d %s %s") [AInt (p_pid p); AStr (Some (state_name (p_state p))); AStr (Some (cstr (p_name p)))];;
    printf (str "
") [];;
    mret tt).

(** ** kernel/uart.c *)
Definition UART_CTRL_RX_IRQ : Z := 1.
Definition UART_CTRL_TX_IRQ : Z := 2.
Definition upd_uart (f : uart → uart) : KM unit := modify (λ s, with_k_uart (f (k_uart s)) s).

Definition uartinit : KM unit :=
  upd_uart (with_u_ctrl UART_CTRL_RX_IRQ);;
  initlock LkUart "uart".

(** From the test of the inner loop on, with the bytes still to send. *)
Fixpoint uartwrite_loop (buf : list Z) : KM unit :=
  match buf with
  | [] => release LkUart
  | c :: buf' =>
      u ← gets k_uart;
      if negb (u_tx_busy u =? 0) then sleep ChUartTx LkUart else
      uart_tx_write (u8 c);;
      upd_uart (with_u_tx_busy 1);;
      upd_uart (with_u_ctrl (Z.lor UART_CTRL_RX_IRQ UART_CTRL_TX_IRQ));;
      uartwrite_loop buf'
  end.
Definition uartwrite (buf : list Z) : KM unit := acquire LkUart;; uartwrite_loop buf.
Definition uartwrite_resume (intena : bool) (rest : list Z) : KM unit :=
  sleep_resume intena LkUart;; uartwrite_loop rest.

Definition uart_status (u : uart) : Z :=
  Z.lor (Z.land (u_status u) UART_STATUS_TX_READY)
    (match u_rx u with [] => 0 | _ => UART_STATUS_RX_AVAIL end).

Definition uartgetc : KM Z :=
  u ← gets k_uart;
  if has (uart_status u) UART_STATUS_RX_AVAIL then
    match u_rx u with
    | c :: rx => upd_uart (with_u_rx rx);; mret (Z.land c 255)
    | [] => mret 0
    end
  else mret (-1).

(** ** kernel/console.c *)
Definition INPUT_BUF_SIZE : Z := 128.
(** [C(x)] *)
Definition ctrl (x : ascii) : Z := chr x - 64.
Definition upd_cons (f : console → console) : KM unit := modify (λ s, with_k_cons (f (k_cons s)) s).
(** [cons_buf[i % INPUT_BUF_SIZE]] *)
Definition cons_at (c : console) (i : Z) : Z :=
  default 0 (cons_buf c !! Z.to_nat (u32 i mod INPUT_BUF_SIZE)).

Fixpoint consolewrite_loop (k : nat) (user_src : bool) (src i : Z) : KM Z :=
  match k with
  | O => mret i
  | S k' =>
      '(r, c) ← either_copyin user_src (u32 (src + i)) 1;
      if r =? -1 then mret i else
      uartputc_sync (default 0 (head c));;
      consolewrite_loop k' user_src src (i + 1)
  end.
Definition consolewrite (user_src : bool) (src n : Z) : KM Z :=
  consolewrite_loop (Z.to_nat n) user_src src 0.

(** From the outer test on, the console lock held; [k] bytes remain and
    [target - k] were delivered. *)
Fixpoint consoleread_loop (k : nat) (user_dst : bool) (dst target : Z) : KM Z :=
  match k with
  | O => release LkCons;; mret target
  | S k' =>
      c ← gets k_cons;
      if cons_r c =? cons_w c then
        i ← curproc;
        q ← killed i;
        if negb (q =? 0) then release LkCons;; mret (-1)
        else sleep ChCons LkCons;; mret 0
      else
      let ch := cons_at c (cons_r c) in
      upd_cons (with_cons_r (u32 (cons_r c + 1)));;
      if ch =? ctrl "D" then
        when (Z.of_nat k <? target) (upd_cons (λ c, with_cons_r (u32 (cons_r c - 1)) c));;
        release LkCons;;
        mret (target - Z.of_nat k)
      else
      r ← either_copyout user_dst dst [u8 ch];
      if r =? -1 then release LkCons;; mret (target - Z.of_nat k) else
      if ch =? 10 then release LkCons;; mret (target - Z.of_nat k')
      else consoleread_loop k' user_dst (u32 (dst + 1)) target
  end.
Definition consoleread (user_dst : bool) (dst n : Z) : KM Z :=
  acquire LkCons;;
  if 0 <? n then consoleread_loop (Z.to_nat n) user_dst dst n
  else release LkCons;; mret 0.
Definition consoleread_resume (intena : bool) (k : nat) (user_dst : bool) (dst target : Z) : KM Z :=
  sleep_resume intena LkCons;; consoleread_loop k user_dst dst target.

(** [C('U')]: at most the buffer's size of characters is erased. *)
Fixpoint cons_kill_line (fuel : nat) : KM unit :=
  match fuel with
  | O => spin
  | S f =>
      c ← gets k_cons;
      if negb (cons_e c =? cons_w c) && negb (cons_at c (cons_e c - 1) =? 10) then
        upd_cons (with_cons_e (u32 (cons_e c - 1)));;
        consputc BACKSPACE;;
        cons_kill_line f
      else mret tt
  end.

Definition consoleintr (c : Z) : KM unit :=
  acquire LkCons;;
  (if c =? ctrl "P" then procdump
   else if c =? ctrl "U" then cons_kill_line (S (Z.to_nat INPUT_BUF_SIZE))
   else if (c =? ctrl "H") || (c =? 127) then
     k ← gets k_cons;
     when (negb (cons_e k =? cons_w k))
       (upd_cons (with_cons_e (u32 (cons_e k - 1)));;
        consputc BACKSPACE)
   else
     k ← gets k_cons;
     when (negb (c =? 0) && (u32 (cons_e k - cons_r k) <? INPUT_BUF_SIZE))
       (let c := if c =? 13 then 10 else c in
        consputc c;;
        upd_cons (λ k, with_cons_e (u32 (cons_e k + 1))
          (with_cons_buf (<[Z.to_nat (cons_e k mod INPUT_BUF_SIZE) := u8 c]> (cons_buf k)) k));;
        k ← gets k_cons;
        when ((c =? 10) || (c =? ctrl "D") || (u32 (cons_e k - cons_r k) =? INPUT_BUF_SIZE))
          (upd_cons (with_cons_w (cons_e k));;
           wakeup (Some ChCons))));;
  release LkCons.

(** uartintr drains RX: the bytes waiting when it starts. *)
Fixpoint uartintr_loop (fuel : nat) : KM unit :=
  match fuel with
  | O => spin
  | S f =>
      c ← uartgetc;
      if c =? -1 then mret tt else consoleintr c;; uartintr_loop f
  end.
Definition uartintr : KM unit :=
  acquire LkUart;;
  u ← gets k_uart;
  when (has (uart_status u) UART_STATUS_TX_READY && negb (u_tx_busy u =? 0))
    (upd_uart (with_u_tx_busy 0);;
     upd_uart (with_u_ctrl UART_CTRL_RX_IRQ);;
     wakeup (Some ChUartTx));;
  release LkUart;;
  n ← gets (λ s, length (u_rx (k_uart s)));
  uartintr_loop (S n).

Definition CONSOLE : Z := 1.
Definition consoleinit : KM unit :=
  initlock LkCons "cons";;
  uartinit;;
  modify (λ s, with_k_devsw (<[Z.to_nat CONSOLE := (Some Consoleread, Some Consolewrite)]> (k_devsw s)) s).

(** ** kernel/plic.c *)
Definition IC_BIT_TIMER : Z := 1.
Definition IC_BIT_UART_RX : Z := 2.
Definition IC_BIT_UART_TX : Z := 4.
Definition IC_BIT_BLKDEV : Z := 8.
Definition upd_regs (f : regs → regs) : KM unit := modify (λ s, with_k_regs (f (k_regs s)) s).
(** Writing IC_ACK clears the pending bits given. *)
Definition ic_ack (mask : Z) : KM unit :=
  upd_regs (λ r, with_r_pending (Z.land (r_pending r) (u32 (Z.lnot mask))) r).

Definition plicinit : KM unit := upd_regs (with_r_enable (Z.lor IC_BIT_UART_RX IC_BIT_BLKDEV)).
Definition plicinithart : KM unit := mret tt.
Definition plic_claim : KM Z := gets (λ s, i32 (r_pending (k_regs s))).
Definition plic_complete (irq_mask : Z) : KM unit := ic_ack (u32 irq_mask).
End console.
