(* ===== verification/Pipe.v ===== *)
(** * kernel/pipe.c: a pipe is a bounded queue of bytes

    A pipe occupies the page it was allocated in; its fields are the record
    [k_pipes s !! pi] and its lock is [LkPipe pi].  [pipealloc], which needs
    the file table, is in File.v.  A pipe that holds the bytes [q] in order is
    [pipe_rep p q]; the theorems show that [pipewrite] appends to [q] and
    [piperead] takes from its front. *)

From S2P Require Import Prelude Machine State CString Spinlock Printf Emu Kalloc Vm VmSpec VmUser VmCopy VmThms Sched.

Definition PIPESIZE : Z := 512.

Section pipe.
Context `{P : Platform}.

Definition get_pipe (pi : Z) : KM pipe := o ← gets (λ s, k_pipes s !! pi); deref o.
Definition upd_pipe (pi : Z) (f : pipe → pipe) : KM unit :=
  p ← get_pipe pi; modify (λ s, with_k_pipes (<[pi := f p]> (k_pipes s)) s).
(** The page stops being a pipe. *)
Definition drop_pipe (pi : Z) : KM unit := modify (λ s, with_k_pipes (delete pi (k_pipes s)) s).

Definition pipeclose (pi : Z) (writable : bool) : KM unit :=
  acquire (LkPipe pi);;
  (if writable then
     upd_pipe pi (with_pi_writeopen 0);;
     wakeup (Some (ChPipeRead pi))
   else
     upd_pipe pi (with_pi_readopen 0);;
     wakeup (Some (ChPipeWrite pi)));;
  p ← get_pipe pi;
  if (pi_readopen p =? 0) && (pi_writeopen p =? 0) then
    release (LkPipe pi);;
    drop_pipe pi;;
    kfree pi
  else release (LkPipe pi).

(** After the loop. *)
Definition pipewrite_end (pi i : Z) : KM Z :=
  wakeup (Some (ChPipeRead pi));;
  release (LkPipe pi);;
  mret i.

(** [pi->data[pi->nwrite++ % PIPESIZE] = ch] *)
Definition put_byte (ch : Z) (p : pipe) : pipe :=
  with_pi_nwrite (u32 (pi_nwrite p + 1))
    (with_pi_data (<[Z.to_nat (pi_nwrite p mod PIPESIZE) := ch]> (pi_data p)) p).

(** The loop [while(i < n)], with [k = n - i] bytes to go. *)
Fixpoint pipewrite_loop (k : nat) (pi addr i : Z) (pr : nat) : KM Z :=
  match k with
  | O => pipewrite_end pi i
  | S k' =>
      p ← get_pipe pi;
      stop ← (if pi_readopen p =? 0 then mret true else q ← killed pr; mret (negb (q =? 0)));
      if stop : bool then release (LkPipe pi);; mret (-1) else
      p ← get_pipe pi;
      if pi_nwrite p =? u32 (pi_nread p + PIPESIZE) then
        wakeup (Some (ChPipeRead pi));;
        sleep (ChPipeWrite pi) (LkPipe pi);;
        mret i
      else
        pp ← getproc pr;
        '(r, ch) ← copyin (p_pagetable pp) (u32 (addr + i)) 1;
        if r =? -1 then pipewrite_end pi i else
        upd_pipe pi (put_byte (default 0 (head ch)));;
        pipewrite_loop k' pi addr (i + 1) pr
  end.
Definition pipewrite (pi addr n : Z) : KM Z :=
  pr ← curproc;
  acquire (LkPipe pi);;
  pipewrite_loop (Z.to_nat n) pi addr 0 pr.
(** After a sleep with [i] bytes written. *)
Definition pipewrite_resume (intena : bool) (pi addr n i : Z) (pr : nat) : KM Z :=
  sleep_resume intena (LkPipe pi);; pipewrite_loop (Z.to_nat (n - i)) pi addr i pr.

Definition piperead_end (pi i : Z) : KM Z :=
  wakeup (Some (ChPipeWrite pi));;
  release (LkPipe pi);;
  mret i.

Fixpoint piperead_copy (k : nat) (pi addr i : Z) (pr : nat) : KM Z :=
  match k with
  | O => piperead_end pi i
  | S k' =>
      p ← get_pipe pi;
      if pi_nread p =? pi_nwrite p then piperead_end pi i else
      let ch := default 0 (pi_data p !! Z.to_nat (pi_nread p mod PIPESIZE)) in
      pp ← getproc pr;
      r ← copyout (p_pagetable pp) (u32 (addr + i)) [ch];
      if r =? -1 then piperead_end pi (if i =? 0 then -1 else i) else
      upd_pipe pi (λ p, with_pi_nread (u32 (pi_nread p + 1)) p);;
      piperead_copy k' pi addr (i + 1) pr
  end.
(** From the test of the first loop on, the lock held. *)
Definition piperead_wait (pi addr n : Z) (pr : nat) : KM Z :=
  p ← get_pipe pi;
  if (pi_nread p =? pi_nwrite p) && negb (pi_writeopen p =? 0) then
    q ← killed pr;
    if negb (q =? 0) then release (LkPipe pi);; mret (-1)
    else sleep (ChPipeRead pi) (LkPipe pi);; mret 0
  else piperead_copy (Z.to_nat n) pi addr 0 pr.
Definition piperead (pi addr n : Z) : KM Z :=
  pr ← curproc;
  acquire (LkPipe pi);;
  piperead_wait pi addr n pr.
Definition piperead_resume (intena : bool) (pi addr n : Z) (pr : nat) : KM Z :=
  sleep_resume intena (LkPipe pi);; piperead_wait pi addr n pr.

(** ** The abstract pipe *)
Record pipe_rep (p : pipe) (q : list Z) : Prop := {
  pr_len : length (pi_data p) = Z.to_nat PIPESIZE;
  pr_read : 0 <= pi_nread p < 4294967296;
  pr_write : pi_nwrite p = u32 (pi_nread p + Z.of_nat (length q));
  pr_fit : (length q <= Z.to_nat PIPESIZE)%nat;
  pr_data : ∀ i c, q !! i = Some c →
    pi_data p !! Z.to_nat ((pi_nread p + Z.of_nat i) mod PIPESIZE) = Some c }.

Lemma rep_full p q :
  pipe_rep p q → (pi_nwrite p =? u32 (pi_nread p + PIPESIZE)) = bool_decide (length q = Z.to_nat PIPESIZE).
Proof.
  intros [R1 R2 R3 R4 R5]. unfold PIPESIZE in *. rewrite R3. destruct (Z.eqb_spec (u32 (pi_nread p + Z.of_nat (length q))) (u32 (pi_nread p + 512))) as [E|E].
  - symmetry. apply bool_decide_eq_true. zl.
  - symmetry. apply bool_decide_eq_false. intros E'. apply E. f_equal. lia.
Qed.
Lemma rep_empty p q : pipe_rep p q → (pi_nread p =? pi_nwrite p) = bool_decide (q = []).
Proof.
  intros [R1 R2 R3 R4 R5]. unfold PIPESIZE in *. rewrite R3. destruct q as [|c q]; cbn [length] in *.
  - rewrite bool_decide_true by done. apply Z.eqb_eq. zl.
  - rewrite bool_decide_false by done. apply Z.eqb_neq. zl.
Qed.

(** The indices of two queued bytes differ. *)
Lemma slot_ne n i j : 0 <= n → 0 <= i < 512 → 0 <= j < 512 → i ≠ j →
  Z.to_nat ((n + i) mod PIPESIZE) ≠ Z.to_nat ((n + j) mod PIPESIZE).
Proof. unfold PIPESIZE. intros. zl. Qed.
Lemma slot_wrap n i : (u32 (n + i)) mod PIPESIZE = (n + i) mod PIPESIZE.
Proof. unfold PIPESIZE. zl. Qed.

Lemma rep_put p q c :
  pipe_rep p q → (length q < Z.to_nat PIPESIZE)%nat → pipe_rep (put_byte c p) (q ++ [c]).
Proof.
  intros [R1 R2 R3 R4 R5] Hl. split; cbn.
  - by rewrite length_insert.
  - done.
  - rewrite R3, length_app. cbn. zl.
  - rewrite length_app. cbn. lia.
  - intros i c' Hi. rewrite R3, slot_wrap. destruct (decide (i = length q)) as [->|Hne].
    + rewrite lookup_app_r, Nat.sub_diag in Hi by lia. injection Hi as <-.
      apply list_lookup_insert_eq. rewrite R1. unfold PIPESIZE. zl.
    + pose proof (lookup_lt_Some _ _ _ Hi) as Hlt. rewrite length_app in Hlt. cbn in Hlt.
      rewrite lookup_app_l in Hi by lia. rewrite list_lookup_insert_ne; [by apply R5|].
      apply slot_ne; unfold PIPESIZE in *; lia.
Qed.

Lemma rep_take p c q :
  pipe_rep p (c :: q) →
  pi_data p !! Z.to_nat (pi_nread p mod PIPESIZE) = Some c ∧
  pipe_rep (with_pi_nread (u32 (pi_nread p + 1)) p) q.
Proof.
  intros [R1 R2 R3 R4 R5]. cbn [length] in *. split.
  - pose proof (R5 0%nat c eq_refl) as H. by rewrite Z.add_0_r in H.
  - split; cbn; [done|zl|rewrite R3; zl|lia|].
    intros i c' Hi. specialize (R5 (S i) c' Hi). rewrite <- R5. f_equal. f_equal.
    unfold PIPESIZE. zl.
Qed.

(** ** The operations against it *)
Context {HP : PlatformOk P}.

(** Process [i] uses the pipe at [pi] with no lock held. *)
Record pipe_env (s : kstate) (pi : Z) (i : nat) (p : proc) (ps fl : list Z) : Prop := {
  pe_calm : calm s;
  pe_lock : lock_ready (LkPipe pi) s;
  pe_run : running s i p;
  pe_noff : c_noff (k_cpu s) = 0;
  pe_alive : p_killed p = 0;
  pe_mem : umem s (p_pagetable p) ps fl }.

Definition put_pipe (pi : Z) (p : pipe) (s : kstate) : kstate := with_k_pipes (<[pi := p]> (k_pipes s)) s.

Lemma umem_ext s s' pt ps fl :
  k_mem s' = k_mem s → k_freelist s' = k_freelist s → kenv s' → umem s pt ps fl → umem s' pt ps fl.
Proof.
  intros Em Ef He [[_ V2 V3 V4] U2 U3]. split; rewrite ?Em; try done. split; try done; [|by rewrite Em].
  destruct V2. split; rewrite ?Em, ?Ef; done.
Qed.
Lemma umem_acq s lk pt ps fl : calm s → lk ≠ LkKmem → umem s pt ps fl → umem (acq lk s) pt ps fl.
Proof.
  intros Hc Hne. apply umem_ext; [done|done|]. split; [apply acq_kctx, Hc|].
  apply lock_ready_acq; [by apply (calm_locks s Hc)|done].
Qed.

Lemma pe_put s pi i p ps fl pp : pipe_env s pi i p ps fl → pipe_env (put_pipe pi pp s) pi i p ps fl.
Proof.
  intros [E1 E2 E3 E4 E5 E6]. split; try done; [by apply (calm_same s)|].
  eapply umem_ext, E6; [done|done|]. split; [apply (calm_same s); [done|apply E1]|]. by apply (calm_locks s E1).
Qed.

Lemma pe_proc s pi i p ps fl : pipe_env s pi i p ps fl → (i < NPROC)%nat.
Proof. intros [E1 _ [_ Hp] _ _ _]. apply lookup_lt_Some in Hp. by rewrite (calm_procs s E1) in Hp. Qed.

(** [wakeup] and [release] at the end of an operation. *)
Lemma pipe_wake s pi i p ps fl ch :
  pipe_env s pi i p ps fl →
  wakeup ch (acq (LkPipe pi) s) = Ok tt (acq (LkPipe pi) (woken ch s)) ∧ pipe_env (woken ch s) pi i p ps fl.
Proof.
  intros [E1 E2 [R1 R2] E4 E5 E6]. split.
  - rewrite wakeup_ok; [done|apply acq_kctx, E1|apply (calm_procs s E1)|].
    intros j Hj _. apply lock_ready_acq; [by apply (calm_locks s E1)|done].
  - assert (calm (woken ch s)) as Hc by (apply (calm_same s); [apply woken_same|done]).
    split; try done.
    + split; [done|]. cbn. unfold wake. rewrite list_lookup_imap, R2. cbn. rewrite R1. by rewrite bool_decide_true.
    + eapply umem_ext, E6; [done|done|]. split; [apply Hc|by apply (calm_locks _ Hc)].
Qed.

Lemma get_pipe_ok {B} (f : pipe → KM B) s pi p :
  k_pipes s !! pi = Some p → (q ← get_pipe pi; f q) s = f p s.
Proof. intros H. unfold get_pipe. by rewrite bind_assoc, bind_gets, H. Qed.

Lemma put_pipe_put pi p p' s : put_pipe pi p (put_pipe pi p' s) = put_pipe pi p s.
Proof. unfold put_pipe. cbn. by rewrite insert_insert_eq. Qed.
Lemma put_pipe_id pi p s : k_pipes s !! pi = Some p → put_pipe pi p s = s.
Proof. intros H. unfold put_pipe. rewrite insert_id by done. by destruct s. Qed.

Lemma ubytes_S m pt va n : ubytes m pt va (S n) = ldb m (uaddr m pt va) :: ubytes m pt (va + 1) n.
Proof.
  replace (S n) with (1 + n)%nat by lia. rewrite ubytes_app. unfold ubytes. cbn. by rewrite Z.add_0_r.
Qed.

(** One byte from the user's buffer. *)
Lemma copyin_byte s pt ps fl va :
  umem s pt ps fl → 0 <= va → va < MAXVA → uvalid (k_mem s) pt va = true →
  copyin pt va 1 s = Ok (0, [ldb (k_mem s) (uaddr (k_mem s) pt va)]) s.
Proof.
  intros Hu H0 H1 Hv. unfold copyin. rewrite (copyin_loop_ok pt ps fl s); [|done|lia|lia|lia|].
  { change (Z.to_nat 1) with 1%nat. by rewrite ubytes_S. }
  intros va' Hva. by replace va' with va by lia.
Qed.

Lemma pipewrite_end_ok s pi i p ps fl k :
  pipe_env s pi i p ps fl →
  pipewrite_end pi k (acq (LkPipe pi) s) = Ok k (woken (Some (ChPipeRead pi)) s).
Proof.
  intros E. unfold pipewrite_end. destruct (pipe_wake _ _ _ _ _ _ (Some (ChPipeRead pi)) E) as [Ew E'].
  rewrite (bind_Ok _ _ _ _ _ Ew).
  by rewrite (bind_Ok _ _ _ _ _ (release_acq_id _ _ (calm_ctx _ (pe_calm _ _ _ _ _ _ E')) (pe_lock _ _ _ _ _ _ E'))).
Qed.

(** One round of the loop with room in the pipe. *)
Lemma pipewrite_iter s pi pr p ps fl pp q addr i k :
  pipe_env s pi pr p ps fl → k_pipes s !! pi = Some pp → pipe_rep pp q → pi_readopen pp ≠ 0 →
  (length q < Z.to_nat PIPESIZE)%nat → 0 <= addr + i < MAXVA →
  uvalid (k_mem s) (p_pagetable p) (addr + i) = true →
  pipewrite_loop (S k) pi addr i pr (acq (LkPipe pi) s) =
  pipewrite_loop k pi addr (i + 1) pr
    (acq (LkPipe pi) (put_pipe pi (put_byte (ldb (k_mem s) (uaddr (k_mem s) (p_pagetable p) (addr + i))) pp) s)).
Proof.
  intros E Hpp Hq Hro Hlen Ha Hv. pose proof E as [E1 E2 E3 E4 E5 E6]. pose proof (pe_proc _ _ _ _ _ _ E) as Hpr.
  cbn [pipewrite_loop]. rewrite (get_pipe_ok _ (acq _ s) pi pp Hpp).
  destruct (Z.eqb_spec (pi_readopen pp) 0); [done|].
  rewrite bind_assoc, (killed_ok pr p); [|apply acq_kctx, E1| |apply E3].
  2:{ apply lock_ready_acq; [by apply (calm_locks s E1)|done]. }
  rewrite bind_ret, E5. cbn [Z.eqb negb]. rewrite (get_pipe_ok _ (acq _ s) pi pp Hpp).
  rewrite (rep_full pp q Hq), bool_decide_false by lia.
  rewrite (getproc_ok _ (acq _ s) pr p (proj2 E3)). rewrite u32_small by (pose proof MAXVA_eq; lia).
  rewrite (bind_Ok _ _ _ _ _ (copyin_byte _ _ _ _ _ (umem_acq s (LkPipe pi) _ _ _ E1 ltac:(discriminate) E6) (proj1 Ha) (proj2 Ha) Hv)).
  cbn match. change (0 =? -1) with false. cbn match.
  unfold upd_pipe. rewrite bind_assoc, (get_pipe_ok _ (acq _ s) pi pp Hpp), bind_modify. done.
Qed.

Lemma pipewrite_loop_ok pi pr p ps fl addr : ∀ k s pp q i,
  pipe_env s pi pr p ps fl → k_pipes s !! pi = Some pp → pipe_rep pp q → pi_readopen pp ≠ 0 →
  0 <= addr + i → addr + i + Z.of_nat k <= MAXVA →
  (∀ va, addr + i <= va < addr + i + Z.of_nat k → uvalid (k_mem s) (p_pagetable p) va = true) →
  let m := (Z.to_nat PIPESIZE - length q)%nat in
  ∃ pp', pi_readopen pp' = pi_readopen pp ∧ pi_writeopen pp' = pi_writeopen pp ∧
    pipe_rep pp' (q ++ ubytes (k_mem s) (p_pagetable p) (addr + i) (k `min` m)) ∧
    pipewrite_loop k pi addr i pr (acq (LkPipe pi) s) =
      let s' := woken (Some (ChPipeRead pi)) (put_pipe pi pp' s) in
      if bool_decide (k <= m)%nat then Ok (i + Z.of_nat k) s' else Sleep (parked pr p (ChPipeWrite pi) s').
Proof.
  induction k as [|k IH]; intros s pp q i E Hpp Hq Hro H0 H1 Hv m.
  { exists pp. cbn [Nat.min]. rewrite app_nil_r. split_and!; try done. cbn [pipewrite_loop].
    rewrite (pipewrite_end_ok s pi pr p ps fl i E), put_pipe_id by done.
    cbn zeta. rewrite bool_decide_true by lia. by rewrite Z.add_0_r. }
  destruct (decide (length q = Z.to_nat PIPESIZE)) as [Hfull|Hfull].
  - exists pp. subst m. rewrite Hfull, Nat.sub_diag. cbn [Nat.min]. rewrite app_nil_r.
    split_and!; try done. cbn [pipewrite_loop]. pose proof E as [E1 E2 E3 E4 E5 E6].
    pose proof (pe_proc _ _ _ _ _ _ E) as Hpr. rewrite (get_pipe_ok _ (acq _ s) pi pp Hpp).
    destruct (Z.eqb_spec (pi_readopen pp) 0); [done|].
    rewrite bind_assoc, (killed_ok pr p); [|apply acq_kctx, E1| |apply E3].
    2:{ apply lock_ready_acq; [by apply (calm_locks s E1)|done]. }
    rewrite bind_ret, E5. cbn [Z.eqb negb]. rewrite (get_pipe_ok _ (acq _ s) pi pp Hpp).
    rewrite (rep_full pp q Hq), bool_decide_true by done.
    destruct (pipe_wake _ _ _ _ _ _ (Some (ChPipeRead pi)) E) as [Ew E'].
    rewrite (bind_Ok _ _ _ _ _ Ew), put_pipe_id by done. cbn zeta. rewrite bool_decide_false by lia.
    apply bind_Sleep. destruct E' as [F1 F2 F3 F4 F5 F6]. by apply sleep_parks.
  - pose proof (pr_fit _ _ Hq) as Hfit.
    rewrite (pipewrite_iter s pi pr p ps fl pp q addr i k E Hpp Hq Hro); [|lia|lia|apply Hv; lia].
    set (c := ldb _ _). destruct (IH (put_pipe pi (put_byte c pp) s) (put_byte c pp) (q ++ [c]) (i + 1))
      as (pp' & P1 & P2 & P3 & P4).
    + by apply pe_put.
    + apply lookup_insert_eq.
    + apply rep_put; [done|lia].
    + done.
    + lia.
    + lia.
    + intros va Hva. apply Hv. lia.
    + exists pp'. rewrite length_app in P3, P4. cbn [length] in P3, P4.
      replace (Z.to_nat PIPESIZE - (length q + 1))%nat with (m - 1)%nat in P3, P4 by (subst m; lia).
      assert (1 <= m)%nat by (subst m; lia). split_and!; [done|done| |].
      * replace (S k `min` m)%nat with (S (k `min` (m - 1))) by lia. rewrite ubytes_S. fold c.
        rewrite <- app_assoc, Z.add_assoc in P3. exact P3.
      * rewrite P4. cbn zeta. rewrite put_pipe_put.
        replace (bool_decide (S k <= m)%nat) with (bool_decide (k <= m - 1)%nat) by (apply bool_decide_ext; lia).
        case_bool_decide; [|done]. f_equal. lia.
Qed.

(** C16: [pipewrite] appends.  With a reader and a live process, [pipewrite] of
    [n] mapped user bytes into a pipe holding [q] puts as many of them behind
    [q], in order, as the pipe has room for and wakes the readers; it returns
    [n] if all fit, and otherwise parks the process on the pipe's [nwrite]
    with the pipe full. *)
Theorem pipewrite_appends s pi pr p ps fl pp q addr n :
  pipe_env s pi pr p ps fl → k_pipes s !! pi = Some pp → pipe_rep pp q → pi_readopen pp ≠ 0 →
  0 <= n → 0 <= addr → addr + n <= MAXVA →
  (∀ va, addr <= va < addr + n → uvalid (k_mem s) (p_pagetable p) va = true) →
  let room := (Z.to_nat PIPESIZE - length q)%nat in
  ∃ pp', pi_readopen pp' = pi_readopen pp ∧ pi_writeopen pp' = pi_writeopen pp ∧
    pipe_rep pp' (q ++ ubytes (k_mem s) (p_pagetable p) addr (Z.to_nat n `min` room)) ∧
    pipewrite pi addr n s =
      let s' := woken (Some (ChPipeRead pi)) (put_pipe pi pp' s) in
      if bool_decide (Z.to_nat n <= room)%nat then Ok n s' else Sleep (parked pr p (ChPipeWrite pi) s').
Proof.
  intros E Hpp Hq Hro Hn Ha Hm Hv room. pose proof E as [E1 E2 E3 E4 E5 E6]. unfold pipewrite.
  rewrite (curproc_ok _ s pr p); [|apply E1|done].
  rewrite (bind_Ok _ _ _ _ _ (acquire_ready _ _ (calm_ctx s E1) E2)).
  destruct (pipewrite_loop_ok pi pr p ps fl addr (Z.to_nat n) s pp q 0 E Hpp Hq Hro) as (pp' & P1 & P2 & P3 & P4);
    rewrite ?Z.add_0_r, ?Z2Nat.id by lia; try done.
  rewrite Z.add_0_r in P3. rewrite Z.add_0_l, Z2Nat.id in P4 by lia. by exists pp'.
Qed.

(** ** Reading *)
Lemma copyout_byte s pt ps fl va c :
  umem s pt ps fl → 0 <= va → va < MAXVA → uwritable (k_mem s) pt va = true →
  ∃ m', copyout pt va [c] s = Ok 0 (with_k_mem m' s) ∧ uwrites (k_mem s) m' pt va [c] ∧
    umem (with_k_mem m' s) pt ps fl ∧ ∀ va', pte_of m' pt va' = pte_of (k_mem s) pt va'.
Proof.
  intros Hu H0 H1 Hw. apply copyout_loop_ok; cbn [length]; try done; [lia|].
  intros va' Hva. by replace va' with va by lia.
Qed.

Lemma pe_mem_upd s pi i p ps fl m' :
  umem (with_k_mem m' s) (p_pagetable p) ps fl → pipe_env s pi i p ps fl → pipe_env (with_k_mem m' s) pi i p ps fl.
Proof. intros Hu [E1 E2 E3 E4 E5 E6]. split; try done. by apply (calm_same s). Qed.

Lemma umem_unacq s lk pt ps fl : kenv s → umem (acq lk s) pt ps fl → umem s pt ps fl.
Proof. intros He. by apply umem_ext. Qed.

Lemma calm_kenv s : calm s → kenv s.
Proof. intros Hc. split; [apply Hc|by apply (calm_locks s Hc)]. Qed.

Lemma piperead_end_ok s pi i p ps fl k :
  pipe_env s pi i p ps fl →
  piperead_end pi k (acq (LkPipe pi) s) = Ok k (woken (Some (ChPipeWrite pi)) s).
Proof.
  intros E. unfold piperead_end. destruct (pipe_wake _ _ _ _ _ _ (Some (ChPipeWrite pi)) E) as [Ew E'].
  rewrite (bind_Ok _ _ _ _ _ Ew).
  by rewrite (bind_Ok _ _ _ _ _ (release_acq_id _ _ (calm_ctx _ (pe_calm _ _ _ _ _ _ E')) (pe_lock _ _ _ _ _ _ E'))).
Qed.

(** One round of the copy loop with a byte in the pipe. *)
Lemma piperead_iter s pi pr p ps fl pp c q addr i k :
  pipe_env s pi pr p ps fl → k_pipes s !! pi = Some pp → pipe_rep pp (c :: q) →
  0 <= addr + i < MAXVA → uwritable (k_mem s) (p_pagetable p) (addr + i) = true →
  ∃ m', uwrites (k_mem s) m' (p_pagetable p) (addr + i) [c] ∧
    (∀ va', pte_of m' (p_pagetable p) va' = pte_of (k_mem s) (p_pagetable p) va') ∧
    pipe_env (with_k_mem m' s) pi pr p ps fl ∧
    piperead_copy (S k) pi addr i pr (acq (LkPipe pi) s) =
    piperead_copy k pi addr (i + 1) pr
      (acq (LkPipe pi) (put_pipe pi (with_pi_nread (u32 (pi_nread pp + 1)) pp) (with_k_mem m' s))).
Proof.
  intros E Hpp Hq Ha Hw. pose proof E as [E1 E2 E3 E4 E5 E6]. cbn [piperead_copy].
  destruct (rep_take pp c q Hq) as [Hc _].
  destruct (copyout_byte (acq (LkPipe pi) s) (p_pagetable p) ps fl (addr + i) c
    (umem_acq s (LkPipe pi) _ _ _ E1 ltac:(discriminate) E6) (proj1 Ha) (proj2 Ha) Hw) as (m' & C1 & C2 & C3 & C4).
  exists m'. assert (pipe_env (with_k_mem m' s) pi pr p ps fl) as E'.
  { apply pe_mem_upd; [|done]. apply (umem_unacq _ (LkPipe pi)); [|exact C3].
    apply calm_kenv. by apply (calm_same s). }
  split_and!; [done|done|done|]. rewrite (get_pipe_ok _ (acq _ s) pi pp Hpp).
  rewrite (rep_empty pp _ Hq), bool_decide_false by done. rewrite Hc. cbn [default].
  rewrite (getproc_ok _ (acq _ s) pr p (proj2 E3)). rewrite u32_small by (pose proof MAXVA_eq; lia).
  rewrite (bind_Ok _ _ _ _ _ C1). change (0 =? -1) with false. cbn match.
  unfold upd_pipe. rewrite bind_assoc, (get_pipe_ok _ (with_k_mem m' (acq _ s)) pi pp Hpp), bind_modify. done.
Qed.

Lemma uwrites_nil m pt va : uwrites m m pt va [].
Proof. split; cbn; [lia|done]. Qed.

Lemma piperead_copy_ok pi pr p ps fl addr : ∀ k s pp q i,
  pipe_env s pi pr p ps fl → k_pipes s !! pi = Some pp → pipe_rep pp q →
  0 <= addr + i → addr + i + Z.of_nat k <= MAXVA →
  (∀ va, addr + i <= va < addr + i + Z.of_nat k → uwritable (k_mem s) (p_pagetable p) va = true) →
  let m := (k `min` length q)%nat in
  ∃ pp' mm, pi_readopen pp' = pi_readopen pp ∧ pi_writeopen pp' = pi_writeopen pp ∧
    pipe_rep pp' (drop m q) ∧ uwrites (k_mem s) mm (p_pagetable p) (addr + i) (take m q) ∧
    pipe_env (with_k_mem mm s) pi pr p ps fl ∧
    piperead_copy k pi addr i pr (acq (LkPipe pi) s) =
      Ok (i + Z.of_nat m) (woken (Some (ChPipeWrite pi)) (put_pipe pi pp' (with_k_mem mm s))).
Proof.
  induction k as [|k IH]; intros s pp q i E Hpp Hq H0 H1 Hv m.
  { exists pp, (k_mem s). subst m. cbn [Nat.min drop take]. replace (with_k_mem (k_mem s) s) with s by by destruct s.
    split_and!; try done; [apply uwrites_nil|]. cbn [piperead_copy].
    rewrite (piperead_end_ok s pi pr p ps fl i E), put_pipe_id by done. f_equal. lia. }
  destruct q as [|c q].
  { exists pp, (k_mem s). subst m. cbn [Nat.min drop take length].
    replace (with_k_mem (k_mem s) s) with s by by destruct s.
    split_and!; try done; [apply uwrites_nil|]. cbn [piperead_copy]. rewrite (get_pipe_ok _ (acq _ s) pi pp Hpp).
    rewrite (rep_empty pp _ Hq), bool_decide_true by done.
    rewrite (piperead_end_ok s pi pr p ps fl i E), put_pipe_id by done. f_equal. lia. }
  destruct (piperead_iter s pi pr p ps fl pp c q addr i k E Hpp Hq) as (m1 & W1 & S1 & E' & ->);
    [lia|apply Hv; lia|].
  destruct (rep_take pp c q Hq) as [_ Hq'].
  destruct (IH (put_pipe pi (with_pi_nread (u32 (pi_nread pp + 1)) pp) (with_k_mem m1 s))
      (with_pi_nread (u32 (pi_nread pp + 1)) pp) q (i + 1)) as (pp' & mm & P1 & P2 & P3 & P4 & P5 & P6).
  - by apply pe_put.
  - apply lookup_insert_eq.
  - done.
  - lia.
  - lia.
  - intros va Hva. unfold uwritable, uvalid. cbn [k_mem put_pipe with_k_pipes with_k_mem]. rewrite S1. apply Hv. lia.
  - exists pp', mm. subst m. cbn [Nat.min length drop take].
    replace (put_pipe pi pp' (with_k_mem mm s)) with
      (put_pipe pi pp' (with_k_mem mm (put_pipe pi (with_pi_nread (u32 (pi_nread pp + 1)) pp) (with_k_mem m1 s)))).
    2:{ unfold put_pipe. cbn. by rewrite insert_insert_eq. }
    split_and!; [done|done|done| | |rewrite P6; f_equal; lia].
    + rewrite Z.add_assoc in P4. cbn [k_mem put_pipe with_k_pipes with_k_mem] in P4.
      set (l := take (k `min` length q) q) in *. change (c :: l) with ([c] ++ l).
      eapply (uwrites_app s (p_pagetable p) ps fl); [apply E|lia| | |exact S1|exact W1|exact P4].
      * cbn [length app]. subst l. rewrite length_take. lia.
      * intros va Hva. apply uwritable_valid, Hv. cbn [length app] in Hva. subst l. rewrite length_take in Hva. lia.
    + destruct P5 as [F1 F2 F3 F4 F5 F6]. assert (calm (with_k_mem mm s)) as Hc by (apply (calm_same s); [done|apply E]).
      split; try done. eapply umem_ext, F6; [done|done|]. by apply calm_kenv.
Qed.

(** C17: [piperead] takes from the front.  Reading [n] bytes from a pipe that
    holds [q] (or whose writers are gone) delivers the first
    [min n (length q)] bytes of [q] to the user's buffer, in order, leaves the
    rest of [q] in the pipe, wakes the writers and returns the count; nothing
    else in memory changes. *)
Theorem piperead_takes s pi pr p ps fl pp q addr n :
  pipe_env s pi pr p ps fl → k_pipes s !! pi = Some pp → pipe_rep pp q →
  (q ≠ [] ∨ pi_writeopen pp = 0) →
  0 <= n → 0 <= addr → addr + n <= MAXVA →
  (∀ va, addr <= va < addr + n → uwritable (k_mem s) (p_pagetable p) va = true) →
  let m := (Z.to_nat n `min` length q)%nat in
  ∃ pp' mm, pipe_rep pp' (drop m q) ∧ pi_writeopen pp' = pi_writeopen pp ∧
    uwrites (k_mem s) mm (p_pagetable p) addr (take m q) ∧
    piperead pi addr n s =
      Ok (Z.of_nat m) (woken (Some (ChPipeWrite pi)) (put_pipe pi pp' (with_k_mem mm s))).
Proof.
  intros E Hpp Hq Hne Hn Ha Hm Hv m. pose proof E as [E1 E2 E3 E4 E5 E6]. unfold piperead.
  rewrite (curproc_ok _ s pr p); [|apply E1|done].
  rewrite (bind_Ok _ _ _ _ _ (acquire_ready _ _ (calm_ctx s E1) E2)).
  unfold piperead_wait. rewrite (get_pipe_ok _ (acq _ s) pi pp Hpp), (rep_empty pp q Hq).
  assert (bool_decide (q = []) && negb (pi_writeopen pp =? 0) = false) as ->.
  { destruct Hne as [?| ->]; [by rewrite bool_decide_false|by rewrite andb_false_r]. }
  destruct (piperead_copy_ok pi pr p ps fl addr (Z.to_nat n) s pp q 0 E Hpp Hq) as (pp' & mm & P1 & P2 & P3 & P4 & _ & P6);
    rewrite ?Z.add_0_r, ?Z2Nat.id by lia; try done.
  rewrite Z.add_0_r in P4. by exists pp', mm.
Qed.

(** Reading an empty pipe that still has a writer parks the reader on the
    pipe's [nread], unless it was killed, in which case it returns -1; the
    pipe is unchanged and its lock is free again. *)
Theorem piperead_blocks s pi pr p ps fl pp addr n :
  pipe_env s pi pr p ps fl → k_pipes s !! pi = Some pp → pipe_rep pp [] → pi_writeopen pp ≠ 0 →
  piperead pi addr n s = Sleep (parked pr p (ChPipeRead pi) s) ∧
  (∀ s' p', s' = with_k_procs (<[pr := p']> (k_procs s)) s → p' = with_p_killed 1 p →
    piperead pi addr n s' = Ok (-1) s').
Proof.
  intros E Hpp Hq Hw. pose proof E as [E1 E2 E3 E4 E5 E6]. pose proof (pe_proc _ _ _ _ _ _ E) as Hpr.
  assert (∀ t p0, calm t → lock_ready (LkPipe pi) t → running t pr p0 → k_pipes t !! pi = Some pp →
    piperead pi addr n t = (q ← killed pr;
      if negb (q =? 0) then release (LkPipe pi);; mret (-1)
      else sleep (ChPipeRead pi) (LkPipe pi);; mret 0) (acq (LkPipe pi) t)) as Hrd.
  { intros t p0 T1 T2 T3 T4. unfold piperead. rewrite (curproc_ok _ t pr p0); [|apply T1|done].
    rewrite (bind_Ok _ _ _ _ _ (acquire_ready _ _ (calm_ctx t T1) T2)).
    unfold piperead_wait. rewrite (get_pipe_ok _ (acq _ t) pi pp T4), (rep_empty pp [] Hq).
    by destruct (Z.eqb_spec (pi_writeopen pp) 0). }
  split.
  - rewrite (Hrd s p) by done. rewrite (killed_ok pr p); [|apply acq_kctx, E1| |apply E3].
    2:{ apply lock_ready_acq; [by apply (calm_locks s E1)|done]. }
    rewrite E5. cbn [Z.eqb negb]. apply bind_Sleep. by apply sleep_parks.
  - intros s' p' -> ->. set (s' := with_k_procs _ s). destruct E3 as [R1 R2].
    assert (running s' pr (with_p_killed 1 p)) as R'.
    { split; [done|]. cbn. apply list_lookup_insert_eq. by eapply lookup_lt_Some. }
    assert (calm s') as Hc.
    { destruct E1 as [K1 K2 K3 K4]. split; [by destruct K1|done|cbn; by rewrite length_insert|by eexists _, _]. }
    rewrite (Hrd s' (with_p_killed 1 p)) by done.
    rewrite (killed_ok pr (with_p_killed 1 p)); [|apply acq_kctx, Hc| |apply R'].
    2:{ apply lock_ready_acq; [by apply (calm_locks s' Hc)|done]. }
    cbn [p_killed with_p_killed Z.eqb negb].
    by rewrite (bind_Ok _ _ _ _ _ (release_acq_id (LkPipe pi) s' (calm_ctx s' Hc) E2)).
Qed.
End pipe.

(** ** A concrete pipe
    Process 0 with one user page, and a pipe holding the bytes 104, 105. *)
Definition demo_pipe : pipe :=
  mk_pipe (<[0%nat := 104]> (<[1%nat := 105]> (replicate 512 5))) 0 2 1 1.
Definition pipe_runner : proc := with_p_state RUNNING (with_p_pid 7 demo_proc).
Definition pipe_demo (pp : pipe) : kstate :=
  with_k_pipes {[ 212992 := pp ]}
    (with_k_locks (<[LkPipe 212992 := mk_spinlock 0 "pipe" None]> boot_locks)
      (with_k_procs (<[0%nat := pipe_runner]> (replicate NPROC proc0)) vm_demo1)).

Lemma pipe_demo_env pp : pipe_env (P := emu) (pipe_demo pp) 212992 0 pipe_runner [200704] [208896].
Proof.
  assert (calm (pipe_demo pp)) as Hc.
  { split; [split; cbn; done || lia| |done|by eexists 0%nat, _].
    intros lk Hlk. exists "lock". unfold pipe_demo. cbn [k_locks with_k_pipes with_k_locks].
    rewrite lookup_insert_ne by (intros <-; done). by apply boot_locks_ready. }
  split.
  - exact Hc.
  - exists "pipe". apply lookup_insert_eq.
  - split; reflexivity.
  - reflexivity.
  - reflexivity.
  - apply (umem_ext (P := emu) vm_demo1); [done|done|by apply calm_kenv|apply vm_demo1_umem].
Qed.
Lemma demo_pipe_rep : pipe_rep demo_pipe [104; 105].
Proof.
  split; [reflexivity|cbn; lia|reflexivity|by apply Nat.leb_le|].
  intros [|[|i]] c Hc; [injection Hc as <-; reflexivity..|discriminate].
Qed.
Lemma demo_empty_rep : pipe_rep (with_pi_nread 2 demo_pipe) [].
Proof. split; [reflexivity|cbn; lia|reflexivity|by apply Nat.leb_le|]. intros i c Hc. discriminate. Qed.

Lemma demo_uwritable va :
  0 <= va < 4096 → uwritable (k_mem vm_demo1) 196608 va = true.
Proof.
  intros Hva. destruct vm_demo1_ok as [_ Hp]. unfold uwritable, uvalid.
  rewrite Hp by (rewrite MAXVA_eq; lia). by rewrite decide_True by lia.
Qed.

Lemma pipewrite_appends_witness :
  ∃ pp', pi_readopen pp' = 1 ∧ pi_writeopen pp' = 1 ∧
    pipe_rep pp' ([104; 105] ++ ubytes (k_mem vm_demo1) 196608 100 3) ∧
    pipewrite (P := emu) 212992 100 3 (pipe_demo demo_pipe) =
      Ok 3 (woken (Some (ChPipeRead 212992)) (put_pipe 212992 pp' (pipe_demo demo_pipe))).
Proof.
  refine (pipewrite_appends (P := emu) (pipe_demo demo_pipe) 212992 0 pipe_runner [200704] [208896] demo_pipe
    [104; 105] 100 3 _ _ _ _ _ _ _ _).
  - apply pipe_demo_env.
  - reflexivity.
  - apply demo_pipe_rep.
  - discriminate.
  - lia.
  - lia.
  - rewrite MAXVA_eq. lia.
  - intros va Hva. apply uwritable_valid, demo_uwritable. lia.
Defined.

Lemma piperead_takes_witness :
  ∃ pp' mm, pipe_rep pp' [] ∧ pi_writeopen pp' = 1 ∧
    uwrites (k_mem vm_demo1) mm 196608 100 [104; 105] ∧
    piperead (P := emu) 212992 100 10 (pipe_demo demo_pipe) =
      Ok 2 (woken (Some (ChPipeWrite 212992)) (put_pipe 212992 pp' (with_k_mem mm (pipe_demo demo_pipe)))).
Proof.
  refine (piperead_takes (P := emu) (pipe_demo demo_pipe) 212992 0 pipe_runner [200704] [208896] demo_pipe
    [104; 105] 100 10 _ _ _ _ _ _ _ _).
  - apply pipe_demo_env.
  - reflexivity.
  - apply demo_pipe_rep.
  - left. discriminate.
  - lia.
  - lia.
  - rewrite MAXVA_eq. lia.
  - intros va Hva. apply demo_uwritable. lia.
Defined.

Lemma piperead_blocks_witness :
  let s := pipe_demo (with_pi_nread 2 demo_pipe) in
  piperead (P := emu) 212992 100 10 s = Sleep (parked 0 pipe_runner (ChPipeRead 212992) s) ∧
  (∀ s' p', s' = with_k_procs (<[0%nat := p']> (k_procs s)) s → p' = with_p_killed 1 pipe_runner →
    piperead (P := emu) 212992 100 10 s' = Ok (-1) s').
Proof.
  refine (piperead_blocks (P := emu) (pipe_demo (with_pi_nread 2 demo_pipe)) 212992 0 pipe_runner
    [200704] [208896] (with_pi_nread 2 demo_pipe) 100 10 _ _ _ _).
  - apply pipe_demo_env.
  - reflexivity.
  - apply demo_empty_rep.
  - discriminate.
Defined.
