(* ===== verification/ConsoleThms.v ===== *)
(** * The console's line discipline

    The input buffer of kernel/console.c is a ring of 128 bytes with three
    indices that wrap at 2^32.  [cons_rep k inq line] says that it holds two
    lists: [inq], the input that [consoleread] may take, and [line], the line
    that is still being typed and can be edited.  [consoleintr] is proved to
    be the editing function [edit] on them, with the echo of [echo], and
    [consoleread] to deliver [rdline]: at most one line, with control-D as the
    end of the file. *)

From S2P Require Import Prelude Machine State CString Spinlock Printf Emu Kalloc Vm VmSpec VmUser VmCopy VmThms Sched Console Pipe.
From Stdlib Require Import Ascii.

(** ** The abstract console *)
Definition cons_size : nat := 128.

(** The byte a key puts into the line. *)
Definition key_byte (c : Z) : Z := if c =? 13 then 10 else c.
(** The key is put into the line: it edits nothing and there is room. *)
Definition takes_key (c : Z) (inq line : list Z) : bool :=
  negb (c =? ctrl "P") && negb (c =? ctrl "U") && negb ((c =? ctrl "H") || (c =? 127)) && negb (c =? 0) &&
  bool_decide (length (inq ++ line) < cons_size)%nat.
(** ... and ends the line. *)
Definition commits (c : Z) (inq line : list Z) : bool :=
  takes_key c inq line &&
  ((key_byte c =? 10) || (key_byte c =? ctrl "D") || bool_decide (S (length (inq ++ line)) = cons_size)).

(** The input after the key [c]. *)
Definition edit (c : Z) (inq line : list Z) : list Z * list Z :=
  if c =? ctrl "P" then (inq, line)
  else if c =? ctrl "U" then (inq, [])
  else if (c =? ctrl "H") || (c =? 127) then (inq, removelast line)
  else if takes_key c inq line then
    if commits c inq line then (inq ++ line ++ [key_byte c], []) else (inq, line ++ [key_byte c])
  else (inq, line).

Definition rubout : list Z := [8; 32; 8].
(** What the key [c] sends to the terminal (the process list apart). *)
Definition echo (c : Z) (inq line : list Z) : list Z :=
  if c =? ctrl "U" then concat (replicate (length line) rubout)
  else if (c =? ctrl "H") || (c =? 127) then match line with [] => [] | _ => rubout end
  else if takes_key c inq line then [key_byte c] else [].

(** What a read of [k] bytes delivers and leaves, and whether it has to wait
    for more; [got]: something was delivered before. *)
Fixpoint rdline (k : nat) (got : bool) (inq : list Z) : list Z * list Z * bool :=
  match k, inq with
  | O, _ => ([], inq, false)
  | S _, [] => ([], [], true)
  | S k', ch :: inq' =>
      if ch =? ctrl "D" then ([], if got then inq else inq', false)
      else if ch =? 10 then ([10], inq', false)
      else let '(d, rest, wait) := rdline k' true inq' in (ch :: d, rest, wait)
  end.

Record cons_rep (k : console) (inq line : list Z) : Prop := {
  cr_len : length (cons_buf k) = cons_size;
  cr_r : 0 <= cons_r k < 4294967296;
  cr_w : cons_w k = u32 (cons_r k + Z.of_nat (length inq));
  cr_e : cons_e k = u32 (cons_r k + Z.of_nat (length (inq ++ line)));
  cr_fit : (length (inq ++ line) <= cons_size)%nat;
  cr_data : ∀ i c, (inq ++ line) !! i = Some c →
    cons_buf k !! Z.to_nat ((cons_r k + Z.of_nat i) mod INPUT_BUF_SIZE) = Some c;
  cr_bytes : Forall (λ c, 0 <= c < 256) (inq ++ line);
  cr_line : 10 ∉ line;
  cr_full : length (inq ++ line) = cons_size → line = [] }.

(** ** The ring *)
Lemma cslot_wrap n : (u32 n) mod INPUT_BUF_SIZE = n mod INPUT_BUF_SIZE.
Proof. unfold INPUT_BUF_SIZE. zl. Qed.
Lemma cslot_ne n i j : 0 <= n → 0 <= i < 128 → 0 <= j < 128 → i ≠ j →
  Z.to_nat ((n + i) mod INPUT_BUF_SIZE) ≠ Z.to_nat ((n + j) mod INPUT_BUF_SIZE).
Proof. unfold INPUT_BUF_SIZE. intros. zl. Qed.

Section rep.
Context (k : console) (inq line : list Z) (R : cons_rep k inq line).

Lemma rep_drained : (cons_r k =? cons_w k) = bool_decide (inq = []).
Proof.
  destruct R as [_ R2 R3 _ R5 _ _ _ _]. rewrite R3. rewrite length_app in R5. unfold cons_size in *.
  destruct inq as [|c q]; cbn [length] in *.
  - rewrite bool_decide_true by done. apply Z.eqb_eq. zl.
  - rewrite bool_decide_false by done. apply Z.eqb_neq. zl.
Qed.

Lemma rep_line_empty : (cons_e k =? cons_w k) = bool_decide (line = []).
Proof.
  destruct R as [_ R2 R3 R4 R5 _ _ _ _]. rewrite R3, R4. rewrite length_app in *. unfold cons_size in *.
  destruct line as [|c q]; cbn [length] in *.
  - rewrite bool_decide_true by done. apply Z.eqb_eq. f_equal. lia.
  - rewrite bool_decide_false by done. apply Z.eqb_neq. zl.
Qed.

Lemma rep_used : u32 (cons_e k - cons_r k) = Z.of_nat (length (inq ++ line)).
Proof. destruct R as [_ R2 _ R4 R5 _ _ _ _]. rewrite R4. unfold cons_size in *. zl. Qed.

Lemma rep_room : (u32 (cons_e k - cons_r k) <? INPUT_BUF_SIZE) = bool_decide (length (inq ++ line) < cons_size)%nat.
Proof.
  rewrite rep_used. unfold INPUT_BUF_SIZE, cons_size. case_bool_decide; [apply Z.ltb_lt|apply Z.ltb_ge]; lia.
Qed.

Lemma rep_at i c : (inq ++ line) !! i = Some c → cons_at k (cons_r k + Z.of_nat i) = c.
Proof. intros H. unfold cons_at. by rewrite cslot_wrap, (cr_data _ _ _ R i c H). Qed.
End rep.

(** The last typed character goes. *)
Lemma rep_erase k inq l c :
  cons_rep k inq (l ++ [c]) → cons_rep (with_cons_e (u32 (cons_e k - 1)) k) inq l.
Proof.
  intros [R1 R2 R3 R4 R5 R6 R7 R8 R9]. rewrite app_assoc, length_app in *. cbn [length] in *.
  split; cbn; try done.
  - rewrite R4. zl.
  - lia.
  - intros i x Hi. apply R6. rewrite lookup_app_l; [done|]. by eapply lookup_lt_Some.
  - by apply Forall_app in R7 as [? _].
  - intros H. apply R8, elem_of_app. by left.
  - lia.
Qed.

(** The character before [cons_e]. *)
Lemma rep_last k inq l c : cons_rep k inq (l ++ [c]) → cons_at k (cons_e k - 1) = c.
Proof.
  intros R. rewrite <- (rep_at k inq (l ++ [c]) R (length (inq ++ l)) c).
  2:{ rewrite app_assoc, lookup_app_r, Nat.sub_diag by lia. done. }
  unfold cons_at. do 3 f_equal. rewrite (cr_e _ _ _ R), app_assoc, length_app. cbn [length].
  rewrite !cslot_wrap. unfold INPUT_BUF_SIZE. zl.
Qed.

Definition cons_put (c : Z) (k : console) : console :=
  with_cons_e (u32 (cons_e k + 1)) (with_cons_buf (<[Z.to_nat (cons_e k mod INPUT_BUF_SIZE) := c]> (cons_buf k)) k).

Lemma put_e k inq line c :
  cons_rep k inq line → cons_e (cons_put c k) = u32 (cons_r k + Z.of_nat (length ((inq ++ line) ++ [c]))).
Proof. intros R. cbn. rewrite (cr_e _ _ _ R), (length_app _ [c]). cbn [length]. zl. Qed.

Section put.
Context (k : console) (inq line : list Z) (c : Z).
Context (R : cons_rep k inq line) (Hroom : (length (inq ++ line) < cons_size)%nat) (Hc : 0 <= c < 256).

(** The stored bytes after a key, whoever owns them. *)
Lemma put_data i x : ((inq ++ line) ++ [c]) !! i = Some x →
  cons_buf (cons_put c k) !! Z.to_nat ((cons_r k + Z.of_nat i) mod INPUT_BUF_SIZE) = Some x.
Proof.
  destruct R as [R1 R2 R3 R4 R5 R6 R7 R8 R9]. intros Hi. cbn. rewrite R4, cslot_wrap. unfold cons_size in *.
  pose proof (lookup_lt_Some _ _ _ Hi) as Hlt. rewrite length_app in Hlt. cbn [length] in Hlt.
  destruct (decide (i = length (inq ++ line))) as [->|Hne].
  - rewrite lookup_app_r, Nat.sub_diag in Hi by lia. injection Hi as <-.
    apply list_lookup_insert_eq. rewrite R1. unfold INPUT_BUF_SIZE. zl.
  - rewrite lookup_app_l in Hi by lia. rewrite list_lookup_insert_ne; [by apply R6|].
    apply cslot_ne; lia.
Qed.

Lemma put_bytes_ok : Forall (λ c, 0 <= c < 256) ((inq ++ line) ++ [c]).
Proof. apply Forall_app. split; [apply R|by apply Forall_singleton]. Qed.

Lemma rep_type : c ≠ 10 → S (length (inq ++ line)) ≠ cons_size → cons_rep (cons_put c k) inq (line ++ [c]).
Proof.
  intros H10 Hf. split; rewrite ?app_assoc.
  - cbn. rewrite length_insert. apply R.
  - apply R.
  - apply R.
  - exact (put_e k inq line c R).
  - rewrite length_app. cbn. lia.
  - apply put_data.
  - apply put_bytes_ok.
  - rewrite not_elem_of_app, list_elem_of_singleton. split; [apply R|done].
  - rewrite length_app. cbn. lia.
Qed.

Lemma rep_commit : cons_rep (with_cons_w (cons_e (cons_put c k)) (cons_put c k)) (inq ++ line ++ [c]) [].
Proof.
  rewrite app_assoc. split; rewrite ?app_nil_r.
  - cbn. rewrite length_insert. apply R.
  - apply R.
  - exact (put_e k inq line c R).
  - exact (put_e k inq line c R).
  - rewrite length_app. cbn. lia.
  - apply put_data.
  - apply put_bytes_ok.
  - apply not_elem_of_nil.
  - done.
Qed.
End put.

(** The first byte is read. *)
Lemma rep_read k c inq line :
  cons_rep k (c :: inq) line →
  cons_at k (cons_r k) = c ∧ 0 <= c < 256 ∧ cons_rep (with_cons_r (u32 (cons_r k + 1)) k) inq line.
Proof.
  intros R. split; [|split].
  - pose proof (rep_at _ _ _ R 0 c eq_refl) as H. by rewrite Z.add_0_r in H.
  - pose proof (cr_bytes _ _ _ R) as H. by apply Forall_cons in H as [? _].
  - destruct R as [R1 R2 R3 R4 R5 R6 R7 R8 R9]. cbn [app length] in *. split; cbn; try done.
    + zl.
    + rewrite R3. zl.
    + rewrite R4. zl.
    + lia.
    + intros i x Hi. specialize (R6 (S i) x Hi). rewrite <- R6. do 2 f_equal. unfold INPUT_BUF_SIZE. zl.
    + by apply Forall_cons in R7 as [_ ?].
    + intros H. lia.
Qed.

(** ** [consoleintr] *)
Section console_thms.
Context `{P : Platform} {HP : PlatformOk P}.

(** An interrupt may be taken: interrupts are off and no lock is held.  A
    process need not be running. *)
Record quiet (s : kstate) : Prop := {
  qt_ctx : kctx s;
  qt_locks : ∀ lk, static lk → lock_ready lk s;
  qt_procs : length (k_procs s) = NPROC }.

Lemma calm_quiet s : calm s → quiet s.
Proof. intros []. by split. Qed.

Definition set_cons (k : console) (s : kstate) : kstate := with_k_cons k s.

Lemma quiet_ext s s' :
  k_regs s' = k_regs s → k_cpu s' = k_cpu s → k_locks s' = k_locks s →
  length (k_procs s') = length (k_procs s) → quiet s → quiet s'.
Proof.
  intros E1 E2 E3 E4 [Q1 Q2 Q3]. split; [by eapply kctx_ext| |by rewrite E4].
  intros lk Hl. eapply lock_ready_ext; [exact E3|by apply Q2].
Qed.
Lemma quiet_acq s lk : quiet s → static lk → kctx (acq lk s) ∧ ∀ lk', static lk' → lk' ≠ lk → lock_ready lk' (acq lk s).
Proof.
  intros [Q1 Q2 Q3] Hl. split; [by apply acq_kctx|]. intros lk' Hl' Hne. apply lock_ready_acq; [by apply Q2|done].
Qed.
Lemma quiet_acquire {B} lk s (f : KM B) : quiet s → static lk → (acquire lk;; f) s = f (acq lk s).
Proof. intros [Q1 Q2 Q3] Hl. apply (bind_Ok (acquire lk) (λ _, f) s tt). apply acquire_ready; [done|by apply Q2]. Qed.
Lemma quiet_release lk s : quiet s → static lk → release lk (acq lk s) = Ok tt s.
Proof. intros [Q1 Q2 Q3] Hl. apply release_acq_id; [done|by apply Q2]. Qed.

Lemma set_cons_id s : set_cons (k_cons s) s = s.
Proof. by destruct s. Qed.

Lemma set_cons_can_tx k s : can_tx s → can_tx (set_cons k s).
Proof. intros [? ? H]. split; [done..|]. intros E. destruct (H E). by split. Qed.

(** [procdump] only prints. *)
Lemma procdump_line i p s :
  kctx s → tx_ok s → lock_ready LkPr s → k_procs s !! i = Some p →
  ∃ out, (p ← getproc i;
    if decide (p_state p = UNUSED) then mret tt else
    printf (str "%d %s %s") [AInt (p_pid p); AStr (Some (state_name (p_state p))); AStr (Some (cstr (p_name p)))];;
    printf (str "
") [];;
    mret tt) s = Ok tt (emit out s).
Proof.
  intros Hk Ht Hl Hp. rewrite (getproc_ok _ s i p Hp). destruct (decide _).
  - exists []. by rewrite emit_nil.
  - eexists. rewrite (bind_Ok _ _ _ _ _ (printf_ok _ _ s Hk Ht Hl)).
    erewrite bind_Ok by (apply printf_ok; [by apply emit_kctx|by apply emit_tx_ok|exact Hl]).
    by rewrite emit_app.
Qed.

Lemma procdump_prints s :
  kctx s → tx_ok s → lock_ready LkPr s → length (k_procs s) = NPROC → ∃ out, procdump s = Ok tt (emit out s).
Proof.
  intros Hk Ht Hl Hn. unfold procdump. rewrite (bind_Ok _ _ _ _ _ (printf_ok _ _ s Hk Ht Hl)).
  set (body := λ i : nat, _).
  assert (∀ l, (∀ i, i ∈ l → (i < NPROC)%nat) → ∀ o, ∃ out, for_each l body (emit o s) = Ok tt (emit out s)) as H.
  { induction l as [|i l IH]; intros Hb o; [by exists o|].
    destruct (lookup_lt_is_Some_2 (k_procs s) i) as [p Hp]; [rewrite Hn; apply Hb; by left|].
    destruct (procdump_line i p (emit o s)) as (o1 & E1); [by apply emit_kctx|by apply emit_tx_ok|done|done|].
    cbn [for_each]. rewrite (bind_Ok _ _ _ _ _ E1), emit_app. apply IH. intros j Hj. apply Hb. by right. }
  apply H. intros i Hi. apply elem_of_seq in Hi. lia.
Qed.

(** Control-U. *)
Lemma cons_kill_line_ok inq : ∀ n line fuel s k,
  length line = n → (n < fuel)%nat → can_tx s → k_cons s = k → cons_rep k inq line →
  ∃ k', cons_rep k' inq [] ∧
    cons_kill_line fuel s = Ok tt (emit (concat (replicate n rubout)) (set_cons k' s)).
Proof.
  induction n as [|n IH]; intros line fuel s k Hn Hf Ht Hk R; (destruct fuel as [|f]; [lia|]);
    cbn [cons_kill_line]; rewrite bind_gets, Hk, (rep_line_empty _ _ _ R).
  - apply length_zero_iff_nil in Hn as ->. rewrite bool_decide_true by done. exists k. split; [done|].
    cbn. rewrite emit_nil, <- Hk, set_cons_id. done.
  - destruct (exists_last (l := line)) as (l & c & ->); [by intros ->|].
    rewrite bool_decide_false by (by destruct l). rewrite (rep_last _ _ _ _ R).
    rewrite length_app in Hn. cbn [length] in Hn. destruct (Z.eqb_spec c 10) as [->|].
    { exfalso. apply (cr_line _ _ _ R), elem_of_app. right. by apply list_elem_of_singleton. }
    cbn [negb andb]. unfold upd_cons. rewrite bind_modify, Hk. fold (set_cons (with_cons_e (u32 (cons_e k - 1)) k) s).
    set (k1 := with_cons_e _ k). assert (can_tx (set_cons k1 s)) as Ht1 by by apply set_cons_can_tx.
    rewrite (bind_Ok _ _ _ _ _ (consputc_ok BACKSPACE _ Ht1)).
    destruct (IH l f (emit (cons_bytes BACKSPACE) (set_cons k1 s)) k1) as (k' & R' & E');
      [lia|lia|by apply emit_can_tx|done|by eapply rep_erase|].
    exists k'. split; [done|]. rewrite E'. cbn [replicate concat]. by rewrite <- emit_app.
Qed.

(** The state after the key. *)
Definition typed (c : Z) (inq line out : list Z) (k' : console) (s : kstate) : kstate :=
  let s' := emit out (set_cons k' s) in if commits c inq line then woken (Some ChCons) s' else s'.

Lemma typed_quiet c inq line out k' s : quiet s → quiet (typed c inq line out k' s).
Proof.
  unfold typed. destruct (commits c inq line); apply quiet_ext; try done. cbn. unfold wake. by rewrite length_imap.
Qed.

Lemma acq_can_tx lk s : quiet s → tx_ok s → can_tx (acq lk s).
Proof. intros Q [T1 T2 T3]. split; [done..|]. intros _. apply acq_kctx, Q. Qed.

Lemma key_byte_range c : 0 <= c < 256 → 0 <= key_byte c < 256.
Proof. unfold key_byte. destruct (c =? 13); lia. Qed.
Lemma cons_bytes_char c : 0 <= c < 256 → cons_bytes c = [c].
Proof.
  intros Hc. unfold cons_bytes, BACKSPACE. destruct (Z.eqb_spec c 256); [lia|]. f_equal. zl.
Qed.

Lemma wakeup_quiet lk ch s :
  quiet s → static lk → (∀ i, LkProc i ≠ lk) → wakeup ch (acq lk s) = Ok tt (acq lk (woken ch s)).
Proof.
  intros Q Hl Hne. destruct (quiet_acq s lk Q Hl) as [Q1 Q2]. rewrite wakeup_ok; [done|done|apply Q|].
  intros i Hi _. by apply Q2.
Qed.

(** Storing a byte: the line ends, or goes on. *)
Lemma put_full k inq line b :
  cons_rep k inq line → (length (inq ++ line) < cons_size)%nat →
  (u32 (cons_e (cons_put b k) - cons_r (cons_put b k)) =? INPUT_BUF_SIZE) =
  bool_decide (S (length (inq ++ line)) = cons_size).
Proof.
  intros R Hl. rewrite (put_e k inq line b R). change (cons_r (cons_put b k)) with (cons_r k).
  pose proof (cr_r _ _ _ R) as Hr. rewrite (length_app _ [b]). cbn [length].
  unfold INPUT_BUF_SIZE, cons_size in *. case_bool_decide; [apply Z.eqb_eq|apply Z.eqb_neq]; zl.
Qed.

(** A key that is put into the line. *)
Lemma consoleintr_types c inq line s :
  quiet s → tx_ok s → cons_rep (k_cons s) inq line → 0 <= c < 256 → takes_key c inq line = true →
  ∃ k', cons_rep k' (edit c inq line).1 (edit c inq line).2 ∧
    consoleintr c s = Ok tt (typed c inq line (echo c inq line) k' s).
Proof.
  intros Q T R Hc Hk. pose proof Hk as Hk'. unfold takes_key in Hk'. rewrite !andb_true_iff, !negb_true_iff in Hk'.
  destruct Hk' as ((((K1 & K2) & K3) & K4) & K5). pose proof (key_byte_range c Hc) as Hb.
  pose proof (bool_decide_eq_true_1 _ K5) as Hl.
  unfold consoleintr. rewrite quiet_acquire by done. rewrite K1, K2, K3, K4, bind_assoc, bind_gets.
  change (k_cons (acq LkCons s)) with (k_cons s). rewrite (rep_room _ _ _ R), K5. cbn [negb andb when].
  fold (key_byte c). rewrite bind_assoc, (bind_Ok _ _ _ _ _ (consputc_ok _ _ (acq_can_tx LkCons s Q T))).
  rewrite cons_bytes_char by done. unfold upd_cons. rewrite bind_assoc, bind_modify, bind_assoc, bind_gets.
  replace (u8 (key_byte c)) with (key_byte c) by (symmetry; zl).
  change (k_cons (emit ?o (acq LkCons s))) with (k_cons s). fold (cons_put (key_byte c) (k_cons s)).
  set (b := key_byte c) in *. set (k := k_cons s) in *. cbn [k_cons with_k_cons].
  rewrite (put_full k inq line b R Hl). unfold typed, edit, echo, commits. fold b. rewrite K1, K2, K3, Hk.
  cbn [andb]. destruct ((b =? 10) || (b =? ctrl "D") || bool_decide _) eqn:E; cbn [when fst snd].
  - eexists. split; [by apply rep_commit|]. rewrite bind_assoc, bind_modify. cbn [k_cons with_k_cons].
    set (k' := with_cons_w _ _). set (s' := emit [b] (set_cons k' s)).
    assert (quiet s') as Q' by by eapply quiet_ext, Q. etrans; [exact (bind_Ok _ _ _ _ _ (wakeup_quiet LkCons _ s' Q' I (λ i, ltac:(discriminate))))|].
    apply quiet_release; [|done]. eapply quiet_ext, Q'; try done. cbn. unfold wake. by rewrite length_imap.
  - apply orb_false_iff in E as [[E1 _]%orb_false_iff E2]. apply bool_decide_eq_false in E2.
    eexists. split; [apply rep_type; try done; by apply Z.eqb_neq|]. rewrite bind_ret.
    apply (quiet_release LkCons (emit [b] (set_cons (cons_put b k) s))); [|done]. by eapply quiet_ext, Q.
Qed.

(** The keys that edit, and those that are dropped. *)
Lemma consoleintr_erases c inq line s :
  quiet s → tx_ok s → cons_rep (k_cons s) inq line → takes_key c inq line = false →
  ∃ k' out, cons_rep k' (edit c inq line).1 (edit c inq line).2 ∧
    (c ≠ ctrl "P" → out = echo c inq line) ∧
    consoleintr c s = Ok tt (typed c inq line out k' s).
Proof.
  intros Q T R Hk. pose proof (acq_can_tx LkCons s Q T) as Hct.
  assert (∀ o k', quiet (emit o (set_cons k' s))) as Q' by (intros; by eapply quiet_ext, Q).
  unfold consoleintr, typed, edit, echo, commits. rewrite quiet_acquire, Hk by done. cbn [andb].
  destruct (Z.eqb_spec c (ctrl "P")) as [->|HP'].
  { destruct (quiet_acq s LkCons Q I) as [A1 A2].
    destruct (procdump_prints (acq LkCons s)) as (out & Ep); [done|by destruct T; split|by apply A2|apply Q|].
    exists (k_cons s), out. split_and!; [done|done|]. rewrite (bind_Ok _ _ _ _ _ Ep), set_cons_id.
    apply (quiet_release LkCons (emit out s)); [by eapply quiet_ext, Q|done]. }
  destruct (Z.eqb_spec c (ctrl "U")) as [->|HU].
  { destruct (cons_kill_line_ok inq (length line) line (S (Z.to_nat INPUT_BUF_SIZE)) (acq LkCons s) (k_cons s))
      as (k' & R' & Ek); [done| |done|done|done|].
    { pose proof (cr_fit _ _ _ R) as Hf. rewrite length_app in Hf. unfold cons_size, INPUT_BUF_SIZE in *. lia. }
    eexists k', _. split_and!; [done|done|]. rewrite (bind_Ok _ _ _ _ _ Ek).
    exact (quiet_release LkCons _ (Q' _ k') I). }
  destruct ((c =? ctrl "H") || (c =? 127)) eqn:EH.
  { rewrite bind_assoc, bind_gets. change (k_cons (acq LkCons s)) with (k_cons s).
    rewrite (rep_line_empty _ _ _ R). case_bool_decide as El; cbn [negb when].
    - subst line. exists (k_cons s), []. split_and!; [done|done|]. rewrite bind_ret, emit_nil, set_cons_id.
      by apply quiet_release.
    - destruct (exists_last El) as (l & x & ->). rewrite removelast_last.
      eexists _, rubout. split_and!; [by eapply rep_erase| |].
      + by destruct l.
      + unfold upd_cons. rewrite bind_assoc, bind_modify.
        erewrite bind_Ok by (apply consputc_ok; apply (set_cons_can_tx _ _ Hct)).
        exact (quiet_release LkCons _ (Q' rubout (with_cons_e (u32 (cons_e (k_cons s) - 1)) (k_cons s))) I). }
  exists (k_cons s), []. split_and!; [done|done|]. rewrite bind_assoc, bind_gets.
  change (k_cons (acq LkCons s)) with (k_cons s). rewrite (rep_room _ _ _ R).
  unfold takes_key in Hk. rewrite EH in Hk. destruct (Z.eqb_spec c (ctrl "P")), (Z.eqb_spec c (ctrl "U")); try done.
  cbn [negb andb] in Hk. rewrite Hk. cbn [when]. rewrite bind_ret, emit_nil, set_cons_id. by apply quiet_release.
Qed.

Lemma consoleintr_key c inq line s :
  quiet s → tx_ok s → cons_rep (k_cons s) inq line → 0 <= c < 256 →
  ∃ k' out, cons_rep k' (edit c inq line).1 (edit c inq line).2 ∧
    (c ≠ ctrl "P" → out = echo c inq line) ∧
    consoleintr c s = Ok tt (typed c inq line out k' s).
Proof.
  intros Q T R Hc. destruct (takes_key c inq line) eqn:Hk; [|by apply consoleintr_erases].
  destruct (consoleintr_types c inq line s) as (k' & R' & E); [done..|]. by exists k', (echo c inq line).
Qed.

(** C18: the console edits lines.  In a kernel that holds no lock, the handler
    of a received key does on the input exactly what [edit] says: control-U
    and backspace change only the line being typed, never input already handed
    over, and stop at its beginning; a key is dropped when the buffer is full;
    return, control-D or the last free byte hands the line over and makes
    every process that waits for input runnable.  The terminal gets the echo
    of the key, and apart from the buffer, the output and the woken processes
    nothing changes. *)
Theorem consoleintr_edits c inq line s :
  quiet s → tx_ok s → cons_rep (k_cons s) inq line → 0 <= c < 256 →
  ∃ k' out, cons_rep k' (edit c inq line).1 (edit c inq line).2 ∧
    (c ≠ ctrl "P" → out = echo c inq line) ∧
    consoleintr c s = Ok tt (typed c inq line out k' s).
Proof. apply consoleintr_key. Qed.

(** ** [uartintr] *)
Lemma rx_avail u : has (uart_status u) UART_STATUS_RX_AVAIL = negb (bool_decide (u_rx u = [])).
Proof.
  unfold has, uart_status. rewrite Z.land_lor_distr_l, <- Z.land_assoc.
  change (Z.land UART_STATUS_TX_READY UART_STATUS_RX_AVAIL) with 0. rewrite Z.land_0_r. by destruct (u_rx u).
Qed.

(** The input after the received bytes [rx]. *)
Definition feed (rx : list Z) (il : list Z * list Z) : list Z * list Z :=
  foldl (λ il c, edit (Z.land c 255) il.1 il.2) il rx.

Lemma typed_frame c inq line out k' s :
  tx_ok s → tx_ok (typed c inq line out k' s) ∧ k_cons (typed c inq line out k' s) = k' ∧
  u_rx (k_uart (typed c inq line out k' s)) = u_rx (k_uart s) ∧ k_mem (typed c inq line out k' s) = k_mem s.
Proof. intros []. unfold typed. by destruct (commits c inq line). Qed.

Lemma uartintr_loop_ok : ∀ rx s inq line,
  quiet s → tx_ok s → cons_rep (k_cons s) inq line → u_rx (k_uart s) = rx →
  ∃ s', uartintr_loop (S (length rx)) s = Ok tt s' ∧ quiet s' ∧ tx_ok s' ∧ k_mem s' = k_mem s ∧
    u_rx (k_uart s') = [] ∧ cons_rep (k_cons s') (feed rx (inq, line)).1 (feed rx (inq, line)).2.
Proof.
  induction rx as [|c rx IH]; intros s inq line Q T R Hrx; cbn [length uartintr_loop]; unfold uartgetc;
    rewrite bind_assoc, bind_gets, rx_avail, Hrx.
  - rewrite bool_decide_true by done. by exists s.
  - rewrite bool_decide_false by done. cbn [negb]. unfold upd_uart. rewrite bind_assoc, bind_modify, bind_ret.
    assert (0 <= Z.land c 255 < 256) as Hc by (change 255 with (Z.ones 8); rewrite Z.land_ones by lia; apply Z.mod_pos_bound; lia).
    set (b := Z.land c 255) in *. destruct (Z.eqb_spec b (-1)); [lia|].
    set (s1 := with_k_uart _ s). assert (quiet s1) as Q1 by by eapply quiet_ext, Q.
    assert (tx_ok s1) as T1 by by destruct T; split.
    destruct (consoleintr_key b inq line s1 Q1 T1 R Hc) as (k' & out & R' & _ & E').
    rewrite (bind_Ok _ _ _ _ _ E'). destruct (typed_frame b inq line out k' s1 T1) as (F1 & F2 & F3 & F4).
    destruct (IH (typed b inq line out k' s1) (edit b inq line).1 (edit b inq line).2) as (s' & G1 & G2 & G3 & G4 & G5 & G6);
      [by apply typed_quiet|done|by rewrite F2|by rewrite F3|].
    exists s'. split_and!; try done; [by rewrite G4, F4|]. cbn. fold b. by destruct (edit b inq line).
Qed.

(** A UART interrupt drains the receiver: every byte waiting, in order, has
    the effect of its key. *)
Theorem uartintr_drains s inq line :
  quiet s → tx_ok s → cons_rep (k_cons s) inq line →
  ∃ s', uartintr s = Ok tt s' ∧ quiet s' ∧ tx_ok s' ∧ k_mem s' = k_mem s ∧ u_rx (k_uart s') = [] ∧
    cons_rep (k_cons s') (feed (u_rx (k_uart s)) (inq, line)).1 (feed (u_rx (k_uart s)) (inq, line)).2.
Proof.
  intros Q T R. unfold uartintr. rewrite quiet_acquire by done. rewrite bind_gets.
  change (k_uart (acq LkUart s)) with (k_uart s). set (b := has _ _ && _).
  set (s1 := if b then woken (Some ChUartTx) (with_k_uart (with_u_ctrl UART_CTRL_RX_IRQ (with_u_tx_busy 0 (k_uart s))) s) else s).
  assert (quiet s1) as Q1.
  { subst s1. destruct b; [|done]. eapply quiet_ext, Q; try done. cbn. unfold wake. by rewrite length_imap. }
  assert (tx_ok s1 ∧ k_cons s1 = k_cons s ∧ k_mem s1 = k_mem s ∧ u_rx (k_uart s1) = u_rx (k_uart s)) as (T1 & F1 & F2 & F3).
  { subst s1. destruct T, b; done. }
  assert (∀ {B} (f : unit → KM B), (when b (upd_uart (with_u_tx_busy 0);; upd_uart (with_u_ctrl UART_CTRL_RX_IRQ);;
    wakeup (Some ChUartTx)) ≫= f) (acq LkUart s) = f tt (acq LkUart s1)) as Ew.
  { intros B f. subst s1. destruct b; cbn [when]; [|done]. unfold upd_uart. rewrite bind_assoc, bind_modify, bind_assoc, bind_modify.
    set (s2 := with_k_uart (with_u_ctrl _ _) s) in *.
    exact (bind_Ok _ _ _ _ _ (wakeup_quiet LkUart (Some ChUartTx) s2 ltac:(by eapply quiet_ext, Q) I (λ i, ltac:(discriminate)))). }
  rewrite Ew, (bind_Ok _ _ _ _ _ (quiet_release LkUart s1 Q1 I)), bind_gets, F3.
  destruct (uartintr_loop_ok (u_rx (k_uart s)) s1 inq line Q1 T1) as (s' & G); [by rewrite F1|done|].
  exists s'. by rewrite <- F2.
Qed.

(** ** [consoleread] *)
(** Process [i] reads the console with no lock held. *)
Record cons_env (s : kstate) (i : nat) (p : proc) (ps fl : list Z) : Prop := {
  ce_calm : calm s;
  ce_run : running s i p;
  ce_noff : c_noff (k_cpu s) = 0;
  ce_alive : p_killed p = 0;
  ce_mem : umem s (p_pagetable p) ps fl }.

Lemma ce_set s i p ps fl k : cons_env s i p ps fl → cons_env (set_cons k s) i p ps fl.
Proof.
  intros [E1 E2 E3 E4 E5]. assert (calm (set_cons k s)) as Hc by by apply (calm_same s).
  split; try done. eapply umem_ext, E5; [done|done|by apply calm_kenv].
Qed.

(** One byte to the reader's buffer, the console lock held. *)
Lemma cons_copyout s i p ps fl dst c :
  cons_env s i p ps fl → 0 <= dst < MAXVA → uwritable (k_mem s) (p_pagetable p) dst = true →
  ∃ m', either_copyout true dst [c] (acq LkCons s) = Ok 0 (acq LkCons (with_k_mem m' s)) ∧
    uwrites (k_mem s) m' (p_pagetable p) dst [c] ∧ cons_env (with_k_mem m' s) i p ps fl ∧
    ∀ va', pte_of m' (p_pagetable p) va' = pte_of (k_mem s) (p_pagetable p) va'.
Proof.
  intros [E1 E2 E3 E4 E5] [H0 H1] Hw.
  destruct (copyout_byte (acq LkCons s) (p_pagetable p) ps fl dst c
    (umem_acq s LkCons _ _ _ E1 ltac:(discriminate) E5) H0 H1 Hw) as (m' & C1 & C2 & C3 & C4).
  assert (calm (with_k_mem m' s)) as Hc by by apply (calm_same s).
  exists m'. split_and!; [|done| |done].
  - unfold either_copyout. rewrite (bind_Ok _ _ _ _ _ (myproc_kctx _ (acq_kctx _ _ (calm_ctx s E1)))).
    change (c_proc (k_cpu (acq LkCons s))) with (c_proc (k_cpu s)). rewrite (proj1 E2). cbn [deref]. rewrite bind_ret.
    by rewrite (getproc_ok _ (acq LkCons s) i p (proj2 E2)).
  - split; try done. apply (umem_unacq _ LkCons); [by apply calm_kenv|exact C3].
Qed.

Lemma unread k r : 0 <= cons_r k < 4294967296 → r = cons_r k → with_cons_r (u32 (u32 (r + 1) - 1)) (with_cons_r (u32 (r + 1)) k) = k.
Proof.
  intros Hr ->. replace (u32 (u32 (cons_r k + 1) - 1)) with (cons_r k) by (symmetry; zl). by destruct k.
Qed.

(** A read ends with a count, or waits for input. *)
Definition read_end (w : bool) (i : nat) (p : proc) (n : Z) (s' : kstate) : res kstate Z :=
  if w then Sleep (parked i p ChCons s') else Ok n s'.

(** No input: the reader waits on the channel that [consoleintr] wakes. *)
Lemma consoleread_waits s i p ps fl k dst target line :
  cons_env s i p ps fl → cons_rep (k_cons s) [] line →
  consoleread_loop (S k) true dst target (acq LkCons s) = Sleep (parked i p ChCons s).
Proof.
  intros [E1 E2 E3 E4 E5] R. cbn [consoleread_loop]. rewrite bind_gets.
  change (k_cons (acq LkCons s)) with (k_cons s). rewrite (rep_drained _ _ _ R), bool_decide_true by done.
  assert (static (LkProc i)) as Hi by (cbn; rewrite <- (calm_procs s E1); by eapply lookup_lt_Some, E2).
  rewrite (curproc_ok _ (acq LkCons s) i p); [|apply acq_kctx, E1|done].
  rewrite (killed_ok i p); [|apply acq_kctx, E1|apply lock_ready_acq; [by apply E1|done]|apply E2].
  rewrite E4. cbn [Z.eqb negb]. apply bind_Sleep. apply sleep_parks; try done. by apply (calm_locks s E1).
Qed.

(** A round that finds control-D. *)
Lemma consoleread_eof s i p ps fl k dst target inq line :
  cons_env s i p ps fl → cons_rep (k_cons s) (ctrl "D" :: inq) line →
  let got := Z.of_nat (S k) <? target in
  ∃ k', cons_rep k' (if got then ctrl "D" :: inq else inq) line ∧
    consoleread_loop (S k) true dst target (acq LkCons s) = Ok (target - Z.of_nat (S k)) (set_cons k' s).
Proof.
  intros E R got. destruct (rep_read _ _ _ _ R) as (Ra & _ & Rn). cbn [consoleread_loop]. rewrite bind_gets.
  change (k_cons (acq LkCons s)) with (k_cons s). rewrite (rep_drained _ _ _ R), bool_decide_false, Ra by done.
  unfold upd_cons. rewrite bind_modify, Z.eqb_refl. fold got.
  assert (∀ k', calm (set_cons k' s)) as Hc by (intros k'; apply (calm_same s); [done|apply E]).
  destruct got; cbn [when].
  - exists (k_cons s). split; [done|]. rewrite bind_modify. cbn [k_cons with_k_cons cons_r with_cons_r].
    change (k_cons (acq LkCons s)) with (k_cons s). rewrite unread by (done || apply R).
    exact (bind_Ok _ _ _ _ _ (release_calm LkCons _ (Hc (k_cons s)) I)).
  - eexists. split; [exact Rn|]. rewrite bind_ret.
    exact (bind_Ok _ _ _ _ _ (release_calm LkCons _ (Hc (with_cons_r (u32 (cons_r (k_cons s) + 1)) (k_cons s))) I)).
Qed.

(** A round that delivers a byte. *)
Lemma consoleread_iter s i p ps fl k dst target c inq line :
  cons_env s i p ps fl → cons_rep (k_cons s) (c :: inq) line → c ≠ ctrl "D" →
  0 <= dst < MAXVA → uwritable (k_mem s) (p_pagetable p) dst = true →
  ∃ m' k', cons_rep k' inq line ∧ uwrites (k_mem s) m' (p_pagetable p) dst [c] ∧
    cons_env (set_cons k' (with_k_mem m' s)) i p ps fl ∧
    (∀ va', pte_of m' (p_pagetable p) va' = pte_of (k_mem s) (p_pagetable p) va') ∧
    consoleread_loop (S k) true dst target (acq LkCons s) =
      if c =? 10 then Ok (target - Z.of_nat k) (set_cons k' (with_k_mem m' s))
      else consoleread_loop k true (dst + 1) target (acq LkCons (set_cons k' (with_k_mem m' s))).
Proof.
  intros E R Hd Ha Hw. destruct (rep_read _ _ _ _ R) as (Ra & Rc & Rn). cbn [consoleread_loop].
  set (k' := with_cons_r (u32 (cons_r (k_cons s) + 1)) (k_cons s)) in *.
  destruct (cons_copyout (set_cons k' s) i p ps fl dst c (ce_set _ _ _ _ _ k' E) Ha Hw) as (m' & C1 & C2 & C3 & C4).
  exists m', k'. split_and!; [done|exact C2|exact C3|exact C4|]. rewrite bind_gets.
  change (k_cons (acq LkCons s)) with (k_cons s). rewrite (rep_drained _ _ _ R), bool_decide_false, Ra by done.
  unfold upd_cons. rewrite bind_modify. destruct (Z.eqb_spec c (ctrl "D")); [done|].
  replace (u8 c) with c by (symmetry; zl). etrans; [exact (bind_Ok _ _ _ _ _ C1)|]. change (0 =? -1) with false. cbn match.
  destruct (c =? 10).
  - exact (bind_Ok _ _ _ _ _ (release_calm LkCons _ (ce_calm _ _ _ _ _ C3) I)).
  - by rewrite u32_small by (pose proof MAXVA_eq; lia).
Qed.

Lemma rdline_length k : ∀ got inq d rest w, rdline k got inq = (d, rest, w) → (length d <= k)%nat.
Proof.
  induction k as [|k IH]; intros got [|ch inq] d rest w; cbn [rdline]; [by intros [= <- <- <-]; cbn; lia..|].
  destruct (ch =? ctrl "D"); [by intros [= <- <- <-]; cbn; lia|].
  destruct (ch =? 10); [by intros [= <- <- <-]; cbn; lia|].
  destruct (rdline k true inq) as [[d' r'] w'] eqn:E'. intros [= <- <- <-]. apply IH in E'. cbn. lia.
Qed.

Lemma consoleread_loop_ok i p ps fl target line : ∀ k s dst inq d rest w,
  cons_env s i p ps fl → cons_rep (k_cons s) inq line → Z.of_nat k <= target →
  0 <= dst → dst + Z.of_nat k <= MAXVA →
  (∀ va, dst <= va < dst + Z.of_nat k → uwritable (k_mem s) (p_pagetable p) va = true) →
  rdline k (Z.of_nat k <? target) inq = (d, rest, w) →
  ∃ k' mm, cons_rep k' rest line ∧ uwrites (k_mem s) mm (p_pagetable p) dst d ∧
    consoleread_loop k true dst target (acq LkCons s) =
      read_end w i p (target - Z.of_nat k + Z.of_nat (length d)) (set_cons k' (with_k_mem mm s)).
Proof.
  induction k as [|k IH]; intros s dst inq d rest w E R Hk H0 H1 Hv Hd;
    (assert (set_cons (k_cons s) (with_k_mem (k_mem s) s) = s) as Hid by by destruct s).
  { injection Hd as <- <- <-. exists (k_cons s), (k_mem s). rewrite Hid. split_and!; [done|apply uwrites_nil|].
    cbn [consoleread_loop]. rewrite (bind_Ok _ _ _ _ _ (release_calm LkCons s (ce_calm _ _ _ _ _ E) I)).
    cbn. unfold mret, M_ret. f_equal. lia. }
  destruct inq as [|c inq]; cbn [rdline] in Hd.
  { injection Hd as <- <- <-. exists (k_cons s), (k_mem s). rewrite Hid. split_and!; [done|apply uwrites_nil|].
    by rewrite (consoleread_waits s i p ps fl k dst target line). }
  destruct (Z.eqb_spec c (ctrl "D")) as [->|Hne].
  { injection Hd as <- <- <-. destruct (consoleread_eof s i p ps fl k dst target inq line E R) as (k' & R' & ->).
    exists k', (k_mem s). replace (with_k_mem (k_mem s) s) with s by by destruct s.
    split_and!; [done|apply uwrites_nil|]. cbn. f_equal. lia. }
  destruct (consoleread_iter s i p ps fl k dst target c inq line E R Hne) as (m1 & k1 & R1 & W1 & E1 & S1 & ->);
    [lia|apply Hv; lia|].
  destruct (c =? 10) eqn:E10.
  { injection Hd as <- <- <-. apply Z.eqb_eq in E10 as ->. exists k1, m1. split_and!; [done|done|]. cbn. f_equal. lia. }
  destruct (rdline k true inq) as [[d' r'] w'] eqn:Er. injection Hd as <- <- <-.
  destruct (IH (set_cons k1 (with_k_mem m1 s)) (dst + 1) inq d' r' w' E1 R1) as (k' & mm & P1 & P2 & P3).
  - lia.
  - lia.
  - lia.
  - intros va Hva. unfold uwritable, uvalid. cbn [k_mem set_cons with_k_cons with_k_mem]. rewrite S1. apply Hv. lia.
  - replace (Z.of_nat k <? target) with true by (symmetry; apply Z.ltb_lt; lia). done.
  - exists k', mm. pose proof (rdline_length _ _ _ _ _ _ Er) as Hl. split_and!; [done| |].
    + change (c :: d') with ([c] ++ d').
      eapply (uwrites_app s (p_pagetable p) ps fl); [apply E|lia| | |exact S1|exact W1|exact P2].
      * cbn [length app]. lia.
      * intros va Hva. apply uwritable_valid, Hv. cbn [length app] in Hva. lia.
    + rewrite P3. cbn [length]. change (set_cons k' (with_k_mem mm (set_cons k1 (with_k_mem m1 s))))
        with (set_cons k' (with_k_mem mm s)). f_equal. lia.
Qed.

(** C19: the console is read a line at a time.  A read of [n] bytes into
    mapped user memory delivers the input up to and including the first
    newline, or [n] bytes if they come first; control-D ends it before that,
    staying in the buffer when something was delivered, so that the next read
    returns 0, the end of the file.  If the input runs out first, what there
    is has been delivered and the process waits on the channel that the
    handler of a received line wakes.  The line being typed is never
    delivered, and only the buffer of the reader changes in memory. *)
Theorem consoleread_line s i p ps fl dst n inq line d rest w :
  cons_env s i p ps fl → cons_rep (k_cons s) inq line →
  0 <= n → 0 <= dst → dst + n <= MAXVA →
  (∀ va, dst <= va < dst + n → uwritable (k_mem s) (p_pagetable p) va = true) →
  rdline (Z.to_nat n) false inq = (d, rest, w) →
  ∃ k' mm, cons_rep k' rest line ∧ uwrites (k_mem s) mm (p_pagetable p) dst d ∧
    consoleread true dst n s = read_end w i p (Z.of_nat (length d)) (set_cons k' (with_k_mem mm s)).
Proof.
  intros E R Hn H0 H1 Hv Hd. unfold consoleread. rewrite (acquire_calm LkCons _ _ (ce_calm _ _ _ _ _ E) I).
  destruct (consoleread_loop_ok i p ps fl n line (Z.to_nat n) s dst inq d rest w E R) as (k' & mm & P1 & P2 & P3);
    rewrite ?Z2Nat.id, ?Z.ltb_irrefl by lia; try done.
  rewrite Z2Nat.id, Z.sub_diag, Z.add_0_l in P3 by lia. exists k', mm. split_and!; [done|done|].
  destruct (Z.ltb_spec 0 n); [done|]. assert (n = 0) as -> by lia. exact P3.
Qed.
End console_thms.

(** ** A console in use
    Process 0 of the pipe's example, with the bytes 104, 105, 10, 104 typed:
    the first three were handed over. *)
Definition demo_console : console :=
  mk_console (<[3%nat := 104]> (<[2%nat := 10]> (<[1%nat := 105]> (<[0%nat := 104]> (replicate 128 0))))) 0 3 4.
Definition console_demo : kstate :=
  with_k_uart (with_u_status 1 (k_uart vm_demo1)) (with_k_cons demo_console (pipe_demo demo_pipe)).

Lemma demo_console_rep : cons_rep demo_console [104; 105; 10] [104].
Proof.
  split; [reflexivity|cbn; lia|reflexivity|reflexivity|by apply Nat.leb_le| | | |discriminate].
  - intros [|[|[|[|i]]]] c Hc; [injection Hc as <-; reflexivity..|discriminate].
  - repeat constructor; lia.
  - by intros [=]%list_elem_of_singleton.
Qed.

Lemma console_demo_env : cons_env (P := emu) console_demo 0 pipe_runner [200704] [208896].
Proof.
  destruct (pipe_demo_env demo_pipe) as [E1 E2 E3 E4 E5 E6].
  assert (same_ctx (pipe_demo demo_pipe) console_demo) as Hs.
  { split_and!; [reflexivity..|]. intros i Hi. reflexivity. }
  pose proof (calm_same _ _ Hs E1) as Hc. split; [exact Hc|exact E3|exact E4|exact E5|].
  eapply (umem_ext (P := emu)), E6; [reflexivity|reflexivity|]. exact (calm_kenv _ Hc).
Qed.

Lemma consoleintr_edits_witness :
  ∃ k' out, cons_rep k' [104; 105; 10; 104; 10] [] ∧ (13 ≠ ctrl "P" → out = [10]) ∧
    consoleintr 13 console_demo =
      Ok tt (woken (Some ChCons) (emit out (set_cons k' console_demo))).
Proof.
  refine (consoleintr_edits 13 [104; 105; 10] [104] console_demo _ _ _ _).
  - exact (calm_quiet console_demo (ce_calm _ _ _ _ _ console_demo_env)).
  - split; reflexivity.
  - exact demo_console_rep.
  - lia.
Defined.

Lemma consoleread_line_witness :
  ∃ k' mm, cons_rep k' [] [104] ∧ uwrites (k_mem vm_demo1) mm 196608 100 [104; 105; 10] ∧
    consoleread (P := emu) true 100 10 console_demo = Ok 3 (set_cons k' (with_k_mem mm console_demo)).
Proof.
  refine (consoleread_line (P := emu) console_demo 0 pipe_runner [200704] [208896] 100 10 [104; 105; 10] [104]
    [104; 105; 10] [] false _ _ _ _ _ _ _).
  - exact console_demo_env.
  - exact demo_console_rep.
  - lia.
  - lia.
  - rewrite MAXVA_eq. lia.
  - intros va Hva. apply demo_uwritable. lia.
  - reflexivity.
Defined.
