(* ===== verification/Fs.v ===== *)
(** * kernel/fs.c: blocks, inodes, directories, path names

    A pointer to an inode is its index in the inode table.  The structs that
    are overlaid on a block (struct dinode, struct dirent, the superblock) are
    read and written with [getb] and [putb] at their C offsets.  [readi] and
    [writei] copy to and from a user address, a kernel address, or a local
    variable of the caller, whose bytes are then part of the result or given
    as an argument. *)

From S2P Require Import Prelude Machine State CString Spinlock Printf Emu Kalloc Vm VmSpec VmUser VmCopy Sched Bytes Bio Log Console.

(** ** kernel/fs.h, kernel/stat.h *)
Definition ROOTINO : Z := 1.
Definition FSMAGIC : Z := 270544960.   (* 0x10203040 *)
Definition NDIRECT : nat := 12.
Definition NINDIRECT : nat := 256.
Definition MAXFILE : Z := 268.
(** [sizeof(struct dinode)], [sizeof(struct dirent)] *)
Definition DINODE : Z := 64.
Definition DIRENT : Z := 16.
Definition IPB : Z := BSIZE / DINODE.
Definition IBLOCK (i : Z) (sb : superblock) : Z := u32 (i / IPB + sb_inodestart sb).
Definition BPB : Z := BSIZE * 8.
Definition BBLOCK (b : Z) (sb : superblock) : Z := u32 (b / BPB + sb_bmapstart sb).
Definition DIRSIZ : nat := 14.
Definition T_DIR : Z := 1.
Definition T_FILE : Z := 2.
Definition T_DEVICE : Z := 3.

(** struct superblock from the bytes of block 1 *)
Definition decode_sb (d : list Z) : superblock :=
  mk_superblock (getb 4 0 d) (getb 4 4 d) (getb 4 8 d) (getb 4 12 d)
    (getb 4 16 d) (getb 4 20 d) (getb 4 24 d) (getb 4 28 d).

(** The fields of the struct dinode at offset [o] of a block *)
Definition dip_off (inum : Z) : nat := Z.to_nat (inum mod IPB * DINODE).
Definition dip_type (o : nat) (d : list Z) : Z := i16 (getb 2 o d).
Definition dip_major (o : nat) (d : list Z) : Z := i16 (getb 2 (o + 2) d).
Definition dip_minor (o : nat) (d : list Z) : Z := i16 (getb 2 (o + 4) d).
Definition dip_nlink (o : nat) (d : list Z) : Z := i16 (getb 2 (o + 6) d).
Definition dip_size (o : nat) (d : list Z) : Z := getb 4 (o + 8) d.
Definition dip_addrs (o : nat) (d : list Z) : list Z :=
  map (λ k, getb 4 (o + 12 + 4 * k) d) (seq 0 (S NDIRECT)).

(** ip's fields stored to the dinode at [o], as iupdate does *)
Fixpoint put_addrs (o : nat) (l : list Z) (d : list Z) : list Z :=
  match l with [] => d | a :: l' => put_addrs (o + 4) l' (putb 4 o a d) end.
Definition put_dinode (o : nat) (ip : inode) (d : list Z) : list Z :=
  put_addrs (o + 12) (i_addrs ip)
    (putb 4 (o + 8) (i_size ip) (putb 2 (o + 6) (i_nlink ip) (putb 2 (o + 4) (i_minor ip)
      (putb 2 (o + 2) (i_major ip) (putb 2 o (i_type ip) d))))).
(** ip's fields loaded from the dinode at [o], as ilock does *)
Definition load_dinode (o : nat) (d : list Z) (ip : inode) : inode :=
  mk_inode (i_dev ip) (i_inum ip) (i_ref ip) (i_valid ip) (dip_type o d) (dip_major o d)
    (dip_minor o d) (dip_nlink o d) (dip_size o d) (dip_addrs o d).

Definition byte_at (d : list Z) (i : Z) : Z := default 0 (d !! Z.to_nat i).

Section fs.
Context `{P : Platform}.

Definition get_inode (i : nat) : KM inode := o ← gets (λ s, k_inodes s !! i); deref o.
Definition upd_inode (i : nat) (f : inode → inode) : KM unit :=
  x ← get_inode i; modify (λ s, with_k_inodes (<[i := f x]> (k_inodes s)) s).
Definition get_sb : KM superblock := gets k_sb.
Definition upd_data (i : nat) (f : list Z → list Z) : KM unit :=
  upd_buf i (λ b, with_b_data (f (b_data b)) b).
Definition buf_data (i : nat) : KM (list Z) := b ← get_buf i; mret (b_data b).

(** ** Blocks *)
Definition readsb (dev : Z) : KM unit :=
  bp ← bread dev 1;
  d ← buf_data bp;
  modify (with_k_sb (decode_sb d));;
  brelse bp.

Definition bzero (dev bno : Z) : KM unit :=
  bp ← bread dev bno;
  upd_data bp (λ _, replicate (Z.to_nat BSIZE) 0);;
  log_write bp;;
  brelse bp.

(** The inner loop of balloc: the first free bit, from [bi]. *)
Definition bit_free (d : list Z) (bi : Z) : bool :=
  Z.land (byte_at d (bi / 8)) (Z.shiftl 1 (bi mod 8)) =? 0.
Fixpoint balloc_scan (n : nat) (bi b size : Z) (d : list Z) : option Z :=
  match n with
  | O => None
  | S n' =>
      if (bi <? BPB) && (b + bi <? size) then
        if bit_free d bi then Some bi else balloc_scan n' (bi + 1) b size d
      else None
  end.
Definition set_bit (bi : Z) (d : list Z) : list Z :=
  <[Z.to_nat (bi / 8) := u8 (Z.lor (byte_at d (bi / 8)) (Z.shiftl 1 (bi mod 8)))]> d.
Definition clear_bit (bi : Z) (d : list Z) : list Z :=
  <[Z.to_nat (bi / 8) := u8 (Z.land (byte_at d (bi / 8)) (Z.lnot (Z.shiftl 1 (bi mod 8))))]> d.

(** [for(b = 0; b < sbp->size; b += BPB)], a round per bitmap block *)
Fixpoint balloc_loop (fuel : nat) (dev b : Z) : KM Z :=
  sb ← get_sb;
  if b <? sb_size sb then
    match fuel with
    | O => spin
    | S f =>
        bp ← bread dev (BBLOCK b sb);
        d ← buf_data bp;
        match balloc_scan (Z.to_nat BPB) 0 b (sb_size sb) d with
        | Some bi =>
            upd_data bp (set_bit bi);;
            log_write bp;;
            brelse bp;;
            bzero dev (u32 (b + bi));;
            mret (u32 (b + bi))
        | None =>
            brelse bp;;
            balloc_loop f dev (b + BPB)
        end
    end
  else
    printf (str "balloc: out of blocks
") [];; mret 0.
Definition balloc (dev : Z) : KM Z :=
  sb ← get_sb; balloc_loop (Z.to_nat (sb_size sb / BPB + 1)) dev 0.

Definition bfree (dev b : Z) : KM unit :=
  sb ← get_sb;
  bp ← bread dev (BBLOCK b sb);
  let bi := b mod BPB in
  d ← buf_data bp;
  if bit_free d bi then panic "freeing free block" else
  upd_data bp (clear_bit bi);;
  log_write bp;;
  brelse bp.

(** ** Inodes *)
Definition iinit : KM unit :=
  initlock LkItable "itable";;
  for_each (seq 0 NINODE) (λ i, initsleeplock (SlInode i) "inode").

(** The table scan of iget: the entry found (its count raised, the lock
    released), or the first empty slot. *)
Fixpoint iget_loop (l : list nat) (dev inum : Z) (empty : option nat) : KM (nat + option nat) :=
  match l with
  | [] => mret (inr empty)
  | i :: l' =>
      ip ← get_inode i;
      if (0 <? i_ref ip) && (i_dev ip =? dev) && (i_inum ip =? inum) then
        upd_inode i (λ ip, with_i_ref (i32 (i_ref ip + 1)) ip);;
        release LkItable;;
        mret (inl i)
      else
        iget_loop l' dev inum
          (match empty with None => if i_ref ip =? 0 then Some i else None | Some _ => empty end)
  end.
Definition iget (dev inum : Z) : KM nat :=
  acquire LkItable;;
  r ← iget_loop (seq 0 NINODE) dev inum None;
  match r with
  | inl i => mret i
  | inr None => panic "iget: no inodes"
  | inr (Some i) =>
      upd_inode i (with_i_dev dev);;
      upd_inode i (with_i_inum inum);;
      upd_inode i (with_i_ref 1);;
      upd_inode i (with_i_valid 0);;
      release LkItable;;
      mret i
  end.

Fixpoint ialloc_loop (l : list Z) (dev type : Z) : KM (option nat) :=
  match l with
  | [] => printf (str "ialloc: no inodes
") [];; mret None
  | inum :: l' =>
      sb ← get_sb;
      bp ← bread dev (IBLOCK inum sb);
      d ← buf_data bp;
      if dip_type (dip_off inum) d =? 0 then
        upd_data bp (put_at (dip_off inum) (replicate (Z.to_nat DINODE) 0));;
        upd_data bp (putb 2 (dip_off inum) type);;
        log_write bp;;
        brelse bp;;
        i ← iget dev inum;
        mret (Some i)
      else
        brelse bp;;
        ialloc_loop l' dev type
  end.
(** The inode numbers 1 .. ninodes-1 *)
Definition inums (sb : superblock) : list Z := seqZ 1 (sb_ninodes sb - 1).
Definition ialloc (dev type : Z) : KM (option nat) :=
  sb ← get_sb; ialloc_loop (inums sb) dev type.

Definition iupdate (i : nat) : KM unit :=
  sb ← get_sb;
  ip ← get_inode i;
  bp ← bread (i_dev ip) (IBLOCK (i_inum ip) sb);
  ip ← get_inode i;
  upd_data bp (put_dinode (dip_off (i_inum ip)) ip);;
  log_write bp;;
  brelse bp.

Definition idup (i : nat) : KM nat :=
  acquire LkItable;;
  upd_inode i (λ ip, with_i_ref (i32 (i_ref ip + 1)) ip);;
  release LkItable;;
  mret i.

Definition ilock (o : option nat) : KM unit :=
  match o with
  | None => panic "ilock"
  | Some i =>
      ip ← get_inode i;
      if i_ref ip <? 1 then panic "ilock" else
      acquiresleep (SlInode i);;
      ip ← get_inode i;
      when (i_valid ip =? 0)
        (sb ← get_sb;
         bp ← bread (i_dev ip) (IBLOCK (i_inum ip) sb);
         d ← buf_data bp;
         upd_inode i (load_dinode (dip_off (i_inum ip)) d);;
         brelse bp;;
         upd_inode i (with_i_valid 1);;
         ip ← get_inode i;
         when (i_type ip =? 0) (panic "ilock: no type"))
  end.

Definition iunlock (o : option nat) : KM unit :=
  match o with
  | None => panic "iunlock"
  | Some i =>
      h ← holdingsleep (SlInode i);
      ip ← get_inode i;
      if negb h || (i_ref ip <? 1) then panic "iunlock" else
      releasesleep (SlInode i)
  end.

Definition addr_at (ip : inode) (k : nat) : Z := default 0 (i_addrs ip !! k).
Definition set_addr (k : nat) (a : Z) (ip : inode) : inode := with_i_addrs (<[k := a]> (i_addrs ip)) ip.
(** The [k]-th word of a block of block numbers *)
Definition word_at (d : list Z) (k : nat) : Z := getb 4 (4 * k) d.

Definition itrunc (i : nat) : KM unit :=
  for_each (seq 0 NDIRECT) (λ k,
    ip ← get_inode i;
    when (negb (addr_at ip k =? 0))
      (bfree (i_dev ip) (addr_at ip k);;
       upd_inode i (set_addr k 0)));;
  ip ← get_inode i;
  when (negb (addr_at ip NDIRECT =? 0))
    (bp ← bread (i_dev ip) (addr_at ip NDIRECT);
     for_each (seq 0 NINDIRECT) (λ j,
       d ← buf_data bp;
       when (negb (word_at d j =? 0)) (ip ← get_inode i; bfree (i_dev ip) (word_at d j)));;
     brelse bp;;
     ip ← get_inode i;
     bfree (i_dev ip) (addr_at ip NDIRECT);;
     upd_inode i (set_addr NDIRECT 0));;
  upd_inode i (with_i_size 0);;
  iupdate i.

Definition iput (i : nat) : KM unit :=
  acquire LkItable;;
  ip ← get_inode i;
  when ((i_ref ip =? 1) && negb (i_valid ip =? 0) && (i_nlink ip =? 0))
    (acquiresleep (SlInode i);;
     release LkItable;;
     itrunc i;;
     upd_inode i (with_i_type 0);;
     iupdate i;;
     upd_inode i (with_i_valid 0);;
     releasesleep (SlInode i);;
     acquire LkItable);;
  upd_inode i (λ ip, with_i_ref (i32 (i_ref ip - 1)) ip);;
  release LkItable.

Definition iunlockput (i : nat) : KM unit := iunlock (Some i);; iput i.

Definition ireclaim (dev : Z) : KM unit :=
  sb ← get_sb;
  for_each (inums sb) (λ inum,
    bp ← bread dev (IBLOCK inum sb);
    d ← buf_data bp;
    ip ← (if negb (dip_type (dip_off inum) d =? 0) && (dip_nlink (dip_off inum) d =? 0) then
            printf (str "ireclaim: orphaned inode %d
") [AInt inum];;
            i ← iget dev inum; mret (Some i)
          else mret None);
    brelse bp;;
    match ip with
    | Some i =>
        begin_op;;
        ilock (Some i);;
        iunlock (Some i);;
        iput i;;
        end_op
    | None => mret tt
    end).

Definition fsinit (dev : Z) : KM unit :=
  readsb dev;;
  sb ← get_sb;
  if negb (sb_magic sb =? FSMAGIC) then panic "invalid file system" else
  printf (str "fsinit: sbp->magic=0x%x size=%d nblocks=%d ninodes=%d nlog=%d logstart=%d inodestart=%d bmapstart=%d
") (map AInt [sb_magic sb; sb_size sb; sb_nblocks sb; sb_ninodes sb; sb_nlog sb; sb_logstart sb;
              sb_inodestart sb; sb_bmapstart sb]);;
  initlog dev sb;;
  printf (str "fsinit: after initlog, sbp->inodestart=%d IPB=%d
") [AInt (sb_inodestart sb); AInt IPB];;
  ireclaim dev.

(** ** Inode content *)
Definition bmap (i : nat) (bn : Z) : KM Z :=
  if bn <? Z.of_nat NDIRECT then
    ip ← get_inode i;
    let addr := addr_at ip (Z.to_nat bn) in
    if addr =? 0 then
      addr ← balloc (i_dev ip);
      if addr =? 0 then mret 0 else
      upd_inode i (set_addr (Z.to_nat bn) addr);;
      mret addr
    else mret addr
  else
  let bn := bn - Z.of_nat NDIRECT in
  if bn <? Z.of_nat NINDIRECT then
    ip ← get_inode i;
    addr ← (if addr_at ip NDIRECT =? 0 then
              addr ← balloc (i_dev ip);
              if addr =? 0 then mret 0 else
              upd_inode i (set_addr NDIRECT addr);;
              mret addr
            else mret (addr_at ip NDIRECT));
    if addr =? 0 then mret 0 else
    ip ← get_inode i;
    bp ← bread (i_dev ip) addr;
    d ← buf_data bp;
    let addr := word_at d (Z.to_nat bn) in
    addr ← (if addr =? 0 then
              addr ← balloc (i_dev ip);
              when (negb (addr =? 0))
                (upd_data bp (putb 4 (4 * Z.to_nat bn) addr);;
                 log_write bp);;
              mret addr
            else mret addr);
    brelse bp;;
    mret addr
  else panic "bmap: out of range".

(** struct stat, as its bytes *)
Definition stati (i : nat) : KM (list Z) :=
  ip ← get_inode i;
  mret (bytes_of 4 (i_dev ip) ++ bytes_of 4 (i_inum ip) ++ bytes_of 2 (i_type ip)
        ++ bytes_of 2 (i_nlink ip) ++ bytes_of 4 (i_size ip)).

Inductive rdst : Type := DUser (va : Z) | DKernel (a : Z) | DLocal.
Inductive wsrc : Type := SUser (va : Z) | SKernel (a : Z) | SLocal (l : list Z).

Definition dst_add (d : rdst) (m : Z) : rdst :=
  match d with DUser va => DUser (u32 (va + m)) | DKernel a => DKernel (u32 (a + m)) | DLocal => DLocal end.
Definition src_add (s : wsrc) (m : Z) : wsrc :=
  match s with
  | SUser va => SUser (u32 (va + m)) | SKernel a => SKernel (u32 (a + m)) | SLocal l => SLocal (drop (Z.to_nat m) l)
  end.
(** either_copyout with the given destination *)
Definition copy_to (d : rdst) (l : list Z) : KM Z :=
  match d with
  | DUser va => either_copyout true va l
  | DKernel a => either_copyout false a l
  | DLocal => mret 0
  end.
(** either_copyin with the given source *)
Definition copy_from (s : wsrc) (m : Z) : KM (Z * list Z) :=
  match s with
  | SUser va => either_copyin true va m
  | SKernel a => either_copyin false a m
  | SLocal l => mret (0, take (Z.to_nat m) l)
  end.

(** The loop of readi: the count, and the bytes for a local destination. *)
Fixpoint readi_loop (fuel : nat) (i : nat) (dst : rdst) (off n tot : Z) (acc : list Z) : KM (Z * list Z) :=
  if tot <? n then
    match fuel with
    | O => spin
    | S f =>
        addr ← bmap i (off / BSIZE);
        if addr =? 0 then mret (tot, acc) else
        ip ← get_inode i;
        bp ← bread (i_dev ip) addr;
        d ← buf_data bp;
        let m := Z.min (n - tot) (BSIZE - off mod BSIZE) in
        let l := take (Z.to_nat m) (drop (Z.to_nat (off mod BSIZE)) d) in
        r ← copy_to dst l;
        if r =? -1 then brelse bp;; mret (-1, acc) else
        brelse bp;;
        readi_loop f i (dst_add dst m) (u32 (off + m)) n (tot + m) (acc ++ l)
    end
  else mret (tot, acc).
(** Rounds end at block boundaries: at most n / BSIZE + 2 of them. *)
Definition rounds (n : Z) : nat := Z.to_nat (n / BSIZE + 2).

Definition readi (i : nat) (dst : rdst) (off n : Z) : KM (Z * list Z) :=
  ip ← get_inode i;
  if (i_size ip <? off) || (u32 (off + n) <? off) then mret (0, []) else
  let n := if i_size ip <? u32 (off + n) then u32 (i_size ip - off) else n in
  readi_loop (rounds n) i dst off n 0 [].

Fixpoint writei_loop (fuel : nat) (i : nat) (src : wsrc) (off n tot : Z) : KM (Z * Z) :=
  if tot <? n then
    match fuel with
    | O => spin
    | S f =>
        addr ← bmap i (off / BSIZE);
        if addr =? 0 then mret (tot, off) else
        ip ← get_inode i;
        bp ← bread (i_dev ip) addr;
        let m := Z.min (n - tot) (BSIZE - off mod BSIZE) in
        '(r, l) ← copy_from src m;
        if r =? -1 then
          upd_data bp (put_at (Z.to_nat (off mod BSIZE)) l);;
          brelse bp;;
          mret (tot, off)
        else
        upd_data bp (put_at (Z.to_nat (off mod BSIZE)) l);;
        log_write bp;;
        brelse bp;;
        writei_loop f i (src_add src m) (u32 (off + m)) n (tot + m)
    end
  else mret (tot, off).

Definition writei (i : nat) (src : wsrc) (off n : Z) : KM Z :=
  ip ← get_inode i;
  if (i_size ip <? off) || (u32 (off + n) <? off) then mret (-1) else
  if MAXFILE * BSIZE <? u32 (off + n) then mret (-1) else
  '(tot, off) ← writei_loop (rounds n) i src off n 0;
  ip ← get_inode i;
  when (i_size ip <? off) (upd_inode i (with_i_size off));;
  iupdate i;;
  mret tot.

(** ** Directories *)
(** The characters of a buffer; what follows its end is not read. *)
Definition chars (l : list Z) : Z → Z := λ k, nth (Z.to_nat k) l 0.
Definition namecmp (s t : list Z) : Z := strncmp (chars s) (chars t) (Z.of_nat DIRSIZ).

Definition de_inum (de : list Z) : Z := getb 2 0 de.
Definition de_name (de : list Z) : list Z := take DIRSIZ (drop 2 de).

(** [for(off = 0; off < dp->size; off += sizeof(de))]: the matching entry *)
Fixpoint dirlookup_loop (fuel : nat) (dp : nat) (name : list Z) (off : Z) : KM (option (nat * Z)) :=
  ip ← get_inode dp;
  if off <? i_size ip then
    match fuel with
    | O => spin
    | S f =>
        '(r, de) ← readi dp DLocal off DIRENT;
        if negb (r =? DIRENT) then panic "dirlookup read" else
        if de_inum de =? 0 then dirlookup_loop f dp name (u32 (off + DIRENT)) else
        if namecmp name (de_name de) =? 0 then
          ip ← get_inode dp;
          j ← iget (i_dev ip) (de_inum de);
          mret (Some (j, off))
        else dirlookup_loop f dp name (u32 (off + DIRENT))
    end
  else mret None.
Definition dirlookup (dp : nat) (name : list Z) : KM (option (nat * Z)) :=
  ip ← get_inode dp;
  if negb (i_type ip =? T_DIR) then panic "dirlookup not DIR" else
  dirlookup_loop (Z.to_nat (i_size ip / DIRENT + 1)) dp name 0.

(** The offset of an empty entry, or the directory's size rounded up. *)
Fixpoint dirlink_loop (fuel : nat) (dp : nat) (off : Z) : KM Z :=
  ip ← get_inode dp;
  if off <? i_size ip then
    match fuel with
    | O => spin
    | S f =>
        '(r, de) ← readi dp DLocal off DIRENT;
        if negb (r =? DIRENT) then panic "dirlink read" else
        if de_inum de =? 0 then mret off else dirlink_loop f dp (off + DIRENT)
    end
  else mret off.
Definition mk_dirent (name : list Z) (inum : Z) : list Z :=
  bytes_of 2 inum ++ strncpy (chars name) (Z.of_nat DIRSIZ).
Definition dirlink (dp : nat) (name : list Z) (inum : Z) : KM Z :=
  o ← dirlookup dp name;
  match o with
  | Some (j, _) => iput j;; mret (-1)
  | None =>
      ip ← get_inode dp;
      off ← dirlink_loop (Z.to_nat (i_size ip / DIRENT + 1)) dp 0;
      r ← writei dp (SLocal (mk_dirent name inum)) off DIRENT;
      mret (if r =? DIRENT then 0 else -1)
  end.

(** ** Paths: a path is the bytes before its NUL *)
Fixpoint skip_slashes (p : list Z) : list Z :=
  match p with c :: p' => if c =? 47 then skip_slashes p' else p | [] => [] end.
Fixpoint take_elem (p : list Z) : list Z * list Z :=
  match p with
  | [] => ([], [])
  | c :: p' => if c =? 47 then ([], p) else let '(e, r) := take_elem p' in (c :: e, r)
  end.
(** The path after the element and the buffer [name] with the element in it. *)
Definition skipelem (path name : list Z) : option (list Z * list Z) :=
  let path := skip_slashes path in
  match path with
  | [] => None
  | _ :: _ =>
      let '(s, path) := take_elem path in
      let name := if (DIRSIZ <=? length s)%nat then take DIRSIZ s
                  else put_at 0 (s ++ [0]) name in
      Some (skip_slashes path, name)
  end.

Fixpoint namex_loop (fuel : nat) (i : nat) (path : list Z) (nameiparent : bool) (name : list Z)
    : KM (option nat * list Z) :=
  match skipelem path name with
  | None => if nameiparent then iput i;; mret (None, name) else mret (Some i, name)
  | Some (path, name) =>
    match fuel with
    | O => spin
    | S f =>
        ilock (Some i);;
        ip ← get_inode i;
        if negb (i_type ip =? T_DIR) then iunlockput i;; mret (None, name) else
        if nameiparent && bool_decide (path = []) then iunlock (Some i);; mret (Some i, name) else
        o ← dirlookup i name;
        match o with
        | None => iunlockput i;; mret (None, name)
        | Some (next, _) =>
            iunlockput i;;
            namex_loop f next path nameiparent name
        end
    end
  end.
Definition namex (path : list Z) (nameiparent : bool) (name : list Z) : KM (option nat * list Z) :=
  i ← (match path with
       | 47 :: _ => iget ROOTDEV ROOTINO
       | _ => j ← curproc; p ← getproc j; c ← deref (p_cwd p); idup c
       end);
  namex_loop (length path) i path nameiparent name.

Definition namei (path : list Z) : KM (option nat) :=
  '(o, _) ← namex path false (replicate DIRSIZ 0); mret o.
Definition nameiparent (path : list Z) (name : list Z) : KM (option nat * list Z) :=
  namex path true name.
End fs.
