(* ===== verification/FsBlock.v ===== *)
(** * The block allocator of kernel/fs.c: balloc and bfree

    The free bitmap as a set of used blocks; [balloc] is first fit over it,
    [bfree] undoes it, both inside a transaction. *)

From S2P Require Import Prelude Machine State CString Spinlock Printf Emu Kalloc Vm VmSpec VmUser VmCopy Sched Bytes Bio BioSpec Cache Log LogImg LogSpec LogThms Tx Console Pipe Fs.

(** ** Bits of a bitmap block *)
Definition used (d : list Z) (bi : Z) : bool := Z.testbit (byte_at d (bi / 8)) (bi mod 8).

Lemma land_bit x n : 0 <= n → (Z.land x (Z.shiftl 1 n) =? 0) = negb (Z.testbit x n).
Proof.
  intros Hn. rewrite Z.shiftl_1_l. destruct (Z.testbit x n) eqn:E; cbn [negb].
  - apply Z.eqb_neq. intros H. apply (f_equal (λ z, Z.testbit z n)) in H.
    rewrite Z.land_spec, Z.pow2_bits_true, E, Z.bits_0 in H by done. discriminate H.
  - apply Z.eqb_eq, Z.bits_inj'. intros m Hm. rewrite Z.land_spec, Z.bits_0, Z.pow2_bits_eqb by done.
    destruct (Z.eqb_spec n m) as [<-|]; [by rewrite E|by rewrite andb_false_r].
Qed.
Lemma bit_free_used d bi : bit_free d bi = negb (used d bi).
Proof. unfold bit_free, used. apply land_bit. zl. Qed.

Lemma testbit_u8 x n : 0 <= n < 8 → Z.testbit (u8 x) n = Z.testbit x n.
Proof. intros. unfold u8. change 256 with (2 ^ 8). apply Z.mod_pow2_bits_low. lia. Qed.

Lemma byte_at_insert d i j v :
  0 <= i < Z.of_nat (length d) → 0 <= j →
  byte_at (<[Z.to_nat i := v]> d) j = if decide (i = j) then v else byte_at d j.
Proof.
  intros Hi Hj. unfold byte_at. case_decide as E.
  - subst j. rewrite list_lookup_insert_eq by lia. done.
  - rewrite list_lookup_insert_ne by lia. done.
Qed.

Lemma used_upd d bi bj v :
  0 <= bi < 8 * Z.of_nat (length d) → 0 <= bj →
  used (<[Z.to_nat (bi / 8) := u8 v]> d) bj =
    if decide (bi / 8 = bj / 8) then Z.testbit v (bj mod 8) else used d bj.
Proof.
  intros Hi Hj. unfold used. rewrite byte_at_insert by zl. case_decide; [|done].
  apply testbit_u8. zl.
Qed.

Lemma used_set d bi bj :
  0 <= bi < 8 * Z.of_nat (length d) → 0 <= bj →
  used (set_bit bi d) bj = (if decide (bi = bj) then true else used d bj).
Proof.
  intros Hi Hj. unfold set_bit. rewrite used_upd by done. rewrite Z.lor_spec, Z.shiftl_1_l, Z.pow2_bits_eqb by zl.
  unfold used. destruct (decide (bi = bj)) as [<-|Hne].
  - rewrite decide_True by done. by rewrite Z.eqb_refl, orb_true_r.
  - case_decide as E; [|done]. rewrite E. destruct (Z.eqb_spec (bi mod 8) (bj mod 8)); [exfalso; zl|].
    apply orb_false_r.
Qed.
Lemma used_clear d bi bj :
  0 <= bi < 8 * Z.of_nat (length d) → 0 <= bj →
  used (clear_bit bi d) bj = (if decide (bi = bj) then false else used d bj).
Proof.
  intros Hi Hj. unfold clear_bit. rewrite used_upd by done.
  rewrite Z.land_spec, Z.lnot_spec, Z.shiftl_1_l, Z.pow2_bits_eqb by zl.
  unfold used. destruct (decide (bi = bj)) as [<-|Hne].
  - rewrite decide_True by done. by rewrite Z.eqb_refl, andb_false_r.
  - case_decide as E; [|done]. rewrite E. destruct (Z.eqb_spec (bi mod 8) (bj mod 8)); [exfalso; zl|].
    apply andb_true_r.
Qed.

(** The scan of a bitmap block finds its first free bit below [size]. *)
Lemma balloc_scan_spec n : ∀ bi b size d,
  match balloc_scan n bi b size d with
  | Some r => bi <= r < BPB ∧ b + r < size ∧ used d r = false ∧ ∀ k, bi <= k < r → used d k = true
  | None => ∀ k, bi <= k < bi + Z.of_nat n → k < BPB → b + k < size → used d k = true
  end.
Proof.
  induction n as [|n IH]; intros bi b size d; cbn [balloc_scan]; [intros; lia|].
  destruct (Z.ltb_spec bi BPB); cbn [andb]; [|intros; lia].
  destruct (Z.ltb_spec (b + bi) size); [|intros; lia]. rewrite bit_free_used.
  destruct (used d bi) eqn:E; cbn [negb].
  - specialize (IH (bi + 1) b size d). destruct (balloc_scan n (bi + 1) b size d) as [r|].
    + destruct IH as (H1 & H2 & H3 & H4). split_and!; try done; [lia|lia|].
      intros k Hk. destruct (Z.eq_dec k bi) as [->|]; [done|]. apply H4. lia.
    + intros k Hk ? ?. destruct (Z.eq_dec k bi) as [->|]; [done|]. apply IH; lia.
  - split_and!; try done; intros; lia.
Qed.

Section fsblock.
Context `{P : Platform} {HP : PlatformOk P}.

(** Block [x] is marked used in the bitmap, as readers see it. *)
Definition in_use (sb : superblock) (V : Z → list Z) (x : Z) : bool :=
  used (V (BBLOCK x sb)) (x mod BPB).

(** The layout the allocator relies on: bitmap blocks for all [size] blocks,
    outside the log. *)
Record map_ok (sb : superblock) (start : Z) : Prop := {
  mo_size : 0 <= sb_size sb < 2147483648;
  mo_home : ∀ x, 0 <= x < sb_size sb → home start (BBLOCK x sb) }.

Definition zero_block : list Z := replicate (Z.to_nat BSIZE) 0.

Lemma BPB_eq : BPB = 8192.
Proof. reflexivity. Qed.

(** Reading block [b] and its data, with nothing else held. *)
Lemma tx_get {B} s0 s H t b (k : nat → list Z → KM B) :
  tx s0 s H t → blk_ok b → b ∉ H.*2 → (length (t_bs t) + length H < NBUF)%nat →
  ∃ i s', (bp ← bread ROOTDEV b; d ← buf_data bp; k bp d) s = k i (t_view t b) s' ∧
    tx s0 s' ((i, b) :: H) t ∧ length (t_view t b) = Z.to_nat BSIZE ∧
    (b ∈ t_bs t ∨ t_view t b = blk (t_img t) b).
Proof.
  intros T Hb Hn Hl. destruct (tx_bread _ _ _ _ b T) as (i & s' & E & _ & T'); [done..|].
  exists i, s'. rewrite (bind_Ok _ _ _ _ _ E). unfold buf_data.
  destruct (tx_data _ _ _ _ i b (k i) T') as [E' Hlen]; [left|].
  split_and!; [|done|done|].
  - rewrite bind_assoc. exact E'.
  - destruct (decide (b ∈ t_bs t)); [by left|right]. by apply (tx_clean _ _ _ _ _ T).
Qed.

Lemma bzero_ok s0 s H t x :
  tx s0 s H t → home (t_start t) x → x ∉ H.*2 → (length (t_bs t) + length H < NBUF)%nat → 1 <= t_out t →
  ∃ s', bzero ROOTDEV x s = Ok tt s' ∧ tx s0 s' H (wrote x zero_block t).
Proof.
  intros T Hh Hn Hl Ho. destruct (tx_bread _ _ _ _ x T) as (i & s1 & E & _ & T1); [apply Hh|done|done|].
  destruct (tx_write_done _ _ _ _ i x (λ b, with_b_data zero_block b) zero_block T1)
    as (s2 & s3 & s4 & E2 & E3 & E4 & T4); [done|done|done|change (Z.to_nat LOGBLOCKS) with NBUF; lia|done|].
  exists s4. split; [|done]. unfold bzero, upd_data.
  by rewrite (bind_Ok _ _ _ _ _ E), (bind_Ok _ _ _ _ _ E2), (bind_Ok _ _ _ _ _ E3).
Qed.

Lemma BBLOCK_round k r sb : 0 <= r < BPB → BBLOCK (k * BPB + r) sb = BBLOCK (k * BPB) sb.
Proof. intros Hr. unfold BBLOCK. rewrite BPB_eq in *. do 2 f_equal. zl. Qed.

(** From the bitmap block of block [k * BPB] on, with no free block before. *)
Lemma balloc_loop_ok s0 H t sb x : ∀ fuel s k,
  tx s0 s H t → k_sb s0 = sb → map_ok sb (t_start t) → (length (t_bs t) + length H + 1 < NBUF)%nat → 1 <= t_out t →
  (∀ y, 0 <= y < sb_size sb → BBLOCK y sb ∉ H.*2) → x ∉ H.*2 →
  0 <= k → k * BPB <= x < sb_size sb → in_use sb (t_view t) x = false → home (t_start t) x →
  (∀ y, k * BPB <= y < x → in_use sb (t_view t) y = true) →
  x < k * BPB + Z.of_nat fuel * BPB →
  ∃ s', balloc_loop fuel ROOTDEV (k * BPB) s = Ok x s' ∧
    tx s0 s' H (wrote x zero_block
      (wrote (BBLOCK x sb) (set_bit (x mod BPB) (t_view t (BBLOCK x sb))) t)).
Proof.
  pose proof BPB_eq as EB.
  induction fuel as [|f IH]; intros s k T Esb [M1 M2] Hl Ho HH HxH Hk Hx Hfree Hhx Hlt Hfuel; [lia|].
  cbn [balloc_loop]. unfold get_sb. rewrite bind_gets, (frame_sb _ _ (tx_frame _ _ _ _ T)), Esb.
  rewrite (proj2 (Z.ltb_lt _ _)) by lia.
  destruct (tx_get s0 s H t (BBLOCK (k * BPB) sb) (λ bp d, match balloc_scan (Z.to_nat BPB) 0 (k * BPB) (sb_size sb) d with
        | Some bi => upd_data bp (set_bit bi);; log_write bp;; brelse bp;; bzero ROOTDEV (u32 (k * BPB + bi));; mret (u32 (k * BPB + bi))
        | None => brelse bp;; balloc_loop f ROOTDEV (k * BPB + BPB) end) T)
    as (i & s1 & E1 & T1 & Hd & Hcl); [apply M2; lia|apply HH; lia|lia|]. rewrite E1. clear E1.
  set (bm := BBLOCK (k * BPB) sb) in *.
  pose proof (balloc_scan_spec (Z.to_nat BPB) 0 (k * BPB) (sb_size sb) (t_view t bm)) as Hs.
  assert (∀ r, 0 <= r < BPB → in_use sb (t_view t) (k * BPB + r) = used (t_view t bm) r) as Hu.
  { intros r Hr. unfold in_use. rewrite BBLOCK_round by done. fold bm. f_equal. zl. }
  destruct (balloc_scan _ 0 (k * BPB) (sb_size sb) (t_view t bm)) as [r|].
  - destruct Hs as (H1 & H2 & H3 & H4). assert (x = k * BPB + r) as ->.
    { rewrite <- Hu in H3 by lia. destruct (Z.lt_trichotomy x (k * BPB + r)) as [Hlo|[?|Hhi]]; [|done|].
      - exfalso. replace x with (k * BPB + (x - k * BPB)) in Hfree by lia. rewrite Hu, H4 in Hfree by lia. done.
      - rewrite Hlt in H3 by lia. done. }
    replace ((k * BPB + r) mod BPB) with r by zl. rewrite BBLOCK_round by lia. fold bm.
    rewrite u32_small by lia.
    destruct (tx_write_done _ _ _ _ i bm (λ b, with_b_data (set_bit r (b_data b)) b) (set_bit r (t_view t bm)) T1)
      as (s2 & s3 & s4 & E2 & E3 & E4 & T4);
      [unfold set_bit; by rewrite length_insert|by intros bf ->|apply M2; lia|
       change (Z.to_nat LOGBLOCKS) with NBUF; lia|done|].
    unfold upd_data. rewrite (bind_Ok _ _ _ _ _ E2), (bind_Ok _ _ _ _ _ E3), (bind_Ok _ _ _ _ _ E4).
    destruct (bzero_ok _ _ _ _ (k * BPB + r) T4) as (s5 & E5 & T5); [done|done| |done|].
    { pose proof (length_logged (t_bs t) bm). cbn. lia. }
    rewrite (bind_Ok _ _ _ _ _ E5). by exists s5.
  - destruct (tx_brelse _ _ _ _ i bm T1 Hcl) as (s2 & E2 & T2). rewrite (bind_Ok _ _ _ _ _ E2).
    replace (k * BPB + BPB) with ((k + 1) * BPB) by lia.
    apply IH; try done; try lia.
    + split; [|lia]. destruct (Z.lt_ge_cases x ((k + 1) * BPB)); [|lia]. exfalso.
      replace x with (k * BPB + (x - k * BPB)) in Hfree by lia. rewrite Hu, Hs in Hfree; lia || done.
    + intros y Hy. apply Hlt. lia.
Qed.

Lemma balloc_loop_full s0 H t sb : ∀ fuel s k,
  tx s0 s H t → k_sb s0 = sb → map_ok sb (t_start t) → (length (t_bs t) + length H < NBUF)%nat → tx_ok s0 →
  (∀ y, 0 <= y < sb_size sb → BBLOCK y sb ∉ H.*2) →
  0 <= k → (∀ y, k * BPB <= y < sb_size sb → in_use sb (t_view t) y = true) →
  sb_size sb <= k * BPB + Z.of_nat fuel * BPB →
  ∃ s', balloc_loop fuel ROOTDEV (k * BPB) s = Ok 0 (emit (str "balloc: out of blocks
") s') ∧ tx s0 s' H t.
Proof.
  pose proof BPB_eq as EB.
  induction fuel as [|f IH]; intros s k T Esb [M1 M2] Hl Htx HH Hk Hu Hf; cbn [balloc_loop]; unfold get_sb;
    rewrite bind_gets, (frame_sb _ _ (tx_frame _ _ _ _ T)), Esb.
  all: destruct (Z.ltb_spec (k * BPB) (sb_size sb)).
  all: try lia.
  2:{ destruct (tx_get s0 s H t (BBLOCK (k * BPB) sb) (λ bp d, match balloc_scan (Z.to_nat BPB) 0 (k * BPB) (sb_size sb) d with
        | Some bi => upd_data bp (set_bit bi);; log_write bp;; brelse bp;; bzero ROOTDEV (u32 (k * BPB + bi));; mret (u32 (k * BPB + bi))
        | None => brelse bp;; balloc_loop f ROOTDEV (k * BPB + BPB) end) T)
    as (i & s1 & E1 & T1 & Hd & Hcl); [apply M2; lia|apply HH; lia|lia|]. rewrite E1. clear E1.
    pose proof (balloc_scan_spec (Z.to_nat BPB) 0 (k * BPB) (sb_size sb) (t_view t (BBLOCK (k * BPB) sb))) as Hs.
    destruct (balloc_scan _ 0 (k * BPB) (sb_size sb) _) as [r|].
    { destruct Hs as (H1 & H2 & H3 & H4). specialize (Hu (k * BPB + r)). unfold in_use in Hu.
      rewrite BBLOCK_round in Hu by lia. replace ((k * BPB + r) mod BPB) with r in Hu by zl.
      rewrite Hu in H3 by lia. done. }
    destruct (tx_brelse _ _ _ _ i _ T1 Hcl) as (s2 & E2 & T2). rewrite (bind_Ok _ _ _ _ _ E2).
    replace (k * BPB + BPB) with ((k + 1) * BPB) by lia.
    apply IH; try done; try lia. intros y Hy. apply Hu. lia. }
  all: exists s; split; [|done]; pose proof (tx_calm _ _ _ _ T) as Hc.
  all: erewrite bind_Ok; [|apply printf_ok; [apply Hc| |by apply (calm_locks s Hc)]]; [done|].
  all: destruct (tx_frame _ _ _ _ T) as [_ ->]; by destruct Htx.
Qed.

Lemma bit_range (d : list Z) x : length d = Z.to_nat BSIZE → 0 <= x mod BPB < 8 * Z.of_nat (length d).
Proof. intros ->. change (Z.of_nat (Z.to_nat BSIZE)) with 1024. change BPB with 8192. zl. Qed.

(** Changing one bit of the bitmap. *)
Lemma in_use_upd sb start V x y d v :
  map_ok sb start → 0 <= x < sb_size sb → 0 <= y < sb_size sb →
  (∀ k, 0 <= k → used d k = if decide (x mod BPB = k) then v else used (V (BBLOCK x sb)) k) →
  in_use sb (fset V (BBLOCK x sb) d) y = if decide (x = y) then v else in_use sb V y.
Proof.
  intros M Hx Hy Hd. pose proof (mo_size _ _ M). unfold in_use. destruct (decide (BBLOCK y sb = BBLOCK x sb)) as [Eb|Hb].
  - rewrite Eb, fset_eq, Hd by (change BPB with 8192; zl). unfold BBLOCK in Eb.
    destruct (decide (x = y)) as [->|]; [by rewrite decide_True|]. rewrite decide_False; [done|].
    intros Em. change BPB with 8192 in *. zl.
  - rewrite fset_ne by done. rewrite decide_False; [done|]. intros ->. done.
Qed.

Lemma bitmap_len s0 s t x :
  let sb := k_sb s0 in
  tx s0 s [] t → map_ok sb (t_start t) → (length (t_bs t) < NBUF)%nat → 0 <= x < sb_size sb →
  length (t_view t (BBLOCK x sb)) = Z.to_nat BSIZE.
Proof.
  intros sb T M Hl Hx. pose proof (mo_home _ _ M x Hx) as Hh.
  destruct (tx_get s0 s [] t (BBLOCK x sb) (λ _ _, mret tt) T (proj1 (proj1 Hh))) as (_ & _ & _ & _ & ? & _); [set_solver|cbn; lia|done].
Qed.

(** C21: [balloc] is first fit.  In a transaction with room for two more
    blocks, if [x] is the least block that the bitmap has free (and the log
    area is not), [balloc] returns [x] with its contents zeroed, its bitmap
    block and it in the transaction, and every other block reading as before;
    unless [x] is itself a bitmap block, the bitmap then has [x] in use, and
    all other blocks as it had them.  If no block is free [balloc] says so on
    the console, returns 0 and changes nothing. *)
Theorem balloc_first_fit s0 s t :
  let sb := k_sb s0 in
  tx s0 s [] t → map_ok sb (t_start t) → (length (t_bs t) + 1 < NBUF)%nat → 1 <= t_out t → tx_ok s0 →
  (∀ x, 0 <= x < sb_size sb → in_use sb (t_view t) x = false → home (t_start t) x →
     (∀ y, 0 <= y < x → in_use sb (t_view t) y = true) →
     ∃ s' t', balloc ROOTDEV s = Ok x s' ∧ tx s0 s' [] t' ∧
       t_bs t' = logged (logged (t_bs t) (BBLOCK x sb)) x ∧
       t_view t' x = zero_block ∧
       ((∀ y, 0 <= y < sb_size sb → BBLOCK y sb ≠ x) → ∀ y, 0 <= y < sb_size sb →
          in_use sb (t_view t') y = if decide (x = y) then true else in_use sb (t_view t) y) ∧
       ∀ y, y ≠ x → y ≠ BBLOCK x sb → t_view t' y = t_view t y) ∧
  ((∀ y, 0 <= y < sb_size sb → in_use sb (t_view t) y = true) →
     ∃ s', balloc ROOTDEV s = Ok 0 (emit (str "balloc: out of blocks
") s') ∧ tx s0 s' [] t).
Proof.
  intros sb T M Hl Ho Htx. pose proof BPB_eq as EB. pose proof (mo_size _ _ M) as Hsz.
  unfold balloc, get_sb. rewrite bind_gets, (frame_sb _ _ (tx_frame _ _ _ _ T)). fold sb. split.
  - intros x Hx Hfree Hhx Hlt.
    destruct (balloc_loop_ok s0 [] t sb x (Z.to_nat (sb_size sb / BPB + 1)) s 0) as (s' & E & T');
      try done; try set_solver; cbn; try lia; try (change BPB with 8192 in *; zl).
    exists s'. eexists. split_and!; [exact E|exact T'|done|cbn; by rewrite fset_eq| |].
    + intros Hne y Hy. pose proof (bitmap_len s0 s t x T M ltac:(lia) Hx) as Hlen. fold sb in Hlen.
      rewrite <- (in_use_upd sb (t_start t) (t_view t) x y (set_bit (x mod BPB) (t_view t (BBLOCK x sb))) true M Hx Hy).
      * unfold in_use. cbn. by rewrite (fset_ne _ x) by by apply Hne.
      * intros k Hk. by apply used_set; [apply bit_range|].
    + intros y H1 H2. cbn. by rewrite !fset_ne by done.
  - intros Hall. apply (balloc_loop_full s0 [] t sb (Z.to_nat (sb_size sb / BPB + 1)) s 0); try done; try set_solver; cbn; try lia; try (change BPB with 8192 in *; zl).
Qed.

Lemma bfree_ok s0 s t x :
  let sb := k_sb s0 in let bm := BBLOCK x sb in
  tx s0 s [] t → home (t_start t) bm → (length (t_bs t) < NBUF)%nat → 1 <= t_out t →
  if in_use sb (t_view t) x
  then ∃ s', bfree ROOTDEV x s = Ok tt s' ∧ tx s0 s' [] (wrote bm (clear_bit (x mod BPB) (t_view t bm)) t)
  else bfree ROOTDEV x s = Panic "freeing free block".
Proof.
  intros sb bm T Hh Hl Ho. unfold bfree, get_sb. rewrite bind_gets, (frame_sb _ _ (tx_frame _ _ _ _ T)). fold sb.
  destruct (tx_get s0 s [] t (BBLOCK x sb) (λ bp d, if bit_free d (x mod BPB) then panic "freeing free block" else
    upd_data bp (clear_bit (x mod BPB));; log_write bp;; brelse bp) T (proj1 (proj1 Hh))) as (i & s1 & E1 & T1 & Hd & Hcl); [set_solver|cbn; lia|].
  fold bm in E1, T1, Hd, Hcl |- *. rewrite E1, bit_free_used. unfold in_use. fold bm.
  destruct (used (t_view t bm) (x mod BPB)); cbn [negb]; [|done].
  destruct (tx_write_done _ _ _ _ i bm (λ b, with_b_data (clear_bit (x mod BPB) (b_data b)) b)
    (clear_bit (x mod BPB) (t_view t bm)) T1) as (s2 & s3 & s4 & E2 & E3 & E4 & T4);
    [unfold clear_bit; by rewrite length_insert|by intros bf ->|done|exact Hl|done|].
  exists s4. split; [|done]. unfold upd_data. by rewrite (bind_Ok _ _ _ _ _ E2), (bind_Ok _ _ _ _ _ E3).
Qed.

(** C23: [bfree] of a used block clears its bit and no other; freeing it again
    panics, and so does freeing any block the bitmap has free. *)
Theorem bfree_once s0 s t x :
  let sb := k_sb s0 in
  tx s0 s [] t → map_ok sb (t_start t) → (length (t_bs t) + 1 < NBUF)%nat → 1 <= t_out t → 0 <= x < sb_size sb →
  (in_use sb (t_view t) x = false → bfree ROOTDEV x s = Panic "freeing free block") ∧
  (in_use sb (t_view t) x = true →
     ∃ s' t', bfree ROOTDEV x s = Ok tt s' ∧ tx s0 s' [] t' ∧
       t_bs t' = logged (t_bs t) (BBLOCK x sb) ∧
       (∀ y, 0 <= y < sb_size sb →
          in_use sb (t_view t') y = if decide (x = y) then false else in_use sb (t_view t) y) ∧
       bfree ROOTDEV x s' = Panic "freeing free block").
Proof.
  intros sb T M Hl Ho Hx. pose proof (mo_home _ _ M x Hx) as Hh. pose proof BPB_eq as EB.
  pose proof (bfree_ok s0 s t x T Hh) as H. fold sb in H. split; intros E; rewrite E in H.
  { apply H; [lia|done]. }
  destruct H as (s' & E1 & T1); [lia|done|]. set (bm := BBLOCK x sb) in *.
  pose proof (bitmap_len s0 s t x T M ltac:(lia) Hx) as Hlen. fold sb bm in Hlen.
  set (t' := wrote bm _ t) in *. exists s', t'.
  assert (∀ y, 0 <= y < sb_size sb →
    in_use sb (t_view t') y = if decide (x = y) then false else in_use sb (t_view t) y) as Hu.
  { intros y Hy. apply (in_use_upd sb (t_start t)); [done..|]. intros k Hk.
    by apply used_clear; [apply bit_range|]. }
  split_and!; try done.
  pose proof (bfree_ok s0 s' t' x T1 Hh) as H'. fold sb in H'. rewrite Hu, decide_True in H' by done.
  apply H'; [|done]. pose proof (length_logged (t_bs t) bm). cbn. lia.
Qed.
End fsblock.

(** ** A concrete file system
    The transaction of [log_demo] with block 46 as the bitmap of a file system
    of 100 blocks. *)
Definition demo_sb : superblock := mk_superblock FSMAGIC 100 53 32 31 2 33 46.
Definition fs_demo (d : list Z) : kstate := with_k_sb demo_sb (log_demo (Some d)).
Definition fs_demo_tx (d : list Z) : txst := mk_txst 2 1 [46] ∅ [] (demo_view (Some d)).

Lemma demo_tx d : length d = Z.to_nat BSIZE → tx (P := emu) (fs_demo d) (fs_demo d) [] (fs_demo_tx d).
Proof.
  intros Hd. destruct (demo_cs (Some d) Hd) as [[l [B1 B2 B3 B4 B5 B6 B7 B8]] C2 C3 C4 C5 C6 _].
  destruct (demo_txn (Some d)) as [T1 T2 T3 T4 T5 T6].
  split; cbn [t_start t_bs t_img t_tr t_view fs_demo_tx]; try done; [|constructor].
  split; try done.
  - exists l. split; try done. by apply (calm_same (log_demo (Some d))).
  - intros x. etrans; [exact (C6 x)|]. rewrite T6. unfold trefs.
    rewrite (decide_False (P := x ∈ [].*2)) by set_solver. cbn [demo_blocks]. lia.
Qed.

Lemma demo_homes b : 33 <= b < 2000 → home (P := emu) 2 b.
Proof. intros Hb. split; [split; [split; cbn; lia|lia]|right; zl]. Qed.

Lemma demo_map_ok : map_ok (P := emu) demo_sb 2.
Proof.
  split; [cbn; lia|]. intros x Hx. cbn in Hx.
  assert (BBLOCK x demo_sb = 46) as ->.
  { unfold BBLOCK. change (sb_bmapstart demo_sb) with 46. change BPB with 8192. zl. }
  apply demo_home.
Qed.

(** Blocks 0 to 67 are used. *)
Definition demo_bitmap : list Z := replicate 8 255 ++ [15] ++ replicate 1015 0.

Lemma balloc_first_fit_witness :
  ∃ s' t', balloc (P := emu) ROOTDEV (fs_demo demo_bitmap) = Ok 68 s' ∧
    tx (P := emu) (fs_demo demo_bitmap) s' [] t' ∧ t_bs t' = [46; 68] ∧ t_view t' 68 = zero_block ∧
    in_use demo_sb (t_view t') 68 = true ∧ in_use demo_sb (t_view t') 69 = false.
Proof.
  destruct (proj1 (balloc_first_fit (P := emu) (fs_demo demo_bitmap) (fs_demo demo_bitmap) (fs_demo_tx demo_bitmap)
    (demo_tx demo_bitmap eq_refl) demo_map_ok ltac:(apply Nat.ltb_lt; reflexivity) ltac:(cbn; lia) ltac:(split; reflexivity)) 68)
    as (s' & t' & E & T & Hbs & Hz & Hu & _).
  - cbn. lia.
  - reflexivity.
  - apply demo_homes. lia.
  - intros y Hy. assert (forallb (in_use demo_sb (t_view (fs_demo_tx demo_bitmap))) (seqZ 0 68) = true) as Hf
      by reflexivity.
    rewrite forallb_forall in Hf. apply Hf, list_elem_of_In, elem_of_seqZ. lia.
  - exists s', t'. split; [exact E|]. split; [exact T|]. split; [rewrite Hbs; reflexivity|]. split; [exact Hz|].
    assert (∀ y, 0 <= y < 100 → BBLOCK y demo_sb ≠ 68) as Hb.
    { intros y Hy. unfold BBLOCK. change BPB with 8192. cbn. zl. }
    split; (etrans; [apply (Hu Hb); cbn; lia|reflexivity]).
Defined.

Lemma bfree_once_witness :
  ∃ s' t', bfree (P := emu) ROOTDEV 67 (fs_demo demo_bitmap) = Ok tt s' ∧
    tx (P := emu) (fs_demo demo_bitmap) s' [] t' ∧ in_use demo_sb (t_view t') 67 = false ∧
    bfree (P := emu) ROOTDEV 67 s' = Panic "freeing free block".
Proof.
  destruct (proj2 (bfree_once (P := emu) (fs_demo demo_bitmap) (fs_demo demo_bitmap) (fs_demo_tx demo_bitmap) 67
    (demo_tx demo_bitmap eq_refl) demo_map_ok ltac:(apply Nat.ltb_lt; reflexivity) ltac:(cbn; lia) ltac:(cbn; lia)) eq_refl)
    as (s' & t' & E & T & _ & Hu & Hp).
  exists s', t'. split; [exact E|]. split; [exact T|]. split; [|exact Hp]. apply (Hu 67). cbn. lia.
Defined.
