(* ===== verification/FsInode.v ===== *)
(** * The inode layer of kernel/fs.c

    On-disk inodes, [iupdate] and [ilock]; the contents of a file as the bytes
    of the blocks its inode maps; [readi] and [writei] on them. *)

From S2P Require Import Prelude Machine State CString Spinlock Printf Emu Kalloc Vm VmSpec VmUser VmCopy Sched Bytes Bio BioSpec Cache Log LogImg LogSpec LogThms Tx Console Pipe Fs FsBlock.

(** ** struct dinode *)
Record inode_ok (ip : inode) : Prop := {
  io_type : -32768 <= i_type ip < 32768;
  io_major : -32768 <= i_major ip < 32768;
  io_minor : -32768 <= i_minor ip < 32768;
  io_nlink : -32768 <= i_nlink ip < 32768;
  io_size : 0 <= i_size ip < 4294967296;
  io_naddrs : length (i_addrs ip) = S NDIRECT;
  io_addrs : Forall (λ a, 0 <= a < 4294967296) (i_addrs ip) }.

Lemma length_put_addrs l : ∀ o d, (o + 4 * length l <= length d)%nat → length (put_addrs o l d) = length d.
Proof.
  induction l as [|a l IH]; intros o d H; cbn [put_addrs length] in *; [done|].
  rewrite IH; rewrite length_putb; lia.
Qed.
Lemma getb_put_addrs_ne l : ∀ o d n k, (o + 4 * length l <= length d)%nat →
  (k + n <= o ∨ o + 4 * length l <= k)%nat → getb n k (put_addrs o l d) = getb n k d.
Proof.
  induction l as [|a l IH]; intros o d n k H Hk; cbn [put_addrs length] in *; [done|].
  rewrite IH by (rewrite ?length_putb; lia). by rewrite getb_putb_ne by lia.
Qed.
Lemma getb_put_addrs l : ∀ o d k a, (o + 4 * length l <= length d)%nat → l !! k = Some a →
  getb 4 (o + 4 * k) (put_addrs o l d) = a mod 4294967296.
Proof.
  induction l as [|b l IH]; intros o d k a H Hk; cbn [put_addrs length] in *; [done|].
  destruct k as [|k]; cbn in Hk.
  - injection Hk as <-. rewrite Nat.mul_0_r, Nat.add_0_r, getb_put_addrs_ne by (rewrite ?length_putb; lia).
    rewrite getb_putb_eq by lia. done.
  - replace (o + 4 * S k)%nat with (o + 4 + 4 * k)%nat by lia. apply IH; [rewrite length_putb; lia|done].
Qed.

(** Lengths of buffers under field stores. *)
Ltac blen :=
  first [ lia | rewrite length_putb by blen; blen | rewrite length_put_addrs by blen; blen ].

Lemma length_put_dinode o ip d :
  (o + 64 <= length d)%nat → length (i_addrs ip) = S NDIRECT → length (put_dinode o ip d) = length d.
Proof. intros H Ha. unfold put_dinode. change (S NDIRECT) with 13%nat in Ha. blen. Qed.

Lemma i16_mod z : -32768 <= z < 32768 → i16 (z mod 256 ^ Z.of_nat 2) = z.
Proof. intros. change (256 ^ Z.of_nat 2) with 65536. zl. Qed.

(** A field of the stored inode other than its addresses. *)
Lemma getb_put_dinode o ip d n k :
  (o + 64 <= length d)%nat → length (i_addrs ip) = S NDIRECT → (k + n <= o + 12)%nat →
  getb n k (put_dinode o ip d) =
    getb n k (putb 4 (o + 8) (i_size ip) (putb 2 (o + 6) (i_nlink ip) (putb 2 (o + 4) (i_minor ip)
      (putb 2 (o + 2) (i_major ip) (putb 2 o (i_type ip) d))))).
Proof.
  intros Hd Ha Hk. change (S NDIRECT) with 13%nat in Ha. apply getb_put_addrs_ne; [blen|lia].
Qed.

Lemma dinode_load_put o ip d q :
  (o + 64 <= length d)%nat → inode_ok ip →
  load_dinode o (put_dinode o ip d) q =
    mk_inode (i_dev q) (i_inum q) (i_ref q) (i_valid q) (i_type ip) (i_major ip) (i_minor ip) (i_nlink ip)
      (i_size ip) (i_addrs ip).
Proof.
  intros Hd [H1 H2 H3 H4 H5 H6 H7].
  unfold load_dinode, dip_type, dip_major, dip_minor, dip_nlink, dip_size. f_equal.
  - rewrite getb_put_dinode by (done || lia). repeat rewrite getb_putb_ne by blen. rewrite getb_putb_eq by blen. by apply i16_mod.
  - rewrite getb_put_dinode by (done || lia). repeat rewrite getb_putb_ne by blen. rewrite getb_putb_eq by blen. by apply i16_mod.
  - rewrite getb_put_dinode by (done || lia). repeat rewrite getb_putb_ne by blen. rewrite getb_putb_eq by blen. by apply i16_mod.
  - rewrite getb_put_dinode by (done || lia). repeat rewrite getb_putb_ne by blen. rewrite getb_putb_eq by blen. by apply i16_mod.
  - rewrite getb_put_dinode by (done || lia). rewrite getb_putb_eq by blen. by apply Z.mod_small.
  - unfold dip_addrs, put_dinode. apply list_eq. intros k. rewrite list_lookup_fmap.
    change (S NDIRECT) with 13%nat in *. destruct (decide (k < 13)%nat).
    + rewrite lookup_seq_lt by done. cbn [fmap option_fmap option_map Nat.add].
      destruct (lookup_lt_is_Some_2 (i_addrs ip) k) as [a Ha]; [lia|]. rewrite Ha. f_equal.
      erewrite getb_put_addrs by (blen || done). apply Z.mod_small.
      by apply (Forall_lookup_1 _ _ _ _ H7 Ha).
    + rewrite lookup_seq_ge by lia. symmetry. apply lookup_ge_None_2. lia.
Qed.

(** Another slot of the block is untouched. *)
Lemma dinode_load_put_ne o o' ip d q :
  (o + 64 <= length d)%nat → length (i_addrs ip) = S NDIRECT → (o' + 64 <= o ∨ o + 64 <= o')%nat →
  load_dinode o' (put_dinode o ip d) q = load_dinode o' d q.
Proof.
  intros Hd Ha Hne. change (S NDIRECT) with 13%nat in *.
  assert (∀ n k, (o' <= k ∧ k + n <= o' + 64)%nat → getb n k (put_dinode o ip d) = getb n k d) as E.
  { intros n k Hk. unfold put_dinode. rewrite getb_put_addrs_ne by blen. by repeat rewrite getb_putb_ne by blen. }
  unfold load_dinode, dip_type, dip_major, dip_minor, dip_nlink, dip_size, dip_addrs.
  rewrite !E by lia. f_equal. apply map_ext_in. intros k Hk. apply in_seq in Hk. change (S NDIRECT) with 13%nat in Hk. apply E. lia.
Qed.

Section fsinode.
Context `{P : Platform} {HP : PlatformOk P}.

(** ** The inode table and the inode locks beside a transaction *)
Lemma bio_inodes l0 s l held : bio s l held → bio (with_k_inodes l0 s) l held.
Proof. intros [B1 B2 B3 B4 B5 B6 B7 B8]. split; try done. by apply (calm_same s). Qed.
Lemma tx_inodes l0 s0 s H t : tx s0 s H t → tx (with_k_inodes l0 s0) (with_k_inodes l0 s) H t.
Proof.
  intros [[[l Hb] C2 C3 C4 C5 C6 C7] T2 T3 T4 T5 T6 T7 [F1 F2]].
  split; try done; [split; try done|split; [done|]].
  - exists l. by apply bio_inodes.
  - rewrite F2 at 1. by destruct s0.
Qed.

Lemma slock_at_inode i v s j : slock_at (set_sl (SlInode i) v s) (SlBuf j) = slock_at s (SlBuf j).
Proof. unfold slock_at, set_sl. cbn. by rewrite lookup_insert_ne. Qed.
Lemma tx_set_sl i v s0 s H t : tx s0 s H t → tx (set_sl (SlInode i) v s0) (set_sl (SlInode i) v s) H t.
Proof.
  intros [[[l [B1 B2 B3 B4 B5 B6 B7 B8]] C2 C3 C4 C5 C6 C7] T2 T3 T4 T5 T6 T7 [[F1 F3] F2]].
  split; try done; [split; try done|split; [split; [done|]|]].
  - exists l. split; try done; [by apply (calm_same s)|intros; rewrite slock_at_inode; auto|].
    intros j Hj. rewrite slock_at_inode. by apply B7.
  - intros k. specialize (F3 k). destruct (decide (SlInode i = SlInode k)) as [<-|Hne].
    + unfold slock_at, set_sl. cbn. by rewrite !lookup_insert_eq.
    + rewrite slock_at_set_ne by done. rewrite F3. unfold slock_at, set_sl. cbn. by rewrite lookup_insert_ne.
  - rewrite F2 at 1. by destruct s0.
Qed.

Lemma get_inode_ok {B} s i ip (f : inode → KM B) :
  k_inodes s !! i = Some ip → (x ← get_inode i; f x) s = f ip s.
Proof. intros H. unfold get_inode. by rewrite bind_assoc, bind_gets, H. Qed.
Lemma upd_inode_ok s i ip f :
  k_inodes s !! i = Some ip → upd_inode i f s = Ok tt (with_k_inodes (<[i := f ip]> (k_inodes s)) s).
Proof. intros H. unfold upd_inode. by rewrite (get_inode_ok s i ip). Qed.

Lemma tx_inode s0 s H t i ip : tx s0 s H t → k_inodes s0 !! i = Some ip → k_inodes s !! i = Some ip.
Proof. intros T Hi. by rewrite (frame_inodes _ _ (tx_frame _ _ _ _ T)). Qed.

(** ** iupdate *)
Lemma iupdate_ok s0 s t i ip :
  let b := IBLOCK (i_inum ip) (k_sb s0) in
  tx s0 s [] t → k_inodes s0 !! i = Some ip → i_dev ip = ROOTDEV → length (i_addrs ip) = S NDIRECT →
  home (t_start t) b → (length (t_bs t) < NBUF)%nat → 1 <= t_out t →
  ∃ s', iupdate i s = Ok tt s' ∧
    tx s0 s' [] (wrote b (put_dinode (dip_off (i_inum ip)) ip (t_view t b)) t).
Proof.
  intros b T Hi Hdev Ha Hh Hl Ho. unfold iupdate, get_sb.
  rewrite bind_gets, (frame_sb _ _ (tx_frame _ _ _ _ T)), (get_inode_ok s i ip) by (by eapply tx_inode).
  fold b. rewrite Hdev. destruct (tx_bread _ _ _ _ b T) as (bp & s1 & E & _ & T1); [apply Hh|set_solver|cbn; lia|].
  rewrite (bind_Ok _ _ _ _ _ E), (get_inode_ok s1 i ip) by (by eapply tx_inode).
  destruct (tx_data _ _ _ _ bp b (λ _, mret tt) T1) as [_ Hlen]; [left|].
  destruct (tx_write_done _ _ _ _ bp b (λ q, with_b_data (put_dinode (dip_off (i_inum ip)) ip (b_data q)) q)
     (put_dinode (dip_off (i_inum ip)) ip (t_view t b)) T1) as (s2 & s3 & s4 & E2 & E3 & E4 & T4); [|by intros bf ->|done|exact Hl|done|].
  { rewrite length_put_dinode; [done| |done]. rewrite Hlen. unfold dip_off. change (Z.to_nat BSIZE) with 1024%nat.
    change IPB with 16. change DINODE with 64. zl. }
  exists s4. split; [|done]. unfold upd_data. by rewrite (bind_Ok _ _ _ _ _ E2), (bind_Ok _ _ _ _ _ E3).
Qed.

(** ** ilock of an entry that has to be read from disk *)
Lemma ilock_load s0 s t i ip :
  let b := IBLOCK (i_inum ip) (k_sb s0) in
  let ip' := load_dinode (dip_off (i_inum ip)) (t_view t b) ip in
  tx s0 s [] t → k_inodes s0 !! i = Some ip → (i < NINODE)%nat → i_dev ip = ROOTDEV → 1 <= i_ref ip → i_valid ip = 0 →
  sl_locked (slock_at s (SlInode i)) = 0 → blk_ok b → (length (t_bs t) < NBUF)%nat →
  let s1 := set_sl (SlInode i) (mk_sleeplock 1 (sl_name (slock_at s (SlInode i))) (cur_pid s)) s0 in
  if i_type ip' =? 0 then ilock (Some i) s = Panic "ilock: no type"
  else ∃ s', ilock (Some i) s = Ok tt s' ∧
    tx (with_k_inodes (<[i := with_i_valid 1 ip']> (k_inodes s0)) s1) s' [] t.
Proof.
  intros b ip' T Hi Hlt Hdev Href Hv Hfree Hb Hl s1. pose proof (tx_calm _ _ _ _ T) as Hc.
  unfold ilock. rewrite (get_inode_ok s i ip) by (by eapply tx_inode). rewrite (proj2 (Z.ltb_ge _ _)) by lia.
  rewrite (bind_Ok _ _ _ _ _ (acquiresleep_free (SlInode i) s Hc Hlt Hfree)).
  set (v := mk_sleeplock 1 _ _) in *. apply (tx_set_sl i v) in T. fold s1 in T.
  rewrite (get_inode_ok _ i ip) by (by eapply (tx_inode _ _ _ _ _ _ T)).
  rewrite Hv. cbn [Z.eqb when]. unfold get_sb. rewrite bind_gets, (frame_sb _ _ (tx_frame _ _ _ _ T)).
  change (k_sb s1) with (k_sb s0). fold b. rewrite Hdev.
  destruct (tx_get _ _ [] _ b (λ bp d, upd_inode i (load_dinode (dip_off (i_inum ip)) d);; brelse bp;;
    upd_inode i (with_i_valid 1);; q ← get_inode i; when (i_type q =? 0) (panic "ilock: no type")) T Hb)
    as (bp & s2 & E & T2 & Hlen & Hcl); [set_solver|cbn; lia|].
  rewrite E. clear E. assert (k_inodes s2 !! i = Some ip) as Hi2 by (by eapply (tx_inode _ _ _ _ _ _ T2)).
  pose proof (frame_inodes _ _ (tx_frame _ _ _ _ T2)) as EI2.
  rewrite (bind_Ok _ _ _ _ _ (upd_inode_ok s2 i ip _ Hi2)). fold ip'.
  apply (tx_inodes (<[i := ip']> (k_inodes s2))) in T2.
  destruct (tx_brelse _ _ _ _ bp b T2 Hcl) as (s3 & E3 & T3). rewrite (bind_Ok _ _ _ _ _ E3).
  assert (k_inodes s3 !! i = Some ip') as Hi3.
  { eapply (tx_inode _ _ _ _ _ _ T3). cbn. apply list_lookup_insert_eq. by eapply lookup_lt_Some. }
  rewrite (bind_Ok _ _ _ _ _ (upd_inode_ok s3 i ip' _ Hi3)).
  set (l3 := <[i := with_i_valid 1 ip']> (k_inodes s3)).
  rewrite (get_inode_ok _ i (with_i_valid 1 ip')).
  2:{ cbn. apply list_lookup_insert_eq. by eapply lookup_lt_Some. }
  change (i_type (with_i_valid 1 ip')) with (i_type ip').
  destruct (i_type ip' =? 0); cbn [when]; [done|].
  eexists. split; [done|]. pose proof (frame_inodes _ _ (tx_frame _ _ _ _ T3)) as EI3. cbn in EI2, EI3.
  assert (l3 = <[i := with_i_valid 1 ip']> (k_inodes s0)) as <-
    by (unfold l3; by rewrite EI3, EI2, list_insert_insert_eq).
  apply (tx_inodes l3) in T3. exact T3.
Qed.

Lemma dip_off_fits inum (d : list Z) : length d = Z.to_nat BSIZE → (dip_off inum + 64 <= length d)%nat.
Proof.
  intros ->. unfold dip_off. change (Z.to_nat BSIZE) with 1024%nat. change IPB with 16. change DINODE with 64. zl.
Qed.
Lemma dip_off_ne i j : i mod IPB ≠ j mod IPB → (dip_off i + 64 <= dip_off j ∨ dip_off j + 64 <= dip_off i)%nat.
Proof. unfold dip_off. change IPB with 16. change DINODE with 64. zl. Qed.

(** C22: what [iupdate] puts on disk [ilock] gets back.  [iupdate] logs one
    block, the one with the inode, and leaves the other inodes of that block
    as they were.  Whenever later another table entry [j] stands for the same
    inode and has not been read in, [ilock] locks it and gives it the type, device
    numbers, link count, size and addresses that were written; it panics if
    the inode was written as free. *)
Theorem iupdate_ilock_roundtrip s0 s t i ip :
  let b := IBLOCK (i_inum ip) (k_sb s0) in
  tx s0 s [] t → k_inodes s0 !! i = Some ip → inode_ok ip → i_dev ip = ROOTDEV →
  home (t_start t) b → (length (t_bs t) + 1 < NBUF)%nat → 1 <= t_out t →
  ∃ s1 t', iupdate i s = Ok tt s1 ∧ tx s0 s1 [] t' ∧ t_bs t' = logged (t_bs t) b ∧
    (∀ y, y ≠ b → t_view t' y = t_view t y) ∧
    (∀ inum q, inum mod IPB ≠ i_inum ip mod IPB →
       load_dinode (dip_off inum) (t_view t' b) q = load_dinode (dip_off inum) (t_view t b) q) ∧
    ∀ l j q, l !! j = Some q → (j < NINODE)%nat → i_inum q = i_inum ip → i_dev q = ROOTDEV →
      1 <= i_ref q → i_valid q = 0 → sl_locked (slock_at s0 (SlInode j)) = 0 →
      if i_type ip =? 0 then ilock (Some j) (with_k_inodes l s1) = Panic "ilock: no type"
      else ∃ s2, ilock (Some j) (with_k_inodes l s1) = Ok tt s2 ∧
        sl_locked (slock_at s2 (SlInode j)) = 1 ∧
        k_inodes s2 = <[j := mk_inode ROOTDEV (i_inum ip) (i_ref q) 1 (i_type ip) (i_major ip) (i_minor ip)
                           (i_nlink ip) (i_size ip) (i_addrs ip)]> l.
Proof.
  intros b T Hi Hok Hdev Hh Hl Ho. pose proof (io_naddrs _ Hok) as Ha.
  destruct (tx_get _ _ [] _ b (λ _ _, mret tt) T) as (_ & _ & _ & _ & Hlen & _); [apply Hh|set_solver|cbn; lia|].
  pose proof (dip_off_fits (i_inum ip) _ Hlen) as Hfit.
  destruct (iupdate_ok s0 s t i ip T Hi Hdev Ha Hh) as (s1 & E1 & T1); [lia|done|]. fold b in T1.
  exists s1. eexists. split_and!; [done|exact T1|done|intros y Hy; cbn; by apply fset_ne| |].
  { intros inum q Hne. cbn. rewrite fset_eq. apply dinode_load_put_ne; [done|done|].
    by apply dip_off_ne, not_eq_sym. }
  intros l j q Hq Hj Eq Edq Hrq Hvq Hlk. apply (tx_inodes l) in T1.
  pose proof (ilock_load _ _ _ j q T1 Hq Hj Edq Hrq Hvq) as HI.
  change (k_sb (with_k_inodes l s0)) with (k_sb s0) in HI. rewrite Eq in HI. fold b in HI.
  cbn [t_view wrote] in HI. rewrite fset_eq, dinode_load_put in HI by done.
  rewrite (frame_slock _ _ j (tx_frame _ _ _ _ T1)) in HI.
  specialize (HI Hlk (proj1 (proj1 Hh))). cbn [i_type] in HI.
  assert (length (t_bs (wrote b (put_dinode (dip_off (i_inum ip)) ip (t_view t b)) t)) < NBUF)%nat as Hl2.
  { pose proof (length_logged (t_bs t) b). cbn. lia. }
  specialize (HI Hl2). destruct (i_type ip =? 0); [done|]. destruct HI as (s2 & E2 & T2).
  exists s2. split; [done|]. rewrite (frame_inodes _ _ (tx_frame _ _ _ _ T2)).
  rewrite (frame_slock _ _ j (tx_frame _ _ _ _ T2)).
  split; [|by rewrite Edq, Eq]. unfold slock_at, set_sl. cbn. by rewrite lookup_insert_eq.
Qed.
End fsinode.

Definition demo_inode (ref valid type : Z) : inode :=
  mk_inode ROOTDEV 5 ref valid type 0 0 1 2000 (70 :: 71 :: replicate 11 0).

Lemma iupdate_ilock_roundtrip_witness :
  let s0 := with_k_inodes [demo_inode 1 1 T_FILE] (fs_demo demo_bitmap) in
  ∃ s1 s2, iupdate (P := emu) 0 s0 = Ok tt s1 ∧
    ilock (P := emu) (Some 1%nat) (with_k_inodes [demo_inode 1 1 T_FILE; demo_inode 2 0 T_DIR] s1) = Ok tt s2 ∧
    k_inodes s2 !! 1%nat = Some (demo_inode 2 1 T_FILE).
Proof.
  intros s0.
  destruct (iupdate_ilock_roundtrip (P := emu) s0 s0 (fs_demo_tx demo_bitmap) 0 (demo_inode 1 1 T_FILE))
    as (s1 & t' & E & _ & _ & _ & _ & H).
  - apply tx_inodes, demo_tx. reflexivity.
  - reflexivity.
  - split; [unfold demo_inode, T_FILE; cbn; lia..|reflexivity|]. cbn. repeat apply Forall_cons_2; try apply Forall_nil_2; lia.
  - reflexivity.
  - change (IBLOCK _ _) with 33. apply demo_homes. lia.
  - apply Nat.ltb_lt. reflexivity.
  - cbn. lia.
  - destruct (H [demo_inode 1 1 T_FILE; demo_inode 2 0 T_DIR] 1%nat (demo_inode 2 0 T_DIR)) as (s2 & E2 & _ & E3).
    + reflexivity.
    + apply Nat.ltb_lt. reflexivity.
    + reflexivity.
    + reflexivity.
    + cbn. lia.
    + reflexivity.
    + reflexivity.
    + exists s1, s2. split; [exact E|]. split; [exact E2|]. rewrite E3. reflexivity.
Defined.
