(* ===== verification/FsFile.v ===== *)
(** * File contents: bmap, readi and writei of kernel/fs.c

    A file is the list of bytes in the blocks its inode maps.  [bmap] extends
    the map without changing a byte, [readi] returns a slice of the list, and
    [writei] overwrites and appends to it; the contents of every other file
    stay as they are. *)

From S2P Require Import Prelude Machine State CString Spinlock Printf Emu Kalloc Vm VmSpec VmUser VmCopy Sched Bytes Bio BioSpec Cache Log LogImg LogSpec LogThms Tx Console Pipe Fs FsBlock FsInode.

(** ** The layout of the disk, as mkfs makes it *)

(** The first block after the bitmap. *)
Definition sb_data (sb : superblock) : Z := sb_bmapstart sb + sb_size sb / BPB + 1.

Section layout.
Context `{P : Platform} {HP : PlatformOk P}.

(** Log, inodes, bitmap, data, in this order and within the device. *)
Record layout (sb : superblock) (start : Z) : Prop := {
  lo_log : 0 <= start;
  lo_inodes : start + LOGBLOCKS < sb_inodestart sb;
  lo_ninodes : 0 <= sb_ninodes sb;
  lo_bitmap : sb_inodestart sb + sb_ninodes sb / IPB < sb_bmapstart sb;
  lo_data : sb_data sb <= sb_size sb;
  lo_size : sb_size sb < 2147483648;
  lo_disk : 2 * sb_size sb <= blk_sectors }.

Lemma layout_home sb start b : layout sb start → start + LOGBLOCKS < b < sb_size sb → home start b.
Proof.
  intros [L1 L2 L3 L4 L5 L6 L7] Hb. unfold home, in_range, blk_ok. change LOGBLOCKS with 30 in *. lia.
Qed.

Lemma layout_bblock sb start x :
  layout sb start → 0 <= x < sb_size sb → sb_bmapstart sb <= BBLOCK x sb < sb_data sb.
Proof.
  intros [L1 L2 L3 L4 L5 L6 L7] Hx. unfold sb_data, BBLOCK in *. change BPB with 8192 in *. change LOGBLOCKS with 30 in *.
  change IPB with 16 in *. zl.
Qed.
Lemma layout_iblock sb start inum :
  layout sb start → 0 <= inum < sb_ninodes sb → sb_inodestart sb <= IBLOCK inum sb < sb_bmapstart sb.
Proof.
  intros [L1 L2 L3 L4 L5 L6 L7] Hx. unfold sb_data, IBLOCK in *. change BPB with 8192 in *. change LOGBLOCKS with 30 in *.
  change IPB with 16 in *. zl.
Qed.
Lemma layout_order sb start :
  layout sb start → 0 < sb_inodestart sb ∧ start + LOGBLOCKS < sb_inodestart sb ∧
    sb_inodestart sb < sb_bmapstart sb ∧ sb_bmapstart sb < sb_data sb ∧ sb_data sb <= sb_size sb < 2147483648.
Proof.
  intros [L1 L2 L3 L4 L5 L6 L7]. unfold sb_data in *. change BPB with 8192 in *. change LOGBLOCKS with 30 in *.
  change IPB with 16 in *. split_and!; zl.
Qed.
Lemma layout_map sb start : layout sb start → map_ok sb start.
Proof.
  intros L. pose proof (layout_order _ _ L). split; [lia|]. intros x Hx.
  pose proof (layout_bblock _ _ x L Hx). apply (layout_home sb); [done|lia].
Qed.
End layout.

(** ** Allocation *)

(** The boot block, the superblock, the log, the inodes and the bitmap itself
    are marked used. *)
Definition bm_ok (sb : superblock) (V : Z → list Z) : Prop := ∀ x, 0 <= x < sb_data sb → in_use sb V x = true.

(** The free data block [x] was marked and zeroed; nothing else changed. *)
Record alloc (sb : superblock) (V V' : Z → list Z) (x : Z) : Prop := {
  al_range : sb_data sb <= x < sb_size sb;
  al_free : in_use sb V x = false;
  al_zero : V' x = zero_block;
  al_keep : ∀ b, b ≠ x → b < sb_bmapstart sb ∨ sb_data sb <= b → V' b = V b;
  al_used : ∀ b, 0 <= b < sb_size sb → in_use sb V' b = if decide (x = b) then true else in_use sb V b }.

(** The transaction went on, with more blocks from [X]. *)
Record ext (t t' : txst) (X : Z → Prop) : Prop := {
  ex_start : t_start t' = t_start t;
  ex_out : t_out t' = t_out t;
  ex_img : t_img t' = t_img t;
  ex_tr : t_tr t' = t_tr t;
  ex_bs : ∀ b, b ∈ t_bs t' → b ∈ t_bs t ∨ X b }.
Lemma ext_refl t X : ext t t X.
Proof. split; try done. by left. Qed.
Lemma ext_mono t t' (X Y : Z → Prop) : (∀ b, X b → Y b) → ext t t' X → ext t t' Y.
Proof. intros H [A1 A2 A3 A4 A5]. split; try done. intros b Hb. destruct (A5 b Hb); auto. Qed.
Lemma ext_trans t1 t2 t3 X : ext t1 t2 X → ext t2 t3 X → ext t1 t3 X.
Proof.
  intros [A1 A2 A3 A4 A5] [B1 B2 B3 B4 B5]. split; try congruence.
  intros b Hb. destruct (B5 b Hb); auto.
Qed.
Definition full_msg : list Z := str "balloc: out of blocks
".
(** [balloc] has (or has not) reported that the disk is full. *)
Definition said (full : bool) (s : kstate) : kstate := if full then emit full_msg s else s.

Lemma first_false (f : Z → bool) n : 0 <= n →
  (∀ y, 0 <= y < n → f y = true) ∨ ∃ x, 0 <= x < n ∧ f x = false ∧ ∀ y, 0 <= y < x → f y = true.
Proof.
  revert n. apply natlike_ind; [left; lia|]. intros n Hn [IH|(x & Hx & Hf & Hy)].
  - destruct (f n) eqn:E; [left|right; exists n; split_and!; auto; lia].
    intros y Hy. destruct (Z.eq_dec y n) as [->|]; [done|]. apply IH. lia.
  - right. exists x. split_and!; auto; lia.
Qed.

Section alloc.
Context `{P : Platform} {HP : PlatformOk P}.

Lemma ext_wrote b d t (X : Z → Prop) : X b → ext t (wrote b d t) X.
Proof. intros Hx. split; try done. cbn. intros y Hy. apply logged_sub in Hy as [?| ->]; auto. Qed.

Lemma tx_emit m s0 s H t : tx s0 s H t → tx (emit m s0) (emit m s) H t.
Proof.
  intros [[[l [B1 B2 B3 B4 B5 B6 B7 B8]] C2 C3 C4 C5 C6 C7] T2 T3 T4 T5 T6 T7 [F1 F2]].
  assert (k_uart s = k_uart s0) as Eu by (rewrite F2; by destruct s0).
  split; try done; [split; try done|split; [done|]].
  - exists l. split; try done. by apply (calm_same s).
  - unfold emit. rewrite Eu. rewrite F2 at 1. by destruct s0.
Qed.

Lemma tx_len s0 s H t b :
  tx s0 s H t → blk_ok b → b ∉ H.*2 → (length (t_bs t) + length H < NBUF)%nat →
  length (t_view t b) = Z.to_nat BSIZE.
Proof.
  intros T Hb Hn Hl. by destruct (tx_get _ _ _ _ b (λ _ _, mret tt) T) as (_ & _ & _ & _ & ? & _).
Qed.

Lemma alloc_wrote sb start V x :
  layout sb start → sb_data sb <= x < sb_size sb → in_use sb V x = false →
  length (V (BBLOCK x sb)) = Z.to_nat BSIZE →
  alloc sb V (fset (fset V (BBLOCK x sb) (set_bit (x mod BPB) (V (BBLOCK x sb)))) x zero_block) x.
Proof.
  intros L Hx Hf Hlen. pose proof (layout_order _ _ L). pose proof (layout_bblock _ _ x L ltac:(lia)) as Hbx.
  split; [done|done|by rewrite fset_eq| |].
  - intros b Hne Hb. rewrite !fset_ne by lia. done.
  - intros b Hb. pose proof (layout_bblock _ _ b L Hb) as Hbb. unfold in_use.
    rewrite fset_ne by lia. destruct (decide (BBLOCK b sb = BBLOCK x sb)) as [Eb|Hne].
    + rewrite Eb, fset_eq, used_set by (rewrite ?Hlen; change (Z.of_nat (Z.to_nat BSIZE)) with 1024; change BPB with 8192; zl).
      destruct (decide (x = b)) as [->|]; [by rewrite decide_True|]. rewrite decide_False; [done|].
      unfold BBLOCK in Eb. change BPB with 8192 in *. zl.
    + rewrite fset_ne by done. rewrite decide_False; [done|]. by intros ->.
Qed.

(** [balloc] on a well-formed disk, possibly with data blocks held. *)
Lemma balloc_fs s0 s H t :
  let sb := k_sb s0 in
  tx s0 s H t → layout sb (t_start t) → bm_ok sb (t_view t) →
  (∀ b, b ∈ H.*2 → sb_data sb <= b < sb_size sb ∧ in_use sb (t_view t) b = true) →
  (length (t_bs t) + length H + 1 < NBUF)%nat → 1 <= t_out t → tx_ok s0 →
  (∃ x s' t', balloc ROOTDEV s = Ok x s' ∧ tx s0 s' H t' ∧
     (length (t_bs t') <= length (t_bs t) + 2)%nat ∧
     ext t t' (λ b, sb_bmapstart sb <= b < sb_data sb ∨ b = x) ∧ alloc sb (t_view t) (t_view t') x) ∨
  (∃ s', balloc ROOTDEV s = Ok 0 s' ∧ tx (said true s0) s' H t ∧
    ∀ y, 0 <= y < sb_size sb → in_use sb (t_view t) y = true).
Proof.
  intros sb T L Hbm HH Hl Ho Htx. pose proof BPB_eq as EB. pose proof (layout_order _ _ L) as HO.
  pose proof (layout_map _ _ L) as M.
  assert (∀ y, 0 <= y < sb_size sb → BBLOCK y sb ∉ H.*2) as Hnb.
  { intros y Hy Hin. pose proof (layout_bblock _ _ y L Hy). apply HH in Hin. lia. }
  unfold balloc, get_sb. rewrite bind_gets, (frame_sb _ _ (tx_frame _ _ _ _ T)). fold sb.
  destruct (first_false (in_use sb (t_view t)) (sb_size sb)) as [Hall|(x & Hx & Hf & Hy)]; [lia|right|left].
  - destruct (balloc_loop_full s0 H t sb (Z.to_nat (sb_size sb / BPB + 1)) s 0) as (s' & E & T');
      try done; try lia; [change BPB with 8192 in *; zl|].
    exists (emit full_msg s'). split_and!; [exact E|by apply tx_emit|done].
  - assert (sb_data sb <= x) as Hd by (destruct (Z.lt_ge_cases x (sb_data sb)); [rewrite Hbm in Hf by lia; done|done]).
    assert (x ∉ H.*2) as HxH by (intros Hin; apply HH in Hin as [_ Hin]; congruence).
    destruct (balloc_loop_ok s0 H t sb x (Z.to_nat (sb_size sb / BPB + 1)) s 0) as (s' & E & T');
      try done; try lia; [by apply (layout_home sb); [|lia]|change BPB with 8192 in *; zl|].
    exists x, s'. eexists. split_and!; [exact E|exact T'| | |].
    + cbn. pose proof (length_logged (t_bs t) (BBLOCK x sb)). pose proof (length_logged (logged (t_bs t) (BBLOCK x sb)) x). lia.
    + eapply ext_trans; apply ext_wrote; [left; by eapply layout_bblock|by right].
    + cbn. apply (alloc_wrote sb (t_start t)); [done|lia|done|]. eapply tx_len; [exact T| |by apply Hnb|lia].
      apply (mo_home _ _ M x Hx).
Qed.
End alloc.

(** ** The blocks and bytes of a file *)

(** The block number in slot [k]: data block [k] below MAXFILE, and the
    indirect block in slot MAXFILE; 0 if there is none. *)
Definition fblk (V : Z → list Z) (ip : inode) (k : Z) : Z :=
  if k <? Z.of_nat NDIRECT then addr_at ip (Z.to_nat k)
  else if k =? MAXFILE then addr_at ip NDIRECT
  else if addr_at ip NDIRECT =? 0 then 0
  else word_at (V (addr_at ip NDIRECT)) (Z.to_nat (k - Z.of_nat NDIRECT)).

Definition fbyte (V : Z → list Z) (ip : inode) (o : Z) : Z :=
  if fblk V ip (o / BSIZE) =? 0 then 0 else byte_at (V (fblk V ip (o / BSIZE))) (o mod BSIZE).
Definition contents (V : Z → list Z) (ip : inode) : list Z := map (fbyte V ip) (seqZ 0 (i_size ip)).

(** A well-formed file: its blocks are data blocks marked used, and no block
    is in two slots. *)
Record file_ok (sb : superblock) (V : Z → list Z) (ip : inode) : Prop := {
  fo_inode : inode_ok ip;
  fo_dev : i_dev ip = ROOTDEV;
  fo_inum : 0 <= i_inum ip < sb_ninodes sb;
  fo_size : i_size ip <= MAXFILE * BSIZE;
  fo_blk : ∀ k, 0 <= k <= MAXFILE → fblk V ip k ≠ 0 →
    sb_data sb <= fblk V ip k < sb_size sb ∧ in_use sb V (fblk V ip k) = true;
  fo_inj : ∀ k k', 0 <= k <= MAXFILE → 0 <= k' <= MAXFILE → fblk V ip k ≠ 0 → fblk V ip k = fblk V ip k' → k = k' }.
(** No holes. *)
Definition solid (V : Z → list Z) (ip : inode) : Prop :=
  ∀ k, 0 <= k → k * BSIZE < i_size ip → fblk V ip k ≠ 0.

Definition owns (V : Z → list Z) (ip : inode) (b : Z) : Prop :=
  b ≠ 0 ∧ ∃ k, 0 <= k <= MAXFILE ∧ fblk V ip k = b.

(** The blocks below the bitmap and the data blocks in use are as before but
    for those in [O], and nothing was freed. *)
Record others (sb : superblock) (V V' : Z → list Z) (O : Z → Prop) : Prop := {
  ot_keep : ∀ b, b < sb_bmapstart sb ∨ sb_data sb <= b < sb_size sb ∧ in_use sb V b = true → ¬ O b → V' b = V b;
  ot_used : ∀ b, 0 <= b < sb_size sb → in_use sb V b = true → in_use sb V' b = true }.

(** The file's map was extended, or its blocks written. *)
Record step (sb : superblock) (V V' : Z → list Z) (ip ip' : inode) : Prop := {
  st_meta : ip' = with_i_addrs (i_addrs ip') ip;
  st_file : file_ok sb V' ip';
  st_bm : bm_ok sb V';
  st_mono : ∀ k, 0 <= k <= MAXFILE → fblk V ip k ≠ 0 → fblk V' ip' k = fblk V ip k;
  st_new : ∀ b, owns V' ip' b → owns V ip b ∨ (sb_data sb <= b < sb_size sb ∧ in_use sb V b = false);
  st_others : others sb V V' (owns V ip) }.

Lemma others_trans sb V1 V2 V3 O O' :
  sb_data sb <= sb_size sb → 0 <= sb_data sb → others sb V1 V2 O → others sb V2 V3 O' →
  (∀ b, O' b → b < sb_bmapstart sb ∨ sb_data sb <= b < sb_size sb ∧ in_use sb V1 b = true → O b) →
  others sb V1 V3 O.
Proof.
  intros Hs Hd [A1 A2] [B1 B2] HO. split.
  - intros b Hb Hn. rewrite B1; [by apply A1| |by intros ?%HO]. destruct Hb as [?|[Hr Hu]]; [by left|right].
    split; [done|]. apply A2; [lia|done].
  - auto.
Qed.

Lemma step_refl sb V ip : file_ok sb V ip → bm_ok sb V → step sb V V ip ip.
Proof. intros F B. split; try done; [by destruct ip|by left]. Qed.

Section file.
Context `{P : Platform} {HP : PlatformOk P}.
Variables (sb : superblock) (start : Z).
Hypothesis L : layout sb start.

Lemma step_trans V1 V2 V3 i1 i2 i3 : step sb V1 V2 i1 i2 → step sb V2 V3 i2 i3 → step sb V1 V3 i1 i3.
Proof.
  pose proof (layout_order _ _ L). intros [A1 A2 A3 A4 A5 A6] [B1 B2 B3 B4 B5 B6].
  assert (∀ b, owns V3 i3 b → owns V1 i1 b ∨ (sb_data sb <= b < sb_size sb ∧ in_use sb V1 b = false)) as Hn.
  { intros b Hb. destruct (B5 b Hb) as [?|[Hr Hf]]; [by apply A5|right]. split; [done|].
    destruct (in_use sb V1 b) eqn:E; [|done]. apply (ot_used _ _ _ _ A6) in E; [congruence|lia]. }
  split; try done.
  - rewrite B1, A1. by destruct i1.
  - intros k Hk Hz. rewrite B4, A4; try done. by rewrite A4.
  - eapply others_trans; [lia|lia|exact A6|exact B6|]. intros b Hb Hc.
    destruct (A5 b Hb) as [?|[Hr Hf]]; [done|]. destruct Hc as [?|[_ Hc]]; [lia|congruence].
Qed.

(** The bitmap says the same if its blocks are the same. *)
Lemma in_use_ext V V' b :
  (∀ x, sb_bmapstart sb <= x < sb_data sb → V' x = V x) → 0 <= b < sb_size sb → in_use sb V' b = in_use sb V b.
Proof. intros HV Hb. unfold in_use. rewrite HV; [done|]. by eapply layout_bblock. Qed.

Lemma file_blk_ne V ip k x :
  file_ok sb V ip → 0 <= k <= MAXFILE → in_use sb V x = false → 0 < x → fblk V ip k ≠ x.
Proof.
  intros F Hk Hu Hx E. destruct (fo_blk _ _ _ F k Hk) as [_ Hu2]; [lia|]. congruence.
Qed.

(** Slot [k0] got the new block [x]; apart from the allocation only the
    indirect block was written. *)
Lemma file_extend V V1 V' ip ip' k0 x :
  file_ok sb V ip → bm_ok sb V → alloc sb V V1 x → 0 <= k0 <= MAXFILE → fblk V ip k0 = 0 →
  ip' = with_i_addrs (i_addrs ip') ip → inode_ok ip' →
  (∀ k, 0 <= k <= MAXFILE → fblk V' ip' k = if decide (k = k0) then x else fblk V ip k) →
  (∀ b, ¬ (b ≠ 0 ∧ fblk V ip MAXFILE = b) → V' b = V1 b) →
  step sb V V' ip ip' ∧ ∀ o, 0 <= o < MAXFILE * BSIZE → fbyte V' ip' o = fbyte V ip o.
Proof.
  pose proof (layout_order _ _ L). intros F B [A1 A2 A3 A4 A5] Hk0 Ez Em Hio Hf HV.
  assert (∀ b, 0 <= b < sb_size sb → in_use sb V' b = if decide (x = b) then true else in_use sb V b) as Hu.
  { intros b Hb. rewrite <- A5 by done. apply in_use_ext; [|done]. intros y Hy. apply HV. intros [H1 H2].
    destruct (fo_blk _ _ _ F MAXFILE) as [? _]; [unfold MAXFILE; lia|lia|lia]. }
  assert (∀ k, 0 <= k <= MAXFILE → fblk V ip k ≠ x) as Hne by (intros; apply file_blk_ne; auto; lia).
  assert (∀ k, 0 <= k < MAXFILE → fblk V ip k ≠ 0 → V' (fblk V ip k) = V (fblk V ip k)) as Hdat.
  { intros k Hk Hz. rewrite HV.
    - apply A4; [apply Hne; lia|]. right. apply (fo_blk _ _ _ F); [lia|done].
    - intros [_ E]. symmetry in E. apply (fo_inj _ _ _ F) in E; try done; unfold MAXFILE in *; lia. }
  split; [split|].
  - done.
  - split; try (rewrite Em; apply F); [done| |].
    + intros k Hk. rewrite Hf by done. case_decide.
      * intros _. split; [done|]. rewrite Hu, decide_True by lia || done. done.
      * intros Hz. destruct (fo_blk _ _ _ F k Hk Hz) as [Hr Hu']. split; [done|]. rewrite Hu by lia.
        by case_decide.
    + intros k k' Hk Hk'. rewrite !Hf by done. repeat case_decide; subst; try done.
      * intros _ E. by destruct (Hne k' Hk').
      * intros _ E. by destruct (Hne k Hk).
      * by apply F.
  - intros y Hy. rewrite Hu by lia. case_decide; [done|]. by apply B.
  - intros k Hk Hz. rewrite Hf by done. case_decide; [by subst|done].
  - intros b [Hz (k & Hk & E)]. rewrite Hf in E by done. case_decide; [right; by subst b|left]. split; [done|by exists k].
  - split.
    + intros b Hb Ho. rewrite HV.
      * apply A4; [|by destruct Hb as [|[]]; [left|right; lia]]. intros ->. destruct Hb as [|[_ ?]]; [lia|congruence].
      * intros [H1 H2]. apply Ho. split; [done|]. exists MAXFILE. split; [unfold MAXFILE; lia|done].
    + intros b Hb E. rewrite Hu by done. by case_decide.
  - intros o Ho. assert (0 <= o / BSIZE < MAXFILE) as Hk by (unfold MAXFILE, BSIZE in *; zl).
    unfold fbyte. rewrite Hf by lia. case_decide as E.
    + rewrite E, Ez. cbn. rewrite (proj2 (Z.eqb_neq x 0)) by lia.
      rewrite HV, A3 by (intros [_ E']; apply (Hne MAXFILE); [unfold MAXFILE; lia|done]).
      unfold byte_at, zero_block. rewrite lookup_replicate_2; [done|]. unfold BSIZE; zl.
    + destruct (Z.eqb_spec (fblk V ip (o / BSIZE)) 0); [done|]. by rewrite Hdat.
Qed.

(** *** Slots after a store *)
Definition slot (k : nat) : Z := if (k <? NDIRECT)%nat then Z.of_nat k else MAXFILE.

Lemma addr_at_set ip k x j :
  length (i_addrs ip) = S NDIRECT → (k <= NDIRECT)%nat →
  addr_at (set_addr k x ip) j = if decide (j = k) then x else addr_at ip j.
Proof.
  intros Hl Hk. unfold addr_at, set_addr. cbn. case_decide as E.
  - subst. by rewrite list_lookup_insert_eq by lia.
  - by rewrite list_lookup_insert_ne.
Qed.

Lemma word_at_zero j : word_at zero_block j = 0.
Proof.
  unfold word_at, getb, zero_block. rewrite drop_replicate, take_replicate.
  generalize ((4 `min` (Z.to_nat BSIZE - 4 * j))%nat). intros n. induction n as [|n IH]; [done|].
  cbn [replicate of_bytes]. rewrite IH. done.
Qed.

Lemma fblk_indirect V ip bn : 12 <= bn < 268 →
  fblk V ip bn = if addr_at ip NDIRECT =? 0 then 0 else word_at (V (addr_at ip NDIRECT)) (Z.to_nat (bn - 12)).
Proof.
  intros Hbn. unfold fblk. change (Z.of_nat NDIRECT) with 12. change MAXFILE with 268.
  by rewrite (proj2 (Z.ltb_ge _ _)), (proj2 (Z.eqb_neq _ 268)) by lia.
Qed.

Lemma fblk_set_addr V V' ip k x kk :
  length (i_addrs ip) = S NDIRECT → (k <= NDIRECT)%nat → addr_at ip k = 0 → x ≠ 0 → V' x = zero_block →
  (addr_at ip NDIRECT ≠ 0 → V' (addr_at ip NDIRECT) = V (addr_at ip NDIRECT)) → 0 <= kk <= MAXFILE →
  fblk V' (set_addr k x ip) kk = if decide (kk = slot k) then x else fblk V ip kk.
Proof.
  intros Hl Hk Hz Hx HV HI Hkk. unfold fblk, slot. rewrite !addr_at_set by done.
  change NDIRECT with 12%nat in *. change MAXFILE with 268 in *. change (Z.of_nat 12) with 12.
  destruct (Nat.ltb_spec k 12); destruct (Z.ltb_spec kk 12).
  - case_decide; case_decide; try lia; done.
  - rewrite (decide_False (P := 12%nat = k)) by lia. rewrite (decide_False (P := kk = _)) by lia.
    destruct (Z.eqb_spec kk 268); [done|]. destruct (Z.eqb_spec (addr_at ip 12) 0); [done|]. by rewrite HI.
  - rewrite !decide_False by lia. done.
  - assert (k = 12%nat) as -> by lia. rewrite (decide_True (P := 12%nat = 12%nat)) by done. rewrite Hz. cbn [Z.eqb].
    destruct (Z.eqb_spec kk 268) as [->|]; [by rewrite decide_True|]. rewrite decide_False by done.
    rewrite (proj2 (Z.eqb_neq x 0)) by done. by rewrite HV, word_at_zero.
Qed.

Lemma fblk_put V V1 ip ind j x kk :
  addr_at ip NDIRECT = ind → ind ≠ 0 → length (V ind) = Z.to_nat BSIZE → V1 ind = V ind → (j < NINDIRECT)%nat →
  0 <= x < 4294967296 → 0 <= kk <= MAXFILE →
  fblk (fset V1 ind (putb 4 (4 * j) x (V1 ind))) ip kk =
    if decide (kk = Z.of_nat NDIRECT + Z.of_nat j) then x else fblk V ip kk.
Proof.
  intros Hi Hz Hl HV Hj Hx Hkk. unfold fblk. rewrite Hi, fset_eq, HV.
  change NDIRECT with 12%nat in *. change MAXFILE with 268 in *. change (Z.of_nat 12) with 12.
  change NINDIRECT with 256%nat in *. change (Z.to_nat BSIZE) with 1024%nat in *.
  destruct (Z.ltb_spec kk 12); [by rewrite decide_False by lia|].
  destruct (Z.eqb_spec kk 268); [by rewrite decide_False by lia|].
  rewrite (proj2 (Z.eqb_neq ind 0)) by done. unfold word_at. case_decide.
  - replace (4 * Z.to_nat (kk - 12))%nat with (4 * j)%nat by lia. rewrite getb_putb_eq by lia.
    by apply Z.mod_small.
  - by rewrite getb_putb_ne by lia.
Qed.

(** *** Overwriting a data block *)
Lemma file_write V ip k d :
  file_ok sb V ip → bm_ok sb V → 0 <= k < MAXFILE → fblk V ip k ≠ 0 →
  let V' := fset V (fblk V ip k) d in
  step sb V V' ip ip ∧ (∀ j, 0 <= j <= MAXFILE → fblk V' ip j = fblk V ip j) ∧
  ∀ o, 0 <= o < MAXFILE * BSIZE →
    fbyte V' ip o = if decide (o / BSIZE = k) then byte_at d (o mod BSIZE) else fbyte V ip o.
Proof.
  pose proof (layout_order _ _ L). intros F B Hk Hz V'. destruct (fo_blk _ _ _ F k) as [Hr Hu]; [lia|done|].
  assert (∀ b, 0 <= b < sb_size sb → in_use sb V' b = in_use sb V b) as HU.
  { intros b Hb. apply in_use_ext; [|done]. intros x Hx. unfold V'. rewrite fset_ne by lia. done. }
  assert (∀ j, 0 <= j <= MAXFILE → fblk V' ip j = fblk V ip j) as HF.
  { assert (fblk V ip k ≠ fblk V ip MAXFILE) as Hi
      by (intros E; apply (fo_inj _ _ _ F) in E; try done; unfold MAXFILE in *; lia).
    intros j Hj. unfold fblk at 1 2. repeat case_match; try done. f_equal. apply fset_ne. first [exact Hi|exact (not_eq_sym Hi)]. }
  split_and!; [split|done|].
  - by destruct ip.
  - destruct F as [F1 F2 F3 F4 F5 F6]. split; try done.
    + intros j Hj. rewrite HF by done. intros Hj2. destruct (F5 j Hj Hj2). split; [done|]. rewrite HU; [done|lia].
    + intros j j' Hj Hj'. rewrite !HF by done. by apply F6.
  - intros x Hx. rewrite HU by lia. by apply B.
  - auto.
  - intros b [Hb (j & Hj & E)]. left. split; [done|]. exists j. by rewrite HF in E.
  - split; [|intros b Hb; by rewrite HU].
    intros b Hb Ho. apply fset_ne. intros ->. apply Ho. split; [done|]. exists k. split; [lia|done].
  - intros o Ho. assert (0 <= o / BSIZE < MAXFILE) as Ho2 by (unfold MAXFILE, BSIZE in *; zl).
    unfold fbyte. rewrite HF by lia. case_decide as E.
    + rewrite E. rewrite (proj2 (Z.eqb_neq _ 0)) by done. unfold V'. by rewrite fset_eq.
    + destruct (Z.eqb_spec (fblk V ip (o / BSIZE)) 0); [done|]. unfold V'. rewrite fset_ne; [done|].
      intros E2. apply E. apply (fo_inj _ _ _ F); lia || done.
Qed.
End file.

(** ** bmap *)
Section bmap.
Context `{P : Platform} {HP : PlatformOk P}.

(** In a transaction, table entry [i] is the well-formed file [ip]. *)
Record opened (s0 s : kstate) (l : list inode) (i : nat) (ip : inode) (t : txst) : Prop := {
  op_tx : tx (with_k_inodes l s0) s [] t;
  op_ino : l !! i = Some ip;
  op_lay : layout (k_sb s0) (t_start t);
  op_bm : bm_ok (k_sb s0) (t_view t);
  op_file : file_ok (k_sb s0) (t_view t) ip;
  op_out : 1 <= t_out t;
  op_cons : tx_ok s0 }.

(** The bitmap, and the blocks in the slots [K] of a file *)
Definition touched (sb : superblock) (V : Z → list Z) (ip : inode) (K : Z → Prop) (b : Z) : Prop :=
  sb_bmapstart sb <= b < sb_data sb ∨ ∃ k, K k ∧ 0 <= k <= MAXFILE ∧ b ≠ 0 ∧ fblk V ip k = b.

(** From there, the map of the file was extended in the slots [K]. *)
Record grew (s0 : kstate) (l : list inode) (i : nat) (ip : inode) (t : txst) (K : Z → Prop)
    (full : bool) (s' : kstate) (t' : txst) (ip' : inode) : Prop := {
  gr_tx : tx (with_k_inodes (<[i := ip']> l) (said full s0)) s' [] t';
  gr_ext : ext t t' (touched (k_sb s0) (t_view t') ip' K);
  gr_step : step (k_sb s0) (t_view t) (t_view t') ip ip';
  gr_bytes : ∀ o, 0 <= o < MAXFILE * BSIZE → fbyte (t_view t') ip' o = fbyte (t_view t) ip o;
  gr_full : full = true → ∀ y, 0 <= y < sb_size (k_sb s0) → in_use (k_sb s0) (t_view t') y = true }.

Lemma said_inodes full l s : said full (with_k_inodes l s) = with_k_inodes l (said full s).
Proof. by destruct full. Qed.
Lemma said_sb full s : k_sb (said full s) = k_sb s.
Proof. by destruct full. Qed.
Lemma tx_ok_inodes l s : tx_ok s → tx_ok (with_k_inodes l s).
Proof. by intros []. Qed.
Lemma tx_ok_said full s : tx_ok s → tx_ok (said full s).
Proof. destruct full; [|done]. by intros []. Qed.

Lemma grew_opened s0 s l i ip t K full s' t' ip' :
  opened s0 s l i ip t → grew s0 l i ip t K full s' t' ip' →
  opened (said full s0) s' (<[i := ip']> l) i ip' t'.
Proof.
  intros [O1 O2 O3 O4 O5 O6 O7] [G1 G2 G3 G4 G5]. split; rewrite ?said_sb; try apply G3.
  - done.
  - apply list_lookup_insert_eq. by eapply lookup_lt_Some.
  - by rewrite (ex_start _ _ _ G2).
  - by rewrite (ex_out _ _ _ G2).
  - by apply tx_ok_said.
Qed.

Lemma grew_refl s0 s l i ip t K : opened s0 s l i ip t → grew s0 l i ip t K false s t ip.
Proof.
  intros [O1 O2 O3 O4 O5 O6 O7]. split; [|apply ext_refl|by apply step_refl|done|done].
  by rewrite list_insert_id.
Qed.
Lemma touched_mono sb V V' ip ip' K K' b :
  step sb V V' ip ip' → (∀ k, K k → K' k) → touched sb V ip K b → touched sb V' ip' K' b.
Proof.
  intros S HK [?|(k & H1 & H2 & H3 & H4)]; [by left|right]. exists k. split_and!; try done; [by apply HK|lia|lia|].
  subst b. by apply (st_mono _ _ _ _ _ S).
Qed.
Lemma grew_mono s0 l i ip t (K K' : Z → Prop) full s' t' ip' :
  (∀ k, K k → K' k) → grew s0 l i ip t K full s' t' ip' → grew s0 l i ip t K' full s' t' ip'.
Proof.
  intros HK [G1 G2 G3 G4 G5]. split; try done. eapply ext_mono; [|exact G2]. intros b [?|(k & H1 & H2)]; [by left|right].
  exists k. split; auto.
Qed.
Lemma grew_trans s0 s l i ip t s1 t1 i1 K full s2 t2 i2 :
  opened s0 s l i ip t → grew s0 l i ip t K false s1 t1 i1 → grew s0 (<[i := i1]> l) i i1 t1 K full s2 t2 i2 →
  grew s0 l i ip t K full s2 t2 i2.
Proof.
  intros O [A1 A2 A3 A4 A5] [B1 B2 B3 B4 B5]. split.
  - by rewrite list_insert_insert_eq in B1.
  - eapply ext_trans; [|exact B2]. eapply ext_mono; [|exact A2]. intros b. by apply touched_mono.
  - eapply step_trans; [apply O|done..].
  - intros o Ho. by rewrite B4, A4.
  - done.
Qed.

Lemma inode_ok_set k x ip : inode_ok ip → 0 <= x < 4294967296 → inode_ok (set_addr k x ip).
Proof.
  intros [] Hx. split; try done; cbn; [by rewrite length_insert|]. by apply Forall_insert.
Qed.

(** A block number in the inode, allocated if there is none. *)
Lemma slot_ok s0 s l i ip t k :
  opened s0 s l i ip t → (k <= NDIRECT)%nat → (length (t_bs t) + 1 < NBUF)%nat →
  ∃ a full s' t' ip',
    (if addr_at ip k =? 0 then
       addr ← balloc (i_dev ip);
       if addr =? 0 then mret 0 else upd_inode i (set_addr k addr);; mret addr
     else mret (addr_at ip k)) s = Ok a s' ∧
    grew s0 l i ip t (.= slot k) full s' t' ip' ∧ fblk (t_view t') ip' (slot k) = a ∧ full = (a =? 0) ∧
    (addr_at ip k ≠ 0 → s' = s ∧ t' = t ∧ ip' = ip).
Proof.
  intros O Hk Hl. pose proof O as [T Hi La B F Ho Htx]. pose proof (layout_order _ _ La) as HO.
  pose proof (io_naddrs _ (fo_inode _ _ _ F)) as Hna.
  assert (fblk (t_view t) ip (slot k) = addr_at ip k) as Hslot.
  { unfold fblk, slot. change NDIRECT with 12%nat in *. destruct (Nat.ltb_spec k 12).
    - rewrite (proj2 (Z.ltb_lt _ _)) by lia. by rewrite Nat2Z.id.
    - cbn. by replace k with 12%nat by lia. }
  destruct (Z.eqb_spec (addr_at ip k) 0) as [Ez|Hnz].
  2:{ exists (addr_at ip k), false, s, t, ip. split_and!; [done|by apply grew_refl|done| |done].
      symmetry. by apply Z.eqb_neq. }
  rewrite (fo_dev _ _ _ F).
  destruct (balloc_fs _ s [] t T La B) as [(x & s1 & t1 & E & T1 & _ & X & A)|(s1 & E & T1 & Hall)];
    [set_solver|cbn; lia|done|by apply tx_ok_inodes| |]; rewrite (bind_Ok _ _ _ _ _ E).
  - destruct A as [A1 A2 A3 A4 A5]. cbn in A1, A2, A3, A4, A5. rewrite (proj2 (Z.eqb_neq x 0)) by lia.
    assert (k_inodes s1 = l) as El by (by rewrite (frame_inodes _ _ (tx_frame _ _ _ _ T1))).
    rewrite (bind_Ok _ _ _ _ _ (upd_inode_ok s1 i ip _ ltac:(by rewrite El))). rewrite El.
    apply (tx_inodes (<[i := set_addr k x ip]> l)) in T1.
    assert (∀ kk, 0 <= kk <= MAXFILE →
      fblk (t_view t1) (set_addr k x ip) kk = if decide (kk = slot k) then x else fblk (t_view t) ip kk) as Hf.
    { intros kk Hkk. apply fblk_set_addr; try done; [lia|]. intros Hz.
      assert (fblk (t_view t) ip MAXFILE = addr_at ip NDIRECT) as Em by done.
      destruct (fo_blk _ _ _ F MAXFILE) as [Hr Hu]; [unfold MAXFILE; lia|done|]. rewrite Em in Hr, Hu.
      apply A4; [congruence|lia]. }
    assert (0 <= slot k <= MAXFILE) as Hs.
    { unfold slot, MAXFILE. change NDIRECT with 12%nat in *. destruct (Nat.ltb_spec k 12); lia. }
    destruct (file_extend _ _ La (t_view t) (t_view t1) (t_view t1) ip (set_addr k x ip) (slot k) x)
      as [S Hb]; try done; [by rewrite Hslot|by apply inode_ok_set; [apply F|lia]|].
    exists x, false, (with_k_inodes (<[i := set_addr k x ip]> l) s1), t1, (set_addr k x ip).
    split_and!; [done|split; try done|by rewrite Hf, decide_True| |done].
    + eapply ext_mono; [|exact X]. intros b [?| ->]; [by left|right]. exists (slot k).
      rewrite Hf, decide_True by done. split_and!; try done; lia.
    + symmetry. apply Z.eqb_neq. lia.
  - rewrite said_inodes in T1. exists 0, true, s1, t, ip.
    split_and!; [done|split|by rewrite Hslot|done|done].
    + by rewrite list_insert_id.
    + apply ext_refl.
    + by apply step_refl.
    + done.
    + done.
Qed.

(** *** The blocks of a transaction that writes a file
    Its bitmap blocks and its indirect block count once. *)
Definition extra (sb : superblock) (V : Z → list Z) (ip : inode) (bs : list Z) : list Z :=
  filter (λ b, ¬ (sb_bmapstart sb <= b < sb_data sb) ∧ ¬ (b ≠ 0 ∧ fblk V ip MAXFILE = b)) bs.
Definition nbitmap (sb : superblock) : nat := Z.to_nat (sb_size sb / BPB + 1).
Definition load (sb : superblock) (V : Z → list Z) (ip : inode) (t : txst) : nat :=
  (length (extra sb V ip (t_bs t)) + nbitmap sb + 1)%nat.

Lemma nodup_length (l k : list Z) : NoDup l → (∀ x, x ∈ l → x ∈ k) → (length l <= length k)%nat.
Proof. intros H1 H2. apply submseteq_length. by apply NoDup_submseteq. Qed.

Lemma length_load sb start V ip t :
  layout sb start → NoDup (t_bs t) → (length (t_bs t) <= load sb V ip t)%nat.
Proof.
  intros La Hnd. pose proof (layout_order _ _ La) as HO.
  set (l := extra sb V ip (t_bs t) ++ seqZ (sb_bmapstart sb) (sb_size sb / BPB + 1) ++ [fblk V ip MAXFILE]).
  assert (length l = load sb V ip t) as <-.
  { unfold l, load, nbitmap. rewrite !length_app, length_seqZ. cbn. lia. }
  apply nodup_length; [done|]. intros x Hx. unfold l. rewrite !elem_of_app, elem_of_seqZ, list_elem_of_singleton.
  unfold extra. rewrite list_elem_of_filter. unfold sb_data.
  destruct (decide (sb_bmapstart sb <= x < sb_data sb)) as [?|Hn]; [unfold sb_data in *; right; left; lia|].
  destruct (decide (fblk V ip MAXFILE = x)); [by right; right|left]. tauto.
Qed.

Lemma load_ext sb V V' ip ip' t t' K (ks : list Z) :
  NoDup (t_bs t') → step sb V V' ip ip' → ext t t' (touched sb V' ip' K) →
  (∀ k, K k → k = MAXFILE ∨ k ∈ ks) → (load sb V' ip' t' <= load sb V ip t + length ks)%nat.
Proof.
  intros Hnd S X HK. unfold load. cut (length (extra sb V' ip' (t_bs t')) <= length (extra sb V ip (t_bs t) ++ map (fblk V' ip') ks))%nat.
  { rewrite length_app, length_map. lia. }
  apply nodup_length; [by apply NoDup_filter|]. intros x [[H1 H2] Hx]%list_elem_of_filter.
  apply elem_of_app. destruct (ex_bs _ _ _ X x Hx) as [Hin|[?|(k & Hk & Hr & Hz & E)]]; [left|done|right].
  - apply list_elem_of_filter. split_and!; [done| |done]. intros [Hz E]. apply H2. split; [done|].
    rewrite (st_mono _ _ _ _ _ S); [done|unfold MAXFILE; lia|by rewrite E].
  - destruct (HK k Hk) as [->|Hin]; [by destruct H2|]. rewrite <- E. by apply list_elem_of_fmap_2.
Qed.

(** The last part of [bmap] for a block behind the indirect block: entry [j] of
    the held block, allocated if it is 0. *)
Definition entry (dev : Z) (j : nat) (bp : nat) (d : list Z) : KM Z :=
  addr ← (let w := word_at d j in
          if w =? 0 then
            addr ← balloc dev;
            when (negb (addr =? 0)) (upd_data bp (putb 4 (4 * j) addr);; log_write bp);;
            mret addr
          else mret w);
  brelse bp;; mret addr.

Lemma entry_ok s0 s l i ip t bp a j :
  opened s0 s l i ip t → fblk (t_view t) ip MAXFILE = a → a ≠ 0 → (j < NINDIRECT)%nat →
  (length (t_bs t) + 2 < NBUF)%nat → length (t_view t a) = Z.to_nat BSIZE →
  a ∈ t_bs t ∨ t_view t a = blk (t_img t) a →
  ∀ s1, tx (with_k_inodes l s0) s1 [(bp, a)] t →
  ∃ r full s' t',
    entry ROOTDEV j bp (t_view t a) s1 = Ok r s' ∧
    grew s0 l i ip t (λ k, k = MAXFILE ∨ k = Z.of_nat NDIRECT + Z.of_nat j) full s' t' ip ∧ fblk (t_view t') ip (Z.of_nat NDIRECT + Z.of_nat j) = r ∧ full = (r =? 0) ∧
    (fblk (t_view t) ip (Z.of_nat NDIRECT + Z.of_nat j) ≠ 0 → t' = t).
Proof.
  intros O Em Hz Hj Hl Hlen Hcl s1 T1. pose proof O as [T Hi La B F Ho Htx]. pose proof (layout_order _ _ La) as HO.
  change NINDIRECT with 256%nat in Hj.
  assert (fblk (t_view t) ip (Z.of_nat NDIRECT + Z.of_nat j) = word_at (t_view t a) j) as Ew.
  { rewrite fblk_indirect by (change (Z.of_nat NDIRECT) with 12; lia).
    change (addr_at ip NDIRECT) with (fblk (t_view t) ip MAXFILE). rewrite Em, (proj2 (Z.eqb_neq a 0)) by done.
    f_equal. change (Z.of_nat NDIRECT) with 12. lia. }
  rewrite <- Em in *. destruct (fo_blk _ _ _ F MAXFILE) as [Hr Hu]; [unfold MAXFILE; lia|done|].
  rewrite Em in *. unfold entry. cbv zeta. rewrite <- Ew. destruct (Z.eqb_spec (fblk (t_view t) ip (Z.of_nat NDIRECT + Z.of_nat j)) 0) as [E0|Hn0].
  2:{ rewrite bind_ret. destruct (tx_brelse _ _ _ _ bp a T1 Hcl) as (s2 & E2 & T2). rewrite (bind_Ok _ _ _ _ _ E2).
      eexists _, false, s2, t. split_and!; [done| |done| |done].
      - split; [by rewrite list_insert_id|apply ext_refl|by apply step_refl|done|done].
      - symmetry. by apply Z.eqb_neq. }
  destruct (balloc_fs _ s1 [(bp, a)] t T1 La B) as [(x & s2 & t2 & E & T2 & Hl2 & X & A)|(s2 & E & T2 & Hall)];
    [intros b Hb; cbn in Hb; apply list_elem_of_singleton in Hb as ->; done|cbn; lia|done|by apply tx_ok_inodes| |];
    rewrite bind_assoc, (bind_Ok _ _ _ _ _ E).
  - pose proof A as [A1 A2 A3 A4 A5]. cbn in A1, A2, A3, A4, A5.
    assert (t_view t2 a = t_view t a) as Ea by (apply A4; [congruence|lia]).
    destruct (tx_write_done _ _ _ _ bp a (λ q, with_b_data (putb 4 (4 * j) x (b_data q)) q) (putb 4 (4 * j) x (t_view t2 a)) T2)
      as (s3 & s4 & s5 & E3 & E4 & E5 & T5).
    { rewrite length_putb; rewrite Ea, Hlen; [done|]. change (Z.to_nat BSIZE) with 1024%nat. lia. }
    { by intros q ->. }
    { rewrite (ex_start _ _ _ X). apply (layout_home (k_sb s0)); [done|]. lia. }
    { change (Z.to_nat LOGBLOCKS) with NBUF. lia. }
    { by rewrite (ex_out _ _ _ X). }
    rewrite (proj2 (Z.eqb_neq x 0)) by lia. cbn [negb when]. unfold upd_data.
    rewrite !bind_assoc, (bind_Ok _ _ _ _ _ E3), (bind_Ok _ _ _ _ _ E4), bind_ret, (bind_Ok _ _ _ _ _ E5).
    assert (∀ kk, 0 <= kk <= MAXFILE → fblk (fset (t_view t2) a (putb 4 (4 * j) x (t_view t2 a))) ip kk =
      if decide (kk = Z.of_nat NDIRECT + Z.of_nat j) then x else fblk (t_view t) ip kk) as Hf.
    { intros kk Hkk. apply fblk_put; try done; lia. }
    assert (0 <= Z.of_nat NDIRECT + Z.of_nat j <= MAXFILE) as Hs by (change NDIRECT with 12%nat; unfold MAXFILE; lia).
    destruct (file_extend _ _ La (t_view t) (t_view t2) _ ip ip _ x F B A Hs E0 ltac:(by destruct ip) (fo_inode _ _ _ F) Hf) as [S Hb].
    { intros b Hb. apply fset_ne. intros Eb. apply Hb. by rewrite Eb. }
    exists x, false, s5, (wrote a (putb 4 (4 * j) x (t_view t2 a)) t2). split; [done|].
    split; [split|split_and!; [|symmetry; apply Z.eqb_neq; lia|done]].
    + rewrite list_insert_id by done. exact T5.
    + apply (ext_trans _ t2); [eapply ext_mono; [|exact X]; intros b [?| ->]; [by left|right]|apply ext_wrote; right].
      * exists (Z.of_nat NDIRECT + Z.of_nat j). cbn [t_view wrote]. rewrite Hf, decide_True by done.
        split_and!; auto; lia.
      * exists MAXFILE. split_and!; auto; unfold MAXFILE; lia.
    + exact S.
    + exact Hb.
    + done.
    + cbn [t_view wrote]. by rewrite Hf, decide_True.
  - cbn [Z.eqb negb when]. rewrite said_inodes in T2. rewrite bind_assoc, bind_ret, bind_ret.
    destruct (tx_brelse _ _ _ _ bp a T2 Hcl) as (s3 & E3 & T3). rewrite (bind_Ok _ _ _ _ _ E3).
    exists 0, true, s3, t. split_and!; [done| |done|done|done].
    split; [by rewrite list_insert_id|apply ext_refl|by apply step_refl|done|done].
Qed.

Lemma bmap_direct s0 s l i ip t bn :
  opened s0 s l i ip t → 0 <= bn < 12 → (load (k_sb s0) (t_view t) ip t + 2 < NBUF)%nat →
  ∃ a full s' t' ip', bmap i bn s = Ok a s' ∧
    grew s0 l i ip t (λ k, k = MAXFILE ∨ k = bn) full s' t' ip' ∧ fblk (t_view t') ip' bn = a ∧ full = (a =? 0) ∧
    (fblk (t_view t) ip bn ≠ 0 → t' = t ∧ ip' = ip).
Proof.
  intros O Hbn Hl. pose proof O as [T Hi La B F Ho Htx].
  pose proof (length_load _ _ (t_view t) ip _ La (tx_bsnd _ _ _ _ T)) as Hl0.
  unfold bmap. change (Z.of_nat NDIRECT) with 12. rewrite (proj2 (Z.ltb_lt bn 12)) by lia.
  rewrite (get_inode_ok s i ip) by (by rewrite (frame_inodes _ _ (tx_frame _ _ _ _ T))). cbv zeta.
  destruct (slot_ok s0 s l i ip t (Z.to_nat bn) O) as (a & full & s' & t' & ip' & E & G & Ef & Hfu & Hsame);
    [change NDIRECT with 12%nat; lia|lia|].
  assert (slot (Z.to_nat bn) = bn) as Es.
  { unfold slot. change NDIRECT with 12%nat. rewrite (proj2 (Nat.ltb_lt _ _)) by lia. lia. }
  rewrite Es in Ef, G. exists a, full, s', t', ip'. split_and!; try done.
  - eapply grew_mono; [|exact G]. tauto.
  - intros Hn. destruct Hsame as (_ & ? & ?); [|done]. unfold fblk in Hn.
    change (Z.of_nat NDIRECT) with 12 in Hn. by rewrite (proj2 (Z.ltb_lt bn 12)) in Hn by lia.
Qed.

Lemma bmap_indirect s0 s l i ip t bn :
  opened s0 s l i ip t → 12 <= bn < MAXFILE → (load (k_sb s0) (t_view t) ip t + 2 < NBUF)%nat →
  ∃ a full s' t' ip', bmap i bn s = Ok a s' ∧
    grew s0 l i ip t (λ k, k = MAXFILE ∨ k = bn) full s' t' ip' ∧ fblk (t_view t') ip' bn = a ∧ full = (a =? 0) ∧
    (fblk (t_view t) ip bn ≠ 0 → t' = t ∧ ip' = ip).
Proof.
  intros O Hbn Hl. pose proof O as [T Hi La B F Ho Htx]. change MAXFILE with 268 in Hbn.
  pose proof (length_load _ _ (t_view t) ip _ La (tx_bsnd _ _ _ _ T)) as Hl0.
  unfold bmap. change (Z.of_nat NDIRECT) with 12. rewrite (proj2 (Z.ltb_ge bn 12)) by lia.
  change (Z.of_nat NINDIRECT) with 256. cbv zeta. rewrite (proj2 (Z.ltb_lt _ _)) by lia.
  rewrite (get_inode_ok s i ip) by (by rewrite (frame_inodes _ _ (tx_frame _ _ _ _ T))).
  destruct (slot_ok s0 s l i ip t NDIRECT O) as (a & full & s1 & t1 & ip1 & E & G & Ef & Hfu & Hsame);
    [lia|lia|]. change (slot NDIRECT) with MAXFILE in Ef, G. rewrite (bind_Ok _ _ _ _ _ E). clear E.
  assert (fblk (t_view t) ip bn ≠ 0 → t1 = t ∧ ip1 = ip) as Hmap.
  { intros Hn. destruct Hsame as (_ & ? & ?); [|done]. intros E0. apply Hn. rewrite fblk_indirect, E0 by lia. done. }
  destruct (Z.eqb_spec a 0) as [Ea|Ha].
  { exists 0, full, s1, t1, ip1. split_and!; [done|eapply grew_mono; [|exact G]; tauto| |done|done].
    rewrite fblk_indirect by lia. change (addr_at ip1 NDIRECT) with (fblk (t_view t1) ip1 MAXFILE). by rewrite Ef, Ea. }
  subst full. pose proof (grew_opened _ _ _ _ _ _ _ _ _ _ _ O G) as O1.
  pose proof O1 as [T1 Hi1 La1 _ F1 _ _]. cbn [said] in T1, La1, F1. pose proof (layout_order _ _ La1) as HO.
  destruct (fo_blk _ _ _ F1 MAXFILE) as [Hr _]; [unfold MAXFILE; lia|by rewrite Ef|]. rewrite Ef in Hr.
  pose proof (load_ext _ _ _ _ _ _ _ _ [] (tx_bsnd _ _ _ _ T1) (gr_step _ _ _ _ _ _ _ _ _ _ G)
    (gr_ext _ _ _ _ _ _ _ _ _ _ G) ltac:(by left)) as Hl1.
  pose proof (length_load _ _ (t_view t1) ip1 _ La1 (tx_bsnd _ _ _ _ T1)) as Hl2. cbn [length] in Hl1.
  rewrite (get_inode_ok s1 i ip1) by (by rewrite (frame_inodes _ _ (tx_frame _ _ _ _ T1))).
  rewrite (fo_dev _ _ _ F1). set (j := Z.to_nat (bn - 12)).
  destruct (tx_get _ _ _ _ a (entry ROOTDEV j) T1) as (bp & s2 & E2 & T2 & Hlen & Hcl); [|set_solver|cbn; lia|].
  { apply (layout_home (k_sb s0) (t_start t1)); [done|lia]. }
  destruct (entry_ok s0 s1 _ i ip1 t1 bp a j O1 Ef Ha) with (s1 := s2)
    as (r & full & s3 & t3 & E3 & G3 & Ef3 & Hfu3 & Hsame3); [unfold j; change NINDIRECT with 256%nat; lia|lia|done|done|done|].
  exists r, full, s3, t3, ip1. change (Z.of_nat NDIRECT) with 12 in *. replace (12 + Z.of_nat j) with bn in * by lia.
  split_and!; [etrans; [exact E2|exact E3]| |done|done|].
  - eapply grew_trans; [exact O| |eapply grew_mono; [|exact G3]; cbn; intros; lia].
    eapply grew_mono; [|exact G]. tauto.
  - intros Hn. destruct (Hmap Hn) as [-> ->]. by rewrite Hsame3.
Qed.

Lemma bmap_ok s0 s l i ip t bn :
  opened s0 s l i ip t → 0 <= bn < MAXFILE → (load (k_sb s0) (t_view t) ip t + 2 < NBUF)%nat →
  ∃ a full s' t' ip', bmap i bn s = Ok a s' ∧
    grew s0 l i ip t (λ k, k = MAXFILE ∨ k = bn) full s' t' ip' ∧ fblk (t_view t') ip' bn = a ∧ full = (a =? 0) ∧
    (fblk (t_view t) ip bn ≠ 0 → t' = t ∧ ip' = ip).
Proof.
  intros O Hbn. destruct (Z.lt_ge_cases bn 12); [apply bmap_direct|apply bmap_indirect]; done || lia.
Qed.
End bmap.
