(* ===== verification/FsRead.v ===== *)
(** * readi of kernel/fs.c

    [readi] delivers a slice of the file's contents to a local variable, a
    kernel address or the memory of the running process, and changes nothing
    else that a reader can see. *)

From S2P Require Import Prelude Machine State CString Spinlock Printf Emu Kalloc Vm VmSpec VmUser VmCopy Sched Bytes Bio BioSpec Cache Log LogImg LogSpec LogThms Tx Console Pipe Fs FsBlock FsInode FsFile.

(** ** Slices *)
Lemma length_contents V ip : 0 <= i_size ip → length (contents V ip) = Z.to_nat (i_size ip).
Proof. intros. unfold contents. rewrite length_map, length_seqZ. done. Qed.

Lemma contents_slice V ip off n :
  0 <= off → 0 <= n → off + n <= i_size ip →
  take (Z.to_nat n) (drop (Z.to_nat off) (contents V ip)) = map (fbyte V ip) (seqZ off n).
Proof.
  intros H1 H2 H3. unfold contents. rewrite <- fmap_drop, <- fmap_take. f_equal.
  apply list_eq. intros k. destruct (decide (k < Z.to_nat n)%nat).
  - rewrite lookup_take_lt, lookup_drop by done. rewrite !lookup_seqZ_lt by lia. f_equal. lia.
  - rewrite lookup_take_ge by lia. rewrite lookup_seqZ_ge by lia. done.
Qed.

Lemma slice_bytes V ip off m :
  let a := fblk V ip (off / BSIZE) in
  0 <= off → 0 <= m → off mod BSIZE + m <= BSIZE → a ≠ 0 → length (V a) = Z.to_nat BSIZE →
  take (Z.to_nat m) (drop (Z.to_nat (off mod BSIZE)) (V a)) = map (fbyte V ip) (seqZ off m).
Proof.
  intros a H1 H2 H3 Ha Hl. unfold BSIZE in *. apply list_eq. intros k. rewrite list_lookup_fmap.
  destruct (decide (k < Z.to_nat m)%nat).
  - rewrite lookup_take_lt, lookup_drop by done. rewrite lookup_seqZ_lt by lia. cbn.
    unfold fbyte. change BSIZE with 1024.
    replace ((off + Z.of_nat k) / 1024) with (off / 1024) by zl. fold a.
    rewrite (proj2 (Z.eqb_neq a 0)) by done. unfold byte_at.
    replace (Z.to_nat ((off + Z.of_nat k) mod 1024)) with (Z.to_nat (off mod 1024) + k)%nat by zl.
    destruct (lookup_lt_is_Some_2 (V a) (Z.to_nat (off mod 1024) + k)) as [v Hv]; [zl|]. by rewrite Hv.
  - rewrite lookup_take_ge by lia. rewrite lookup_seqZ_ge by lia. done.
Qed.

Section fsread.
Context `{P : Platform} {HP : PlatformOk P}.

(** ** Destinations *)
Definition accepts (s : kstate) (dst : rdst) (n : Z) : Prop :=
  match dst with
  | DLocal => True
  | DKernel a => 0 <= a ∧ a + n < 4294967296
  | DUser va => 0 <= va ∧ va + n <= MAXVA ∧ ∃ i p ps fl, running s i p ∧ umem s (p_pagetable p) ps fl ∧
      ∀ va', va <= va' < va + n → uwritable (k_mem s) (p_pagetable p) va' = true
  end.
(** Memory [m'] is that of [s] with [l] at the destination. *)
Definition delivered (s : kstate) (dst : rdst) (l : list Z) (m' : mem) : Prop :=
  match dst with
  | DLocal => m' = k_mem s
  | DKernel a => m' = stbytes (k_mem s) a l
  | DUser va => ∃ i p, running s i p ∧ uwrites (k_mem s) m' (p_pagetable p) va l
  end.

Lemma stbytes_app l1 : ∀ m a l2, stbytes m a (l1 ++ l2) = stbytes (stbytes m a l1) (a + Z.of_nat (length l1)) l2.
Proof.
  induction l1 as [|x l1 IH]; intros m a l2; cbn [stbytes app length]; [by rewrite Z.add_0_r|].
  rewrite IH. f_equal. lia.
Qed.

Lemma copy_to_ok s dst l n :
  kctx s → 0 <= n → accepts s dst (Z.of_nat (length l) + n) →
  let d := dst_add dst (Z.of_nat (length l)) in
  ∃ m', copy_to dst l s = Ok 0 (with_k_mem m' s) ∧ delivered s dst l m' ∧ accepts (with_k_mem m' s) d n ∧
    ∀ l2 m2, Z.of_nat (length l2) <= n → delivered (with_k_mem m' s) d l2 m2 → delivered s dst (l ++ l2) m2.
Proof.
  intros Hk Hn Ha d. pose proof MAXVA_eq as HM. unfold d. destruct dst as [va|a|]; cbn [copy_to accepts delivered dst_add] in *.
  - destruct Ha as (H1 & H2 & i & p & ps & fl & Hr & Hu & Hw). rewrite u32_small by lia.
    destruct (copyout_loop_ok (p_pagetable p) ps fl (length l) s va l Hu) as (m' & E & W & U & Hpte);
      [lia|lia|lia|intros; apply Hw; lia|].
    assert (∀ x, uaddr m' (p_pagetable p) x = uaddr (k_mem s) (p_pagetable p) x) as Eu by (intros; unfold uaddr; by rewrite Hpte).
    exists m'. split_and!.
    + unfold either_copyout. etrans; [apply (myproc_running (λ q, copyout (p_pagetable q) va l) s i p Hk Hr)|]. exact E.
    + by exists i, p.
    + lia.
    + lia.
    + exists i, p, ps, fl. split_and!; [done|done|]. intros va' Hva'. unfold uwritable, uvalid. cbn. rewrite Hpte. apply Hw. lia.
    + intros l2 m2 Hl2 (i2 & p2 & [R1 R2] & W2). cbn in R1, R2, W2. destruct Hr as [Q1 Q2].
      assert (i2 = i) as -> by congruence. assert (p2 = p) as -> by congruence. exists i, p. split; [done|].
      eapply uwrites_app; [exact Hu|lia|rewrite length_app; lia| |exact Hpte|done|done].
      intros va'. rewrite length_app. intros Hva'. apply uwritable_valid, Hw. lia.
  - exists (stbytes (k_mem s) a l). rewrite u32_small by lia. split_and!; [|done|lia|lia|].
    + unfold either_copyout. by rewrite (bind_Ok _ _ _ _ _ (myproc_kctx s Hk)).
    + intros l2 m2 _ ->. symmetry. apply stbytes_app.
  - exists (k_mem s). split_and!; try done. by destruct s.
Qed.

(** *** Destinations beside a transaction *)
Lemma running_same s s' i p : same_ctx s s' → running s i p ↔ running s' i p.
Proof.
  intros (_ & E2 & _ & _ & H5). unfold running. rewrite E2. split; intros [A B]; (split; [done|]).
  - by rewrite H5.
  - by rewrite <- H5.
Qed.
Lemma frame_ctx s s' : fs_frame s s' → same_ctx s s'.
Proof. intros [[H _] _]. exact H. Qed.

Lemma same_ctx_sym s s' : same_ctx s s' → same_ctx s' s.
Proof. intros (H1 & H2 & H3 & H4 & H5). split_and!; try done. intros i Hi. symmetry. apply H5. by rewrite <- H2. Qed.

Lemma umem_ctx s s' pt ps fl :
  same_ctx s s' → k_mem s' = k_mem s → k_freelist s' = k_freelist s → umem s pt ps fl → umem s' pt ps fl.
Proof.
  intros (C1 & C2 & C3 & _) Em Ef Hu. eapply umem_ext; [done..| |done].
  destruct (vi_env _ _ _ _ (um_inv _ _ _ _ Hu)). split; [by eapply kctx_ext|by eapply lock_ready_ext].
Qed.
Lemma accepts_ext s s' dst n :
  same_ctx s s' → k_mem s' = k_mem s → k_freelist s' = k_freelist s → accepts s dst n → accepts s' dst n.
Proof.
  intros Hc Em Ef. destruct dst as [va| |]; [|done..].
  intros (H1 & H2 & i & p & ps & fl & Hr & Hu & Hw).
  split_and!; [done..|]. exists i, p, ps, fl. rewrite Em.
  split_and!; [by apply (running_same s)|by apply (umem_ctx s)|done].
Qed.
Lemma frame_freelist s s' : fs_frame s s' → k_freelist s' = k_freelist s.
Proof. intros [_ ->]. by destruct s. Qed.
Lemma delivered_nil s dst n : accepts s dst n → delivered s dst [] (k_mem s).
Proof.
  destruct dst; cbn; try done. intros (_ & _ & i & p & ps & fl & Hr & _). exists i, p.
  split; [done|split; [intros j Hj; cbn in Hj; lia|done]].
Qed.
Lemma delivered_ext s s' dst l m :
  same_ctx s s' → k_mem s' = k_mem s → delivered s dst l m → delivered s' dst l m.
Proof.
  intros Hc Em. destruct dst as [va| |]; cbn; rewrite ?Em; [|done..]. intros (i & p & Hr & W). exists i, p.
  split; [by apply (running_same s)|done].
Qed.

Lemma tx_mem m s0 s H t : tx s0 s H t → tx (with_k_mem m s0) (with_k_mem m s) H t.
Proof.
  intros [[[l [B1 B2 B3 B4 B5 B6 B7 B8]] C2 C3 C4 C5 C6 C7] T2 T3 T4 T5 T6 T7 [F1 F2]].
  split; try done; [split; try done|split; [done|]].
  - exists l. split; try done. by apply (calm_same s).
  - rewrite F2 at 1. by destruct s0.
Qed.

(** ** Files that can be read *)
Record readable (s0 s : kstate) (l : list inode) (i : nat) (ip : inode) (t : txst) : Prop := {
  rd_tx : tx (with_k_inodes l s0) s [] t;
  rd_ino : l !! i = Some ip;
  rd_lay : layout (k_sb s0) (t_start t);
  rd_file : file_ok (k_sb s0) (t_view t) ip;
  rd_solid : solid (t_view t) ip;
  rd_room : (length (t_bs t) < NBUF)%nat }.

Lemma readable_step s0 s s' l i ip t : readable s0 s l i ip t → tx (with_k_inodes l s0) s' [] t → readable s0 s' l i ip t.
Proof. intros [] T. by split. Qed.
Lemma readable_mem m s0 s l i ip t : readable s0 s l i ip t → readable (with_k_mem m s0) (with_k_mem m s) l i ip t.
Proof. intros [R1 R2 R3 R4 R5 R6]. split; try done. apply (tx_mem m) in R1. exact R1. Qed.
Lemma readable_inode s0 s l i ip t : readable s0 s l i ip t → k_inodes s !! i = Some ip.
Proof. intros R. rewrite (frame_inodes _ _ (tx_frame _ _ _ _ (rd_tx _ _ _ _ _ _ R))). apply R. Qed.

Lemma readable_get {B} s0 s l i ip t k (f : nat → list Z → KM B) :
  readable s0 s l i ip t → 0 <= k <= MAXFILE → fblk (t_view t) ip k ≠ 0 →
  let a := fblk (t_view t) ip k in
  ∃ bp s', (bp ← bread (i_dev ip) a; d ← buf_data bp; f bp d) s = f bp (t_view t a) s' ∧
    tx (with_k_inodes l s0) s' [(bp, a)] t ∧ length (t_view t a) = Z.to_nat BSIZE ∧
    (a ∈ t_bs t ∨ t_view t a = blk (t_img t) a).
Proof.
  intros [T Hi La F So Hl] Hk Hz a. pose proof (layout_order _ _ La). rewrite (fo_dev _ _ _ F).
  destruct (fo_blk _ _ _ F k Hk Hz) as [Hr _]. apply tx_get; [done| |set_solver|cbn; lia].
  apply (layout_home (k_sb s0) (t_start t)); [done|]. fold a in Hr. lia.
Qed.

(** [bmap] of a mapped block only reads. *)
Lemma bmap_mapped s0 s l i ip t bn :
  readable s0 s l i ip t → 0 <= bn < MAXFILE → fblk (t_view t) ip bn ≠ 0 →
  ∃ s', bmap i bn s = Ok (fblk (t_view t) ip bn) s' ∧ readable s0 s' l i ip t.
Proof.
  intros R Hbn Hz. pose proof (readable_inode _ _ _ _ _ _ R) as Hi. unfold bmap.
  change (Z.of_nat NDIRECT) with 12. unfold fblk in Hz at 1 |- * at 1. change (Z.of_nat NDIRECT) with 12 in *.
  change MAXFILE with 268 in *. destruct (Z.ltb_spec bn 12) as [Hd|Hd].
  - rewrite (get_inode_ok s i ip) by done. cbv zeta. rewrite (proj2 (Z.eqb_neq _ 0)) by done. by exists s.
  - rewrite (proj2 (Z.eqb_neq bn 268)) in * by lia. change (Z.of_nat NINDIRECT) with 256. cbv zeta.
    rewrite (proj2 (Z.ltb_lt _ _)) by lia. rewrite (get_inode_ok s i ip) by done.
    destruct (Z.eqb_spec (addr_at ip NDIRECT) 0) as [|Ha]; [done|]. rewrite bind_ret.
    rewrite (proj2 (Z.eqb_neq _ 0)) by done. rewrite (get_inode_ok s i ip) by done.
    set (j := Z.to_nat (bn - 12)) in *.
    destruct (readable_get s0 s l i ip t MAXFILE (entry (i_dev ip) j) R ltac:(unfold MAXFILE; lia) Ha) as (bp & s1 & E & T1 & Hlen & Hcl).
    change (fblk (t_view t) ip MAXFILE) with (addr_at ip NDIRECT) in *. unfold entry in E at 2. cbv zeta in E.
    rewrite (proj2 (Z.eqb_neq _ 0)), bind_ret in E by done.
    destruct (tx_brelse _ _ _ _ bp _ T1 Hcl) as (s2 & E2 & T2). rewrite (bind_Ok _ _ _ _ _ E2) in E.
    exists s2. split; [exact E|]. by eapply readable_step.
Qed.

(** ** readi *)
Lemma readi_loop_ok l i ip t : ∀ fuel s0 s dst off n tot acc,
  readable s0 s l i ip t → 0 <= off → 0 <= tot <= n → off + (n - tot) <= i_size ip →
  (tot < n → off mod BSIZE + (n - tot) <= Z.of_nat fuel * BSIZE) → accepts s0 dst (n - tot) →
  let bytes := map (fbyte (t_view t) ip) (seqZ off (n - tot)) in
  ∃ s' m', readi_loop fuel i dst off n tot acc s = Ok (n, acc ++ bytes) s' ∧
    readable (with_k_mem m' s0) s' l i ip t ∧ delivered s0 dst bytes m'.
Proof.
  induction fuel as [|f IH]; intros s0 s dst off n tot acc R Hoff Htot Hsz Hfuel Ha bytes; cbn [readi_loop];
    destruct (Z.ltb_spec tot n) as [Hlt|Hge].
  1: { specialize (Hfuel Hlt). unfold BSIZE in *. zl. }
  1,3: exists s, (k_mem s0); unfold bytes; replace (n - tot) with 0 by lia; cbn [seqZ map]; rewrite app_nil_r;
       replace tot with n by lia; split_and!; [done|by destruct s0|by eapply delivered_nil].
  pose proof (fo_size _ _ _ (rd_file _ _ _ _ _ _ R)) as Hmax. set (k := off / BSIZE).
  assert (0 <= k < MAXFILE) as Hk by (unfold k, MAXFILE, BSIZE in *; zl).
  assert (fblk (t_view t) ip k ≠ 0) as Hz by (apply (rd_solid _ _ _ _ _ _ R); unfold k, BSIZE in *; zl).
  destruct (bmap_mapped _ _ _ _ _ _ k R Hk Hz) as (s1 & E1 & R1). rewrite (bind_Ok _ _ _ _ _ E1).
  rewrite (proj2 (Z.eqb_neq _ 0)) by done. rewrite (get_inode_ok s1 i ip) by (by eapply readable_inode).
  set (m := Z.min (n - tot) (BSIZE - off mod BSIZE)).
  assert (0 <= m <= n - tot ∧ off mod BSIZE + m <= BSIZE) as Hm by (unfold m, BSIZE in *; zl).
  destruct (readable_get s0 s1 l i ip t k (λ bp d,
    r ← copy_to dst (take (Z.to_nat m) (drop (Z.to_nat (off mod BSIZE)) d));
    if r =? -1 then brelse bp;; mret (-1, acc) else
    brelse bp;; readi_loop f i (dst_add dst m) (u32 (off + m)) n (tot + m)
      (acc ++ take (Z.to_nat m) (drop (Z.to_nat (off mod BSIZE)) d))) R1 ltac:(lia) Hz) as (bp & s2 & E2 & T2 & Hlen & Hcl).
  rewrite (slice_bytes _ _ off m) in E2 by (done || lia).
  set (b1 := map (fbyte (t_view t) ip) (seqZ off m)) in E2.
  assert (length b1 = Z.to_nat m) as Hb1 by (unfold b1; by rewrite length_map, length_seqZ).
  pose proof (tx_frame _ _ _ _ T2) as F2.
  destruct (copy_to_ok s2 dst b1 (n - tot - m)) as (m1 & E3 & D3 & A3 & C3);
    [apply (calm_ctx _ (tx_calm _ _ _ _ T2))|lia| |].
  { eapply accepts_ext; [by apply frame_ctx|exact (frame_mem _ _ F2)|exact (frame_freelist _ _ F2)|]. rewrite Hb1, Z2Nat.id by lia. replace (m + (n - tot - m)) with (n - tot) by lia. by apply (accepts_ext s0). }
  rewrite (bind_Ok _ _ _ _ _ E3) in E2. cbn [Z.eqb] in E2. apply (tx_mem m1) in T2.
  destruct (tx_brelse _ _ _ _ bp _ T2 Hcl) as (s4 & E4 & T4). rewrite (bind_Ok _ _ _ _ _ E4) in E2.
  rewrite Hb1, Z2Nat.id in * by lia.
  assert (readable (with_k_mem m1 s0) s4 l i ip t) as R4 by (destruct R; by split).
  assert (u32 (off + m) = off + m) as Eu by (apply u32_small; unfold MAXFILE, BSIZE in *; lia).
  destruct (IH (with_k_mem m1 s0) s4 (dst_add dst m) (off + m) n (tot + m) (acc ++ b1) R4) as (s5 & m5 & E5 & R5 & D5);
    try lia.
  { intros Hlt'. specialize (Hfuel Hlt). assert (m = BSIZE - off mod BSIZE) as -> by (unfold m, BSIZE in *; zl). unfold BSIZE in *. zl. }
  { replace (n - (tot + m)) with (n - tot - m) by lia. revert A3.
    apply accepts_ext; [exact (same_ctx_sym _ _ (frame_ctx _ _ F2))|done|symmetry; exact (frame_freelist _ _ F2)]. }
  replace (n - (tot + m)) with (n - tot - m) in * by lia.
  assert (bytes = b1 ++ map (fbyte (t_view t) ip) (seqZ (off + m) (n - tot - m))) as ->.
  { unfold bytes, b1. rewrite <- map_app. f_equal. replace (n - tot) with (m + (n - tot - m)) at 1 by lia.
    apply seqZ_app; lia. }
  exists s5, m5. split_and!; [|done|].
  - etrans; [exact E2|]. by rewrite Eu, E5, app_assoc.
  - apply (delivered_ext s2); [exact (same_ctx_sym _ _ (frame_ctx _ _ F2))|symmetry; exact (frame_mem _ _ F2)|].
    apply C3; [rewrite length_map, length_seqZ; lia|].
    apply (delivered_ext (with_k_mem m1 s0)); [exact (frame_ctx _ _ F2)|done|exact D5].
Qed.

(** The bytes a read of [n] at [off] gets: none if [off + n] overflows. *)
Definition read_bytes (c : list Z) (off n : Z) : list Z :=
  if 4294967296 <=? off + n then [] else take (Z.to_nat n) (drop (Z.to_nat off) c).

Lemma readi_ok s0 s l i ip t dst off n :
  let bytes := read_bytes (contents (t_view t) ip) off n in
  readable s0 s l i ip t → 0 <= off < 4294967296 → 0 <= n < 4294967296 →
  accepts s0 dst (Z.of_nat (length bytes)) →
  ∃ s' m', readi i dst off n s = Ok (Z.of_nat (length bytes), bytes) s' ∧
    readable (with_k_mem m' s0) s' l i ip t ∧ delivered s0 dst bytes m'.
Proof.
  intros bytes R Hoff Hn Ha. pose proof (io_size _ (fo_inode _ _ _ (rd_file _ _ _ _ _ _ R))) as Hsz.
  pose proof (fo_size _ _ _ (rd_file _ _ _ _ _ _ R)) as Hmax.
  unfold readi. rewrite (get_inode_ok s i ip) by (by eapply readable_inode).
  assert (bytes = [] → ∃ s' m', (mret (0, []) : KM (Z * list Z)) s = Ok (Z.of_nat (length bytes), bytes) s' ∧
    readable (with_k_mem m' s0) s' l i ip t ∧ delivered s0 dst bytes m') as Hnil.
  { intros ->. exists s, (k_mem s0). split_and!; [done|by destruct s0|by eapply delivered_nil]. }
  destruct (Z.leb_spec 4294967296 (off + n)) as [Hov|Hov].
  { rewrite (proj2 (Z.ltb_lt (u32 (off + n)) off)) by (unfold u32; zl). rewrite orb_true_r. apply Hnil.
    unfold bytes, read_bytes. by rewrite (proj2 (Z.leb_le _ _)) by done. }
  rewrite u32_small by lia. rewrite (proj2 (Z.ltb_ge (off + n) off)), orb_false_r by lia.
  assert (bytes = take (Z.to_nat n) (drop (Z.to_nat off) (contents (t_view t) ip))) as Eb
    by (unfold bytes, read_bytes; by rewrite (proj2 (Z.leb_gt _ _)) by done).
  destruct (Z.ltb_spec (i_size ip) off) as [Hpast|Hin].
  { apply Hnil. rewrite Eb, drop_ge, take_nil; [done|]. rewrite length_contents; lia. }
  set (n' := if i_size ip <? off + n then u32 (i_size ip - off) else n).
  assert (n' = Z.min n (i_size ip - off)) as En.
  { unfold n'. destruct (Z.ltb_spec (i_size ip) (off + n)); [rewrite u32_small|]; lia. }
  assert (bytes = map (fbyte (t_view t) ip) (seqZ off (n' - 0))) as Eb'.
  { rewrite Eb, Z.sub_0_r, <- contents_slice by lia.
    rewrite <- (take_ge (drop (Z.to_nat off) (contents (t_view t) ip)) (Z.to_nat (i_size ip - off))) at 1.
    - rewrite take_take. f_equal. lia.
    - rewrite length_drop, length_contents; lia. }
  assert (Z.of_nat (length bytes) = n') as El by (rewrite Eb', length_map, length_seqZ; lia).
  destruct (readi_loop_ok l i ip t (rounds n') s0 s dst off n' 0 [] R) as (s' & m' & E & R' & D); try lia.
  { intros _. unfold rounds, BSIZE. zl. }
  { by rewrite Z.sub_0_r, <- El. }
  exists s', m'. rewrite Eb' at 2 3. rewrite El. done.
Qed.

(** C5: [readi] is a slice of the file.  For a file without holes, a read of
    [n] bytes at [off] returns the bytes from [off] on, cut at the end of
    the file (none past the end, or if [off + n] overflows), together with
    their number; they are delivered to the destination, be it a user range
    that is mapped writable, and nothing else in memory changes.  The file,
    the transaction and every block as readers see it stay the same. *)
Theorem readi_slice s0 s l i ip t dst off n :
  let bytes := read_bytes (contents (t_view t) ip) off n in
  readable s0 s l i ip t → 0 <= off < 4294967296 → 0 <= n < 4294967296 →
  accepts s0 dst (Z.of_nat (length bytes)) →
  ∃ s' m', readi i dst off n s = Ok (Z.of_nat (length bytes), bytes) s' ∧
    readable (with_k_mem m' s0) s' l i ip t ∧ delivered s0 dst bytes m'.
Proof. apply readi_ok. Qed.
End fsread.

(** ** A concrete file: two blocks, 70 and 71, of 2000 bytes *)
Definition demo_used : list Z := replicate 10 255 ++ replicate 1014 0.
Definition demo_file (size : Z) : inode := mk_inode ROOTDEV 5 1 1 T_FILE 0 0 1 size (70 :: 71 :: replicate 11 0).

Lemma demo_layout : layout (P := emu) demo_sb 2.
Proof. split; vm_compute; congruence. Qed.

Lemma demo_fblk V size k : 0 <= k <= MAXFILE →
  fblk V (demo_file size) k = if decide (k = 0) then 70 else if decide (k = 1) then 71 else 0.
Proof.
  intros Hk. change MAXFILE with 268 in *. unfold fblk, addr_at. change (Z.of_nat NDIRECT) with 12. cbn [demo_file i_addrs].
  change ((70 :: 71 :: replicate 11 0) !! NDIRECT) with (Some 0). cbn [default Z.eqb].
  destruct (Z.ltb_spec k 12).
  - rewrite <- (Z2Nat.id k) by lia. assert (Z.to_nat k < 12)%nat as Hn by lia. rewrite Nat2Z.id.
    revert Hn. generalize (Z.to_nat k). intros n Hn. do 12 (destruct n as [|n]; [done|]). lia.
  - rewrite !decide_False by lia. by destruct (k =? _).
Qed.

Lemma demo_file_ok V size :
  0 <= size <= 2048 → in_use demo_sb V 70 = true → in_use demo_sb V 71 = true → file_ok demo_sb V (demo_file size).
Proof.
  intros Hs H70 H71. split.
  - split; [unfold demo_file, T_FILE; cbn; lia..|reflexivity|]. cbn.
    repeat apply Forall_cons_2; try apply Forall_nil_2; lia.
  - reflexivity.
  - cbn. lia.
  - cbn. unfold MAXFILE, BSIZE. lia.
  - intros k Hk. rewrite demo_fblk by done. change (sb_data demo_sb) with 47.
    repeat case_decide; try done; intros _; split; (done || lia).
  - intros k k' Hk Hk'. rewrite !demo_fblk by done. repeat case_decide; subst; try done; lia.
Qed.
Lemma demo_solid V size : size <= 2048 → solid V (demo_file size).
Proof.
  intros Hs k Hk Hlt. cbn in Hlt. unfold BSIZE in Hlt. rewrite demo_fblk by (unfold MAXFILE; lia).
  repeat case_decide; try done. lia.
Qed.

Lemma demo_readable size :
  0 <= size <= 2048 →
  readable (P := emu) (fs_demo demo_used) (with_k_inodes [demo_file size] (fs_demo demo_used)) [demo_file size] 0
    (demo_file size) (fs_demo_tx demo_used).
Proof.
  intros Hs. split.
  - apply tx_inodes, demo_tx. reflexivity.
  - reflexivity.
  - apply demo_layout.
  - apply demo_file_ok; [done|reflexivity..].
  - apply demo_solid. lia.
  - apply Nat.ltb_lt. reflexivity.
Qed.

Lemma readi_slice_witness :
  ∃ s' m', readi (P := emu) 0 (DKernel 4096) 1020 5000 (with_k_inodes [demo_file 2000] (fs_demo demo_used)) =
      Ok (980, replicate 980 0) s' ∧ m' = stbytes (k_mem (fs_demo demo_used)) 4096 (replicate 980 0).
Proof.
  assert (read_bytes (contents (t_view (fs_demo_tx demo_used)) (demo_file 2000)) 1020 5000 = replicate 980 0) as E
    by (vm_compute; reflexivity).
  destruct (readi_slice (P := emu) (fs_demo demo_used) (with_k_inodes [demo_file 2000] (fs_demo demo_used)) [demo_file 2000]
    0 (demo_file 2000) (fs_demo_tx demo_used) (DKernel 4096) 1020 5000) as (s' & m' & E1 & _ & D).
  - apply demo_readable. lia.
  - lia.
  - lia.
  - rewrite E. cbn. lia.
  - rewrite E in E1, D. exists s', m'. split; [exact E1|exact D].
Defined.
