(* ===== verification/FsWrite.v ===== *)
(** * writei of kernel/fs.c

    [writei] replaces a range of the file's contents and extends the file,
    allocating blocks as it goes; when the disk is full it stops early.  It
    stays within the blocks a file system operation reserves, updates the
    inode on disk, and leaves other files alone. *)

From S2P Require Import Prelude Machine State CString Spinlock Printf Emu Kalloc Vm VmSpec VmUser VmCopy Sched Bytes Bio BioSpec Cache Log LogImg LogSpec LogThms Tx Console Pipe Fs FsBlock FsInode FsFile FsRead.

Section fswrite.
Context `{P : Platform} {HP : PlatformOk P}.

(** ** Sources *)
(** [l] is at the source: a variable, kernel memory, or mapped user memory. *)
Definition supplies (s : kstate) (src : wsrc) (l : list Z) : Prop :=
  let n := Z.of_nat (length l) in
  match src with
  | SLocal b => take (length l) b = l
  | SKernel a => 0 <= a ∧ a + n < 4294967296 ∧ ldbytes (k_mem s) a (length l) = l
  | SUser va => 0 <= va ∧ va + n <= MAXVA ∧ ∃ i p ps fl, running s i p ∧ umem s (p_pagetable p) ps fl ∧
      (∀ va', va <= va' < va + n → uvalid (k_mem s) (p_pagetable p) va' = true) ∧
      ubytes (k_mem s) (p_pagetable p) va (length l) = l
  end.

Lemma ldbytes_app m a n k : ldbytes m a (n + k) = ldbytes m a n ++ ldbytes m (a + Z.of_nat n) k.
Proof.
  revert a. induction n as [|n IH]; intros a; cbn [ldbytes Nat.add]; [by rewrite Z.add_0_r|].
  rewrite IH. cbn. do 3 f_equal. lia.
Qed.

Lemma copy_from_ok s src l1 l2 :
  kctx s → supplies s src (l1 ++ l2) → let n := Z.of_nat (length l1) in
  copy_from src n s = Ok (0, l1) s ∧ supplies s (src_add src n) l2.
Proof.
  intros Hk Hs n. pose proof MAXVA_eq as HM. unfold n. destruct src as [va|a|b]; cbn [copy_from supplies src_add] in *;
    rewrite length_app in Hs.
  - destruct Hs as (H1 & H2 & i & p & ps & fl & Hr & Hu & Hv & Hl). rewrite u32_small by lia.
    rewrite ubytes_app in Hl. apply app_inj_1 in Hl as [E1 E2]; [|unfold ubytes; by rewrite length_map, length_seq].
    split; [|split_and!; [lia..|]].
    + unfold either_copyin. etrans; [apply (myproc_running (λ q, copyin (p_pagetable q) va (Z.of_nat (length l1))) s i p Hk Hr)|].
      unfold copyin. rewrite (copyin_loop_ok _ ps fl); [|done|lia|lia|lia|intros; apply Hv; lia].
      by rewrite Nat2Z.id, E1.
    + exists i, p, ps, fl. split_and!; [done|done| |done]. intros va' Hva'. apply Hv. lia.
  - destruct Hs as (H1 & H2 & Hl). rewrite u32_small by lia. rewrite ldbytes_app in Hl.
    apply app_inj_1 in Hl as [E1 E2]; [|by rewrite length_ldbytes]. split; [|split_and!; [lia..|done]].
    unfold either_copyin. rewrite (bind_Ok _ _ _ _ _ (myproc_kctx s Hk)). unfold get_bytes. rewrite bind_gets.
    by rewrite Nat2Z.id, E1.
  - rewrite Nat2Z.id. rewrite <- (take_drop (length l1) b), take_app in Hs.
    assert (length l1 <= length b)%nat as Hle.
    { apply (f_equal length) in Hs. rewrite <- take_app, take_drop, length_take, length_app in Hs. lia. }
    rewrite length_take, Nat.min_l in Hs by done. rewrite (take_ge (take _ _)) in Hs by (rewrite length_take; lia).
    apply app_inj_1 in Hs as [E1 E2]; [|rewrite length_take; lia].
    split; [by rewrite E1|]. by replace (length l1 + length l2 - length l1)%nat with (length l2) in E2 by lia.
Qed.

Lemma supplies_ext s s' src l :
  same_ctx s s' → k_mem s' = k_mem s → k_freelist s' = k_freelist s → supplies s src l → supplies s' src l.
Proof.
  intros Hc Em Ef. destruct src as [va|a|b]; cbn; [|by rewrite Em|done].
  intros (H1 & H2 & i & p & ps & fl & Hr & Hu & Hv). split_and!; [done..|]. exists i, p, ps, fl. rewrite Em.
  split_and!; [by apply (running_same s)|by apply (umem_ctx s)|apply Hv|apply Hv].
Qed.

(** ** The loop *)
(** From [t], the bytes [data] were written at [off] of the file, in the slots [K]. *)
Record written (s0 : kstate) (l : list inode) (i : nat) (ip : inode) (t : txst) (K : Z → Prop) (off : Z) (data : list Z)
    (full : bool) (s' : kstate) (t' : txst) (ip' : inode) : Prop := {
  wr_tx : tx (with_k_inodes (<[i := ip']> l) (said full s0)) s' [] t';
  wr_ext : ext t t' (touched (k_sb s0) (t_view t') ip' K);
  wr_step : step (k_sb s0) (t_view t) (t_view t') ip ip';
  wr_bytes : ∀ o, 0 <= o < MAXFILE * BSIZE → fbyte (t_view t') ip' o =
    if decide (off <= o < off + Z.of_nat (length data)) then nth (Z.to_nat (o - off)) data 0 else fbyte (t_view t) ip o;
  wr_map : ∀ o, off <= o < off + Z.of_nat (length data) → fblk (t_view t') ip' (o / BSIZE) ≠ 0;
  wr_full : full = true → ∀ y, 0 <= y < sb_size (k_sb s0) → in_use (k_sb s0) (t_view t') y = true }.

Lemma grew_written s0 l i ip t K off full s' t' ip' :
  grew s0 l i ip t K full s' t' ip' → written s0 l i ip t K off [] full s' t' ip'.
Proof.
  intros [G1 G2 G3 G4 G5]. split; try done; cbn; [|lia]. intros o Ho. rewrite decide_False by lia. by apply G4.
Qed.

Lemma written_opened s0 s l i ip t K off d full s' t' ip' :
  opened s0 s l i ip t → written s0 l i ip t K off d full s' t' ip' →
  opened (said full s0) s' (<[i := ip']> l) i ip' t'.
Proof.
  intros [O1 O2 O3 O4 O5 O6 O7] [G1 G2 G3 G4 G5 G6]. split; rewrite ?said_sb; try apply G3.
  - done.
  - apply list_lookup_insert_eq. by eapply lookup_lt_Some.
  - by rewrite (ex_start _ _ _ G2).
  - by rewrite (ex_out _ _ _ G2).
  - by apply tx_ok_said.
Qed.

Lemma written_trans s0 s l i ip t (K1 K2 K : Z → Prop) off d1 s1 t1 i1 d2 full s2 t2 i2 :
  opened s0 s l i ip t → (∀ k, K1 k → K k) → (∀ k, K2 k → K k) → 0 <= off →
  off + Z.of_nat (length (d1 ++ d2)) <= MAXFILE * BSIZE →
  written s0 l i ip t K1 off d1 false s1 t1 i1 →
  written s0 (<[i := i1]> l) i i1 t1 K2 (off + Z.of_nat (length d1)) d2 full s2 t2 i2 →
  written s0 l i ip t K off (d1 ++ d2) full s2 t2 i2.
Proof.
  intros O H1 H2 Hoff Hmax [A1 A2 A3 A4 A5 A6] [B1 B2 B3 B4 B5 B6]. rewrite length_app in Hmax. split.
  - by rewrite list_insert_insert_eq in B1.
  - eapply (ext_trans _ t1).
    + eapply ext_mono; [|exact A2]. intros b. by apply touched_mono.
    + eapply ext_mono; [|exact B2]. intros b. apply touched_mono; [|done]. by apply step_refl; [apply B3|apply B3].
  - eapply step_trans; [apply O|done..].
  - intros o Ho. rewrite B4, A4 by done. rewrite length_app. repeat case_decide; try lia.
    + rewrite app_nth2 by lia. f_equal. lia.
    + rewrite app_nth1 by lia. done.
  - intros o. rewrite length_app. intros Ho. destruct (Z.lt_ge_cases o (off + Z.of_nat (length d1))) as [Hlo|Hhi].
    + rewrite (st_mono _ _ _ _ _ B3); [apply A5; lia|unfold MAXFILE, BSIZE in *; zl|apply A5; lia].
    + apply B5. lia.
  - done.
Qed.

(** A chunk [d] written to block [k] of the file, where it is mapped. *)
Lemma write_chunk s0 s l i ip t off d :
  let k := off / BSIZE in let a := fblk (t_view t) ip k in
  opened s0 s l i ip t → 0 <= k < MAXFILE → a ≠ 0 → off mod BSIZE + Z.of_nat (length d) <= BSIZE →
  (length (t_bs t) < NBUF)%nat →
  ∃ bp s1 s2 s3 s4 t', bread (i_dev ip) a s = Ok bp s1 ∧ fs_frame (with_k_inodes l s0) s1 ∧ kctx s1 ∧
    upd_data bp (put_at (Z.to_nat (off mod BSIZE)) d) s1 = Ok tt s2 ∧ log_write bp s2 = Ok tt s3 ∧
    brelse bp s3 = Ok tt s4 ∧ written s0 l i ip t (.= k) off d false s4 t' ip.
Proof.
  intros k a O Hk Ha Hd Hl. pose proof O as [T Hi La B F Ho Htx]. pose proof (layout_order _ _ La) as HO.
  destruct (fo_blk _ _ _ F k) as [Hr Hu]; [lia|done|]. fold a in Hr, Hu.
  assert (home (t_start t) a) as Hh by (apply (layout_home (k_sb s0)); [done|lia]).
  assert (length (t_view t a) = Z.to_nat BSIZE) as Hlen by (eapply tx_len; [exact T|apply Hh|set_solver|cbn; lia]).
  destruct (tx_bread _ _ _ _ a T) as (bp & s1 & E1 & _ & T1); [apply Hh|set_solver|cbn; lia|].
  set (o := Z.to_nat (off mod BSIZE)) in *. set (d' := put_at o d (t_view t a)).
  assert (o + length d <= length (t_view t a))%nat as Hfit by (rewrite Hlen; unfold o, BSIZE in *; zl).
  destruct (tx_write_done _ _ _ _ bp a (λ q, with_b_data (put_at o d (b_data q)) q) d' T1)
    as (s2 & s3 & s4 & E2 & E3 & E4 & T4);
    [unfold d'; by rewrite length_put_at|by intros q ->|done|exact Hl|done|].
  destruct (file_write _ _ La (t_view t) ip k d' F B Hk Ha) as (S & Hf & Hb). fold a in S, Hf, Hb.
  exists bp, s1, s2, s3, s4, (wrote a d' t). rewrite (fo_dev _ _ _ F).
  split_and!; [done|apply T1|apply (calm_ctx _ (tx_calm _ _ _ _ T1))|exact E2|exact E3|exact E4|]. split.
  - cbn [said]. by rewrite list_insert_id.
  - apply ext_wrote. right. exists k. cbn [t_view wrote]. rewrite Hf by lia. split_and!; try done; lia.
  - exact S.
  - intros x Hx. cbn [t_view wrote]. rewrite Hb by done. case_decide as Ek.
    + assert (fbyte (t_view t) ip x = byte_at (t_view t a) (x mod BSIZE)) as Hfb
        by (unfold fbyte; rewrite Ek; fold a; by rewrite (proj2 (Z.eqb_neq a 0))).
      rewrite Hfb. unfold byte_at, d'. rewrite lookup_put_at by done. unfold k, o, BSIZE in *.
      destruct (decide (off <= x < off + Z.of_nat (length d))).
      * rewrite decide_True by zl. replace (Z.to_nat (x mod 1024) - Z.to_nat (off mod 1024))%nat with (Z.to_nat (x - off)) by zl.
        rewrite nth_lookup. done.
      * by rewrite decide_False by zl.
    + rewrite decide_False; [done|]. unfold k, BSIZE in *. zl.
  - intros x Hx. cbn [t_view wrote]. rewrite Hf by (unfold k, BSIZE in *; zl).
    replace (x / BSIZE) with k; [done|]. unfold k, BSIZE in *. zl.
  - done.
Qed.

(** The slots a write of [n] blocks from [off] on may fill. *)
Definition span (off : Z) (n : nat) (k : Z) : Prop := k = MAXFILE ∨ off / BSIZE <= k < off / BSIZE + Z.of_nat n.

Lemma op_kctx s0 s l i ip t : opened s0 s l i ip t → kctx s0.
Proof.
  intros O. pose proof (op_tx _ _ _ _ _ _ O) as T. destruct (frame_ctx _ _ (tx_frame _ _ _ _ T)) as (C1 & C2 & _).
  by eapply kctx_ext; [symmetry; exact C1|symmetry; exact C2|apply (calm_ctx _ (tx_calm _ _ _ _ T))].
Qed.

(** One round: the disk is full, or the next chunk [d1] is written. *)
Lemma writei_round f s0 s l i ip t src d1 d2 off n tot :
  let k := off / BSIZE in let m := Z.min (n - tot) (BSIZE - off mod BSIZE) in
  let K := λ j, j = MAXFILE ∨ j = k in
  opened s0 s l i ip t → supplies s0 src (d1 ++ d2) → Z.of_nat (length d1) = m → 0 <= tot < n → 0 <= off →
  off + (n - tot) <= MAXFILE * BSIZE → (load (k_sb s0) (t_view t) ip t + 2 < NBUF)%nat →
  (∃ s' t' ip', writei_loop (S f) i src off n tot s = Ok (tot, off) s' ∧ grew s0 l i ip t K true s' t' ip') ∨
  (∃ s' t' ip', writei_loop (S f) i src off n tot s = writei_loop f i (src_add src m) (off + m) n (tot + m) s' ∧
     written s0 l i ip t K off d1 false s' t' ip').
Proof.
  intros k m K O Hs Hd1 Htot Hoff Hmax Hl. cbn [writei_loop]. rewrite (proj2 (Z.ltb_lt tot n)) by lia. fold k.
  assert (0 <= k < MAXFILE) as Hk by (unfold k, MAXFILE, BSIZE in *; zl).
  assert (0 < m <= n - tot ∧ off mod BSIZE + m <= BSIZE) as Hm by (unfold m, BSIZE in *; zl).
  destruct (bmap_ok s0 s l i ip t k O Hk Hl) as (a & full & s1 & t1 & ip1 & E1 & G1 & Ea & Hfull & _).
  rewrite (bind_Ok _ _ _ _ _ E1). destruct (Z.eqb_spec a 0) as [->|Ha]; subst full; [left; by exists s1, t1, ip1|right].
  pose proof (grew_opened _ _ _ _ _ _ _ _ _ _ _ O G1) as O1. cbn [said] in O1. pose proof O1 as [T1 Hi1 La1 _ F1 _ _].
  rewrite (get_inode_ok s1 i ip1) by (by rewrite (frame_inodes _ _ (tx_frame _ _ _ _ T1))).
  pose proof (load_ext _ _ _ _ _ _ _ _ [k] (tx_bsnd _ _ _ _ T1) (gr_step _ _ _ _ _ _ _ _ _ _ G1)
    (gr_ext _ _ _ _ _ _ _ _ _ _ G1) ltac:(set_solver)) as Hl1. cbn [length] in Hl1.
  pose proof (length_load _ _ (t_view t1) ip1 _ La1 (tx_bsnd _ _ _ _ T1)) as Hl2.
  destruct (write_chunk s0 s1 _ i ip1 t1 off d1 O1) as (bp & s2 & s3 & s4 & s5 & t5 & E2 & F2 & K2 & E3 & E4 & E5 & W);
    [done|fold k; by rewrite Ea|lia|lia|]. fold k in E2, W. rewrite Ea in E2. rewrite (bind_Ok _ _ _ _ _ E2). fold m.
  destruct (copy_from_ok s2 src d1 d2) as [E6 _]; [done| |].
  { eapply supplies_ext; [exact (frame_ctx _ _ F2)|exact (frame_mem _ _ F2)|exact (frame_freelist _ _ F2)|].
    by apply (supplies_ext s0). }
  rewrite Hd1 in E6. rewrite (bind_Ok _ _ _ _ _ E6). cbn [Z.eqb].
  rewrite (bind_Ok _ _ _ _ _ E3), (bind_Ok _ _ _ _ _ E4), (bind_Ok _ _ _ _ _ E5).
  rewrite (u32_small (off + m)) by (unfold MAXFILE, BSIZE in *; lia). exists s5, t5, ip1. split; [done|].
  eapply (written_trans _ _ _ _ _ _ K (.= k) K off []); [exact O|done|intros ? ->; by right|done| |by apply grew_written|].
  - cbn [app]. lia.
  - cbn [length]. rewrite Z.add_0_r. exact W.
Qed.

(** [d1] of [data] was written, all of it unless the disk is full; the loop
    leaves the count [tot'] and the offset. *)
Lemma writei_loop_ok i : ∀ fuel r s0 s l ip t src data off n tot,
  opened s0 s l i ip t → supplies s0 src data → Z.of_nat (length data) = n - tot → 0 <= tot → 0 <= off →
  off + (n - tot) <= MAXFILE * BSIZE → (tot < n → off mod BSIZE + (n - tot) <= Z.of_nat r * BSIZE) → (r <= fuel)%nat →
  (load (k_sb s0) (t_view t) ip t + r + 1 < NBUF)%nat →
  ∃ d1 d2 full s' t' ip', data = d1 ++ d2 ∧ (full = false ↔ d2 = []) ∧
    writei_loop fuel i src off n tot s = Ok (tot + Z.of_nat (length d1), off + Z.of_nat (length d1)) s' ∧
    written s0 l i ip t (span off r) off d1 full s' t' ip' ∧
    (d2 ≠ [] → d1 = [] ∨ (off + Z.of_nat (length d1)) mod BSIZE = 0).
Proof.
  induction fuel as [|f IH]; intros r s0 s l ip t src data off n tot O Hs Hn Htot Hoff Hmax Hr Hrf Hl;
    destruct (Z.lt_ge_cases tot n) as [Hlt|Hge].
  1: { specialize (Hr Hlt). unfold BSIZE in *. zl. }
  1,3: exists [], data, false, s, t, ip; destruct data; cbn in Hn; [|lia]; cbn [length writei_loop]; rewrite !Z.add_0_r;
       rewrite (proj2 (Z.ltb_ge tot n)) by lia; split_and!; [done..|by eapply grew_written, grew_refl|by left].
  specialize (Hr Hlt). destruct r as [|r]; [unfold BSIZE in *; zl|].
  set (m := Z.min (n - tot) (BSIZE - off mod BSIZE)).
  assert (0 < m <= n - tot) as Hm by (unfold m, BSIZE in *; zl).
  rewrite <- (take_drop (Z.to_nat m) data) in Hs |- *.
  set (d1 := take (Z.to_nat m) data) in *. set (d2 := drop (Z.to_nat m) data) in *.
  assert (Z.of_nat (length d1) = m) as Hd1 by (unfold d1; rewrite length_take; lia).
  assert (Z.of_nat (length d2) = n - tot - m) as Hd2 by (unfold d2; rewrite length_drop; lia).
  destruct (writei_round f s0 s l i ip t src d1 d2 off n tot) as [(s1 & t1 & ip1 & E & G)|(s1 & t1 & ip1 & E & W)];
    try done; try lia; rewrite E.
  { exists [], (d1 ++ d2), true, s1, t1, ip1. cbn [length]. rewrite !Z.add_0_r. split_and!; [done| |done| |by left].
    { split; [done|]. intros En. apply (f_equal length) in En. rewrite length_app in En. cbn in En. lia. }
    eapply grew_written, grew_mono; [|exact G]. unfold span. lia. }
  pose proof (written_opened _ _ _ _ _ _ _ _ _ _ _ _ _ O W) as O1. cbn [said] in O1. fold m.
  pose proof (load_ext _ _ _ _ _ _ _ _ [off / BSIZE] (tx_bsnd _ _ _ _ (op_tx _ _ _ _ _ _ O1)) (wr_step _ _ _ _ _ _ _ _ _ _ _ _ W)
    (wr_ext _ _ _ _ _ _ _ _ _ _ _ _ W) ltac:(set_solver)) as Hl1. cbn [length] in Hl1.
  destruct (IH r s0 s1 _ ip1 t1 (src_add src m) d2 (off + m) n (tot + m) O1) as (e1 & e2 & full & s' & t' & ip' & -> & Hf & E' & W' & He);
    try lia.
  { rewrite <- Hd1. by apply (copy_from_ok s0 src d1 d2); [apply (op_kctx _ _ _ _ _ _ O)|]. }
  { intros Hlt'. assert (m = BSIZE - off mod BSIZE) as -> by (unfold m, BSIZE in *; zl). unfold BSIZE in *. zl. }
  exists (d1 ++ e1), e2, full, s', t', ip'. rewrite length_app. split_and!; [by rewrite app_assoc|done| | |].
  - rewrite E'. do 2 f_equal; lia.
  - rewrite <- Hd1 in W'. eapply written_trans; [exact O| | |done| |exact W|exact W'].
    + unfold span. intros ? [->| ->]; lia.
    + unfold span. intros j [->|Hj]; [by left|right]. rewrite Hd1 in Hj. unfold m, BSIZE in *. zl.
    + rewrite length_app in *. lia.
  - intros Hne. right. rewrite Nat2Z.inj_add, Hd1. rewrite length_app in Hd2.
    assert (0 < Z.of_nat (length e2)) as He2 by (destruct e2; [done|cbn; lia]).
    assert (m = BSIZE - off mod BSIZE) as Em by (unfold m, BSIZE in *; zl).
    destruct (He Hne) as [->|H0]; [cbn [length]; rewrite Em; unfold BSIZE; zl|]. by rewrite Z.add_assoc.
Qed.

(** ** The inode written back *)
Lemma contents_put V V' ip ip' off d :
  0 <= off <= i_size ip → i_size ip' = Z.max (i_size ip) (off + Z.of_nat (length d)) → i_size ip' <= MAXFILE * BSIZE →
  (∀ o, 0 <= o < MAXFILE * BSIZE → fbyte V' ip' o =
    if decide (off <= o < off + Z.of_nat (length d)) then nth (Z.to_nat (o - off)) d 0 else fbyte V ip o) →
  contents V' ip' = put_at (Z.to_nat off) d (contents V ip).
Proof.
  intros Hoff Hsz Hmax Hb. set (n := Z.of_nat (length d)) in *. unfold put_at, contents.
  replace (i_size ip') with (off + (n + (i_size ip' - off - n))) by lia.
  rewrite !seqZ_app by lia. rewrite !map_app, Z.add_0_l. f_equal; [|f_equal].
  - rewrite <- fmap_take. replace (i_size ip) with (off + (i_size ip - off)) by lia.
    rewrite seqZ_app by lia. rewrite take_app_length' by (rewrite length_seqZ; lia).
    apply map_ext_in. intros o Ho. apply list_elem_of_In, elem_of_seqZ in Ho. rewrite Hb by lia. by rewrite decide_False by lia.
  - apply list_eq. intros k. rewrite list_lookup_fmap. destruct (decide (k < length d)%nat).
    + rewrite lookup_seqZ_lt by lia. cbn. rewrite Hb by lia. rewrite decide_True by lia.
      replace (Z.to_nat (off + Z.of_nat k - off)) with k by lia. rewrite nth_lookup.
      by destruct (lookup_lt_is_Some_2 d k) as [v ->].
    + rewrite lookup_seqZ_ge by lia. cbn. symmetry. apply lookup_ge_None_2. lia.
  - rewrite <- fmap_drop. destruct (Z.lt_ge_cases (off + n) (i_size ip)) as [Hlt|Hge].
    + replace (i_size ip) with (off + n + (i_size ip - off - n)) by lia. rewrite seqZ_app by lia.
      rewrite drop_app_length' by (rewrite length_seqZ; lia). rewrite Z.add_0_l.
      replace (i_size ip' - off - n) with (i_size ip - off - n) by lia.
      apply map_ext_in. intros o Ho. apply list_elem_of_In, elem_of_seqZ in Ho. rewrite Hb by lia. by rewrite decide_False by lia.
    + replace (i_size ip' - off - n) with 0 by lia. rewrite drop_ge; [done|]. rewrite length_seqZ. lia.
Qed.

(** Below the bitmap nothing belongs to a file; its size is in the inode. *)
Lemma file_meta sb start V V' ip z :
  layout sb start → (∀ b, sb_bmapstart sb <= b → V' b = V b) → file_ok sb V ip → 0 <= z <= MAXFILE * BSIZE →
  let ip' := with_i_size z ip in
  file_ok sb V' ip' ∧ (∀ k, 0 <= k <= MAXFILE → fblk V' ip' k = fblk V ip k) ∧
  (∀ o, 0 <= o < MAXFILE * BSIZE → fbyte V' ip' o = fbyte V ip o) ∧
  (∀ b, 0 <= b < sb_size sb → in_use sb V' b = in_use sb V b).
Proof.
  intros La HV F Hz ip'. pose proof (layout_order _ _ La) as HO.
  assert (∀ k, 0 <= k <= MAXFILE → fblk V' ip' k = fblk V ip k) as Hf.
  { intros k Hk. unfold fblk. change (addr_at ip') with (addr_at ip). destruct (k <? _); [done|].
    destruct (k =? MAXFILE); [done|]. destruct (Z.eqb_spec (addr_at ip NDIRECT) 0) as [|Ha]; [done|].
    rewrite HV; [done|]. destruct (fo_blk _ _ _ F MAXFILE) as [Hr _]; [unfold MAXFILE; lia|done|].
    change (fblk V ip MAXFILE) with (addr_at ip NDIRECT) in Hr. lia. }
  assert (∀ b, 0 <= b < sb_size sb → in_use sb V' b = in_use sb V b) as Hu.
  { intros b Hb. eapply in_use_ext; [done| |done]. intros x Hx. apply HV. lia. }
  split_and!; [|done| |done].
  - destruct F as [[] F2 F3 F4 F5 F6]. split; try done; [split; try done; cbn; unfold MAXFILE, BSIZE in *; lia|cbn; lia| |].
    + intros k Hk. rewrite Hf by done. intros Hn. destruct (F5 k Hk Hn). split; [done|]. rewrite Hu by lia. done.
    + intros k k' Hk Hk'. rewrite !Hf by done. by apply F6.
  - intros o Ho. unfold fbyte. assert (0 <= o / BSIZE <= MAXFILE) as Hk by (unfold MAXFILE, BSIZE in *; zl).
    rewrite Hf by done. destruct (Z.eqb_spec (fblk V ip (o / BSIZE)) 0) as [|Hn]; [done|]. rewrite HV; [done|].
    destruct (fo_blk _ _ _ F _ Hk Hn). lia.
Qed.

(** Another file is as it was. *)
Lemma others_contents sb start V V' ip jp :
  layout sb start →
  (∀ b, sb_data sb <= b < sb_size sb → in_use sb V b = true → ¬ owns V ip b → V' b = V b) →
  file_ok sb V jp → (∀ b, owns V jp b → ¬ owns V ip b) →
  contents V' jp = contents V jp.
Proof.
  intros La Ok F Hd.
  assert (∀ k, 0 <= k <= MAXFILE → fblk V jp k ≠ 0 → V' (fblk V jp k) = V (fblk V jp k)) as HV.
  { intros k Hk Hn. destruct (fo_blk _ _ _ F k Hk Hn). apply Ok; [done..|]. apply Hd. split; [done|by exists k]. }
  assert (∀ k, 0 <= k <= MAXFILE → fblk V' jp k = fblk V jp k) as Hf.
  { intros k Hk. unfold fblk. repeat case_match; try done. f_equal. apply (HV MAXFILE); [unfold MAXFILE; lia|].
    by apply Z.eqb_neq. }
  pose proof (fo_size _ _ _ F). unfold contents. apply map_ext_in. intros o Ho.
  apply list_elem_of_In, elem_of_seqZ in Ho. assert (0 <= o / BSIZE <= MAXFILE) as Hk by (unfold MAXFILE, BSIZE in *; zl).
  unfold fbyte. rewrite Hf by done. destruct (Z.eqb_spec (fblk V jp (o / BSIZE)) 0); [done|]. by rewrite HV.
Qed.

(** The end of [writei]: the size, then the inode on disk. *)
Lemma writeback s0 s l i ip t z (tot : Z) :
  let ip' := with_i_size (Z.max (i_size ip) z) ip in let ib := IBLOCK (i_inum ip) (k_sb s0) in
  opened s0 s l i ip t → (length (t_bs t) < NBUF)%nat →
  ∃ s', (q ← get_inode i; when (i_size q <? z) (upd_inode i (with_i_size z));; iupdate i;; mret tot) s = Ok tot s' ∧
    tx (with_k_inodes (<[i := ip']> l) s0) s' [] (wrote ib (put_dinode (dip_off (i_inum ip)) ip' (t_view t ib)) t).
Proof.
  intros ip' ib O Hl. pose proof O as [T Hi La B F Ho Htx]. pose proof (layout_order _ _ La) as HO.
  pose proof (layout_iblock _ _ _ La (fo_inum _ _ _ F)) as Hib. fold ib in Hib.
  assert (k_inodes s = l) as El by (by rewrite (frame_inodes _ _ (tx_frame _ _ _ _ T))).
  rewrite (get_inode_ok s i ip) by (by rewrite El).
  assert (∃ s1, when (i_size ip <? z) (upd_inode i (with_i_size z)) s = Ok tt s1 ∧
    tx (with_k_inodes (<[i := ip']> l) s0) s1 [] t) as (s1 & E1 & T1).
  { unfold ip'. destruct (Z.ltb_spec (i_size ip) z); cbn [when].
    - rewrite (upd_inode_ok s i ip) by (by rewrite El). rewrite El. eexists. split; [done|].
      rewrite Z.max_r by lia. apply (tx_inodes (<[i := with_i_size z ip]> l)) in T. exact T.
    - exists s. split; [done|]. rewrite Z.max_l by lia. replace (with_i_size (i_size ip) ip) with ip by (by destruct ip).
      by rewrite list_insert_id. }
  rewrite (bind_Ok _ _ _ _ _ E1).
  destruct (iupdate_ok _ s1 t i ip' T1) as (s2 & E2 & T2); cbn [k_sb with_k_inodes i_inum with_i_size ip'].
  - cbn. apply list_lookup_insert_eq. by eapply lookup_lt_Some.
  - apply F.
  - apply (io_naddrs _ (fo_inode _ _ _ F)).
  - apply (layout_home (k_sb s0)); [done|]. fold ib. lia.
  - done.
  - done.
  - rewrite (bind_Ok _ _ _ _ _ E2). by exists s2.
Qed.

(** What [writei] did: [d1] is in the file, the inode on disk, nothing else
    changed, and few enough blocks were logged. *)
Record wrote_file (s0 : kstate) (l : list inode) (i : nat) (ip : inode) (t : txst) (off : Z) (d1 : list Z) (blocks : nat)
    (full : bool) (s' : kstate) (t' : txst) (ip' : inode) : Prop := {
  wf_open : opened (said full s0) s' (<[i := ip']> l) i ip' t';
  wf_solid : solid (t_view t') ip';
  wf_contents : contents (t_view t') ip' = put_at (Z.to_nat off) d1 (contents (t_view t) ip);
  wf_inode : ip' = with_i_addrs (i_addrs ip') (with_i_size (i_size ip') ip);
  wf_disk : ∀ q, load_dinode (dip_off (i_inum ip)) (t_view t' (IBLOCK (i_inum ip) (k_sb s0))) q =
    mk_inode (i_dev q) (i_inum q) (i_ref q) (i_valid q) (i_type ip') (i_major ip') (i_minor ip') (i_nlink ip')
      (i_size ip') (i_addrs ip');
  wf_others : ∀ jp, file_ok (k_sb s0) (t_view t) jp → (∀ b, owns (t_view t) jp b → ¬ owns (t_view t) ip b) →
    contents (t_view t') jp = contents (t_view t) jp;
  wf_unwritten : t_img t' = t_img t ∧ t_tr t' = t_tr t;
  wf_logged : (length (t_bs t') <= length (t_bs t) + nbitmap (k_sb s0) + blocks + 2)%nat;
  wf_full : full = true → ∀ y, 0 <= y < sb_size (k_sb s0) → in_use (k_sb s0) (t_view t') y = true }.

Lemma written_load s0 s l i ip t off r d full s' t' ip' :
  opened s0 s l i ip t → written s0 l i ip t (span off r) off d full s' t' ip' →
  (length (t_bs t') <= load (k_sb s0) (t_view t) ip t + r)%nat.
Proof.
  intros O W. pose proof (tx_bsnd _ _ _ _ (wr_tx _ _ _ _ _ _ _ _ _ _ _ _ W)) as Hnd.
  pose proof (length_load _ _ (t_view t') ip' t' (op_lay _ _ _ _ _ _ O) Hnd).
  pose proof (load_ext _ _ _ _ _ _ _ _ (seqZ (off / BSIZE) (Z.of_nat r)) Hnd (wr_step _ _ _ _ _ _ _ _ _ _ _ _ W)
    (wr_ext _ _ _ _ _ _ _ _ _ _ _ _ W)) as Hl. rewrite length_seqZ, Nat2Z.id in Hl.
  etrans; [done|apply Hl]. intros k [->|Hk]; [by left|right]. by apply elem_of_seqZ.
Qed.

Lemma written_file s0 s l i ip t off r d full s1 t1 ip1 (tot : Z) :
  opened s0 s l i ip t → solid (t_view t) ip → 0 <= off <= i_size ip → off + Z.of_nat (length d) <= MAXFILE * BSIZE →
  (load (k_sb s0) (t_view t) ip t + r < NBUF)%nat →
  written s0 l i ip t (span off r) off d full s1 t1 ip1 →
  let z := off + Z.of_nat (length d) in
  ∃ s' t' ip', (q ← get_inode i; when (i_size q <? z) (upd_inode i (with_i_size z));; iupdate i;; mret tot) s1 = Ok tot s' ∧
    wrote_file s0 l i ip t off d r full s' t' ip'.
Proof.
  intros O So Hoff Hmax Hl W z. pose proof (written_opened _ _ _ _ _ _ _ _ _ _ _ _ _ O W) as O1.
  pose proof (written_load _ _ _ _ _ _ _ _ _ _ _ _ _ O W) as Hl1. destruct W as [W1 W2 W3 W4 W5 W6].
  pose proof (op_lay _ _ _ _ _ _ O) as La. pose proof (layout_order _ _ La) as HO. pose proof (st_file _ _ _ _ _ W3) as F1.
  assert (i_size ip1 = i_size ip) as Es by (by rewrite (st_meta _ _ _ _ _ W3)).
  assert (i_inum ip1 = i_inum ip) as Ei by (by rewrite (st_meta _ _ _ _ _ W3)).
  pose proof (fo_size _ _ _ (op_file _ _ _ _ _ _ O)) as Hsz.
  destruct (writeback _ s1 _ i ip1 t1 z tot O1) as (s2 & E2 & T2); [lia|].
  rewrite said_sb, Ei, Es in T2. rewrite list_insert_insert_eq in T2.
  set (ip' := with_i_size (Z.max (i_size ip) z) ip1) in *. set (ib := IBLOCK (i_inum ip) (k_sb s0)) in *.
  set (dd := put_dinode _ _ _) in T2.
  pose proof (layout_iblock _ _ _ La (fo_inum _ _ _ (op_file _ _ _ _ _ _ O))) as Hib. fold ib in Hib.
  destruct (file_meta _ _ (t_view t1) (fset (t_view t1) ib dd) ip1 (Z.max (i_size ip) z) La) as (F' & Hf & Hb & Hu);
    [intros b Hb; apply fset_ne; lia|done|unfold z; lia|]. fold ip' in F', Hf, Hb.
  exists s2, (wrote ib dd t1), ip'. split; [exact E2|]. split.
  - split; rewrite ?said_sb; try apply O1; cbn [t_view t_start t_out wrote].
    + exact T2.
    + apply list_lookup_insert_eq. eapply lookup_lt_Some, O.
    + by rewrite (ex_start _ _ _ W2).
    + intros x Hx. rewrite Hu by lia. by apply (st_bm _ _ _ _ _ W3).
    + exact F'.
  - intros k Hk Hlt. cbn [t_view wrote]. cbn in Hlt.
    assert (0 <= k <= MAXFILE) by (unfold MAXFILE, BSIZE, z in *; lia). rewrite Hf by done.
    destruct (Z.lt_ge_cases (k * BSIZE) (i_size ip)) as [Hin|Hout].
    + rewrite (st_mono _ _ _ _ _ W3); [|done|]; by apply So.
    + rewrite <- (Z.div_mul k BSIZE) by done. apply W5. unfold z in *. lia.
  - cbn [t_view wrote]. apply contents_put; [done|done|cbn; unfold z; lia|].
    intros o Ho. rewrite Hb by done. by apply W4.
  - unfold ip'. rewrite (st_meta _ _ _ _ _ W3) at 1. by destruct ip.
  - intros q. cbn [t_view wrote]. rewrite fset_eq. unfold dd. apply dinode_load_put; [|apply F'].
    apply dip_off_fits. eapply tx_len; [exact (op_tx _ _ _ _ _ _ O1)| |set_solver|cbn; lia].
    apply (layout_home (k_sb s0) (t_start t)); [done|lia].
  - intros jp Fj Hd. cbn [t_view wrote]. eapply others_contents; [exact La| |done|exact Hd].
    intros b Hb1 Hb2 Hn. rewrite fset_ne by lia. apply (st_others _ _ _ _ _ W3); [by right|done].
  - split; [apply W2|apply W2].
  - cbn. pose proof (length_logged (t_bs t1) ib). unfold load, extra in Hl1.
    pose proof (length_filter (λ b, ¬ (sb_bmapstart (k_sb s0) <= b < sb_data (k_sb s0)) ∧ ¬ (b ≠ 0 ∧ fblk (t_view t) ip MAXFILE = b)) (t_bs t)). lia.
  - intros -> y Hy. cbn [t_view wrote]. rewrite Hu by done. by apply W6.
Qed.

(** The number of blocks that bytes [off] to [off + n - 1] lie in. *)
Definition wblocks (off n : Z) : nat := Z.to_nat ((off mod BSIZE + n + (BSIZE - 1)) / BSIZE).

Lemma writei_ok s0 s l i ip t src data off :
  let n := Z.of_nat (length data) in
  opened s0 s l i ip t → solid (t_view t) ip → supplies s0 src data → 0 <= off < 4294967296 → n < 4294967296 →
  (load (k_sb s0) (t_view t) ip t + wblocks off n + 1 < NBUF)%nat →
  if (i_size ip <? off) || (MAXFILE * BSIZE <? off + n) then writei i src off n s = Ok (-1) s
  else ∃ d1 d2 full s' t' ip', data = d1 ++ d2 ∧ (full = false ↔ d2 = []) ∧
    writei i src off n s = Ok (Z.of_nat (length d1)) s' ∧
    wrote_file s0 l i ip t off d1 (wblocks off n) full s' t' ip' ∧
    (n <= 3 * BSIZE → sb_size (k_sb s0) < 4 * BPB →
       (length (t_bs t') <= length (t_bs t) + Z.to_nat MAXOPBLOCKS)%nat) ∧
    (d2 ≠ [] → d1 = [] ∨ (off + Z.of_nat (length d1)) mod BSIZE = 0).
Proof.
  intros n O So Hs Hoff Hn Hl. pose proof (op_file _ _ _ _ _ _ O) as F. pose proof (fo_size _ _ _ F) as Hsz.
  unfold writei. rewrite (get_inode_ok s i ip).
  2:{ rewrite (frame_inodes _ _ (tx_frame _ _ _ _ (op_tx _ _ _ _ _ _ O))). apply O. }
  destruct (Z.ltb_spec (i_size ip) off) as [Hp|Hp]; [done|]. cbn [orb].
  destruct (Z.ltb_spec (MAXFILE * BSIZE) (off + n)) as [Hm|Hm].
  { destruct (Z.ltb_spec (u32 (off + n)) off) as [|Hw]; [done|].
    rewrite (u32_small (off + n)) in * by (unfold u32 in Hw; zl). by rewrite (proj2 (Z.ltb_lt _ _)) by done. }
  rewrite u32_small by (unfold MAXFILE, BSIZE in *; lia).
  rewrite (proj2 (Z.ltb_ge (off + n) off)), (proj2 (Z.ltb_ge (MAXFILE * BSIZE) (off + n))) by lia.
  destruct (writei_loop_ok i (rounds n) (wblocks off n) s0 s l ip t src data off n 0 O Hs)
    as (d1 & d2 & full & s1 & t1 & ip1 & Ed & Hf & E & W & Hch); try (unfold n, wblocks, rounds, BSIZE in *; zl).
  rewrite (bind_Ok _ _ _ _ _ E).
  destruct (written_file s0 s l i ip t off (wblocks off n) d1 full s1 t1 ip1 (0 + Z.of_nat (length d1)) O So)
    as (s2 & t2 & ip2 & E2 & WF); [lia| |lia|done|].
  { unfold n in Hm. rewrite Ed, length_app in Hm. lia. }
  exists d1, d2, full, s2, t2, ip2. split_and!; [done|done|exact E2|done| |done].
  intros Hn3 Hsb. pose proof (wf_logged _ _ _ _ _ _ _ _ _ _ _ _ WF) as Hlog.
  assert (wblocks off n <= 4)%nat by (unfold wblocks, BSIZE in *; zl).
  assert (nbitmap (k_sb s0) <= 4)%nat.
  { pose proof (layout_order _ _ (op_lay _ _ _ _ _ _ O)). unfold nbitmap. change BPB with 8192 in *. zl. }
  change (Z.to_nat MAXOPBLOCKS) with 10%nat. lia.
Qed.

(** C4: [writei] replaces a range of the file.  A write that starts past the
    end of the file or would exceed the maximal size returns -1 and changes
    nothing.  Otherwise a prefix [d1] of the data is written, all of it
    unless every block of the disk is in use: the contents become the old
    ones with [d1] at [off], extending the file where it ends before; the
    inode on disk has the new size and addresses; other files keep
    their contents; nothing reaches the disk before the commit.  The
    transaction grows by at most the bitmap, the indirect block, the inode
    and the blocks written, so that a write of three blocks (as [filewrite] makes them)
    stays within what an operation reserves. *)
Theorem writei_replaces s0 s l i ip t src data off :
  let n := Z.of_nat (length data) in
  opened s0 s l i ip t → solid (t_view t) ip → supplies s0 src data → 0 <= off < 4294967296 → n < 4294967296 →
  (load (k_sb s0) (t_view t) ip t + wblocks off n + 1 < NBUF)%nat →
  if (i_size ip <? off) || (MAXFILE * BSIZE <? off + n) then writei i src off n s = Ok (-1) s
  else ∃ d1 d2 full s' t' ip', data = d1 ++ d2 ∧ (full = false ↔ d2 = []) ∧
    writei i src off n s = Ok (Z.of_nat (length d1)) s' ∧
    wrote_file s0 l i ip t off d1 (wblocks off n) full s' t' ip' ∧
    (n <= 3 * BSIZE → sb_size (k_sb s0) < 4 * BPB →
       (length (t_bs t') <= length (t_bs t) + Z.to_nat MAXOPBLOCKS)%nat).
Proof.
  intros n O So Hs Hoff Hn Hl. pose proof (writei_ok s0 s l i ip t src data off O So Hs Hoff Hn Hl) as H. cbv zeta in H. fold n in H.
  destruct ((i_size ip <? off) || _); [done|].
  destruct H as (d1 & d2 & full & s' & t' & ip' & H1 & H2 & H3 & H4 & H5 & _). by exists d1, d2, full, s', t', ip'.
Qed.
End fswrite.

Lemma demo_opened size :
  0 <= size <= 2048 →
  opened (P := emu) (fs_demo demo_used) (with_k_inodes [demo_file size] (fs_demo demo_used)) [demo_file size] 0
    (demo_file size) (fs_demo_tx demo_used).
Proof.
  intros Hs. split.
  - apply tx_inodes, demo_tx. reflexivity.
  - reflexivity.
  - apply demo_layout.
  - intros x Hx. change (sb_data (k_sb (fs_demo demo_used))) with 47 in Hx.
    assert (forallb (in_use demo_sb (t_view (fs_demo_tx demo_used))) (seqZ 0 47) = true) as Hf by reflexivity.
    rewrite forallb_forall in Hf. apply Hf, list_elem_of_In, elem_of_seqZ. lia.
  - apply demo_file_ok; [done|reflexivity..].
  - cbn. lia.
  - split; reflexivity.
Qed.

Lemma writei_replaces_witness :
  let s := with_k_inodes [demo_file 2000] (fs_demo demo_used) in
  let data := replicate 100 7 in
  ∃ d1 d2 s' t' ip', data = d1 ++ d2 ∧ writei (P := emu) 0 (SLocal data) 2000 100 s = Ok (Z.of_nat (length d1)) s' ∧
    contents (t_view t') ip' = put_at 2000 d1 (contents (t_view (fs_demo_tx demo_used)) (demo_file 2000)) ∧
    writei (P := emu) 0 (SLocal data) 2001 100 s = Ok (-1) s.
Proof.
  intros s data.
  assert (∀ off, (load (k_sb (fs_demo demo_used)) (t_view (fs_demo_tx demo_used)) (demo_file 2000) (fs_demo_tx demo_used)
    + wblocks off 100 + 1 = 3 + wblocks off 100)%nat) as Hl by (intros off; rewrite (Nat.add_comm _ 1); reflexivity).
  pose proof (writei_replaces (P := emu) (fs_demo demo_used) s [demo_file 2000] 0 (demo_file 2000) (fs_demo_tx demo_used)
    (SLocal data) data) as H. change (Z.of_nat (length data)) with 100 in H.
  pose proof (demo_opened 2000 ltac:(lia)) as O.
  assert (solid (t_view (fs_demo_tx demo_used)) (demo_file 2000)) as So by (apply demo_solid; lia).
  destruct (H 2000 O So eq_refl ltac:(lia) ltac:(lia)) as (d1 & d2 & full & s' & t' & ip' & Ed & _ & E & W & _).
  { rewrite Hl. apply Nat.ltb_lt. reflexivity. }
  exists d1, d2, s', t', ip'. split_and!; [exact Ed|exact E|exact (wf_contents _ _ _ _ _ _ _ _ _ _ _ _ W)|].
  apply (H 2001 O So eq_refl ltac:(lia) ltac:(lia)). rewrite Hl. apply Nat.ltb_lt. reflexivity.
Defined.
