(* ===== verification/FsDir.v ===== *)
(** * Directories of kernel/fs.c

    A directory is a file of 16-byte entries; it stands for the finite map from
    names to inode numbers that its live entries give.  [dirlookup] is the
    lookup in that map followed by [iget], and [dirlink] adds one binding to it. *)

From S2P Require Import Prelude Machine State CString Spinlock Printf Emu Kalloc Vm VmSpec VmUser VmCopy Sched Bytes Bio BioSpec Cache Log LogImg LogSpec LogThms Tx Console Pipe Fs FsBlock FsInode FsFile FsRead FsWrite.

(** ** Entries *)
Definition is_byte (x : Z) : Prop := 0 <= x < 256.
Definition dentry (c : list Z) (k : nat) : list Z := take 16 (drop (16 * k) c).
Definition dents (c : list Z) : list (list Z) := map (dentry c) (seq 0 (length c / 16)).
(** A name as [namecmp] sees it: up to its NUL, and at most DIRSIZ bytes. *)
Definition cut (name : list Z) : list Z := cstrn DIRSIZ (chars name) 0.
Definition dname (de : list Z) : list Z := cut (de_name de).
Definition names (n : list Z) (de : list Z) : Prop := de_inum de ≠ 0 ∧ dname de = n.
#[export] Instance names_dec n de : Decision (names n de).
Proof. unfold names. apply _. Defined.

(** The inode number a directory with contents [c] gives to the name [n]. *)
Definition dlookup (c n : list Z) : option Z := (λ x, de_inum x.2) <$> list_find (names n) (dents c).

Lemma chars_byte l k : Forall is_byte l → is_byte (chars l k).
Proof.
  intros Hl. unfold chars. destruct (decide (Z.to_nat k < length l)%nat) as [Hk|Hk].
  - rewrite Forall_forall in Hl. apply Hl. by apply list_elem_of_In, nth_In.
  - rewrite nth_overflow by lia. unfold is_byte. lia.
Qed.
Lemma namecmp_cut a b : Forall is_byte a → Forall is_byte b → namecmp a b = 0 ↔ cut a = cut b.
Proof. intros Ha Hb. apply strncmp_loop_eq; intros k; by apply chars_byte. Qed.

Lemma length_dents c : length (dents c) = (length c / 16)%nat.
Proof. unfold dents. by rewrite length_map, length_seq. Qed.
Lemma lookup_dents c k : (k < length c / 16)%nat → dents c !! k = Some (dentry c k).
Proof. intros Hk. unfold dents. rewrite list_lookup_fmap, lookup_seq_lt by done. done. Qed.
Lemma dentry_byte c k : Forall is_byte c → Forall is_byte (dentry c k).
Proof. intros H. unfold dentry. by apply Forall_take, Forall_drop. Qed.

(** *** A new entry *)
Lemma length_mk_dirent name inum : length (mk_dirent name inum) = 16%nat.
Proof. unfold mk_dirent. by rewrite length_app, length_bytes_of, length_strncpy. Qed.
Lemma inum_mk_dirent name inum : 0 <= inum < 65536 → de_inum (mk_dirent name inum) = inum.
Proof.
  intros Hi. unfold de_inum, getb, mk_dirent. rewrite drop_0.
  rewrite take_app_le, take_ge by (by rewrite length_bytes_of). rewrite of_bytes_of. apply Z.mod_small. cbn. lia.
Qed.
Lemma dname_mk_dirent name inum : dname (mk_dirent name inum) = cut name.
Proof.
  unfold dname, cut, de_name, mk_dirent.
  rewrite drop_app_ge, length_bytes_of, drop_0 by (by rewrite length_bytes_of).
  rewrite take_ge by (rewrite length_strncpy; lia). apply (strncpy_roundtrip (chars name) (Z.of_nat DIRSIZ)).
Qed.

Lemma mk_dirent_byte name inum : Forall is_byte name → Forall is_byte (mk_dirent name inum).
Proof.
  intros Hn. unfold mk_dirent. apply Forall_app. split.
  - cbn. repeat constructor; unfold is_byte; zl.
  - rewrite strncpy_eq. apply Forall_app. split; [|by apply Forall_replicate].
    generalize (Z.to_nat (Z.of_nat DIRSIZ)), 0. intros n. induction n as [|n IH]; intros i; cbn [cstrn]; [done|].
    case_match; [done|]. apply Forall_cons. split; [by apply chars_byte|apply IH].
Qed.

(** Entry [k] is put where there is none, or behind the last one. *)
Lemma dents_put_in c k e : (k < length c / 16)%nat → length e = 16%nat → dents (put_at (16 * k) e c) = <[k := e]> (dents c).
Proof.
  intros Hk He. assert (16 * k + 16 <= length c)%nat as Hl by (pose proof (Nat.div_mod_eq (length c) 16); lia).
  assert (length (put_at (16 * k) e c) = length c) as El by (apply length_put_at; lia).
  apply list_eq. intros j. destruct (decide (j < length c / 16)%nat) as [Hj|Hj].
  - rewrite lookup_dents by (by rewrite El). destruct (decide (j = k)) as [->|Hne].
    + rewrite list_lookup_insert_eq by (by rewrite length_dents). f_equal. unfold dentry. rewrite <- He at 1. apply slice_put_eq. lia.
    + rewrite list_lookup_insert_ne, lookup_dents by done. f_equal. unfold dentry. apply slice_put_ne; lia.
  - rewrite !lookup_ge_None_2; [done|rewrite length_insert, length_dents; lia|rewrite length_dents, El; lia].
Qed.
Lemma dents_put_end c e : (length c mod 16 = 0)%nat → length e = 16%nat → dents (put_at (length c) e c) = dents c ++ [e].
Proof.
  intros Hc He. pose proof (Nat.div_mod_eq (length c) 16) as Hd. set (n := (length c / 16)%nat) in *.
  unfold put_at. rewrite take_ge, drop_ge, app_nil_r by lia.
  assert (length (c ++ e) / 16 = S n)%nat as El.
  { rewrite length_app, He. symmetry. apply (Nat.div_unique _ _ _ 0); lia. }
  unfold dents at 1. rewrite El, seq_S, map_app. cbn [map]. rewrite Nat.add_0_l. f_equal.
  - apply map_ext_in. intros j [_ Hj]%in_seq. unfold dentry. rewrite drop_app_le, take_app_le; [done|rewrite length_drop; lia|lia].
  - unfold dentry. replace (16 * n)%nat with (length c) by lia. by rewrite drop_app_length, take_ge by lia.
Qed.

Lemma list_find_names_app n A B :
  (λ x, de_inum x.2) <$> list_find (names n) (A ++ B) =
  match (λ x, de_inum x.2) <$> list_find (names n) A with
  | Some i => Some i
  | None => (λ x, de_inum x.2) <$> list_find (names n) B
  end.
Proof.
  induction A as [|a A IH]; [done|]. cbn. case_decide; [done|].
  rewrite <- !option_fmap_compose. etrans; [|etrans; [exact IH|]].
  - by destruct (list_find (names n) (A ++ B)) as [[]|].
  - destruct (list_find (names n) A) as [[]|]; [done|]. by destruct (list_find (names n) B) as [[]|].
Qed.

(** A live entry in the place of none binds its name. *)
Lemma names_bind A B e n :
  let f := λ L, (λ x, de_inum x.2) <$> list_find (names n) L in
  de_inum e ≠ 0 → f (A ++ B) = None ∨ n ≠ dname e →
  f (A ++ e :: B) = if decide (n = dname e) then Some (de_inum e) else f (A ++ B).
Proof.
  intros f He Hn. unfold f in *. rewrite !list_find_names_app in *. cbn [list_find].
  destruct (decide (names n e)) as [Hy|Hno].
  - destruct Hy as [_ <-]. rewrite decide_True by done. destruct Hn as [Hn|]; [|done].
    by destruct ((λ x, de_inum x.2) <$> list_find (names (dname e)) A).
  - rewrite decide_False by (intros ->; by apply Hno).
    destruct ((λ x, de_inum x.2) <$> list_find (names n) A); [done|].
    by destruct (list_find (names n) B) as [[]|].
Qed.
Lemma names_dead A B x n :
  let f := λ L, (λ x, de_inum x.2) <$> list_find (names n) L in de_inum x = 0 → f (A ++ x :: B) = f (A ++ B).
Proof.
  intros f Hx. unfold f. rewrite !list_find_names_app. cbn [list_find].
  rewrite (decide_False (P := names n x)) by (intros [H _]; done).
  destruct ((λ x, de_inum x.2) <$> list_find (names n) A); [done|]. by destruct (list_find (names n) B) as [[]|].
Qed.

(** The index of the first empty entry, or the number of entries. *)
Definition dfree (c : list Z) : nat := default (length (dents c)) (fst <$> list_find (λ de, de_inum de = 0) (dents c)).

Lemma dlookup_link c name inum n :
  (length c mod 16 = 0)%nat → 0 < inum < 65536 → dlookup c (cut name) = None →
  dlookup (put_at (16 * dfree c) (mk_dirent name inum) c) n = if decide (n = cut name) then Some inum else dlookup c n.
Proof.
  intros Hc Hi Hnone. set (e := mk_dirent name inum).
  assert (de_inum e = inum ∧ dname e = cut name ∧ length e = 16%nat) as (E1 & E2 & E3)
    by (split_and!; [apply inum_mk_dirent; lia|apply dname_mk_dirent|apply length_mk_dirent]).
  assert (∃ A B, dents (put_at (16 * dfree c) e c) = A ++ e :: B ∧ ∀ m, dlookup c m = (λ x, de_inum x.2) <$> list_find (names m) (A ++ B)) as (A & B & Ed & EL).
  { unfold dfree. destruct (list_find _ (dents c)) as [[k x]|] eqn:Hf; cbn [default fmap option_fmap option_map fst].
    - apply list_find_Some in Hf as (Hk & Hx & _). exists (take k (dents c)), (drop (S k) (dents c)).
      pose proof (lookup_lt_Some _ _ _ Hk) as Hlt. split.
      + rewrite dents_put_in by (done || by rewrite <- length_dents). by rewrite insert_take_drop by done.
      + intros m. unfold dlookup. rewrite <- (take_drop_middle (dents c) k x Hk) at 1. by apply names_dead.
    - exists (dents c), []. pose proof (Nat.div_mod_eq (length c) 16). split; [|intros m; by rewrite app_nil_r].
      rewrite length_dents. replace (16 * (length c / 16))%nat with (length c) by lia. by apply dents_put_end. }
  unfold dlookup at 1. rewrite Ed, <- E1, <- E2. rewrite names_bind; [by rewrite <- EL|lia|].
  destruct (decide (n = dname e)) as [->|]; [left; by rewrite <- EL, E2|by right].
Qed.

(** ** The inode table *)
Definition is_entry (dev inum : Z) (ip : inode) : Prop := 0 < i_ref ip ∧ i_dev ip = dev ∧ i_inum ip = inum.
#[export] Instance is_entry_dec dev inum ip : Decision (is_entry dev inum ip).
Proof. unfold is_entry. apply _. Defined.
(** The table entry [iget] takes and what it becomes: the entry of the inode
    with one more reference, or the first free one. *)
Definition iget_slot (l : list inode) (dev inum : Z) : option (nat * inode) :=
  match list_find (is_entry dev inum) l with
  | Some (j, q) => Some (j, with_i_ref (i32 (i_ref q + 1)) q)
  | None =>
      match list_find (λ q, i_ref q = 0) l with
      | Some (j, q) => Some (j, with_i_valid 0 (with_i_ref 1 (with_i_inum inum (with_i_dev dev q))))
      | None => None
      end
  end.

Section fsdir.
Context `{P : Platform} {HP : PlatformOk P}.

Lemma iget_loop_ok dev inum l2 : ∀ l1 s empty,
  calm s → k_inodes s = l1 ++ l2 →
  iget_loop (seq (length l1) (length l2)) dev inum empty (acq LkItable s) =
  match list_find (is_entry dev inum) l2 with
  | Some (j, q) => Ok (inl (length l1 + j)%nat)
      (with_k_inodes (<[(length l1 + j)%nat := with_i_ref (i32 (i_ref q + 1)) q]> (k_inodes s)) s)
  | None => Ok (inr (match empty with Some _ => empty | None => (λ x, (length l1 + x.1)%nat) <$> list_find (λ q, i_ref q = 0) l2 end)) (acq LkItable s)
  end.
Proof.
  induction l2 as [|q l2 IH]; intros l1 s empty Hc El; cbn [length seq iget_loop list_find].
  { by destruct empty. }
  assert (k_inodes s !! length l1 = Some q) as Hq by (rewrite El; by apply list_lookup_middle).
  rewrite (get_inode_ok _ _ q) by exact Hq.
  assert ((0 <? i_ref q) && (i_dev q =? dev) && (i_inum q =? inum) = bool_decide (is_entry dev inum q)) as ->.
  { unfold is_entry. destruct (bool_decide_reflect (0 < i_ref q ∧ i_dev q = dev ∧ i_inum q = inum)); lia. }
  destruct (decide (is_entry dev inum q)) as [Hy|Hn].
  - rewrite bool_decide_true by done. rewrite (bind_Ok _ _ _ _ _ (upd_inode_ok (acq LkItable s) _ q _ Hq)).
    rewrite Nat.add_0_r. set (l' := <[_ := _]> _).
    change (with_k_inodes l' (acq LkItable s)) with (acq LkItable (with_k_inodes l' s)).
    rewrite (bind_Ok _ _ _ _ _ (release_calm LkItable (with_k_inodes l' s) ltac:(by apply (calm_same s)) I)). done.
  - rewrite bool_decide_false by done. replace (S (length l1)) with (length (l1 ++ [q])) by (rewrite length_app; cbn; lia).
    rewrite IH by (done || by rewrite <- app_assoc). rewrite length_app. cbn [length].
    destruct (list_find (is_entry dev inum) l2) as [[j q']|]; cbn [fmap option_fmap option_map].
    + by replace (length l1 + 1 + j)%nat with (length l1 + S j)%nat by lia.
    + do 2 f_equal. destruct empty; [done|]. destruct (Z.eqb_spec (i_ref q) 0) as [E|E].
      * rewrite decide_True by done. cbn. by rewrite Nat.add_0_r.
      * rewrite decide_False by done. destruct (list_find _ l2) as [[j q']|]; cbn; [|done]. f_equal. lia.
Qed.

Lemma iget_ok s dev inum :
  calm s → length (k_inodes s) = NINODE →
  iget dev inum s = match iget_slot (k_inodes s) dev inum with
    | Some (j, q) => Ok j (with_k_inodes (<[j := q]> (k_inodes s)) s)
    | None => Panic "iget: no inodes"
    end.
Proof.
  intros Hc Hl. unfold iget, iget_slot. rewrite acquire_calm by done.
  pose proof (iget_loop_ok dev inum (k_inodes s) [] s None Hc eq_refl) as E. rewrite Hl in E. cbn [length] in E.
  destruct (list_find (is_entry dev inum) (k_inodes s)) as [[j q]|]; rewrite (bind_Ok _ _ _ _ _ E); [done|].
  destruct (list_find _ (k_inodes s)) as [[j q]|] eqn:Hf; [|done]. cbn [fmap option_fmap option_map fst].
  apply list_find_Some in Hf as (Hj & _). pose proof (lookup_lt_Some _ _ _ Hj) as Hlt. rewrite Nat.add_0_l.
  rewrite (bind_Ok _ _ _ _ _ (upd_inode_ok (acq LkItable s) j q _ Hj)).
  repeat (erewrite bind_Ok; [|eapply upd_inode_ok; cbn; by apply list_lookup_insert_eq; rewrite ?length_insert]; cbn [k_inodes with_k_inodes acq with_k_locks with_k_cpu]; rewrite ?list_insert_insert_eq).
  set (l' := <[_ := _]> _). match goal with |- _ ?x = _ => change x with (acq LkItable (with_k_inodes l' s)) end.
  rewrite (bind_Ok _ _ _ _ _ (release_calm LkItable (with_k_inodes l' s) ltac:(by apply (calm_same s)) I)). done.
Qed.

(** *** Reading the entries *)
Context (s0 : kstate) (l : list inode) (dp : nat) (ip : inode) (t : txst).
Let c := contents (t_view t) ip.
(** A well-formed directory: whole entries of bytes. *)
Record dir_ok : Prop := {
  do_type : i_type ip = T_DIR;
  do_size : i_size ip mod 16 = 0;
  do_bytes : Forall is_byte c }.

Lemma readi_entry s k :
  readable s0 s l dp ip t → (k < length (dents c))%nat →
  ∃ s', readi dp DLocal (16 * Z.of_nat k) DIRENT s = Ok (DIRENT, dentry c k) s' ∧ readable s0 s' l dp ip t.
Proof.
  intros R Hk. rewrite length_dents in Hk. pose proof (fo_size _ _ _ (rd_file _ _ _ _ _ _ R)) as Hmax.
  pose proof (io_size _ (fo_inode _ _ _ (rd_file _ _ _ _ _ _ R))) as Hsz.
  assert (length c = Z.to_nat (i_size ip)) as Hlen by (apply length_contents; lia).
  pose proof (Nat.div_mod_eq (length c) 16) as Hd. unfold MAXFILE, BSIZE in Hmax.
  assert (read_bytes c (16 * Z.of_nat k) DIRENT = dentry c k) as Eb.
  { unfold read_bytes, DIRENT. rewrite (proj2 (Z.leb_gt _ _)) by lia. unfold dentry. f_equal. f_equal. lia. }
  assert (length (dentry c k) = 16%nat) as El by (unfold dentry; rewrite length_take, length_drop; lia).
  destruct (readi_ok s0 s l dp ip t DLocal (16 * Z.of_nat k) DIRENT R) as (s' & m' & E & R' & D); [lia|unfold DIRENT; lia|done|].
  fold c in E. rewrite Eb, El in E. exists s'. split; [exact E|]. cbn in D. subst m'. by destruct s0.
Qed.

Lemma entry_in_range s k : readable s0 s l dp ip t → dir_ok →
  (16 * Z.of_nat k <? i_size ip) = bool_decide (k < length (dents c))%nat.
Proof.
  intros R [_ Hm _]. pose proof (io_size _ (fo_inode _ _ _ (rd_file _ _ _ _ _ _ R))) as Hsz.
  rewrite length_dents. assert (length c = Z.to_nat (i_size ip)) as -> by (apply length_contents; lia).
  assert (Z.of_nat (Z.to_nat (i_size ip) / 16) = i_size ip / 16) as E by (rewrite Nat2Z.inj_div, Z2Nat.id by lia; done).
  destruct (bool_decide_reflect (k < Z.to_nat (i_size ip) / 16)%nat); zl.
Qed.

Lemma dirlookup_loop_ok name : ∀ fuel s k,
  readable s0 s l dp ip t → dir_ok → Forall is_byte name → (length (dents c) < fuel + k)%nat →
  match list_find (names (cut name)) (drop k (dents c)) with
  | Some (j, de) => ∃ s', readable s0 s' l dp ip t ∧ dirlookup_loop fuel dp name (16 * Z.of_nat k) s =
      (x ← iget ROOTDEV (de_inum de); mret (Some (x, 16 * Z.of_nat (k + j)))) s'
  | None => ∃ s', dirlookup_loop fuel dp name (16 * Z.of_nat k) s = Ok None s' ∧ readable s0 s' l dp ip t
  end.
Proof.
  induction fuel as [|f IH]; intros s k R D Hname Hfuel; cbn [dirlookup_loop];
    rewrite (get_inode_ok s dp ip) by (by eapply readable_inode); rewrite (entry_in_range s) by done.
  { rewrite bool_decide_false by lia. rewrite drop_ge by lia. by exists s. }
  destruct (decide (k < length (dents c))%nat) as [Hk|Hk]; [rewrite bool_decide_true by done|].
  2: { rewrite bool_decide_false by done. rewrite drop_ge by lia. by exists s. }
  destruct (readi_entry s k R Hk) as (s1 & E1 & R1). rewrite (bind_Ok _ _ _ _ _ E1). rewrite Z.eqb_refl. cbn [negb].
  rewrite (drop_S (dents c) (dentry c k) k) by (apply lookup_dents; by rewrite <- length_dents). cbn [list_find].
  assert (u32 (16 * Z.of_nat k + DIRENT) = 16 * Z.of_nat (S k)) as Eu.
  { pose proof (fo_size _ _ _ (rd_file _ _ _ _ _ _ R)) as Hmax. pose proof (entry_in_range s k R D) as Hr.
    rewrite bool_decide_true in Hr by done. apply Z.ltb_lt in Hr. unfold MAXFILE, BSIZE, DIRENT in *. rewrite u32_small; lia. }
  assert (Hnext : match (prod_map S id <$> list_find (names (cut name)) (drop (S k) (dents c))) with
    | Some (j, de) => ∃ s', readable s0 s' l dp ip t ∧ dirlookup_loop f dp name (16 * Z.of_nat (S k)) s1 =
        (x ← iget ROOTDEV (de_inum de); mret (Some (x, 16 * Z.of_nat (k + j)))) s'
    | None => ∃ s', dirlookup_loop f dp name (16 * Z.of_nat (S k)) s1 = Ok None s' ∧ readable s0 s' l dp ip t end).
  { specialize (IH s1 (S k) R1 D Hname ltac:(lia)).
    destruct (list_find _ (drop (S k) (dents c))) as [[j de]|]; cbn [fmap option_fmap option_map prod_map fst snd id]; [|done].
    by replace (k + S j)%nat with (S k + j)%nat by lia. }
  rewrite Eu. destruct (Z.eqb_spec (de_inum (dentry c k)) 0) as [E0|E0].
  { rewrite decide_False by (by intros [H _]). exact Hnext. }
  assert (namecmp name (de_name (dentry c k)) = 0 ↔ dname (dentry c k) = cut name) as Hcmp.
  { rewrite namecmp_cut; [unfold dname; split; congruence|done|]. apply Forall_take, Forall_drop, dentry_byte, D. }
  destruct (Z.eqb_spec (namecmp name (de_name (dentry c k))) 0) as [Ey|En].
  - rewrite decide_True by (split; [done|by apply Hcmp]). exists s1. split; [done|].
    rewrite (get_inode_ok s1 dp ip) by (by eapply readable_inode). rewrite (fo_dev _ _ _ (rd_file _ _ _ _ _ _ R)).
    by rewrite Nat.add_0_r.
  - rewrite decide_False by (intros [_ H]; by apply En, Hcmp). exact Hnext.
Qed.

Lemma fuel_enough s : readable s0 s l dp ip t → (length (dents c) < Z.to_nat (i_size ip / DIRENT + 1))%nat.
Proof.
  intros R. pose proof (io_size _ (fo_inode _ _ _ (rd_file _ _ _ _ _ _ R))) as Hsz.
  rewrite length_dents. assert (length c = Z.to_nat (i_size ip)) as -> by (apply length_contents; lia).
  assert (Z.of_nat (Z.to_nat (i_size ip) / 16) = i_size ip / 16) as E by (rewrite Nat2Z.inj_div, Z2Nat.id by lia; done).
  unfold DIRENT. zl.
Qed.

Lemma dirlookup_ok s name :
  readable s0 s l dp ip t → dir_ok → Forall is_byte name → length l = NINODE →
  match list_find (names (cut name)) (dents c) with
  | None => ∃ s', dirlookup dp name s = Ok None s' ∧ readable s0 s' l dp ip t
  | Some (k, de) =>
      match iget_slot l ROOTDEV (de_inum de) with
      | Some (j, q) => ∃ s', dirlookup dp name s = Ok (Some (j, 16 * Z.of_nat k)) s' ∧ tx (with_k_inodes (<[j := q]> l) s0) s' [] t
      | None => dirlookup dp name s = Panic "iget: no inodes"
      end
  end.
Proof.
  intros R D Hname Hl. unfold dirlookup. rewrite (get_inode_ok s dp ip) by (by eapply readable_inode).
  rewrite (do_type D), Z.eqb_refl. cbn [negb].
  pose proof (dirlookup_loop_ok name (Z.to_nat (i_size ip / DIRENT + 1)) s 0 R D Hname) as H.
  rewrite drop_0, Nat.add_0_r in H. specialize (H (fuel_enough s R)).
  destruct (list_find _ (dents c)) as [[k de]|]; [|done]. destruct H as (s1 & R1 & E). cbn [Nat.add] in E.
  pose proof (rd_tx _ _ _ _ _ _ R1) as T. pose proof (frame_inodes _ _ (tx_frame _ _ _ _ T)) as EI. cbn in EI.
  pose proof (iget_ok s1 ROOTDEV (de_inum de) (tx_calm _ _ _ _ T) ltac:(by rewrite EI)) as Eg. rewrite EI in Eg.
  destruct (iget_slot l ROOTDEV (de_inum de)) as [[j q]|].
  - rewrite (bind_Ok _ _ _ _ _ Eg) in E. eexists. split; [exact E|]. apply (tx_inodes (<[j := q]> l)) in T. exact T.
  - etrans; [exact E|]. unfold mbind, M_bind. by rewrite Eg.
Qed.

(** *** The first empty entry *)
Lemma dirlink_loop_ok : ∀ fuel s k,
  readable s0 s l dp ip t → dir_ok → (k <= length (dents c))%nat → (length (dents c) < fuel + k)%nat →
  ∃ s', dirlink_loop fuel dp (16 * Z.of_nat k) s =
      Ok (16 * Z.of_nat (default (length (dents c)) ((λ x, k + x.1)%nat <$> list_find (λ de, de_inum de = 0) (drop k (dents c))))) s' ∧
    readable s0 s' l dp ip t.
Proof.
  induction fuel as [|f IH]; intros s k R D Hkl Hfuel; [lia|]. cbn [dirlink_loop].
  rewrite (get_inode_ok s dp ip) by (by eapply readable_inode). rewrite (entry_in_range s) by done.
  destruct (decide (k < length (dents c))%nat) as [Hk|Hk]; [rewrite bool_decide_true by done|].
  2: { rewrite bool_decide_false by done. rewrite drop_ge by lia. exists s. split; [|done]. cbn [list_find fmap option_fmap option_map default].
       by replace k with (length (dents c)) by lia. }
  destruct (readi_entry s k R Hk) as (s1 & E1 & R1). rewrite (bind_Ok _ _ _ _ _ E1). rewrite Z.eqb_refl. cbn [negb].
  rewrite (drop_S (dents c) (dentry c k) k) by (apply lookup_dents; by rewrite <- length_dents). cbn [list_find].
  destruct (Z.eqb_spec (de_inum (dentry c k)) 0) as [E0|E0].
  - rewrite decide_True by done. cbn. rewrite Nat.add_0_r. by exists s1.
  - rewrite decide_False by done. destruct (IH s1 (S k) R1 D) as (s' & E' & R'); [lia|lia|]. exists s'. split; [|done].
    unfold DIRENT. replace (16 * Z.of_nat k + 16) with (16 * Z.of_nat (S k)) by lia. rewrite E'. do 3 f_equal.
    destruct (list_find _ (drop (S k) (dents c))) as [[]|]; cbn; [lia|done].
Qed.
Lemma dirlink_scan s :
  readable s0 s l dp ip t → dir_ok →
  ∃ s', dirlink_loop (Z.to_nat (i_size ip / DIRENT + 1)) dp 0 s = Ok (16 * Z.of_nat (dfree c)) s' ∧ readable s0 s' l dp ip t.
Proof.
  intros R D. destruct (dirlink_loop_ok (Z.to_nat (i_size ip / DIRENT + 1)) s 0 R D) as (s' & E & R'); [lia| |].
  { rewrite Nat.add_0_r. by apply (fuel_enough s). }
  exists s'. split; [|done]. rewrite drop_0 in E. etrans; [exact E|]. unfold dfree. by destruct (list_find _ (dents c)) as [[]|].
Qed.
End fsdir.

(** ** Giving an entry back *)
Section fsdir2.
Context `{P : Platform} {HP : PlatformOk P}.

Lemma iput_keeps s0 s t i ip :
  tx s0 s [] t → k_inodes s0 !! i = Some ip → i_ref ip ≠ 1 ∨ i_valid ip = 0 ∨ i_nlink ip ≠ 0 →
  ∃ s', iput i s = Ok tt s' ∧ tx (with_k_inodes (<[i := with_i_ref (i32 (i_ref ip - 1)) ip]> (k_inodes s0)) s0) s' [] t.
Proof.
  intros T Hi Hc. pose proof (tx_calm _ _ _ _ T) as Ca. pose proof (tx_inode _ _ _ _ _ _ T Hi) as Hi'.
  unfold iput. rewrite acquire_calm by done. rewrite (get_inode_ok _ i ip) by exact Hi'.
  assert ((i_ref ip =? 1) && negb (i_valid ip =? 0) && (i_nlink ip =? 0) = false) as ->.
  { destruct Hc as [Hc|[->|Hc]]; [by rewrite (proj2 (Z.eqb_neq _ _)) by done|cbn; by rewrite andb_false_r|].
    by rewrite (proj2 (Z.eqb_neq (i_nlink ip) 0)), andb_false_r by done. }
  cbn [when]. rewrite bind_ret. rewrite (bind_Ok _ _ _ _ _ (upd_inode_ok (acq LkItable s) i ip _ Hi')).
  change (k_inodes (acq LkItable s)) with (k_inodes s). rewrite (frame_inodes _ _ (tx_frame _ _ _ _ T)).
  set (l' := <[i := _]> _). change (with_k_inodes l' (acq LkItable s)) with (acq LkItable (with_k_inodes l' s)).
  exists (with_k_inodes l' s). split; [apply release_calm; [by apply (calm_same s)|done]|]. by apply tx_inodes.
Qed.

Definition refs_ok (l : list inode) : Prop := Forall (λ q, 0 <= i_ref q < 2147483647) l.
(** The entries in use are the same. *)
Definition same_table (l l' : list inode) : Prop := ∀ i q, l !! i = Some q → i_ref q ≠ 0 → l' !! i = Some q.

Lemma iget_iput l dev inum j q s0 s t :
  refs_ok l → iget_slot l dev inum = Some (j, q) → tx (with_k_inodes (<[j := q]> l) s0) s [] t →
  ∃ s' l', iput j s = Ok tt s' ∧ tx (with_k_inodes l' s0) s' [] t ∧ same_table l l'.
Proof.
  intros Hl Hs T. assert (∃ q0, l !! j = Some q0 ∧ (i_ref q ≠ 1 ∨ i_valid q = 0) ∧
    (i_ref q0 ≠ 0 → with_i_ref (i32 (i_ref q - 1)) q = q0)) as (q0 & Hj & Hq & Hback).
  { unfold iget_slot in Hs. destruct (list_find (is_entry dev inum) l) as [[j' q']|] eqn:Hf.
    - injection Hs as -> <-. apply list_find_Some in Hf as (Hj & (Hr & _) & _). exists q'. split; [done|].
      pose proof (proj1 (Forall_lookup _ _) Hl _ _ Hj) as Hb. cbn in Hb. cbn.
      assert (∀ z, 0 <= z < 2147483648 → i32 z = z) as Hi by (intros z Hz; unfold i32; rewrite u32_small; lia).
      rewrite (Hi (i_ref q' + 1)) by lia. split; [left; lia|]. intros _. replace (i_ref q' + 1 - 1) with (i_ref q') by lia.
      rewrite Hi by lia. by destruct q'.
    - destruct (list_find (λ q, i_ref q = 0) l) as [[j' q']|] eqn:Hf'; [|done]. injection Hs as -> <-.
      apply list_find_Some in Hf' as (Hj & H0 & _). exists q'. split_and!; [done|by right|by intros Hn; destruct (Hn H0)]. }
  pose proof (lookup_lt_Some _ _ _ Hj) as Hlt.
  destruct (iput_keeps _ s t j q T) as (s' & E & T'); [by apply list_lookup_insert_eq|tauto|].
  cbn in T'. rewrite list_insert_insert_eq in T'. eexists s', _. split_and!; [exact E|exact T'|].
  intros i p Hi Hp. destruct (decide (i = j)) as [->|Hne]; [|by rewrite list_lookup_insert_ne].
  rewrite Hj in Hi. injection Hi as ->. rewrite list_lookup_insert_eq by done. f_equal. by apply Hback.
Qed.

Lemma opened_readable s0 s l i ip t :
  opened s0 s l i ip t → solid (t_view t) ip → (length (t_bs t) < NBUF)%nat → readable s0 s l i ip t.
Proof. intros [O1 O2 O3 O4 O5 O6 O7] So Hl. by split. Qed.
Lemma readable_opened s0 s s' l i ip t : opened s0 s l i ip t → readable s0 s' l i ip t → opened s0 s' l i ip t.
Proof. intros [O1 O2 O3 O4 O5 O6 O7] R. split; try done. apply R. Qed.

(** The place of a new entry and the blocks its write takes. *)
Lemma dfree_place V ip :
  let c := contents V ip in let off := 16 * Z.of_nat (dfree c) in
  0 <= i_size ip <= MAXFILE * BSIZE → i_size ip mod 16 = 0 →
  0 <= off <= i_size ip ∧ wblocks off 16 = 1%nat ∧ (off + 16 <= i_size ip ∨ off = i_size ip).
Proof.
  intros c off Hs Hm. assert (length c = Z.to_nat (i_size ip)) as Hl by (apply length_contents; lia).
  assert (Z.of_nat (length (dents c)) = i_size ip / 16) as Hd.
  { rewrite length_dents, Hl, Nat2Z.inj_div, Z2Nat.id by lia. done. }
  assert (dfree c <= length (dents c))%nat as Hf.
  { unfold dfree. destruct (list_find _ (dents c)) as [[k x]|] eqn:E; cbn [default fmap option_fmap option_map fst]; [|done].
    apply list_find_Some in E as (Hk & _). apply lookup_lt_Some in Hk. unfold id. lia. }
  unfold off. split_and!; [lia|zl| |zl]. unfold wblocks, BSIZE. zl.
Qed.

(** What [dirlink] does when the name is not there: the entry is written, or
    nothing for want of a block. *)
Lemma dirlink_writes s0 s l dp ip t name inum :
  let c := contents (t_view t) ip in let off := 16 * Z.of_nat (dfree c) in
  opened s0 s l dp ip t → solid (t_view t) ip → dir_ok ip t → Forall is_byte name → length l = NINODE →
  (load (k_sb s0) (t_view t) ip t + 2 < NBUF)%nat → (length (t_bs t) < NBUF)%nat →
  dlookup c (cut name) = None →
  if MAXFILE * BSIZE <? off + 16 then ∃ s', dirlink dp name inum s = Ok (-1) s' ∧ opened s0 s' l dp ip t
  else ∃ (full : bool) s' t' ip', dirlink dp name inum s = Ok (if full then -1 else 0) s' ∧
    wrote_file s0 l dp ip t off (if full then [] else mk_dirent name inum) 1 full s' t' ip'.
Proof.
  intros c off O So D Hname Hl Hload Hroom Hnone. pose proof (opened_readable _ _ _ _ _ _ O So Hroom) as R.
  pose proof (dirlookup_ok s0 l dp ip t s name R D Hname Hl) as Hlk. fold c in Hlk.
  unfold dlookup in Hnone. destruct (list_find (names (cut name)) (dents c)); [done|]. destruct Hlk as (s1 & E1 & R1).
  unfold dirlink. rewrite (bind_Ok _ _ _ _ _ E1). rewrite (get_inode_ok s1 dp ip) by (by eapply readable_inode).
  destruct (dirlink_scan s0 l dp ip t s1 R1 D) as (s2 & E2 & R2). fold c off in E2. rewrite (bind_Ok _ _ _ _ _ E2).
  pose proof (readable_opened _ _ _ _ _ _ _ O R2) as O2. pose proof (fo_size _ _ _ (op_file _ _ _ _ _ _ O)) as Hmax.
  pose proof (io_size _ (fo_inode _ _ _ (op_file _ _ _ _ _ _ O))) as Hsz.
  destruct (dfree_place (t_view t) ip) as (Hoff & Hwb & Hend); [lia|apply D|]. fold c off in Hoff, Hwb, Hend.
  pose proof (writei_ok s0 s2 l dp ip t (SLocal (mk_dirent name inum)) (mk_dirent name inum) off O2 So (firstn_all _)) as W.
  rewrite length_mk_dirent in W. change (Z.of_nat 16) with DIRENT in W. change (wblocks off DIRENT) with (wblocks off 16) in W. rewrite Hwb in W.
  specialize (W ltac:(unfold MAXFILE, BSIZE in *; lia) ltac:(done) ltac:(lia)).
  rewrite (proj2 (Z.ltb_ge (i_size ip) off)) in W by lia. cbn [orb] in W. change (off + DIRENT) with (off + 16) in W.
  destruct (MAXFILE * BSIZE <? off + 16); [by rewrite (bind_Ok _ _ _ _ _ W); exists s2|].
  destruct W as (d1 & d2 & full & s3 & t3 & ip3 & Ed & Hfull & E3 & Wf & _ & Hch). rewrite (bind_Ok _ _ _ _ _ E3).
  exists full, s3, t3, ip3. apply (f_equal length) in Ed as El. rewrite length_mk_dirent, length_app in El. destruct full.
  - assert (d2 ≠ []) as Hd2 by (intros H; apply Hfull in H; done).
    assert (d1 = []) as ->; [|done]. destruct (Hch Hd2) as [|Hmod]; [done|].
    assert (0 < length d2)%nat by (destruct d2; [done|cbn; lia]). destruct d1; [done|]. exfalso.
    cbn [length] in *. unfold off, BSIZE in Hmod. zl.
  - assert (d2 = []) as -> by (by apply Hfull). rewrite app_nil_r in Ed. subst d1. rewrite length_mk_dirent.
    change (Z.of_nat 16 =? DIRENT) with true. done.
Qed.

(** The directory afterwards. *)
Lemma wrote_dir s0 s l dp ip t name inum (full : bool) s' t' ip' :
  let c := contents (t_view t) ip in
  opened s0 s l dp ip t → dir_ok ip t → 0 < inum < 65536 → dlookup c (cut name) = None →
  Forall is_byte name →
  wrote_file s0 l dp ip t (16 * Z.of_nat (dfree c)) (if full then [] else mk_dirent name inum) 1 full s' t' ip' →
  dir_ok ip' t' ∧ ∀ n, dlookup (contents (t_view t') ip') n =
    if decide ((if full then -1 else 0) = 0 ∧ n = cut name) then Some inum else dlookup c n.
Proof.
  intros c O D Hinum Hnone Hname W. pose proof (wf_contents _ _ _ _ _ _ _ _ _ _ _ _ W) as Ec. fold c in Ec.
  replace (Z.to_nat (16 * Z.of_nat (dfree c))) with (16 * dfree c)%nat in Ec by lia.
  pose proof (io_size _ (fo_inode _ _ _ (op_file _ _ _ _ _ _ O))) as Hsz.
  pose proof (io_size _ (fo_inode _ _ _ (op_file _ _ _ _ _ _ (wf_open _ _ _ _ _ _ _ _ _ _ _ _ W)))) as Hsz'.
  pose proof (fo_size _ _ _ (op_file _ _ _ _ _ _ O)) as Hmax.
  destruct (dfree_place (t_view t) ip) as (Hoff & _ & Hend); [lia|apply D|]. fold c in Hoff, Hend.
  assert (length c = Z.to_nat (i_size ip)) as Hlen by (apply length_contents; lia).
  assert (length (contents (t_view t') ip') = Z.to_nat (i_size ip')) as Hlen' by (apply length_contents; lia).
  rewrite Ec in Hlen'.
  assert (i_type ip' = i_type ip) as Et by (by rewrite (wf_inode _ _ _ _ _ _ _ _ _ _ _ _ W)).
  destruct full.
  - assert (put_at (16 * dfree c) [] c = c) as Ep by (unfold put_at; cbn [app length]; by rewrite Nat.add_0_r, take_drop).
    rewrite Ep in Ec, Hlen'. split; [split; [by rewrite Et, (do_type _ _ D)| |]|].
    + replace (i_size ip') with (i_size ip) by lia. apply D.
    + rewrite Ec. apply D.
    + intros n. rewrite Ec, decide_False by (by intros []). done.
  - split; [split; [by rewrite Et, (do_type _ _ D)| |]|].
    + unfold put_at in Hlen'. rewrite !length_app, length_take, length_drop, length_mk_dirent in Hlen'.
      pose proof (do_size _ _ D). zl.
    + rewrite Ec. unfold put_at. rewrite !Forall_app. split_and!; [apply Forall_take, D|by apply mk_dirent_byte|apply Forall_drop, D].
    + intros n. rewrite Ec, dlookup_link; [|apply Nat2Z.inj; rewrite Hlen, Nat2Z.inj_mod, Z2Nat.id by lia; apply D|done|done].
      destruct (decide (n = cut name)); [rewrite decide_True by done|rewrite decide_False by (by intros [])]; done.
Qed.

(** C8: [dirlookup] is the lookup in the map a directory stands for.  If the name
    (up to its NUL, at most 14 bytes) has no live entry it returns nothing; if
    it has one it returns the offset of the first such entry and the entry
    of the inode table for its inode, which has one more reference, or which is a
    free one made the inode's; [iget] panics only when neither exists.  The
    directory, the transaction and the rest of the table stay the same. *)
Theorem dirlookup_finds s0 s l dp ip t name :
  let c := contents (t_view t) ip in
  readable s0 s l dp ip t → dir_ok ip t → Forall is_byte name → length l = NINODE →
  match dlookup c (cut name) with
  | None => ∃ s', dirlookup dp name s = Ok None s' ∧ readable s0 s' l dp ip t
  | Some inum =>
      match iget_slot l ROOTDEV inum with
      | Some (j, q) => ∃ s' k de, dirlookup dp name s = Ok (Some (j, 16 * Z.of_nat k)) s' ∧
          dents c !! k = Some de ∧ dname de = cut name ∧ de_inum de = inum ∧
          tx (with_k_inodes (<[j := q]> l) s0) s' [] t
      | None => dirlookup dp name s = Panic "iget: no inodes"
      end
  end.
Proof.
  intros c R D Hname Hl. pose proof (dirlookup_ok s0 l dp ip t s name R D Hname Hl) as H. fold c in H. unfold dlookup.
  destruct (list_find (names (cut name)) (dents c)) as [[k de]|] eqn:Hf; [|exact H]. cbn [fmap option_fmap option_map snd].
  apply list_find_Some in Hf as (Hk & [_ Hn] & _). destruct (iget_slot l ROOTDEV (de_inum de)) as [[j q]|]; [|exact H].
  destruct H as (s' & E & T). by exists s', k, de.
Qed.

(** C7: [dirlink] adds one binding to the map a directory stands for.  A name
    that is bound already gives -1, and the entries of the inode table in use
    are as before.  Otherwise [dirlink] returns 0 and the directory binds the name
    to [inum] and every other name as before; or it returns -1, because the
    directory has its maximal size or every block of the disk is in use, and
    binds what it did.  It stays a well-formed directory, and other files
    keep their contents. *)
Theorem dirlink_binds s0 s l dp ip t name inum :
  let c := contents (t_view t) ip in
  opened s0 s l dp ip t → solid (t_view t) ip → dir_ok ip t → Forall is_byte name → length l = NINODE → refs_ok l →
  (load (k_sb s0) (t_view t) ip t + 2 < NBUF)%nat → (length (t_bs t) < NBUF)%nat → 0 < inum < 65536 →
  match dlookup c (cut name) with
  | Some old => iget_slot l ROOTDEV old ≠ None →
      ∃ s' l', dirlink dp name inum s = Ok (-1) s' ∧ tx (with_k_inodes l' s0) s' [] t ∧ same_table l l'
  | None => ∃ r s' t' ip' full, dirlink dp name inum s = Ok r s' ∧ (r = 0 ∨ r = -1) ∧
      opened (said full s0) s' (<[dp := ip']> l) dp ip' t' ∧ solid (t_view t') ip' ∧ dir_ok ip' t' ∧
      (∀ n, dlookup (contents (t_view t') ip') n = if decide (r = 0 ∧ n = cut name) then Some inum else dlookup c n) ∧
      (r = -1 → MAXFILE * BSIZE < 16 * Z.of_nat (dfree c) + 16 ∨
         ∀ y, 0 <= y < sb_size (k_sb s0) → in_use (k_sb s0) (t_view t') y = true) ∧
      ∀ jp, file_ok (k_sb s0) (t_view t) jp → (∀ b, owns (t_view t) jp b → ¬ owns (t_view t) ip b) →
        contents (t_view t') jp = contents (t_view t) jp
  end.
Proof.
  intros c O So D Hname Hl Hrefs Hload Hroom Hinum. pose proof (opened_readable _ _ _ _ _ _ O So Hroom) as R.
  destruct (dlookup c (cut name)) as [old|] eqn:Hlk.
  - intros Hslot. pose proof (dirlookup_ok s0 l dp ip t s name R D Hname Hl) as H. fold c in H. unfold dlookup in Hlk.
    destruct (list_find (names (cut name)) (dents c)) as [[k de]|]; [|done]. injection Hlk as <-.
    destruct (iget_slot l ROOTDEV _) as [[j q]|] eqn:Hs; [|done]. destruct H as (s1 & E1 & T1).
    destruct (iget_iput l _ _ j q s0 s1 t Hrefs Hs T1) as (s2 & l' & E2 & T2 & Hsame).
    exists s2, l'. split_and!; [|done|done]. unfold dirlink. by rewrite (bind_Ok _ _ _ _ _ E1), (bind_Ok _ _ _ _ _ E2).
  - pose proof (dirlink_writes s0 s l dp ip t name inum O So D Hname Hl Hload Hroom Hlk) as H. fold c in H.
    destruct (Z.ltb_spec (MAXFILE * BSIZE) (16 * Z.of_nat (dfree c) + 16)) as [Hbig|Hfit].
    + destruct H as (s' & E & O'). exists (-1), s', t, ip, false. rewrite list_insert_id by apply O.
      split_and!; try done; [by right|by left].
    + destruct H as (full & s' & t' & ip' & E & W). exists (if full then -1 else 0), s', t', ip', full.
      destruct (wrote_dir _ _ _ _ _ _ _ _ _ _ _ _ O D Hinum Hlk Hname W) as [D' Hd].
      split_and!; [exact E|destruct full; auto|apply W|apply W|exact D'|exact Hd| |apply W].
      intros Hr. right. destruct full; [|done]. by apply W.
Qed.
End fsdir2.

(** ** A concrete directory: two empty entries in block 70 *)
Definition demo_dir : inode := with_i_type T_DIR (demo_file 32).
Definition demo_table : list inode := demo_dir :: replicate 49 (mk_inode 0 0 0 0 0 0 0 0 0 []).
Definition demo_name : list Z := str "README".

Lemma demo_dir_file V : in_use demo_sb V 70 = true → in_use demo_sb V 71 = true → file_ok demo_sb V demo_dir.
Proof.
  intros H70 H71. destruct (demo_file_ok V 32 ltac:(lia) H70 H71) as [[I1 I2 I3 I4 I5 I6 I7] F2 F3 F4 F5 F6].
  split; [split; [cbn; unfold T_DIR; lia|exact I2|exact I3|exact I4|exact I5|exact I6|exact I7]|exact F2|exact F3|exact F4|exact F5|exact F6].
Qed.
Lemma demo_dir_ok : dir_ok demo_dir (fs_demo_tx demo_used).
Proof.
  split; [reflexivity|reflexivity|]. assert (contents (t_view (fs_demo_tx demo_used)) demo_dir = replicate 32 0) as -> by (vm_compute; reflexivity).
  apply Forall_replicate. unfold is_byte. lia.
Qed.
Lemma demo_name_byte : Forall is_byte demo_name.
Proof. repeat constructor; unfold is_byte; cbn; lia. Qed.
Lemma demo_dir_opened : opened (P := emu) (fs_demo demo_used) (with_k_inodes demo_table (fs_demo demo_used)) demo_table 0 demo_dir (fs_demo_tx demo_used).
Proof.
  destruct (demo_opened 32 ltac:(lia)) as [_ _ O3 O4 _ O6 O7].
  split; [apply tx_inodes, demo_tx; reflexivity|reflexivity|exact O3|exact O4|apply demo_dir_file; reflexivity|exact O6|exact O7].
Qed.

Lemma dirlookup_finds_witness :
  ∃ s', dirlookup (P := emu) 0 demo_name (with_k_inodes demo_table (fs_demo demo_used)) = Ok None s'.
Proof.
  pose proof (dirlookup_finds (P := emu) (fs_demo demo_used) (with_k_inodes demo_table (fs_demo demo_used)) demo_table 0 demo_dir
    (fs_demo_tx demo_used) demo_name) as H. cbv zeta in H.
  assert (dlookup (contents (t_view (fs_demo_tx demo_used)) demo_dir) (cut demo_name) = None) as E by (vm_compute; reflexivity).
  rewrite E in H. destruct H as (s' & Es & _); [|exact demo_dir_ok|exact demo_name_byte|reflexivity|exists s'; exact Es].
  apply opened_readable; [exact demo_dir_opened|apply demo_solid; lia|apply Nat.ltb_lt; reflexivity].
Defined.

Lemma dirlink_binds_witness :
  ∃ r s' t' ip', dirlink (P := emu) 0 demo_name 7 (with_k_inodes demo_table (fs_demo demo_used)) = Ok r s' ∧
    dlookup (contents (t_view t') ip') (cut demo_name) = if decide (r = 0) then Some 7 else None.
Proof.
  pose proof (dirlink_binds (P := emu) (fs_demo demo_used) (with_k_inodes demo_table (fs_demo demo_used)) demo_table 0 demo_dir
    (fs_demo_tx demo_used) demo_name 7) as H. cbv zeta in H.
  assert (dlookup (contents (t_view (fs_demo_tx demo_used)) demo_dir) (cut demo_name) = None) as E by (vm_compute; reflexivity).
  rewrite E in H.
  destruct H as (r & s' & t' & ip' & full & Er & _ & _ & _ & _ & Hd & _).
  - exact demo_dir_opened.
  - apply demo_solid. lia.
  - exact demo_dir_ok.
  - exact demo_name_byte.
  - reflexivity.
  - unfold refs_ok. apply Forall_forall. intros q Hq. apply elem_of_cons in Hq as [->|Hq]; [cbn; lia|].
    apply elem_of_replicate_inv in Hq. subst q. cbn. lia.
  - apply Nat.ltb_lt. reflexivity.
  - apply Nat.ltb_lt. reflexivity.
  - lia.
  - exists r, s', t', ip'. split; [exact Er|]. rewrite (Hd (cut demo_name)), E.
    destruct (decide (r = 0)) as [->|Hn].
    + rewrite decide_True by (split; reflexivity). reflexivity.
    + rewrite decide_False by (intros [X _]; exact (Hn X)). reflexivity.
Defined.
