(* ===== verification/FsPath.v ===== *)
(** * Paths of kernel/fs.c

    The files of the disk form a graph: an inode number stands for the inode in
    its slot of the inode blocks, and a directory for its map from names to
    inode numbers.  [follow] follows a list of names in that graph; [namex] is
    [follow] on the elements of a path, and adjusts the reference counts of the inode
    table by exactly the reference it returns. *)

From S2P Require Import Prelude Machine State CString Spinlock Printf Emu Kalloc Vm VmSpec VmUser VmCopy Sched Bytes Bio BioSpec Cache Log LogImg LogSpec LogThms Tx Console Pipe Fs FsBlock FsInode FsFile FsRead FsWrite FsDir.

(** ** The elements of a path *)
(** The pieces between slashes, without the empty ones; [cur] is the piece so far. *)
Fixpoint pieces (cur p : list Z) : list (list Z) :=
  match p with
  | [] => match cur with [] => [] | _ => [cur] end
  | c :: p' =>
      if c =? 47 then match cur with [] => pieces [] p' | _ => cur :: pieces [] p' end
      else pieces (cur ++ [c]) p'
  end.
Definition elems (p : list Z) : list (list Z) := pieces [] p.

Lemma elems_slashes p : elems (skip_slashes p) = elems p.
Proof. induction p as [|c p IH]; [done|]. cbn. destruct (c =? 47) eqn:E; [exact IH|]. unfold elems. cbn. by rewrite E. Qed.
Lemma skip_slashes_head p c q : skip_slashes p = c :: q → c ≠ 47.
Proof. induction p as [|d p IH]; cbn; [done|]. destruct (Z.eqb_spec d 47); [done|]. by intros [= <- _]. Qed.
Lemma skip_slashes_nil p : skip_slashes p = [] ↔ elems p = [].
Proof.
  rewrite <- elems_slashes. split; [by intros ->|]. destruct (skip_slashes p) as [|c q] eqn:E; [done|].
  apply skip_slashes_head in E. unfold elems. cbn. rewrite (proj2 (Z.eqb_neq _ _)) by done. cbn.
  assert (∀ q cur, cur ≠ [] → pieces cur q ≠ []) as H; [|intros Hn; by apply H in Hn].
  clear. induction q as [|d q IH]; intros cur Hc; cbn; [by destruct cur|].
  destruct (d =? 47); [by destruct cur|]. apply IH. by destruct cur.
Qed.
Lemma skip_slashes_nil_self p : skip_slashes p = [] ↔ elems (skip_slashes p) = [].
Proof. rewrite elems_slashes. apply skip_slashes_nil. Qed.
Lemma pieces_take p : ∀ cur, cur ≠ [] → pieces cur p = (cur ++ (take_elem p).1) :: elems (take_elem p).2.
Proof.
  induction p as [|c p IH]; intros cur Hc; cbn [pieces take_elem]; [rewrite app_nil_r; by destruct cur|].
  destruct (c =? 47) eqn:E.
  - cbn. rewrite app_nil_r. unfold elems. cbn. rewrite E. by destruct cur.
  - rewrite IH by (by destruct cur). destruct (take_elem p) as [e r]. cbn. by rewrite <- app_assoc.
Qed.
Lemma length_skip_slashes p : (length (skip_slashes p) <= length p)%nat.
Proof. induction p as [|c p IH]; cbn; [lia|]. destruct (c =? 47); cbn; lia. Qed.
Lemma take_elem_split p : p = (take_elem p).1 ++ (take_elem p).2.
Proof. induction p as [|c p IH]; cbn; [done|]. destruct (c =? 47); [done|]. destruct (take_elem p). cbn in *. by rewrite IH at 1. Qed.

(** A path is bytes without NUL. *)
Definition path_ok (p : list Z) : Prop := Forall (λ c, 0 < c < 256) p.
Lemma path_ok_slashes p : path_ok p → path_ok (skip_slashes p).
Proof. induction p as [|c p IH]; cbn; [done|]. intros H. destruct (c =? 47); [|done]. apply Forall_cons in H as [_ H]. by apply IH. Qed.

Lemma cut_app s r : Forall (λ c, 0 < c < 256) s → (length s < DIRSIZ)%nat → cut (s ++ 0 :: r) = s.
Proof.
  intros Hs. unfold cut.
  assert (∀ n a, (length s < n)%nat → cstrn n (chars (a ++ s ++ 0 :: r)) (Z.of_nat (length a)) = s) as H; [|intros Hl; apply (H DIRSIZ [] Hl)].
  induction Hs as [|c s Hc _ IH]; intros [|n] a Hl; cbn in Hl; try lia; cbn [cstrn].
  - unfold chars at 1. rewrite Nat2Z.id. cbn [app]. rewrite app_nth2, Nat.sub_diag by lia. done.
  - assert (chars (a ++ (c :: s) ++ 0 :: r) (Z.of_nat (length a)) = c) as ->.
    { unfold chars. rewrite Nat2Z.id. rewrite app_nth2, Nat.sub_diag by lia. done. }
    rewrite (proj2 (Z.eqb_neq c 0)) by lia. f_equal. specialize (IH n (a ++ [c]) ltac:(lia)).
    rewrite length_app, <- app_assoc in IH. cbn in IH. by replace (Z.of_nat (length a) + 1) with (Z.of_nat (length a + 1)) by lia.
Qed.
Lemma cut_short s : Forall (λ c, 0 < c < 256) s → (length s < DIRSIZ)%nat → cut s = s.
Proof.
  intros Hs Hl. unfold cut. pose proof (cstrn_rd_app DIRSIZ s 0 ltac:(lia)) as H. cbn [Z.to_nat drop] in H.
  rewrite drop_0 in H. specialize (H ltac:(eapply Forall_impl; [exact Hs|cbn; lia]) ltac:(lia) 0%nat). cbn [replicate] in H. by rewrite app_nil_r in H.
Qed.
Lemma cut_take s : cut (take DIRSIZ s) = cut s.
Proof.
  unfold cut. apply cstrn_ext. intros k Hk. unfold chars. rewrite <- (take_drop DIRSIZ s) at 2.
  destruct (decide (Z.to_nat (0 + k) < length (take DIRSIZ s))%nat) as [Hl|Hl]; [by rewrite app_nth1|].
  rewrite length_take in Hl. rewrite drop_ge, app_nil_r by lia. done.
Qed.

(** [skipelem] takes one element. *)
Lemma skipelem_ok p name :
  path_ok p → Forall is_byte name →
  match skipelem p name with
  | None => elems p = []
  | Some (p', name') => ∃ e, elems p = e :: elems p' ∧ cut name' = cut e ∧ path_ok p' ∧ Forall is_byte name' ∧
      (length p' < length p)%nat ∧ (p' = [] ↔ elems p' = [])
  end.
Proof.
  intros Hp Hname. unfold skipelem. pose proof (path_ok_slashes p Hp) as Hs. pose proof (length_skip_slashes p) as Hl.
  destruct (skip_slashes p) as [|c q] eqn:E; [by apply skip_slashes_nil|]. pose proof (skip_slashes_head p c q E) as Hc.
  rewrite <- (elems_slashes p), E. cbn [take_elem]. rewrite (proj2 (Z.eqb_neq c 47)) by done.
  assert (elems (c :: q) = (c :: (take_elem q).1) :: elems (take_elem q).2) as ->.
  { unfold elems at 1. cbn [pieces]. rewrite (proj2 (Z.eqb_neq c 47)) by done. by rewrite pieces_take by done. }
  pose proof (take_elem_split q) as Eq. destruct (take_elem q) as [e r]. cbn [fst snd] in *. subst q.
  assert (Forall (λ x, 0 < x < 256) (c :: e) ∧ path_ok r) as [He Hr].
  { apply Forall_cons in Hs as [Hc' Hs]. apply Forall_app in Hs as [He Hr]. split; [by apply Forall_cons|done]. }
  exists (c :: e). split_and!; [by rewrite elems_slashes| |by apply path_ok_slashes| | |apply skip_slashes_nil_self].
  - destruct (Nat.leb_spec DIRSIZ (length (c :: e))); [apply cut_take|]. unfold put_at.
    rewrite take_0, app_nil_l, <- (app_assoc (c :: e)), (cut_short (c :: e)) by done. by apply cut_app.
  - assert (Forall is_byte (c :: e)) as Hb by (eapply Forall_impl; [exact He|unfold is_byte; cbn; lia]).
    destruct (DIRSIZ <=? length (c :: e))%nat; [by apply Forall_take|]. unfold put_at. apply Forall_app. split; [done|].
    apply Forall_app. split; [|by apply Forall_drop]. apply Forall_app. split; [done|]. repeat constructor; unfold is_byte; lia.
  - pose proof (length_skip_slashes r). cbn in Hl. rewrite length_app in Hl. lia.
Qed.

(** ** The graph of files *)
(** The inode in its slot of the inode blocks. *)
Definition dinode (sb : superblock) (V : Z → list Z) (n : Z) : inode :=
  load_dinode (dip_off n) (V (IBLOCK n sb)) (mk_inode ROOTDEV n 1 1 0 0 0 0 0 []).
Definition allocated (sb : superblock) (V : Z → list Z) (n : Z) : Prop :=
  0 < n < sb_ninodes sb ∧ i_type (dinode sb V n) ≠ 0.
(** Follow the names [es] from inode [n]; with [parent], up to the last one. *)
Fixpoint follow (sb : superblock) (V : Z → list Z) (parent : bool) (n : Z) (es : list (list Z)) : option Z :=
  match es with
  | [] => if parent then None else Some n
  | e :: es' =>
      if i_type (dinode sb V n) =? T_DIR then
        if parent && bool_decide (es' = []) then Some n else
        match dlookup (contents V (dinode sb V n)) (cut e) with
        | Some n' => follow sb V parent n' es'
        | None => None
        end
      else None
  end.

(** Every allocated inode is a well-formed file that some directory names, and
    the directories name allocated inodes. *)
Record fs_ok (sb : superblock) (V : Z → list Z) : Prop := {
  fs_file : ∀ n, allocated sb V n → file_ok sb V (dinode sb V n) ∧ solid V (dinode sb V n) ∧ i_nlink (dinode sb V n) ≠ 0;
  fs_dir : ∀ n, allocated sb V n → i_type (dinode sb V n) = T_DIR →
    i_size (dinode sb V n) mod 16 = 0 ∧ Forall is_byte (contents V (dinode sb V n)) ∧
    ∀ e n', dlookup (contents V (dinode sb V n)) e = Some n' → allocated sb V n' }.

(** A table entry that holds what is on the disk. *)
Definition loaded (sb : superblock) (V : Z → list Z) (q : inode) : Prop :=
  q = with_i_valid (i_valid q) (with_i_ref (i_ref q) (dinode sb V (i_inum q))).
Lemma loaded_load sb V q r v :
  i_dev q = ROOTDEV → loaded sb V (with_i_valid v (with_i_ref r (load_dinode (dip_off (i_inum q)) (V (IBLOCK (i_inum q) sb)) q))).
Proof. intros Hd. unfold loaded, dinode. cbn. unfold load_dinode. cbn. by rewrite Hd. Qed.
Lemma loaded_ref sb V q r : loaded sb V q → loaded sb V (with_i_ref r q).
Proof. unfold loaded. intros E. etrans; [exact (f_equal (with_i_ref r) E)|reflexivity]. Qed.
Lemma loaded_file sb V q :
  loaded sb V q → file_ok sb V (dinode sb V (i_inum q)) → solid V (dinode sb V (i_inum q)) → file_ok sb V q ∧ solid V q.
Proof. intros -> [[I1 I2 I3 I4 I5 I6 I7] F2 F3 F4 F5 F6] So. split; [|exact So]. split; [|done..]. by split. Qed.
Lemma loaded_fields sb V q : loaded sb V q →
  i_type q = i_type (dinode sb V (i_inum q)) ∧ i_nlink q = i_nlink (dinode sb V (i_inum q)) ∧
  i_size q = i_size (dinode sb V (i_inum q)) ∧ contents V q = contents V (dinode sb V (i_inum q)).
Proof. intros ->. done. Qed.

(** ** Counting in the inode table *)
Definition lsum (f : inode → Z) (l : list inode) : Z := foldr (λ q a, f q + a) 0 l.
Lemma lsum_insert f l i q q' : l !! i = Some q → lsum f (<[i := q']> l) = lsum f l - f q + f q'.
Proof.
  revert i. induction l as [|a l IH]; intros [|i]; [done|done|intros [= <-]; cbn; lia|]. intros Hi.
  change (f a + lsum f (<[i := q']> l) = f a + lsum f l - f q + f q'). rewrite (IH i Hi). lia.
Qed.
Lemma lsum_ge f l i q : (∀ x, x ∈ l → 0 <= f x) → l !! i = Some q → f q <= lsum f l.
Proof.
  revert i. induction l as [|a l IH]; intros [|i] Hf; cbn; [done|done|intros [= <-]|intros Hi].
  - assert (0 <= lsum f l) as Hp; [|unfold lsum in Hp; lia]. assert (∀ x, x ∈ l → 0 <= f x) as Hl by (intros; apply Hf; by right).
    clear -Hl. induction l as [|b l IH]; cbn; [lia|]. pose proof (Hl b ltac:(by left)).
    specialize (IH ltac:(intros; apply Hl; by right)). unfold lsum in IH. lia.
  - pose proof (Hf a ltac:(by left)). specialize (IH i ltac:(intros; apply Hf; by right) Hi). unfold lsum in IH. lia.
Qed.
(** The references to inode [m], and the free entries. *)
Definition weight (m : Z) (q : inode) : Z := if i_inum q =? m then i_ref q else 0.
Definition tref (l : list inode) (m : Z) : Z := lsum (weight m) l.
Definition isfree (q : inode) : Z := if i_ref q =? 0 then 1 else 0.
Definition nfree (l : list inode) : Z := lsum isfree l.
Definition one (b : bool) : Z := if b then 1 else 0.
Lemma one_range b : 0 <= one b <= 1.
Proof. destruct b; cbn; lia. Qed.

Lemma nfree_find l : 1 <= nfree l → ∃ x, list_find (λ q, i_ref q = 0) l = Some x.
Proof.
  induction l as [|q l IH]; cbn; [lia|]. intros H. destruct (decide (i_ref q = 0)) as [E|E]; [by eexists|].
  unfold isfree in H at 1. rewrite (proj2 (Z.eqb_neq _ _)) in H by done. destruct IH as [x ->]; [unfold nfree, lsum; lia|]. by eexists.
Qed.

(** ** The table as a walk finds it *)
Record ientry_ok (sb : superblock) (V : Z → list Z) (q : inode) : Prop := {
  en_ref : 0 <= i_ref q;
  en_used : 0 < i_ref q → i_dev q = ROOTDEV ∧ allocated sb V (i_inum q) ∧ (i_valid q ≠ 0 → loaded sb V q) }.
Definition table_ok (sb : superblock) (V : Z → list Z) (l : list inode) : Prop := ∀ i q, l !! i = Some q → ientry_ok sb V q.

Lemma table_insert sb V l i q : table_ok sb V l → ientry_ok sb V q → table_ok sb V (<[i := q]> l).
Proof.
  intros Hl Hq j p Hj. destruct (decide (i = j)) as [->|Hne]; [|rewrite list_lookup_insert_ne in Hj by done; by eapply Hl].
  destruct (decide (j < length l)%nat) as [Hlt|Hge]; [rewrite list_lookup_insert_eq in Hj by done; by injection Hj as <-|].
  rewrite list_insert_ge in Hj by lia. by eapply Hl.
Qed.
Lemma ref_bound sb V l i q : table_ok sb V l → l !! i = Some q → i_ref q <= tref l (i_inum q).
Proof.
  intros Hl Hi. pose proof (lsum_ge (weight (i_inum q)) l i q) as H. unfold weight in H at 2. rewrite Z.eqb_refl in H.
  apply H; [|done]. intros x [j Hj]%list_elem_of_lookup. pose proof (en_ref _ _ _ (Hl j x Hj)). unfold weight. case_match; lia.
Qed.

(** [iget] adds one reference to the inode. *)
Lemma iget_slot_ok sb V l n :
  table_ok sb V l → 1 <= nfree l → allocated sb V n → tref l n < 2147483647 →
  ∃ j q0 q, iget_slot l ROOTDEV n = Some (j, q) ∧ l !! j = Some q0 ∧ ientry_ok sb V q ∧ i_inum q = n ∧
    i_ref q = i_ref q0 + 1 ∧ (0 < i_ref q0 → i_inum q0 = n).
Proof.
  intros Hl Hf Ha Hb. unfold iget_slot. destruct (list_find (is_entry ROOTDEV n) l) as [[j q]|] eqn:E.
  - apply list_find_Some in E as (Hj & (Hr & Hd & Hn) & _). exists j, q. eexists. split; [done|].
    pose proof (Hl j q Hj) as [_ Hu]. pose proof (ref_bound _ _ _ _ _ Hl Hj) as Hrb. rewrite Hn in Hrb.
    assert (i32 (i_ref q + 1) = i_ref q + 1) as -> by (unfold i32; rewrite u32_small; lia). cbn. split_and!; try done.
    split; cbn; [lia|]. intros _. destruct (Hu Hr) as (H1 & H2 & H3). split_and!; [done|done|]. intros Hv. by apply loaded_ref, H3.
  - destruct (nfree_find l Hf) as [[j q] E']. rewrite E'. apply list_find_Some in E' as (Hj & H0 & _).
    exists j, q. eexists. split; [done|]. cbn. split_and!; [done| |done|lia|lia]. split; cbn; [lia|]. intros _. by split_and!.
Qed.

(** ** Locking an entry *)
Section walk.
Context `{P : Platform} {HP : PlatformOk P}.

Lemma tx_woken ch s0 s H t : tx s0 s H t → tx s0 (woken ch s) H t.
Proof.
  intros [[[l [B1 B2 B3 B4 B5 B6 B7 B8]] C2 C3 C4 C5 C6 C7] T2 T3 T4 T5 T6 T7 [[F1 F3] F2]].
  pose proof (woken_same ch s) as Hs. split; try done; [split; try done|split; [split; [by eapply same_ctx_trans|done]|]].
  - exists l. split; try done; [by apply (calm_same s)|]. intros i Hi. destruct (B7 i Hi) as (G1 & G2 & G3 & G4).
    split_and!; try done. change (slock_at (woken ch s) (SlBuf i)) with (slock_at s (SlBuf i)). rewrite G3.
    unfold cur_pid. destruct Hs as (_ & E & _ & _ & Hp). rewrite E. destruct (c_proc (k_cpu s)) as [j|]; [|done]. cbn. by rewrite <- Hp.
  - exact (f_equal (with_k_procs (wake ch (c_proc (k_cpu s)) (k_procs s))) F2).
Qed.

Record wstate (s0 s : kstate) (l : list inode) (t : txst) : Prop := {
  w_tx : tx (with_k_inodes l s0) s [] t;
  w_lay : layout (k_sb s0) (t_start t);
  w_fs : fs_ok (k_sb s0) (t_view t);
  w_len : length l = NINODE;
  w_tab : table_ok (k_sb s0) (t_view t) l;
  w_free : ∀ i, sl_locked (slock_at s0 (SlInode i)) = 0;
  w_room : (length (t_bs t) < NBUF)%nat }.

(** Entry [i] is locked by the running process and holds what is on the disk. *)
Record locked (s0 s : kstate) (l : list inode) (t : txst) (i : nat) (q : inode) : Prop := {
  lo_tx : ∃ v, tx (with_k_inodes l (set_sl (SlInode i) v s0)) s [] t ∧ sl_locked v = 1 ∧ sl_pid v = cur_pid s;
  lo_ino : l !! i = Some q;
  lo_ref : 0 < i_ref q;
  lo_load : loaded (k_sb s0) (t_view t) q;
  lo_tab : table_ok (k_sb s0) (t_view t) l;
  lo_len : length l = NINODE }.

Lemma cur_pid_frame s0 s H t : tx s0 s H t → cur_pid s = cur_pid s0.
Proof.
  intros T. destruct (frame_ctx _ _ (tx_frame _ _ _ _ T)) as (_ & E & _ & _ & Hp). unfold cur_pid. rewrite E.
  destruct (c_proc (k_cpu s0)) as [j|]; [|done]. cbn. by rewrite Hp.
Qed.

Lemma ilock_w s0 s l t i q :
  wstate s0 s l t → l !! i = Some q → 0 < i_ref q →
  ∃ s' q', ilock (Some i) s = Ok tt s' ∧ locked s0 s' (<[i := q']> l) t i q' ∧ i_ref q' = i_ref q ∧ i_inum q' = i_inum q.
Proof.
  intros [T La Fs Hl Tab Fr Ro] Hi Hr. pose proof (lookup_lt_Some _ _ _ Hi) as Hlt. pose proof Hlt as Hlt'. rewrite Hl in Hlt'.
  destruct (en_used _ _ _ (Tab i q Hi) Hr) as (Hd & Ha & Hv).
  assert (slock_at s (SlInode i) = slock_at s0 (SlInode i)) as Esl by (rewrite (frame_slock _ _ i (tx_frame _ _ _ _ T)); done).
  set (v := mk_sleeplock 1 (sl_name (slock_at s (SlInode i))) (cur_pid s)).
  destruct (decide (i_valid q = 0)) as [H0|H0].
  - pose proof (layout_iblock _ _ (i_inum q) La ltac:(destruct Ha; lia)) as Hib. pose proof (layout_order _ _ La).
    pose proof (ilock_load (with_k_inodes l s0) s t i q T Hi Hlt' Hd ltac:(lia) H0) as HL. cbv zeta in HL.
    specialize (HL ltac:(by rewrite Esl)). change (k_sb (with_k_inodes l s0)) with (k_sb s0) in HL.
    specialize (HL ltac:(apply (layout_home (k_sb s0) (t_start t)); [done|lia]) Ro).
    set (q1 := load_dinode _ _ q) in HL. assert (i_type q1 = i_type (dinode (k_sb s0) (t_view t) (i_inum q))) as Et by done.
    rewrite (proj2 (Z.eqb_neq (i_type q1) 0)) in HL by (rewrite Et; apply Ha). destruct HL as (s' & E & T').
    fold v in T'. change (k_inodes (with_k_inodes l s0)) with l in T'.
    assert (loaded (k_sb s0) (t_view t) (with_i_valid 1 q1)) as Hlo by (exact (loaded_load _ _ q (i_ref q) 1 Hd)).
    exists s', (with_i_valid 1 q1). split_and!; [exact E| |done|done]. split; [|by apply list_lookup_insert_eq|done|done| |by rewrite length_insert].
    + exists v. split_and!; [exact T'|done|]. cbn. rewrite (cur_pid_frame _ _ _ _ T), (cur_pid_frame _ _ _ _ T'). done.
    + apply table_insert; [done|]. split; [cbn; lia|]. intros _. by split_and!.
  - exists (set_sl (SlInode i) v s), q. pose proof (tx_set_sl i v _ _ _ _ T) as T'. split_and!; [| |done|done].
    + unfold ilock. rewrite (get_inode_ok s i q) by (by eapply tx_inode). rewrite (proj2 (Z.ltb_ge _ _)) by lia.
      rewrite (bind_Ok _ _ _ _ _ (acquiresleep_free (SlInode i) s (tx_calm _ _ _ _ T) Hlt' ltac:(by rewrite Esl))). fold v.
      rewrite (get_inode_ok _ i q) by (by eapply (tx_inode _ _ _ _ _ _ T')). by rewrite (proj2 (Z.eqb_neq _ _)) by done.
    + rewrite list_insert_id by done. split; [|done|done|by apply Hv|done|done]. exists v. split_and!; [exact T'|done|done].
Qed.

Lemma iunlock_w s0 s l t i q :
  locked s0 s l t i q →
  ∃ s' v, iunlock (Some i) s = Ok tt s' ∧ tx (with_k_inodes l (set_sl (SlInode i) v s0)) s' [] t ∧ sl_locked v = 0.
Proof.
  intros [(v & T & Hv1 & Hv2) Hi Hr Hlo Tab Hl]. pose proof (lookup_lt_Some _ _ _ Hi) as Hlt. rewrite Hl in Hlt.
  pose proof (tx_calm _ _ _ _ T) as Hc.
  assert (slock_at s (SlInode i) = v) as Esl.
  { rewrite (frame_slock _ _ i (tx_frame _ _ _ _ T)). change (slock_at (with_k_inodes l ?x) ?y) with (slock_at x y). apply slock_at_set. }
  unfold iunlock. rewrite (bind_Ok _ _ _ _ _ (holdingsleep_calm (SlInode i) s Hc Hlt)). rewrite Esl, Hv1, Hv2, Z.eqb_refl.
  rewrite (get_inode_ok s i q) by (by eapply tx_inode). rewrite (proj2 (Z.ltb_ge _ _)) by lia. cbn [Z.eqb negb andb orb].
  rewrite (releasesleep_calm (SlInode i) s Hc Hlt). set (v' := mk_sleeplock 0 _ 0).
  eexists _, v'. split_and!; [done| |done]. apply tx_woken. pose proof (tx_set_sl i v' _ _ _ _ T) as T'.
  replace (with_k_inodes l (set_sl (SlInode i) v' s0)) with (set_sl (SlInode i) v' (with_k_inodes l (set_sl (SlInode i) v s0))); [exact T'|].
  change (with_k_inodes l (set_sl (SlInode i) v' s0)) with (set_sl (SlInode i) v' (with_k_inodes l s0)).
  change (with_k_inodes l (set_sl (SlInode i) v s0)) with (set_sl (SlInode i) v (with_k_inodes l s0)). apply set_sl_twice.
Qed.

(** What does not change during a walk. *)
Record calm_fs (s0 : kstate) (t : txst) : Prop := {
  cf_lay : layout (k_sb s0) (t_start t);
  cf_fs : fs_ok (k_sb s0) (t_view t);
  cf_free : ∀ i, sl_locked (slock_at s0 (SlInode i)) = 0;
  cf_room : (length (t_bs t) < NBUF)%nat }.
Lemma wstate_calm s0 s l t : wstate s0 s l t → calm_fs s0 t.
Proof. intros [W1 W2 W3 W4 W5 W6 W7]. by split. Qed.
Lemma calm_set_sl s0 t i v : calm_fs s0 t → sl_locked v = 0 → calm_fs (set_sl (SlInode i) v s0) t.
Proof.
  intros [C1 C2 C3 C4] Hv. split; try done. intros j. destruct (decide (i = j)) as [->|Hne]; [by rewrite slock_at_set|].
  rewrite slock_at_set_ne; [done|congruence].
Qed.

Lemma iunlock_wstate s0 s l t i q :
  calm_fs s0 t → locked s0 s l t i q →
  ∃ s' s0', iunlock (Some i) s = Ok tt s' ∧ wstate s0' s' l t ∧ k_sb s0' = k_sb s0.
Proof.
  intros C Lo. destruct (iunlock_w _ _ _ _ _ _ Lo) as (s' & v & E & T & Hv).
  destruct (calm_set_sl s0 t i v C Hv) as [C1 C2 C3 C4]. exists s', (set_sl (SlInode i) v s0).
  split_and!; [done|split; try done; apply Lo|done].
Qed.

(** [iput] of an entry of a named file only drops the reference. *)
Definition dec_ref (q : inode) : inode := with_i_ref (i_ref q - 1) q.
Lemma entry_dec sb V q : ientry_ok sb V q → 0 < i_ref q → ientry_ok sb V (dec_ref q).
Proof.
  intros [E1 E2] Hr. destruct (E2 Hr) as (Hd & Ha & Hv). split; cbn; [lia|]. intros _. split_and!; [done|done|].
  intros H0. by apply loaded_ref, Hv.
Qed.
Lemma iput_w s0 s l t i q :
  wstate s0 s l t → l !! i = Some q → 0 < i_ref q < 2147483648 →
  ∃ s', iput i s = Ok tt s' ∧ wstate s0 s' (<[i := dec_ref q]> l) t.
Proof.
  intros [T La Fs Hl Tab Fr Ro] Hi Hr. destruct (en_used _ _ _ (Tab i q Hi) ltac:(lia)) as (Hd & Ha & Hv).
  destruct (iput_keeps (with_k_inodes l s0) s t i q T Hi) as (s' & E & T').
  { right. destruct (decide (i_valid q = 0)) as [|Hn]; [by left|right].
    destruct (loaded_fields _ _ _ (Hv Hn)) as (_ & -> & _). by apply (fs_file _ _ Fs). }
  assert (i32 (i_ref q - 1) = i_ref q - 1) as Ei by (unfold i32; rewrite u32_small; lia). rewrite Ei in T'.
  exists s'. split; [done|]. split; try done; [by rewrite length_insert|].
  apply table_insert; [done|]. apply entry_dec; [by eapply Tab|lia].
Qed.
Lemma iunlockput_w s0 s l t i q :
  calm_fs s0 t → locked s0 s l t i q → i_ref q < 2147483648 →
  ∃ s' s0', iunlockput i s = Ok tt s' ∧ wstate s0' s' (<[i := dec_ref q]> l) t ∧ k_sb s0' = k_sb s0.
Proof.
  intros C Lo Hr. destruct (iunlock_wstate _ _ _ _ _ _ C Lo) as (s1 & s1' & E1 & W1 & Esb).
  destruct (iput_w _ _ _ _ i q W1 (lo_ino _ _ _ _ _ _ Lo) ltac:(pose proof (lo_ref _ _ _ _ _ _ Lo); lia)) as (s2 & E2 & W2).
  exists s2, s1'. split_and!; [|done|done]. unfold iunlockput. by rewrite (bind_Ok _ _ _ _ _ E1).
Qed.

(** A locked directory is looked up. *)
Lemma dirlookup_w s0 s l t i q name :
  calm_fs s0 t → locked s0 s l t i q → i_type q = T_DIR → Forall is_byte name →
  1 <= nfree l → (∀ m, tref l m < 2147483647) →
  match dlookup (contents (t_view t) (dinode (k_sb s0) (t_view t) (i_inum q))) (cut name) with
  | None => ∃ s', dirlookup i name s = Ok None s' ∧ locked s0 s' l t i q
  | Some n => ∃ s' j off q0 qj, dirlookup i name s = Ok (Some (j, off)) s' ∧ l !! j = Some q0 ∧
      i_inum qj = n ∧ i_ref qj = i_ref q0 + 1 ∧ (0 < i_ref q0 → i_inum q0 = n) ∧
      locked s0 s' (<[j := qj]> l) t i (if decide (i = j) then qj else q)
  end.
Proof.
  intros [La Fs Fr Ro] Lo Ht Hname Hf Hb. pose proof Lo as [(v & T & Hv1 & Hv2) Hi Hr Hlo Tab Hl].
  destruct (en_used _ _ _ (Tab i q Hi) Hr) as (Hd & Ha & _). destruct (fs_file _ _ Fs _ Ha) as (Ff & So & _).
  destruct (loaded_file _ _ q Hlo Ff So) as [Fq Sq]. destruct (loaded_fields _ _ _ Hlo) as (Et & _ & Es & Ec). rewrite <- Ec.
  destruct (fs_dir _ _ Fs _ Ha) as (Dm & Db & Dn); [by rewrite <- Et|]. rewrite <- Es in Dm. rewrite <- Ec in Db, Dn.
  pose proof (dirlookup_ok (set_sl (SlInode i) v s0) l i q t s name) as H.
  specialize (H ltac:(by split) ltac:(by split) Hname Hl). unfold dlookup in *.
  destruct (list_find (names (cut name)) (dents (contents (t_view t) q))) as [[k de]|] eqn:Hfd.
  - cbn [fmap option_fmap option_map snd]. specialize (Dn (cut name)). rewrite Hfd in Dn. specialize (Dn _ eq_refl). cbn [snd] in Dn.
    destruct (iget_slot_ok _ _ l (de_inum de) Tab Hf Dn (Hb _)) as (j & q0 & qj & Eg & Hj & Eok & En & Er & Einum).
    rewrite Eg in H. destruct H as (s' & E & T'). exists s', j, (16 * Z.of_nat k), q0, qj. split_and!; try done.
    pose proof (lookup_lt_Some _ _ _ Hj). split; [| | | |by apply table_insert|by rewrite length_insert].
    + exists v. split_and!; [exact T'|done|]. rewrite Hv2, (cur_pid_frame _ _ _ _ T), (cur_pid_frame _ _ _ _ T'). done.
    + destruct (decide (i = j)) as [->|Hne]; [by apply list_lookup_insert_eq|by rewrite list_lookup_insert_ne].
    + destruct (decide (i = j)) as [->|]; [|done]. rewrite Er. pose proof (en_ref _ _ _ (Tab j q0 Hj)). lia.
    + destruct (decide (i = j)) as [->|]; [|done]. rewrite Hi in Hj. injection Hj as <-.
      pose proof Eg as Eg'. unfold iget_slot in Eg'. destruct (list_find (is_entry _ _) l) as [[j' q']|] eqn:Ef.
      * injection Eg' as -> <-. apply list_find_Some in Ef as (Hj' & _). rewrite Hi in Hj'. injection Hj' as <-. by apply loaded_ref.
      * destruct (list_find (λ q, i_ref q = 0) l) as [[j' q']|] eqn:Ef'; [|done]. injection Eg' as -> <-.
        apply list_find_Some in Ef' as (Hj' & H0 & _). rewrite Hi in Hj'. injection Hj' as <-. lia.
  - destruct H as (s' & E & R). exists s'. split; [done|]. split; try done. exists v. split_and!; [apply R|done|].
    rewrite Hv2, (cur_pid_frame _ _ _ _ T), (cur_pid_frame _ _ _ _ (rd_tx _ _ _ _ _ _ R)). done.
Qed.

(** ** [namex] *)
(** The walk is at entry [i]. *)
Record cursor (s0 s : kstate) (l : list inode) (t : txst) (i : nat) (q : inode) : Prop := {
  cu_w : wstate s0 s l t;
  cu_ino : l !! i = Some q;
  cu_ref : 0 < i_ref q;
  cu_free : 2 <= nfree l + one (i_ref q =? 1);
  cu_bound : ∀ m, tref l m <= 1073741824 + one (i_inum q =? m) }.

(** Where it ends: at inode [o], with a reference to it in the place of the one to [n0]. *)
Definition arrived (s0 : kstate) (l : list inode) (t : txst) (n0 : Z) (r : option Z) (o : option nat) (s' : kstate) : Prop :=
  ∃ s0' l', wstate s0' s' l' t ∧ k_sb s0' = k_sb s0 ∧
    match r with
    | Some n => ∃ j qj, o = Some j ∧ l' !! j = Some qj ∧ 0 < i_ref qj ∧ i_inum qj = n ∧
        ∀ m, tref l' m = tref l m - one (n0 =? m) + one (n =? m)
    | None => o = None ∧ ∀ m, tref l' m = tref l m - one (n0 =? m)
    end.

Lemma weight_dec m q : weight m (dec_ref q) = weight m q - one (i_inum q =? m).
Proof. unfold weight, dec_ref, one. cbn. case_match; lia. Qed.
Lemma weight_get m q0 q n :
  0 <= i_ref q0 → i_inum q = n → i_ref q = i_ref q0 + 1 → (0 < i_ref q0 → i_inum q0 = n) → weight m q = weight m q0 + one (n =? m).
Proof.
  intros H0 <- Hr Hn. unfold weight, one. rewrite Hr. destruct (decide (0 < i_ref q0)) as [Hp|Hp]; [rewrite Hn by done; case_match; lia|].
  assert (i_ref q0 = 0) as -> by lia. repeat case_match; lia.
Qed.
Lemma weight_same m q q' : i_ref q' = i_ref q → i_inum q' = i_inum q → weight m q' = weight m q.
Proof. intros H1 H2. unfold weight. by rewrite H1, H2. Qed.

Lemma cursor_lock s0 s l t i q :
  cursor s0 s l t i q → ∃ s1 q1, ilock (Some i) s = Ok tt s1 ∧ locked s0 s1 (<[i := q1]> l) t i q1 ∧
    i_ref q1 = i_ref q ∧ i_inum q1 = i_inum q ∧ (∀ m, tref (<[i := q1]> l) m = tref l m) ∧ nfree (<[i := q1]> l) = nfree l ∧
    i_ref q1 <= 1073741825.
Proof.
  intros [W Hi Hr Hf Hb]. destruct (ilock_w _ _ _ _ _ _ W Hi Hr) as (s1 & q1 & E & Lo & Er & En). exists s1, q1.
  assert (∀ m, tref (<[i := q1]> l) m = tref l m) as Et.
  { intros m. unfold tref. rewrite (lsum_insert _ _ _ q) by done. rewrite (weight_same m q q1) by done. lia. }
  split_and!; try done.
  - unfold nfree. rewrite (lsum_insert _ _ _ q) by done. unfold isfree. rewrite Er. lia.
  - pose proof (ref_bound _ _ _ _ _ (lo_tab _ _ _ _ _ _ Lo) (lo_ino _ _ _ _ _ _ Lo)) as H. rewrite Et, En in H.
    specialize (Hb (i_inum q)). unfold one in Hb. rewrite Z.eqb_refl in Hb. lia.
Qed.

(** Leaving the directory without a result. *)
Lemma leave s0 s l t i q :
  calm_fs s0 t → locked s0 s l t i q → i_ref q <= 1073741825 →
  ∃ s', iunlockput i s = Ok tt s' ∧ arrived s0 l t (i_inum q) None None s'.
Proof.
  intros C Lo Hr. destruct (iunlockput_w _ _ _ _ _ _ C Lo ltac:(lia)) as (s' & s0' & E & W & Esb). exists s'. split; [done|].
  exists s0', (<[i := dec_ref q]> l). split_and!; [done|done|done|]. intros m. unfold tref.
  rewrite (lsum_insert _ _ _ q) by apply Lo. rewrite weight_dec. lia.
Qed.

(** From the directory to the entry [j] it names. *)
Lemma step_to s0 s l t i q1 j q0 qj n :
  calm_fs s0 t → l !! i = Some q1 → 0 < i_ref q1 → l !! j = Some q0 → 0 <= i_ref q0 →
  i_inum qj = n → i_ref qj = i_ref q0 + 1 → (0 < i_ref q0 → i_inum q0 = n) →
  let qi := if decide (i = j) then qj else q1 in
  locked s0 s (<[j := qj]> l) t i qi → i_ref qi < 2147483648 →
  2 <= nfree l + one (i_ref q1 =? 1) → (∀ m, tref l m <= 1073741824 + one (i_inum q1 =? m)) →
  ∃ s' s0' l' qj', iunlockput i s = Ok tt s' ∧ k_sb s0' = k_sb s0 ∧ cursor s0' s' l' t j qj' ∧ i_inum qj' = n ∧
    ∀ m, tref l' m = tref l m - one (i_inum q1 =? m) + one (n =? m).
Proof.
  intros C Hi Hr1 Hj H0 En Er Einum qi Lo Hrb Hf Hb.
  destruct (iunlockput_w _ _ _ _ _ _ C Lo Hrb) as (s' & s0' & E & W & Esb). pose proof (lookup_lt_Some _ _ _ Hj) as Hlt.
  set (l' := <[i := dec_ref qi]> _) in W. set (qj' := if decide (i = j) then dec_ref qj else qj).
  pose proof (lo_ino _ _ _ _ _ _ Lo) as Hqi.
  assert (i = j → q0 = q1) as Hij by (intros ->; congruence).
  assert (l' !! j = Some qj') as Hj'.
  { unfold l', qj', qi. destruct (decide (i = j)) as [->|Hne]; [apply list_lookup_insert_eq; by rewrite length_insert|].
    rewrite list_lookup_insert_ne by done. by apply list_lookup_insert_eq. }
  assert (∀ f, lsum f l' = lsum f l - f q0 + f qj - f qi + f (dec_ref qi)) as Hsum.
  { intros f. unfold l'. rewrite (lsum_insert _ _ _ qi) by exact Hqi. rewrite (lsum_insert _ _ _ q0) by done. lia. }
  assert (∀ m, tref l' m = tref l m - one (i_inum q1 =? m) + one (n =? m)) as Htref.
  { intros m. unfold tref. rewrite Hsum, weight_dec, (weight_get m q0 qj n) by done. unfold qi.
    destruct (decide (i = j)) as [Eij|]; [|lia]. specialize (Hij Eij). subst q0. rewrite En, Einum by lia. lia. }
  assert (i_inum qj' = n) as En' by (unfold qj'; by destruct (decide (i = j))).
  exists s', s0', l', qj'. split_and!; [exact E|done| |done|done]. split; [done|done| | |].
  - unfold qj'. destruct (decide (i = j)) as [Eij|]; [specialize (Hij Eij); subst q0; cbn|]; lia.
  - unfold nfree. rewrite Hsum. fold (nfree l). unfold qi, qj', isfree, one in *. destruct (decide (i = j)) as [Eij|]; cbn [i_ref dec_ref with_i_ref].
    + specialize (Hij Eij). subst q0. repeat case_match; lia.
    + repeat case_match; lia.
  - intros m. rewrite En', Htref. specialize (Hb m). unfold one in *. repeat case_match; lia.
Qed.

Lemma arrived_trans s0 l t n0 s0' l' n1 r o s' :
  k_sb s0' = k_sb s0 → (∀ m, tref l' m = tref l m - one (n0 =? m) + one (n1 =? m)) →
  arrived s0' l' t n1 r o s' → arrived s0 l t n0 r o s'.
Proof.
  intros Esb Ht (s1 & l1 & W & Es & H). exists s1, l1. split_and!; [done|congruence|].
  destruct r as [n|].
  - destruct H as (j & qj & E & Hj & Hr & Hn & H). exists j, qj. split_and!; try done. intros m. rewrite H, Ht. lia.
  - destruct H as (E & H). split; [done|]. intros m. rewrite H, Ht. lia.
Qed.

(** The last step: no element is left. *)
Lemma namex_end (parent : bool) s0 s l t i q name :
  cursor s0 s l t i q →
  ∃ o s', (if parent then iput i;; mret (None, name) else mret (Some i, name) : KM (option nat * list Z)) s = Ok (o, name) s' ∧
    arrived s0 l t (i_inum q) (if parent then None else Some (i_inum q)) o s' ∧ (parent = true → o = None).
Proof.
  intros [W Hi Hr Hf Hb]. destruct parent.
  - pose proof (ref_bound _ _ _ _ _ (w_tab _ _ _ _ W) Hi) as Hrb. specialize (Hb (i_inum q)). unfold one in Hb.
    destruct (iput_w _ _ _ _ i q W Hi) as (s' & E & W'); [case_match; lia|]. exists None, s'. rewrite (bind_Ok _ _ _ _ _ E).
    split_and!; [done| |done]. exists s0, (<[i := dec_ref q]> l). split_and!; [done|done|done|]. intros m. unfold tref.
    rewrite (lsum_insert _ _ _ q) by done. rewrite weight_dec. lia.
  - exists (Some i), s. split_and!; [done| |done]. exists s0, l. split_and!; [done|done|]. exists i, q. split_and!; try done. intros m. lia.
Qed.

Lemma namex_loop_ok (parent : bool) : ∀ fuel path s0 s l t i q name,
  cursor s0 s l t i q → path_ok path → Forall is_byte name → (length path <= fuel)%nat →
  ∃ o name' s', namex_loop fuel i path parent name s = Ok (o, name') s' ∧
    arrived s0 l t (i_inum q) (follow (k_sb s0) (t_view t) parent (i_inum q) (elems path)) o s' ∧
    (parent = true → o ≠ None → cut name' = cut (default [] (last (elems path)))).
Proof.
  induction fuel as [|f IH]; intros path s0 s l t i q name Cu Hp Hn Hl; cbn [namex_loop];
    pose proof (skipelem_ok path name Hp Hn) as Hsk; destruct (skipelem path name) as [[path' name']|];
    try (rewrite Hsk; destruct (namex_end parent s0 s l t i q name Cu) as (o & s' & E & A & Ho); exists o, name, s';
         split_and!; [exact E|exact A|intros Hpar Hno; by destruct (Hno (Ho Hpar))]).
  { destruct Hsk as (e & _ & _ & _ & _ & Hlt & _). lia. }
  destruct Hsk as (e & Ee & Ecut & Hp' & Hn' & Hlt & Hnil). rewrite Ee. cbn [follow].
  pose proof (wstate_calm _ _ _ _ (cu_w _ _ _ _ _ _ Cu)) as C. pose proof (cu_free _ _ _ _ _ _ Cu) as Hf. pose proof (cu_bound _ _ _ _ _ _ Cu) as Hb.
  destruct (cursor_lock _ _ _ _ _ _ Cu) as (s1 & q1 & E1 & Lo & Er & En & Et & Ef & Hrb). rewrite (bind_Ok _ _ _ _ _ E1).
  assert (k_inodes s1 !! i = Some q1) as Hi1.
  { destruct (lo_tx _ _ _ _ _ _ Lo) as (v & T & _). eapply tx_inode; [exact T|]. apply Lo. }
  rewrite (get_inode_ok s1 i q1) by done. destruct (loaded_fields _ _ _ (lo_load _ _ _ _ _ _ Lo)) as (Ety & _). rewrite En in Ety.
  rewrite <- Ety. set (l1 := <[i := q1]> l) in *.
  assert (∀ r o s', arrived s0 l1 t (i_inum q1) r o s' → arrived s0 l t (i_inum q) r o s') as Harr.
  { intros r o s' H. eapply arrived_trans; [done| |exact H]. intros m. rewrite Et, En. lia. }
  assert (∃ s', iunlockput i s1 = Ok tt s' ∧ arrived s0 l t (i_inum q) None None s') as (s1' & Elv & Alv).
  { destruct (leave _ _ _ _ _ _ C Lo Hrb) as (s' & E & A). exists s'. split; [done|by apply Harr]. }
  destruct (Z.eqb_spec (i_type q1) T_DIR) as [Hdir|Hdir]; cbn [negb].
  2: { rewrite (bind_Ok _ _ _ _ _ Elv). by exists None, name', s1'. }
  assert (bool_decide (path' = []) = bool_decide (elems path' = [])) as -> by (by apply bool_decide_ext).
  destruct (parent && bool_decide (elems path' = [])) eqn:Hpar.
  { apply andb_true_iff in Hpar as [-> Hnil'%bool_decide_eq_true]. rewrite Hnil'. cbn [last default].
    destruct (iunlock_wstate _ _ _ _ _ _ C Lo) as (s2 & s0' & E2 & W2 & Esb). rewrite (bind_Ok _ _ _ _ _ E2).
    exists (Some i), name', s2. split_and!; [done| |done]. apply Harr. rewrite <- En. exists s0', l1. split_and!; [done|done|].
    exists i, q1. split_and!; [done|apply Lo|apply Lo|done|]. intros m. lia. }
  pose proof (dirlookup_w s0 s1 l1 t i q1 name' C Lo Hdir Hn') as Hd. rewrite En, Ecut in Hd.
  specialize (Hd ltac:(rewrite Ef; pose proof (one_range (i_ref q =? 1)); lia)
    ltac:(intros m; rewrite Et; specialize (Hb m); pose proof (one_range (i_inum q =? m)); lia)).
  destruct (dlookup _ (cut e)) as [n|].
  2: { destruct Hd as (s2 & E2 & Lo2). rewrite (bind_Ok _ _ _ _ _ E2). destruct (leave _ _ _ _ _ _ C Lo2 Hrb) as (s3 & E3 & A3).
       rewrite (bind_Ok _ _ _ _ _ E3). exists None, name', s3. split_and!; [done|by apply Harr|done]. }
  destruct Hd as (s2 & j & off & q0 & qj & E2 & Hj & Ejn & Ejr & Ej0 & Lo2). rewrite (bind_Ok _ _ _ _ _ E2).
  pose proof (en_ref _ _ _ (lo_tab _ _ _ _ _ _ Lo j q0 Hj)) as H0.
  destruct (step_to s0 s2 l1 t i q1 j q0 qj n C (lo_ino _ _ _ _ _ _ Lo) (lo_ref _ _ _ _ _ _ Lo) Hj H0 Ejn Ejr Ej0 Lo2)
    as (s3 & s0' & l3 & q3 & E3 & Esb & Cu3 & En3 & Ht3).
  { destruct (decide (i = j)) as [->|]; [|lia]. rewrite (lo_ino _ _ _ _ _ _ Lo) in Hj. injection Hj as <-. lia. }
  { by rewrite Ef, Er. }
  { intros m. by rewrite Et, En. }
  rewrite (bind_Ok _ _ _ _ _ E3). destruct (IH path' s0' s3 l3 t j q3 name' Cu3 Hp' Hn' ltac:(lia)) as (o & nm & s4 & E4 & A4 & Hc4).
  exists o, nm, s4. split_and!; [done| |].
  - apply Harr. rewrite En3, Esb in A4. eapply arrived_trans; [exact Esb| |exact A4]. exact Ht3.
  - intros Hpp Hno. rewrite (Hc4 Hpp Hno). subst parent. cbn [andb] in Hpar. apply bool_decide_eq_false in Hpar.
    by destruct (elems path').
Qed.

(** A reference more, and the walk can start. *)
Lemma cursor_start s0 s l t j q0 q n :
  wstate s0 s l t → 2 <= nfree l → (∀ m, tref l m <= 1073741824) → l !! j = Some q0 →
  ientry_ok (k_sb s0) (t_view t) q → i_inum q = n → i_ref q = i_ref q0 + 1 → (0 < i_ref q0 → i_inum q0 = n) →
  let l' := <[j := q]> l in
  cursor s0 (with_k_inodes l' s) l' t j q ∧ ∀ m, tref l' m = tref l m + one (n =? m).
Proof.
  intros [T La Fs Hl Tab Fr Ro] Hf Hb Hj Hq En Er Hn l'. pose proof (en_ref _ _ _ (Tab j q0 Hj)) as H0.
  assert (∀ m, tref l' m = tref l m + one (n =? m)) as Ht.
  { intros m. unfold tref, l'. rewrite (lsum_insert _ _ _ q0), (weight_get m q0 q n) by done. lia. }
  split; [|done]. split.
  - apply (tx_inodes l') in T. split; try done; [unfold l'; by rewrite length_insert|by apply table_insert].
  - apply list_lookup_insert_eq. by eapply lookup_lt_Some.
  - lia.
  - unfold nfree, l'. rewrite (lsum_insert _ _ _ q0) by done. fold (nfree l). unfold isfree, one. rewrite Er. repeat case_match; lia.
  - intros m. rewrite Ht, En. specialize (Hb m). lia.
Qed.

Lemma idup_ok s i q : calm s → k_inodes s !! i = Some q →
  idup i s = Ok i (with_k_inodes (<[i := with_i_ref (i32 (i_ref q + 1)) q]> (k_inodes s)) s).
Proof.
  intros Hc Hi. unfold idup. rewrite acquire_calm by done. rewrite (bind_Ok _ _ _ _ _ (upd_inode_ok (acq LkItable s) i q _ Hi)).
  set (l' := <[i := _]> _). change (with_k_inodes l' (acq LkItable s)) with (acq LkItable (with_k_inodes l' s)).
  by rewrite (bind_Ok _ _ _ _ _ (release_calm LkItable (with_k_inodes l' s) ltac:(by apply (calm_same s)) I)).
Qed.

(** The inode a path starts from: the root, or the working directory. *)
Definition starts (s : kstate) (sb : superblock) (V : Z → list Z) (l : list inode) (path : list Z) (n : Z) : Prop :=
  match path with
  | 47 :: _ => n = ROOTINO ∧ allocated sb V ROOTINO
  | _ => ∃ i p c q, running s i p ∧ p_cwd p = Some c ∧ l !! c = Some q ∧ 0 < i_ref q ∧ n = i_inum q
  end.

Lemma namex_start s0 s l t path n0 :
  wstate s0 s l t → 2 <= nfree l → (∀ m, tref l m <= 1073741824) → starts s (k_sb s0) (t_view t) l path n0 →
  ∃ j s1 l1 q, (match path with
      | 47 :: _ => iget ROOTDEV ROOTINO
      | _ => j ← curproc; p ← getproc j; c ← deref (p_cwd p); idup c
      end) s = Ok j s1 ∧ cursor s0 s1 l1 t j q ∧ i_inum q = n0 ∧ ∀ m, tref l1 m = tref l m + one (n0 =? m).
Proof.
  intros W Hf Hb Hst. pose proof (w_tx _ _ _ _ W) as T. pose proof (tx_calm _ _ _ _ T) as Hc.
  pose proof (frame_inodes _ _ (tx_frame _ _ _ _ T)) as EI. cbn in EI.
  assert ((∃ p, path = 47 :: p) ∧ n0 = ROOTINO ∧ allocated (k_sb s0) (t_view t) ROOTINO ∨
    (∃ i p c q, running s i p ∧ p_cwd p = Some c ∧ l !! c = Some q ∧ 0 < i_ref q ∧ n0 = i_inum q) ∧
    ∀ (A : Type) (x y : A), match path with 47 :: _ => x | _ => y end = y) as [[[p ->] [-> Ha]]|[(i & p & c & q & Hrun & Hcwd & Hq & Hr & ->) Hm]].
  { unfold starts in Hst. repeat (case_match; try (by right; split; [exact Hst|done]); try (left; split; [eauto|exact Hst])). }
  - destruct (iget_slot_ok _ _ l ROOTINO (w_tab _ _ _ _ W) ltac:(lia) Ha ltac:(specialize (Hb ROOTINO); lia))
      as (j & q0 & q & Eg & Hj & Hq & En & Er & Hn).
    destruct (cursor_start _ _ _ _ _ _ _ _ W Hf Hb Hj Hq En Er Hn) as [Cu Ht]. eexists j, _, _, q. split_and!; [|exact Cu|done|done].
    rewrite (iget_ok s _ _ Hc) by (rewrite EI; apply W). rewrite EI, Eg. done.
  - pose proof (ref_bound _ _ _ _ _ (w_tab _ _ _ _ W) Hq) as Hrb. specialize (Hb (i_inum q)) as Hbq.
    pose proof (w_tab _ _ _ _ W c q Hq) as [_ Hu]. destruct (Hu Hr) as (Hd & Ha & Hv).
    destruct (cursor_start s0 s l t c q (with_i_ref (i32 (i_ref q + 1)) q) (i_inum q) W Hf Hb Hq) as [Cu Ht]; [|done| |done|].
    { split; cbn; [unfold i32; rewrite u32_small; lia|]. intros _. split_and!; [done|done|]. intros H0. by apply loaded_ref, Hv. }
    { cbn. unfold i32. rewrite u32_small; lia. }
    eexists c, _, _, _. split_and!; [|exact Cu|done|done]. rewrite Hm.
    rewrite (curproc_ok _ _ i p (calm_ctx _ Hc) Hrun), (getproc_ok _ _ i p (proj2 Hrun)), Hcwd.
    change ((c0 ← deref (Some c); idup c0) s) with (idup c s). by rewrite (idup_ok s c q Hc), EI by (by rewrite EI).
Qed.

(** C6: [namex] is [follow] on the elements of the path.  In a file system whose
    allocated inodes are well-formed files, [namex] returns for every path of
    bytes: the table entry of the inode that the path leads to from the
    root or the working directory (of its parent directory and the last
    element, for [nameiparent]), or nothing when an element is not a directory
    or not there.  The inode returned has one reference more than before,
    every other reference count is the same, all inode locks are free again and
    the files are as they were. *)
Theorem namex_walks s0 s l t parent path name n0 :
  wstate s0 s l t → 2 <= nfree l → (∀ m, tref l m <= 1073741824) → path_ok path → Forall is_byte name →
  starts s (k_sb s0) (t_view t) l path n0 →
  ∃ o name' s' s0' l', namex path parent name s = Ok (o, name') s' ∧ wstate s0' s' l' t ∧ k_sb s0' = k_sb s0 ∧
    match follow (k_sb s0) (t_view t) parent n0 (elems path) with
    | Some n => ∃ j q, o = Some j ∧ l' !! j = Some q ∧ 0 < i_ref q ∧ i_inum q = n ∧
        (∀ m, tref l' m = tref l m + one (n =? m)) ∧
        (parent = true → cut name' = cut (default [] (last (elems path))))
    | None => o = None ∧ ∀ m, tref l' m = tref l m
    end.
Proof.
  intros W Hf Hb Hp Hn Hst. destruct (namex_start s0 s l t path n0 W Hf Hb Hst) as (j & s1 & l1 & q & E & Cu & <- & Ht).
  destruct (namex_loop_ok parent (length path) path s0 s1 l1 t j q name Cu Hp Hn ltac:(lia)) as (o & name' & s' & E' & (s0' & l' & W' & Esb & A) & Hc).
  exists o, name', s', s0', l'. split_and!; [unfold namex; by rewrite (bind_Ok _ _ _ _ _ E)|done|done|].
  destruct (follow _ _ _ _ _) as [n|].
  - destruct A as (k & qk & -> & Hk & Hr & Hin & Htr). exists k, qk. split_and!; try done.
    + intros m. rewrite Htr, Ht. lia.
    + intros Hpar. by apply Hc.
  - destruct A as [-> Htr]. split; [done|]. intros m. rewrite Htr, Ht. lia.
Qed.
End walk.

(** ** A file system with an empty root directory *)
Definition demo_root : inode := mk_inode ROOTDEV ROOTINO 1 1 T_DIR 0 0 1 0 (replicate 13 0).
Definition root_table : list inode := demo_root :: replicate 49 (mk_inode 0 0 0 0 0 0 0 0 0 []).
Definition root_tx : txst :=
  wrote 33 (put_dinode (dip_off ROOTINO) demo_root (demo_view (Some demo_used) 33)) (fs_demo_tx demo_used).

Lemma demo_root_loaded : dinode demo_sb (t_view root_tx) ROOTINO = demo_root.
Proof. vm_compute. reflexivity. Qed.
Lemma demo_allocated n : allocated demo_sb (t_view root_tx) n → n = ROOTINO.
Proof.
  intros [Hn Ht]. assert (forallb (λ n, (n =? ROOTINO) || (i_type (dinode demo_sb (t_view root_tx) n) =? 0)) (seqZ 0 32) = true) as Hf
    by (vm_compute; reflexivity).
  rewrite forallb_forall in Hf. specialize (Hf n). rewrite <- list_elem_of_In, elem_of_seqZ in Hf. cbn in Hn.
  specialize (Hf ltac:(lia)). apply orb_true_iff in Hf as [Hf|Hf]; [lia|]. apply Z.eqb_eq in Hf. by destruct (Ht Hf).
Qed.
Lemma demo_root_fblk V k : fblk V demo_root k = 0.
Proof.
  unfold fblk, addr_at. change (i_addrs demo_root) with (replicate 13 0).
  assert (∀ j, default 0 (replicate 13 0 !! j) = 0) as H.
  { intros j. destruct (replicate 13 0 !! j) as [x|] eqn:E; [|done]. apply lookup_replicate in E as [-> _]. done. }
  rewrite !H. cbn [Z.eqb]. by repeat case_match.
Qed.
Lemma demo_fs_ok : fs_ok demo_sb (t_view root_tx).
Proof.
  split; intros n Ha; pose proof (demo_allocated n Ha) as ->; rewrite demo_root_loaded.
  - split_and!; [split|intros k Hk Hlt; cbn in Hlt; unfold BSIZE in Hlt; lia|done].
    + split; [cbn; unfold T_DIR; lia..|reflexivity|]. apply Forall_replicate. lia.
    + reflexivity.
    + cbn. unfold ROOTINO. lia.
    + cbn. unfold MAXFILE, BSIZE. lia.
    + intros k _ Hk. by rewrite demo_root_fblk in Hk.
    + intros k k' _ _ Hk. by rewrite demo_root_fblk in Hk.
  - intros _. split_and!; [reflexivity|apply Forall_nil_2|]. intros e n' H. discriminate H.
Qed.

Lemma demo_wstate : ∃ s, wstate (P := emu) (fs_demo demo_used) s root_table root_tx.
Proof.
  destruct (iupdate_ok (P := emu) (with_k_inodes root_table (fs_demo demo_used)) (with_k_inodes root_table (fs_demo demo_used))
    (fs_demo_tx demo_used) 0 demo_root) as (s & _ & T).
  - apply tx_inodes, demo_tx. reflexivity.
  - reflexivity.
  - reflexivity.
  - reflexivity.
  - apply (layout_home (P := emu) demo_sb 2); [exact demo_layout|]. split; reflexivity.
  - apply Nat.ltb_lt. reflexivity.
  - cbn. lia.
  - exists s. split.
    + exact T.
    + exact demo_layout.
    + exact demo_fs_ok.
    + reflexivity.
    + intros i q Hi. assert (q ∈ root_table) as Hq by (by apply list_elem_of_lookup_2 in Hi). apply elem_of_cons in Hq as [->|Hq].
      * split; [cbn; lia|]. intros _. split; [reflexivity|]. split; [split; [cbn; unfold ROOTINO; lia|change (i_inum demo_root) with ROOTINO; change (k_sb (fs_demo demo_used)) with demo_sb; by rewrite demo_root_loaded]|].
        intros _. unfold loaded. change (i_inum demo_root) with ROOTINO. change (k_sb (fs_demo demo_used)) with demo_sb. by rewrite demo_root_loaded.
      * apply elem_of_replicate_inv in Hq. subst q. split; cbn; lia.
    + reflexivity.
    + apply Nat.ltb_lt. reflexivity.
Qed.

Lemma namex_walks_witness :
  ∃ s, (∃ name' s' l' j q, namex (P := emu) [47] false (replicate 14 0) s = Ok (Some j, name') s' ∧
          l' !! j = Some q ∧ i_inum q = ROOTINO ∧ tref l' ROOTINO = 2) ∧
    ∃ name' s', namex (P := emu) [47; 120; 47] false (replicate 14 0) s = Ok (None, name') s'.
Proof.
  destruct demo_wstate as [s W]. exists s.
  assert (∀ m, tref root_table m <= 1073741824) as Hb.
  { intros m. unfold tref, lsum, weight, root_table. cbn. repeat case_match; lia. }
  assert (allocated (k_sb (fs_demo demo_used)) (t_view root_tx) ROOTINO) as Ha.
  { destruct (en_used _ _ _ (w_tab _ _ _ _ W 0%nat demo_root eq_refl) ltac:(cbn; lia)) as (_ & Ha & _). exact Ha. }
  assert (2 <= nfree root_table) as Hf by (vm_compute; congruence).
  assert (Forall is_byte (replicate 14 0)) as Hn by (apply Forall_replicate; unfold is_byte; lia).
  split.
  - destruct (namex_walks (P := emu) _ s root_table root_tx false [47] (replicate 14 0) ROOTINO W Hf Hb) as (o & name' & s' & s0' & l' & E & _ & _ & H);
      [repeat constructor|exact Hn|exact (conj eq_refl Ha)|].
    destruct H as (j & q & -> & Hj & _ & Hq & Ht & _). exists name', s', l', j, q. split; [exact E|]. split; [exact Hj|]. split; [exact Hq|].
    rewrite Ht. reflexivity.
  - destruct (namex_walks (P := emu) _ s root_table root_tx false [47; 120; 47] (replicate 14 0) ROOTINO W Hf Hb) as (o & name' & s' & s0' & l' & E & _ & _ & H);
      [repeat constructor|exact Hn|exact (conj eq_refl Ha)|].
    assert (follow (k_sb (fs_demo demo_used)) (t_view root_tx) false ROOTINO (elems [47; 120; 47]) = None) as Ew by (vm_compute; reflexivity).
    rewrite Ew in H. destruct H as [-> _]. exists name', s'. exact E.
Defined.
