(* ===== verification/File.v ===== *)
(** * kernel/file.c and pipealloc of kernel/pipe.c: open files

    A pointer to an open file is its index in the file table.  [devsw] holds
    which function a device installed; [dev_call] calls it. *)

From S2P Require Import Prelude Machine State CString Spinlock Printf Emu Kalloc Vm VmSpec VmUser VmCopy VmThms Sched Bytes Bio Log Console Pipe Fs.

Section file.
Context `{P : Platform}.

Definition get_file (f : nat) : KM file := o ← gets (λ s, k_files s !! f); deref o.
Definition upd_file (f : nat) (g : file → file) : KM unit :=
  x ← get_file f; modify (λ s, with_k_files (<[f := g x]> (k_files s)) s).

Definition fileinit : KM unit := initlock LkFtable "ftable".

Fixpoint filealloc_loop (l : list nat) : KM (option nat) :=
  match l with
  | [] => release LkFtable;; mret None
  | f :: l' =>
      x ← get_file f;
      if f_ref x =? 0 then
        upd_file f (with_f_ref 1);;
        release LkFtable;;
        mret (Some f)
      else filealloc_loop l'
  end.
Definition filealloc : KM (option nat) := acquire LkFtable;; filealloc_loop (seq 0 NFILE).

Definition filedup (f : nat) : KM nat :=
  acquire LkFtable;;
  x ← get_file f;
  if f_ref x <? 1 then panic "filedup" else
  upd_file f (λ x, with_f_ref (i32 (f_ref x + 1)) x);;
  release LkFtable;;
  mret f.

Definition fileclose (f : nat) : KM unit :=
  acquire LkFtable;;
  x ← get_file f;
  if f_ref x <? 1 then panic "fileclose" else
  upd_file f (λ x, with_f_ref (f_ref x - 1) x);;
  ff ← get_file f;
  if 0 <? f_ref ff then release LkFtable else
  upd_file f (with_f_ref 0);;
  upd_file f (with_f_type FD_NONE);;
  release LkFtable;;
  match f_type ff with
  | FD_PIPE => pipeclose (f_pipe ff) (negb (f_writable ff =? 0))
  | FD_INODE | FD_DEVICE =>
      begin_op;;
      i ← deref (f_ip ff);
      iput i;;
      end_op
  | FD_NONE => mret tt
  end.

Definition filestat (f : nat) (addr : Z) : KM Z :=
  j ← curproc;
  x ← get_file f;
  match f_type x with
  | FD_INODE | FD_DEVICE =>
      ilock (f_ip x);;
      i ← deref (f_ip x);
      st ← stati i;
      iunlock (f_ip x);;
      p ← getproc j;
      r ← copyout (p_pagetable p) addr st;
      mret (if r <? 0 then -1 else 0)
  | _ => mret (-1)
  end.

Definition dev_call (fn : devfn) (addr n : Z) : KM Z :=
  match fn with
  | Consoleread => consoleread true addr n
  | Consolewrite => consolewrite true addr n
  end.
(** [devsw[major]], [None] out of range *)
Definition devsw_at (major : Z) : KM (option (option devfn * option devfn)) :=
  if (major <? 0) || (NDEV <=? major) then mret None
  else gets (λ s, k_devsw s !! Z.to_nat major).

Definition fileread (f : nat) (addr n : Z) : KM Z :=
  x ← get_file f;
  if f_readable x =? 0 then mret (-1) else
  match f_type x with
  | FD_PIPE => piperead (f_pipe x) addr n
  | FD_DEVICE =>
      d ← devsw_at (f_major x);
      match d with
      | Some (Some rd, _) => dev_call rd addr n
      | _ => mret (-1)
      end
  | FD_INODE =>
      ilock (f_ip x);;
      i ← deref (f_ip x);
      '(r, _) ← readi i (DUser addr) (f_off x) (u32 n);
      when (0 <? i32 r) (upd_file f (λ x, with_f_off (u32 (f_off x + r)) x));;
      iunlock (f_ip x);;
      mret (i32 r)
  | FD_NONE => panic "fileread"
  end.

(** [((MAXOPBLOCKS-1-1-2) / 2) * BSIZE] *)
Definition write_max : Z := (MAXOPBLOCKS - 1 - 1 - 2) / 2 * BSIZE.

(** [while(i < n)]: a transaction per chunk; how many bytes were written. *)
Fixpoint filewrite_loop (fuel : nat) (f : nat) (addr n i : Z) : KM Z :=
  if i <? n then
    match fuel with
    | O => spin
    | S k =>
        let n1 := Z.min (n - i) write_max in
        begin_op;;
        x ← get_file f;
        ilock (f_ip x);;
        ip ← deref (f_ip x);
        x ← get_file f;
        r ← writei ip (SUser (u32 (addr + i))) (f_off x) n1;
        when (0 <? r) (upd_file f (λ x, with_f_off (u32 (f_off x + r)) x));;
        iunlock (f_ip x);;
        end_op;;
        if negb (r =? n1) then mret i else filewrite_loop k f addr n (i + r)
    end
  else mret i.

Definition filewrite (f : nat) (addr n : Z) : KM Z :=
  x ← get_file f;
  if f_writable x =? 0 then mret (-1) else
  match f_type x with
  | FD_PIPE => pipewrite (f_pipe x) addr n
  | FD_DEVICE =>
      d ← devsw_at (f_major x);
      match d with
      | Some (_, Some wr) => dev_call wr addr n
      | _ => mret (-1)
      end
  | FD_INODE =>
      i ← filewrite_loop (Z.to_nat (n / write_max + 1)) f addr n 0;
      mret (if i =? n then n else -1)
  | FD_NONE => panic "filewrite"
  end.

(** ** kernel/pipe.c: pipealloc
    Both ends, or [None] after everything was given back. *)
Definition close_opt (o : option nat) : KM unit :=
  match o with Some f => fileclose f | None => mret tt end.
Definition pipe_bad (pi : Z) (f0 f1 : option nat) : KM (option (nat * nat)) :=
  when (negb (pi =? 0)) (kfree pi);;
  close_opt f0;;
  close_opt f1;;
  mret None.
(** The bytes of the page where [data] lies are as kalloc left them. *)
Definition new_pipe (pi : Z) : KM unit :=
  d ← get_bytes (pi + 12) PIPESIZE;
  modify (λ s, with_k_pipes (<[pi := mk_pipe d 0 0 1 1]> (k_pipes s)) s).
Definition pipealloc : KM (option (nat * nat)) :=
  f0 ← filealloc;
  match f0 with
  | None => pipe_bad 0 None None
  | Some r =>
    f1 ← filealloc;
    match f1 with
    | None => pipe_bad 0 (Some r) None
    | Some w =>
      pi ← kalloc;
      if pi =? 0 then pipe_bad 0 (Some r) (Some w) else
      new_pipe pi;;
      initlock (LkPipe pi) "pipe";;
      upd_file r (λ x, with_f_pipe pi (with_f_writable 0 (with_f_readable 1 (with_f_type FD_PIPE x))));;
      upd_file w (λ x, with_f_pipe pi (with_f_writable 1 (with_f_readable 0 (with_f_type FD_PIPE x))));;
      mret (Some (r, w))
    end
  end.
End file.
