(* ===== verification/Proc.v ===== *)
(** * kernel/proc.c: creating, ending and scheduling processes

    Sleep, wakeup and the switch are in Sched.v; the copy routines and
    procdump in Console.v; [forkret], which needs exec, in Trap.v.  A trap
    frame lives in memory at the address [p_trapframe]; [tf_*] are the offsets
    of its fields.  [kwait] re-scans the table whenever it wakes:
    [kwait_resume].  A pass of the scheduler runs from one switch to the
    next: [scheduler_scan] ends with the process to switch to. *)

From S2P Require Import Prelude Machine State CString Spinlock Printf Emu Kalloc Vm VmSpec VmUser VmCopy VmThms Sched Bytes Bio Log Console Pipe Fs File.

(** struct trapframe *)
Definition tf_kernel_satp : Z := 0.
Definition tf_kernel_sp : Z := 4.
Definition tf_kernel_trap : Z := 8.
Definition tf_epc : Z := 12.
Definition tf_kernel_hartid : Z := 16.
(** the user register r[n] *)
Definition tf_r (n : Z) : Z := 20 + 4 * n.
Definition TF_SIZE : Z := 80.

Section proc.
Context `{P : Platform}.

Definition proc_pagetable (trapframe : Z) : KM Z :=
  pagetable ← uvmcreate;
  if pagetable =? 0 then mret 0 else
  r ← mappages pagetable TRAMPOLINE PGSIZE p_trampoline (Z.lor PTE_R PTE_X);
  if r <? 0 then uvmfree pagetable 0;; mret 0 else
  r ← mappages pagetable TRAPFRAME PGSIZE trapframe (Z.lor PTE_R PTE_W);
  if r <? 0 then
    uvmunmap pagetable TRAMPOLINE 1 false;;
    uvmfree pagetable 0;;
    mret 0
  else mret pagetable.

Definition proc_freepagetable (pagetable sz : Z) : KM unit :=
  uvmunmap pagetable TRAMPOLINE 1 false;;
  uvmunmap pagetable TRAPFRAME 1 false;;
  uvmfree pagetable sz.

Definition freeproc (i : nat) : KM unit :=
  p ← getproc i;
  when (negb (p_trapframe p =? 0)) (kfree (p_trapframe p));;
  upd_proc i (with_p_trapframe 0);;
  p ← getproc i;
  when (negb (p_pagetable p =? 0)) (proc_freepagetable (p_pagetable p) (p_sz p));;
  upd_proc i (with_p_pagetable 0);;
  upd_proc i (with_p_sz 0);;
  upd_proc i (with_p_pid 0);;
  upd_proc i (with_p_parent None);;
  upd_proc i (λ p, with_p_name (<[0%nat := 0]> (p_name p)) p);;
  upd_proc i (with_p_chan None);;
  upd_proc i (with_p_killed 0);;
  upd_proc i (with_p_xstate 0);;
  upd_proc i (with_p_state UNUSED).

(** The scan of allocproc: an UNUSED entry, with its lock held. *)
Fixpoint allocproc_find (l : list nat) : KM (option nat) :=
  match l with
  | [] => mret None
  | i :: l' =>
      acquire (LkProc i);;
      p ← getproc i;
      if decide (p_state p = UNUSED) then mret (Some i)
      else release (LkProc i);; allocproc_find l'
  end.

Definition allocproc : KM (option nat) :=
  o ← allocproc_find (seq 0 NPROC);
  match o with
  | None => mret None
  | Some i =>
      pid ← allocpid;
      upd_proc i (with_p_pid pid);;
      upd_proc i (with_p_state USED);;
      tf ← kalloc;
      upd_proc i (with_p_trapframe tf);;
      if tf =? 0 then freeproc i;; release (LkProc i);; mret None else
      pt ← proc_pagetable tf;
      upd_proc i (with_p_pagetable pt);;
      if pt =? 0 then freeproc i;; release (LkProc i);; mret None else
      upd_proc i (λ p, with_p_context
        (mk_context (u32 p_forkret) (u32 (p_kstack p + PGSIZE)) 0 0 0 0 0 0 0 0) p);;
      mret (Some i)
  end.

(** [allocproc] succeeds at boot; [userinit] does not test its result. *)
Definition userinit : KM unit :=
  o ← allocproc;
  modify (with_k_initproc o);;
  i ← deref o;
  cwd ← namei (str "/");
  upd_proc i (with_p_cwd cwd);;
  upd_proc i (with_p_state RUNNABLE);;
  release (LkProc i).

Definition growproc (n : Z) : KM Z :=
  i ← curproc;
  p ← getproc i;
  let sz := p_sz p in
  if 0 <? n then
    if TRAPFRAME <? u32 (sz + n) then mret (-1) else
    sz ← uvmalloc (p_pagetable p) sz (u32 (sz + n)) PTE_W;
    if sz =? 0 then mret (-1) else upd_proc i (with_p_sz sz);; mret 0
  else if n <? 0 then
    sz ← uvmdealloc (p_pagetable p) sz (u32 (sz + n));
    upd_proc i (with_p_sz sz);; mret 0
  else upd_proc i (with_p_sz sz);; mret 0.

(** [safestrcpy(p->name, src, sizeof(p->name))] *)
Definition set_name (src : list Z) (p : proc) : proc :=
  with_p_name (put_at 0 (safestrcpy (chars src) 16) (p_name p)) p.

Definition ofile_at (p : proc) (fd : nat) : option nat :=
  match p_ofile p !! fd with Some o => o | None => None end.
Definition set_ofile (fd : nat) (o : option nat) (p : proc) : proc :=
  with_p_ofile (<[fd := o]> (p_ofile p)) p.

Definition kfork : KM Z :=
  i ← curproc;
  o ← allocproc;
  match o with
  | None => mret (-1)
  | Some n =>
      p ← getproc i;
      np ← getproc n;
      r ← uvmcopy (p_pagetable p) (p_pagetable np) (p_sz p);
      if r <? 0 then freeproc n;; release (LkProc n);; mret (-1) else
      upd_proc n (with_p_sz (p_sz p));;
      tf ← get_bytes (p_trapframe p) TF_SIZE;
      put_bytes (p_trapframe np) tf;;
      store32 (p_trapframe np + tf_r 0) 0;;
      for_each (seq 0 NOFILE) (λ fd,
        p ← getproc i;
        match ofile_at p fd with
        | Some f => g ← filedup f; upd_proc n (set_ofile fd (Some g))
        | None => mret tt
        end);;
      c ← deref (p_cwd p);
      cwd ← idup c;
      upd_proc n (with_p_cwd (Some cwd));;
      upd_proc n (set_name (p_name p));;
      np ← getproc n;
      let pid := p_pid np in
      release (LkProc n);;
      acquire LkWait;;
      upd_proc n (with_p_parent (Some i));;
      release LkWait;;
      acquire (LkProc n);;
      upd_proc n (with_p_state RUNNABLE);;
      release (LkProc n);;
      mret pid
  end.

Definition reparent (i : nat) : KM unit :=
  for_each (seq 0 NPROC) (λ j,
    p ← getproc j;
    when (bool_decide (p_parent p = Some i))
      (init ← gets k_initproc;
       upd_proc j (with_p_parent init);;
       wakeup (ChProc <$> init))).

Definition kexit (status : Z) : KM unit :=
  i ← curproc;
  init ← gets k_initproc;
  if decide (init = Some i) then panic "init exiting" else
  for_each (seq 0 NOFILE) (λ fd,
    p ← getproc i;
    match ofile_at p fd with
    | Some f => fileclose f;; upd_proc i (set_ofile fd None)
    | None => mret tt
    end);;
  begin_op;;
  p ← getproc i;
  c ← deref (p_cwd p);
  iput c;;
  end_op;;
  upd_proc i (with_p_cwd None);;
  acquire LkWait;;
  reparent i;;
  p ← getproc i;
  wakeup (ChProc <$> p_parent p);;
  acquire (LkProc i);;
  upd_proc i (with_p_xstate status);;
  upd_proc i (with_p_state ZOMBIE);;
  release LkWait;;
  sched;;
  panic "zombie exit".

(** The scan of kwait: [inl] is the result of a wait that ends here, [inr]
    whether there are children. *)
Fixpoint kwait_scan (l : list nat) (i : nat) (addr : Z) (havekids : bool) : KM (Z + bool) :=
  match l with
  | [] => mret (inr havekids)
  | j :: l' =>
      pp ← getproc j;
      if decide (p_parent pp = Some i) then
        acquire (LkProc j);;
        pp ← getproc j;
        if decide (p_state pp = ZOMBIE) then
          let pid := p_pid pp in
          p ← getproc i;
          r ← (if addr =? 0 then mret 0 else copyout (p_pagetable p) addr (bytes_of 4 (p_xstate pp)));
          if r <? 0 then
            release (LkProc j);; release LkWait;; mret (inl (-1))
          else
            freeproc j;;
            release (LkProc j);; release LkWait;; mret (inl pid)
        else release (LkProc j);; kwait_scan l' i addr true
      else kwait_scan l' i addr havekids
  end.
(** From the head of [for(;;)], wait_lock held. *)
Definition kwait_loop (i : nat) (addr : Z) : KM Z :=
  r ← kwait_scan (seq 0 NPROC) i addr false;
  match r with
  | inl v => mret v
  | inr havekids =>
      stop ← (if havekids : bool then k ← killed i; mret (negb (k =? 0)) else mret true);
      if stop : bool then release LkWait;; mret (-1)
      else sleep (ChProc i) LkWait;; mret 0
  end.
Definition kwait (addr : Z) : KM Z :=
  i ← curproc;
  acquire LkWait;;
  kwait_loop i addr.
Definition kwait_resume (intena : bool) (i : nat) (addr : Z) : KM Z :=
  sleep_resume intena LkWait;; kwait_loop i addr.

(** ** scheduler *)
(** The inner loop, up to the switch to a process; [None] when it ends. *)
Fixpoint scheduler_scan (l : list nat) : KM (option nat) :=
  match l with
  | [] => mret None
  | i :: l' => b ← scheduler_pick i; if b : bool then mret (Some i) else scheduler_scan l'
  end.
(** The end of an iteration of [for(;;)]: idle if nothing ran. *)
Definition scheduler_idle (found : bool) : KM unit :=
  when (negb found) (upd_regs (with_r_wfi 0)).
(** From the head of [for(;;)] to the first switch. *)
Definition scheduler_pass : KM (option nat) := intr_on;; scheduler_scan (seq 0 NPROC).
(** A switch back from process [i], and on to the next one. *)
Definition scheduler_next (i : nat) : KM (option nat) :=
  scheduler_return i;; scheduler_scan (seq (S i) (NPROC - S i)).
(** From the switch back from process [i] to the next switch, or the end of
    the pass that follows. *)
Definition scheduler_turn (i : nat) : KM (option nat) :=
  o ← scheduler_next i;
  match o with
  | Some j => mret (Some j)
  | None => scheduler_idle true;; scheduler_pass
  end.
Definition scheduler_start : KM (option nat) :=
  c ← mycpu; set_cpu (with_c_proc None c);; scheduler_pass.
End proc.
