(* ===== verification/Exec.v ===== *)
(** * kernel/exec.c

    The ELF headers are read into local variables, so they are the bytes
    [readi] delivers.  The arguments are given as their strings.  The C labels
    become results: [exec_load] and [exec_args] say whether the code jumps to
    [bad], which is [exec_bad]. *)

From S2P Require Import Prelude Machine State CString Spinlock Printf Emu Kalloc Vm VmSpec VmUser VmCopy VmThms Sched Bytes Bio Log Console Pipe Fs File Proc.

(** ** kernel/elf.h *)
Definition ELF_MAGIC : Z := 1179403647.   (* 0x464C457F *)
Definition ELFHDR : Z := 52.
Definition PROGHDR : Z := 32.
Definition ELF_PROG_LOAD : Z := 1.
Definition elf_magic (h : list Z) : Z := getb 4 0 h.
Definition elf_entry (h : list Z) : Z := getb 4 24 h.
Definition elf_phoff (h : list Z) : Z := getb 4 28 h.
Definition elf_phnum (h : list Z) : Z := getb 2 44 h.
Definition ph_type (h : list Z) : Z := getb 4 0 h.
Definition ph_off (h : list Z) : Z := getb 4 4 h.
Definition ph_vaddr (h : list Z) : Z := getb 4 8 h.
Definition ph_filesz (h : list Z) : Z := getb 4 16 h.
Definition ph_memsz (h : list Z) : Z := getb 4 20 h.
Definition ph_flags (h : list Z) : Z := getb 4 24 h.

Definition flags2perm (flags : Z) : Z :=
  let perm := if has flags 1 then PTE_X else 0 in
  if has flags 2 then Z.lor perm PTE_W else perm.

Section exec.
Context `{P : Platform}.

(** Each round reaches a page boundary: sz / PGSIZE + 2 of them are enough. *)
Fixpoint loadseg_loop (fuel : nat) (pagetable va : Z) (ip : nat) (offset sz i : Z) : KM Z :=
  if i <? sz then
    match fuel with
    | O => spin
    | S f =>
        let va1 := u32 (va + i) in
        let off_in_page := va1 mod PGSIZE in
        pa ← walkaddr pagetable va1;
        if pa =? 0 then panic "loadseg: address should exist" else
        let n := Z.min (PGSIZE - off_in_page) (sz - i) in
        '(r, _) ← readi ip (DKernel (u32 (pa + off_in_page))) (u32 (offset + i)) n;
        if negb (r =? n) then mret (-1) else
        loadseg_loop f pagetable va ip offset sz (i + n)
    end
  else mret 0.
Definition loadseg (pagetable va : Z) (ip : nat) (offset sz : Z) : KM Z :=
  loadseg_loop (Z.to_nat (sz / PGSIZE + 2)) pagetable va ip offset sz 0.

(** The program headers from the [k]-th last on: whether they were all
    loaded, and the size of the image so far. *)
Fixpoint exec_load (k : nat) (ip : nat) (pagetable off sz : Z) : KM (bool * Z) :=
  match k with
  | O => mret (true, sz)
  | S k' =>
      '(r, ph) ← readi ip DLocal (u32 off) PROGHDR;
      if negb (r =? PROGHDR) then mret (false, sz) else
      if negb (ph_type ph =? ELF_PROG_LOAD) then exec_load k' ip pagetable (i32 (off + PROGHDR)) sz else
      if ph_memsz ph <? ph_filesz ph then mret (false, sz) else
      if u32 (ph_vaddr ph + ph_memsz ph) <? ph_vaddr ph then mret (false, sz) else
      sz1 ← uvmalloc pagetable sz (u32 (ph_vaddr ph + ph_memsz ph)) (flags2perm (ph_flags ph));
      if sz1 =? 0 then mret (false, sz) else
      r ← loadseg pagetable (ph_vaddr ph) ip (ph_off ph) (ph_filesz ph);
      if r <? 0 then mret (false, sz1) else
      exec_load k' ip pagetable (i32 (off + PROGHDR)) sz1
  end.

(** Copy the argument strings to the new stack: the stack pointer and
    ustack[0..argc-1], or [None]. *)
Fixpoint exec_args (argv : list (list Z)) (pagetable stackbase argc sp : Z) (ustack : list Z)
    : KM (option (Z * list Z)) :=
  match argv with
  | [] => mret (Some (sp, ustack))
  | a :: argv' =>
      if MAXARG <=? argc then mret None else
      let sp := u32 (sp - (Z.of_nat (length a) + 1)) in
      let sp := sp - sp mod 16 in
      if sp <? stackbase then mret None else
      r ← copyout pagetable sp (a ++ [0]);
      if r <? 0 then mret None else
      exec_args argv' pagetable stackbase (argc + 1) sp (ustack ++ [sp])
  end.

Definition exec_bad (pagetable sz : Z) (ip : option nat) : KM Z :=
  when (negb (pagetable =? 0)) (proc_freepagetable pagetable sz);;
  (match ip with Some i => iunlockput i;; end_op | None => mret tt end);;
  mret (-1).

(** [last], the element after the final slash *)
Fixpoint basename (s last : list Z) : list Z :=
  match s with
  | [] => last
  | c :: s' => basename s' (if c =? 47 then s' else last)
  end.

(** From the allocation of the stack on; the file is closed. *)
Definition exec_commit (path : list Z) (argv : list (list Z)) (pagetable sz entry : Z) : KM Z :=
  i ← curproc;
  p ← getproc i;
  let oldsz := p_sz p in
  let sz := PGROUNDUP sz in
  sz1 ← uvmalloc pagetable sz (u32 (sz + (USERSTACK + 1) * PGSIZE)) PTE_W;
  if sz1 =? 0 then exec_bad pagetable sz None else
  let sz := sz1 in
  uvmclear pagetable (u32 (sz - (USERSTACK + 1) * PGSIZE));;
  let sp := sz in
  let stackbase := u32 (sp - USERSTACK * PGSIZE) in
  o ← exec_args argv pagetable stackbase 0 sp [];
  match o with
  | None => exec_bad pagetable sz None
  | Some (sp, ustack) =>
      let argc := Z.of_nat (length ustack) in
      if MAXARG <=? argc then panic "ustack out of range" else
      let sp := u32 (sp - (argc + 1) * 4) in
      let sp := sp - sp mod 16 in
      if sp <? stackbase then exec_bad pagetable sz None else
      r ← copyout pagetable sp (concat (map (bytes_of 4) (ustack ++ [0])));
      if r <? 0 then exec_bad pagetable sz None else
      store32 (p_trapframe p + tf_r 1) sp;;
      upd_proc i (set_name (basename path path));;
      p ← getproc i;
      let oldpagetable := p_pagetable p in
      upd_proc i (with_p_pagetable pagetable);;
      upd_proc i (with_p_sz sz);;
      store32 (p_trapframe p + tf_epc) entry;;
      store32 (p_trapframe p + tf_r 13) sp;;
      proc_freepagetable oldpagetable oldsz;;
      mret argc
  end.

Definition kexec (path : list Z) (argv : list (list Z)) : KM Z :=
  i ← curproc;
  begin_op;;
  o ← namei path;
  match o with
  | None => end_op;; mret (-1)
  | Some ip =>
      ilock (Some ip);;
      '(r, elf) ← readi ip DLocal 0 ELFHDR;
      if negb (r =? ELFHDR) then exec_bad 0 0 (Some ip) else
      if negb (elf_magic elf =? ELF_MAGIC) then exec_bad 0 0 (Some ip) else
      p ← getproc i;
      pagetable ← proc_pagetable (p_trapframe p);
      if pagetable =? 0 then exec_bad 0 0 (Some ip) else
      '(ok, sz) ← exec_load (Z.to_nat (elf_phnum elf)) ip pagetable (i32 (elf_phoff elf)) 0;
      if negb ok then exec_bad pagetable sz (Some ip) else
      iunlockput ip;;
      end_op;;
      exec_commit path argv pagetable sz (elf_entry elf)
  end.
End exec.
