(* ===== verification/Sysfile.v ===== *)
(** * kernel/sysfile.c, and the argument routines of kernel/syscall.c

    System calls take their arguments from the trap frame of the running
    process.  A string argument is the bytes before its NUL; [argstr] and
    [fetchstr] give [None] for -1 and otherwise the string, whose length the C
    code returns.  A system call's result is an int; -1 stands for
    [(uint32)-1]. *)

From S2P Require Import Prelude Machine State CString Spinlock Printf Emu Kalloc Vm VmSpec VmUser VmCopy VmThms Sched Bytes Bio Log Console Pipe Fs File Proc Exec.

Section sysfile.
Context `{P : Platform}.

(** ** kernel/syscall.c: arguments *)
Definition fetchaddr (addr : Z) : KM (option Z) :=
  i ← curproc;
  p ← getproc i;
  if (p_sz p <=? addr) || (p_sz p <? u32 (addr + 4)) then mret None else
  '(r, l) ← copyin (p_pagetable p) addr 4;
  mret (if r =? 0 then Some (of_bytes l) else None).

(** The result, and the bytes stored in the buffer. *)
Definition fetchstr (addr max : Z) : KM (option (list Z) * list Z) :=
  i ← curproc;
  p ← getproc i;
  '(r, l) ← copyinstr (p_pagetable p) addr max;
  mret (if r <? 0 then None else Some (cstr l), l).

Definition argraw (n : Z) : KM Z :=
  i ← curproc;
  p ← getproc i;
  if (0 <=? n) && (n <=? 2) then load32 (p_trapframe p + tf_r (n + 1)) else panic "argraw".
Definition argint (n : Z) : KM Z := v ← argraw n; mret (i32 v).
Definition argaddr (n : Z) : KM Z := argraw n.
Definition argstr (n max : Z) : KM (option (list Z)) :=
  addr ← argaddr n; '(s, _) ← fetchstr addr max; mret s.

(** ** kernel/sysfile.c *)
Definition argfd (n : Z) : KM (option (nat * nat)) :=
  fd ← argint n;
  if (fd <? 0) || (Z.of_nat NOFILE <=? fd) then mret None else
  i ← curproc;
  p ← getproc i;
  mret (match ofile_at p (Z.to_nat fd) with Some f => Some (Z.to_nat fd, f) | None => None end).

Fixpoint fdalloc_loop (l : list nat) (i : nat) (f : nat) : KM Z :=
  match l with
  | [] => mret (-1)
  | fd :: l' =>
      p ← getproc i;
      match ofile_at p fd with
      | None => upd_proc i (set_ofile fd (Some f));; mret (Z.of_nat fd)
      | Some _ => fdalloc_loop l' i f
      end
  end.
Definition fdalloc (f : nat) : KM Z := i ← curproc; fdalloc_loop (seq 0 NOFILE) i f.

Definition sys_dup : KM Z :=
  o ← argfd 0;
  match o with
  | None => mret (-1)
  | Some (_, f) =>
      fd ← fdalloc f;
      if fd <? 0 then mret (-1) else
      filedup f;;
      mret fd
  end.

Definition sys_read : KM Z :=
  p ← argaddr 1;
  n ← argint 2;
  o ← argfd 0;
  match o with None => mret (-1) | Some (_, f) => fileread f p n end.

Definition sys_write : KM Z :=
  p ← argaddr 1;
  n ← argint 2;
  o ← argfd 0;
  match o with None => mret (-1) | Some (_, f) => filewrite f p n end.

Definition sys_close : KM Z :=
  o ← argfd 0;
  match o with
  | None => mret (-1)
  | Some (fd, f) =>
      i ← curproc;
      upd_proc i (set_ofile fd None);;
      fileclose f;;
      mret 0
  end.

Definition sys_fstat : KM Z :=
  st ← argaddr 1;
  o ← argfd 0;
  match o with None => mret (-1) | Some (_, f) => filestat f st end.

(** The label [bad] of sys_link *)
Definition link_bad (ip : nat) : KM Z :=
  ilock (Some ip);;
  upd_inode ip (λ x, with_i_nlink (i16 (i_nlink x - 1)) x);;
  iupdate ip;;
  iunlockput ip;;
  end_op;;
  mret (-1).
Definition sys_link : KM Z :=
  old ← argstr 0 MAXPATH;
  match old with
  | None => mret (-1)
  | Some old =>
    new ← argstr 1 MAXPATH;
    match new with
    | None => mret (-1)
    | Some new =>
        begin_op;;
        o ← namei old;
        match o with
        | None => end_op;; mret (-1)
        | Some ip =>
            ilock (Some ip);;
            x ← get_inode ip;
            if i_type x =? T_DIR then iunlockput ip;; end_op;; mret (-1) else
            upd_inode ip (λ x, with_i_nlink (i16 (i_nlink x + 1)) x);;
            iupdate ip;;
            iunlock (Some ip);;
            '(o, name) ← nameiparent new (replicate DIRSIZ 0);
            match o with
            | None => link_bad ip
            | Some dp =>
                ilock (Some dp);;
                d ← get_inode dp;
                x ← get_inode ip;
                bad ← (if negb (i_dev d =? i_dev x) then mret true
                       else r ← dirlink dp name (i_inum x); mret (r <? 0));
                iunlockput dp;;
                if bad : bool then link_bad ip else
                iput ip;;
                end_op;;
                mret 0
            end
        end
    end
  end.

(** [for(off=2*sizeof(de); off<dp->size; off+=sizeof(de))] *)
Fixpoint isdirempty_loop (fuel : nat) (dp : nat) (off : Z) : KM bool :=
  d ← get_inode dp;
  if off <? i_size d then
    match fuel with
    | O => spin
    | S f =>
        '(r, de) ← readi dp DLocal off DIRENT;
        if negb (r =? DIRENT) then panic "isdirempty: readi" else
        if negb (de_inum de =? 0) then mret false else isdirempty_loop f dp (off + DIRENT)
    end
  else mret true.
Definition isdirempty (dp : nat) : KM bool :=
  d ← get_inode dp;
  isdirempty_loop (Z.to_nat (i_size d / DIRENT + 1)) dp (2 * DIRENT).

Definition unlink_bad (dp : nat) : KM Z := iunlockput dp;; end_op;; mret (-1).
Definition sys_unlink : KM Z :=
  path ← argstr 0 MAXPATH;
  match path with
  | None => mret (-1)
  | Some path =>
      begin_op;;
      '(o, name) ← nameiparent path (replicate DIRSIZ 0);
      match o with
      | None => end_op;; mret (-1)
      | Some dp =>
          ilock (Some dp);;
          if (namecmp name (str ".") =? 0) || (namecmp name (str "..") =? 0) then unlink_bad dp else
          o ← dirlookup dp name;
          match o with
          | None => unlink_bad dp
          | Some (ip, off) =>
              ilock (Some ip);;
              x ← get_inode ip;
              if i_nlink x <? 1 then panic "unlink: nlink < 1" else
              full ← (if i_type x =? T_DIR then e ← isdirempty ip; mret (negb e) else mret false);
              if full : bool then iunlockput ip;; unlink_bad dp else
              r ← writei dp (SLocal (replicate (Z.to_nat DIRENT) 0)) off DIRENT;
              if negb (r =? DIRENT) then panic "unlink: writei" else
              x ← get_inode ip;
              when (i_type x =? T_DIR)
                (upd_inode dp (λ d, with_i_nlink (i16 (i_nlink d - 1)) d);;
                 iupdate dp);;
              iunlockput dp;;
              upd_inode ip (λ x, with_i_nlink (i16 (i_nlink x - 1)) x);;
              iupdate ip;;
              iunlockput ip;;
              end_op;;
              mret 0
          end
      end
  end.

(** The label [fail] of create *)
Definition create_fail (ip dp : nat) : KM (option nat) :=
  upd_inode ip (with_i_nlink 0);;
  iupdate ip;;
  iunlockput ip;;
  iunlockput dp;;
  mret None.
Definition create (path : list Z) (type major minor : Z) : KM (option nat) :=
  '(o, name) ← nameiparent path (replicate DIRSIZ 0);
  match o with
  | None => mret None
  | Some dp =>
      ilock (Some dp);;
      o ← dirlookup dp name;
      match o with
      | Some (ip, _) =>
          iunlockput dp;;
          ilock (Some ip);;
          x ← get_inode ip;
          if (type =? T_FILE) && ((i_type x =? T_FILE) || (i_type x =? T_DEVICE)) then mret (Some ip)
          else iunlockput ip;; mret None
      | None =>
          d ← get_inode dp;
          o ← ialloc (i_dev d) type;
          match o with
          | None => iunlockput dp;; mret None
          | Some ip =>
              ilock (Some ip);;
              upd_inode ip (with_i_major major);;
              upd_inode ip (with_i_minor minor);;
              upd_inode ip (with_i_nlink 1);;
              iupdate ip;;
              x ← get_inode ip;
              bad ← (if type =? T_DIR then
                       r ← dirlink ip (str ".") (i_inum x);
                       if r <? 0 then mret true else
                       d ← get_inode dp;
                       r ← dirlink ip (str "..") (i_inum d);
                       mret (r <? 0)
                     else mret false);
              if bad : bool then create_fail ip dp else
              r ← dirlink dp name (i_inum x);
              if r <? 0 then create_fail ip dp else
              when (type =? T_DIR)
                (upd_inode dp (λ d, with_i_nlink (i16 (i_nlink d + 1)) d);;
                 iupdate dp);;
              iunlockput dp;;
              mret (Some ip)
          end
      end
  end.

(** The inode [sys_open] opens, locked; [None] after end_op on failure. *)
Definition open_inode (path : list Z) (omode : Z) : KM (option nat) :=
  if has omode O_CREATE then
    o ← create path T_FILE 0 0;
    match o with None => end_op;; mret None | Some ip => mret (Some ip) end
  else
    o ← namei path;
    match o with
    | None => end_op;; mret None
    | Some ip =>
        ilock (Some ip);;
        x ← get_inode ip;
        if (i_type x =? T_DIR) && negb (omode =? O_RDONLY) then
          iunlockput ip;; end_op;; mret None
        else mret (Some ip)
    end.
Definition open_fail (f : option nat) (ip : nat) : KM Z :=
  close_opt f;;
  iunlockput ip;;
  end_op;;
  mret (-1).
Definition sys_open : KM Z :=
  omode ← argint 1;
  path ← argstr 0 MAXPATH;
  match path with
  | None => mret (-1)
  | Some path =>
      begin_op;;
      o ← open_inode path omode;
      match o with
      | None => mret (-1)
      | Some ip =>
          x ← get_inode ip;
          if (i_type x =? T_DEVICE) && ((i_major x <? 0) || (NDEV <=? i_major x)) then
            iunlockput ip;; end_op;; mret (-1)
          else
          f ← filealloc;
          match f with
          | None => open_fail None ip
          | Some f =>
              fd ← fdalloc f;
              if fd <? 0 then open_fail (Some f) ip else
              (if i_type x =? T_DEVICE then
                 upd_file f (λ y, with_f_major (i_major x) (with_f_type FD_DEVICE y))
               else upd_file f (λ y, with_f_off 0 (with_f_type FD_INODE y)));;
              upd_file f (with_f_ip (Some ip));;
              upd_file f (with_f_readable (if has omode O_WRONLY then 0 else 1));;
              upd_file f (with_f_writable (if has omode O_WRONLY || has omode O_RDWR then 1 else 0));;
              when (has omode O_TRUNC && (i_type x =? T_FILE)) (itrunc ip);;
              iunlock (Some ip);;
              end_op;;
              mret fd
          end
      end
  end.

Definition sys_mkdir : KM Z :=
  begin_op;;
  path ← argstr 0 MAXPATH;
  o ← match path with None => mret None | Some path => create path T_DIR 0 0 end;
  match o with
  | None => end_op;; mret (-1)
  | Some ip => iunlockput ip;; end_op;; mret 0
  end.

Definition sys_mknod : KM Z :=
  begin_op;;
  major ← argint 1;
  minor ← argint 2;
  path ← argstr 0 MAXPATH;
  o ← match path with None => mret None | Some path => create path T_DEVICE (i16 major) (i16 minor) end;
  match o with
  | None => end_op;; mret (-1)
  | Some ip => iunlockput ip;; end_op;; mret 0
  end.

Definition sys_chdir : KM Z :=
  i ← curproc;
  begin_op;;
  path ← argstr 0 MAXPATH;
  o ← match path with None => mret None | Some path => namei path end;
  match o with
  | None => end_op;; mret (-1)
  | Some ip =>
      ilock (Some ip);;
      x ← get_inode ip;
      if negb (i_type x =? T_DIR) then iunlockput ip;; end_op;; mret (-1) else
      iunlock (Some ip);;
      p ← getproc i;
      c ← deref (p_cwd p);
      iput c;;
      end_op;;
      upd_proc i (with_p_cwd (Some ip));;
      mret 0
  end.

(** The loop of sys_exec from argument [i], [k] slots left: whether it ended
    at a null pointer, the pages allocated, and the strings in them. *)
Fixpoint exec_fetch (k : nat) (i uargv : Z) (pages : list Z) (args : list (list Z))
    : KM (bool * list Z * list (list Z)) :=
  match k with
  | O => mret (false, pages, args)
  | S k' =>
      o ← fetchaddr (u32 (uargv + 4 * i));
      match o with
      | None => mret (false, pages, args)
      | Some uarg =>
          if uarg =? 0 then mret (true, pages, args) else
          pa ← kalloc;
          if pa =? 0 then mret (false, pages, args) else
          '(o, l) ← fetchstr uarg PGSIZE;
          put_bytes pa l;;
          match o with
          | None => mret (false, pages ++ [pa], args)
          | Some a => exec_fetch k' (i + 1) uargv (pages ++ [pa]) (args ++ [a])
          end
      end
  end.
Definition sys_exec : KM Z :=
  uargv ← argaddr 1;
  path ← argstr 0 MAXPATH;
  match path with
  | None => mret (-1)
  | Some path =>
      '(ok, pages, args) ← exec_fetch (Z.to_nat MAXARG) 0 uargv [] [];
      ret ← (if ok : bool then kexec path args else mret (-1));
      for_each pages kfree;;
      mret ret
  end.

Definition sys_pipe : KM Z :=
  i ← curproc;
  fdarray ← argaddr 0;
  o ← pipealloc;
  match o with
  | None => mret (-1)
  | Some (rf, wf) =>
      fd0 ← fdalloc rf;
      fd1 ← (if fd0 <? 0 then mret (-1) else fdalloc wf);
      if fd1 <? 0 then
        when (0 <=? fd0) (upd_proc i (set_ofile (Z.to_nat fd0) None));;
        fileclose rf;;
        fileclose wf;;
        mret (-1)
      else
      p ← getproc i;
      r ← copyout (p_pagetable p) fdarray (bytes_of 4 fd0);
      r ← (if r <? 0 then mret r else copyout (p_pagetable p) (u32 (fdarray + 4)) (bytes_of 4 fd1));
      if r <? 0 then
        upd_proc i (set_ofile (Z.to_nat fd0) None);;
        upd_proc i (set_ofile (Z.to_nat fd1) None);;
        fileclose rf;;
        fileclose wf;;
        mret (-1)
      else mret 0
  end.
End sysfile.
