(* ===== verification/Syscall.v ===== *)
(** * kernel/sysproc.c and the dispatch of kernel/syscall.c

    [sys_pause] keeps [n] and [ticks0] while it sleeps: [sys_pause_resume]
    takes them. *)

From S2P Require Import Prelude Machine State CString Spinlock Printf Emu Kalloc Vm VmSpec VmUser VmCopy VmThms Sched Bytes Bio Log Console Pipe Fs File Proc Exec Sysfile.

Section syscall.
Context `{P : Platform}.

Definition sys_exit : KM Z := n ← argint 0; kexit n;; mret 0.
Definition sys_getpid : KM Z := i ← curproc; p ← getproc i; mret (p_pid p).
Definition sys_fork : KM Z := kfork.
Definition sys_wait : KM Z := p ← argaddr 0; kwait p.

Definition sys_sbrk : KM Z :=
  n ← argint 0;
  t ← argint 1;
  i ← curproc;
  p ← getproc i;
  let addr := p_sz p in
  if (t =? SBRK_EAGER) || (n <? 0) then
    r ← growproc n;
    mret (if r <? 0 then -1 else addr)
  else
    if u32 (addr + n) <? addr then mret (-1) else
    if TRAPFRAME <? u32 (addr + n) then mret (-1) else
    upd_proc i (λ p, with_p_sz (u32 (p_sz p + n)) p);;
    mret addr.

(** From the test of the loop on, tickslock held. *)
Definition sys_pause_loop (n ticks0 : Z) : KM Z :=
  ticks ← gets k_ticks;
  if u32 (ticks - ticks0) <? n then
    i ← curproc;
    k ← killed i;
    if negb (k =? 0) then release LkTicks;; mret (-1)
    else sleep ChTicks LkTicks;; mret 0
  else release LkTicks;; mret 0.
Definition sys_pause : KM Z :=
  n ← argint 0;
  let n := if n <? 0 then 0 else n in
  acquire LkTicks;;
  ticks0 ← gets k_ticks;
  sys_pause_loop n ticks0.
Definition sys_pause_resume (intena : bool) (n ticks0 : Z) : KM Z :=
  sleep_resume intena LkTicks;; sys_pause_loop n ticks0.

Definition sys_kill : KM Z := pid ← argint 0; kkill pid.

Definition sys_uptime : KM Z :=
  acquire LkTicks;;
  xticks ← gets k_ticks;
  release LkTicks;;
  mret xticks.

(** The table [syscalls] *)
Definition syscalls (num : Z) : option (KM Z) :=
  match num with
  | 1 => Some sys_fork | 2 => Some sys_exit | 3 => Some sys_wait | 4 => Some sys_pipe
  | 5 => Some sys_read | 6 => Some sys_kill | 7 => Some sys_exec | 8 => Some sys_fstat
  | 9 => Some sys_chdir | 10 => Some sys_dup | 11 => Some sys_getpid | 12 => Some sys_sbrk
  | 13 => Some sys_pause | 14 => Some sys_uptime | 15 => Some sys_open | 16 => Some sys_write
  | 17 => Some sys_mknod | 18 => Some sys_unlink | 19 => Some sys_link | 20 => Some sys_mkdir
  | 21 => Some sys_close
  | _ => None
  end.

Definition syscall : KM unit :=
  i ← curproc;
  p ← getproc i;
  r0 ← load32 (p_trapframe p + tf_r 0);
  let num := i32 r0 in
  match syscalls num with
  | Some f =>
      r ← f;
      p ← getproc i;
      store32 (p_trapframe p + tf_r 0) (u32 r)
  | None =>
      printf (str "%d %s: unknown sys call %d
") [AInt (p_pid p); AStr (Some (cstr (p_name p))); AInt num];;
      store32 (p_trapframe p + tf_r 0) (u32 (-1))
  end.
End syscall.
