(* ===== verification/Trap.v ===== *)
(** * kernel/trap.c, start.c, main.c, and forkret of proc.c

    The registers REG_CAUSE, REG_BADADDR and IC_PENDING are read from the
    state, where the hardware put them before the handler runs.  [usertrap]
    ends with the SATP value it returns to the trampoline.  [main] is the boot
    of the one CPU, up to the scheduler. *)

From S2P Require Import Prelude Machine State CString Spinlock Printf Emu Kalloc Vm VmSpec VmUser VmCopy VmThms Sched Bytes Bio Log Console Pipe Fs File Proc Exec Sysfile Syscall.

Definition CAUSE_SYSCALL : Z := 3.
Definition CAUSE_IRQ : Z := 6.
Definition CAUSE_LPGFAULT : Z := 8.
Definition CAUSE_SPGFAULT : Z := 9.

Section trap.
Context `{P : Platform}.

(** [evec[i] = v], the table REG_EVEC points at *)
Definition set_evec (i : nat) (v : Z) : KM unit :=
  upd_regs (λ r, with_r_evec (<[i := u32 v]> (r_evec r)) r).
Definition set_vectors (n : nat) (v : Z) : KM unit := for_each (seq 0 n) (λ i, set_evec i v).

Definition trapinit : KM unit := initlock LkTicks "time";; set_evec 15 p_kerneltrap.
Definition trapinithart : KM unit := set_vectors 10 p_kernelvec.

Definition clockintr : KM unit :=
  acquire LkTicks;;
  modify (λ s, with_k_ticks (u32 (k_ticks s + 1)) s);;
  wakeup (Some ChTicks);;
  release LkTicks;;
  ic_ack IC_BIT_TIMER.

Definition devintr : KM Z :=
  cause ← gets (λ s, r_cause (k_regs s));
  if negb (cause =? CAUSE_IRQ) then mret 0 else
  pending ← gets (λ s, r_pending (k_regs s));
  ret ← (if has pending IC_BIT_UART_RX then uartintr;; ic_ack IC_BIT_UART_RX;; mret 1 else mret 0);
  ret ← (if has pending IC_BIT_UART_TX then uartintr;; ic_ack IC_BIT_UART_TX;; mret 1 else mret ret);
  ret ← (if has pending IC_BIT_BLKDEV then virtio_disk_intr;; ic_ack IC_BIT_BLKDEV;; mret 1 else mret ret);
  ret ← (if has pending IC_BIT_TIMER then clockintr;; mret 2 else mret ret);
  mret (if ret =? 0 then 1 else ret).

Definition prepare_return : KM unit :=
  i ← curproc;
  intr_off;;
  set_vectors 10 (TRAMPOLINE + (p_uservec - p_trampoline));;
  p ← getproc i;
  satp ← gets (λ s, r_satp (k_regs s));
  store32 (p_trapframe p + tf_kernel_satp) satp;;
  store32 (p_trapframe p + tf_kernel_sp) (u32 (p_kstack p + PGSIZE));;
  store32 (p_trapframe p + tf_kernel_trap) p_usertrap;;
  store32 (p_trapframe p + tf_kernel_hartid) 0;;
  epc ← load32 (p_trapframe p + tf_epc);
  upd_regs (with_r_epc epc);;
  upd_regs (with_r_eflags 0);;
  upd_regs (with_r_estatus STATUS_IE).

(** The cause dispatch: [which_dev]. *)
Definition usertrap_dispatch (i : nat) (cause : Z) : KM Z :=
  if cause =? CAUSE_SYSCALL then
    k ← killed i;
    when (negb (k =? 0)) (kexit (-1));;
    syscall;;
    mret 0
  else
    which_dev ← devintr;
    if negb (which_dev =? 0) then mret which_dev else
    handled ← (if (cause =? CAUSE_SPGFAULT) || (cause =? CAUSE_LPGFAULT) then
                 p ← getproc i;
                 va ← gets (λ s, r_badaddr (k_regs s));
                 r ← vmfault (p_pagetable p) va (cause =? CAUSE_LPGFAULT);
                 mret (negb (r =? 0))
               else mret false);
    when (negb handled)
      (p ← getproc i;
       printf (str "usertrap(): unexpected cause 0x%x pid=%d
") [AInt cause; AInt (p_pid p)];;
       epc ← load32 (p_trapframe p + tf_epc);
       va ← gets (λ s, r_badaddr (k_regs s));
       printf (str "            epc=0x%x badaddr=0x%x
") [AInt epc; AInt va];;
       setkilled i);;
    mret 0.

(** From the last test on (a yield ends the thread's turn there). *)
Definition usertrap_return (i : nat) : KM Z :=
  prepare_return;;
  p ← getproc i;
  mret (MAKE_SATP (p_pagetable p)).
Definition usertrap_poll (i : nat) (cause : Z) : KM Z :=
  pending ← gets (λ s, r_pending (k_regs s));
  when ((cause =? CAUSE_SYSCALL) && has pending IC_BIT_TIMER) (clockintr;; yield);;
  usertrap_return i.

Definition usertrap : KM Z :=
  i ← curproc;
  set_vectors 10 p_kernelvec;;
  cause ← gets (λ s, r_cause (k_regs s));
  which_dev ← usertrap_dispatch i cause;
  k ← killed i;
  when (negb (k =? 0)) (kexit (-1));;
  when (which_dev =? 2) yield;;
  usertrap_poll i cause.
(** After the yield of a timer interrupt, and after the one of a poll. *)
Definition usertrap_resume (intena : bool) (i : nat) (cause : Z) : KM Z :=
  yield_resume intena;; usertrap_poll i cause.
Definition usertrap_poll_resume (intena : bool) (i : nat) : KM Z :=
  yield_resume intena;; usertrap_return i.

Definition kerneltrap : KM unit :=
  cause ← gets (λ s, r_cause (k_regs s));
  d ← devintr;
  if negb (d =? 0) then mret tt else
  epc ← gets (λ s, r_epc (k_regs s));
  baddr ← gets (λ s, r_badaddr (k_regs s));
  printf (str "kerneltrap: cause=0x%x epc=0x%x badaddr=0x%x
") [AInt cause; AInt epc; AInt baddr];;
  panic "kerneltrap".

(** ** kernel/proc.c: forkret
    The SATP value and the address of userret it jumps to. *)
Definition forkret : KM (Z * Z) :=
  i ← curproc;
  release (LkProc i);;
  first ← gets k_first;
  when (negb (first =? 0))
    (fsinit ROOTDEV;;
     modify (with_k_first 0);;
     r ← kexec (str "/init") [str "/init"];
     p ← getproc i;
     store32 (p_trapframe p + tf_r 0) (u32 r);;
     v ← load32 (p_trapframe p + tf_r 0);
     when (i32 v =? -1) (panic "exec"));;
  prepare_return;;
  p ← getproc i;
  mret (MAKE_SATP (p_pagetable p), u32 (TRAMPOLINE + (p_userret - p_trampoline))).

(** ** kernel/start.c, kernel/main.c *)
Definition timerinit : KM unit :=
  upd_regs (with_r_timer_period 100000);; upd_regs (with_r_timer_ctrl 3).

Definition say (msg : string) : KM unit := printf (str msg) [];; mret tt.

Definition main : KM (option nat) :=
  consoleinit;;
  printfinit;;
  say "
";;
  say "xv6 kernel is booting
";;
  say "
";;
  say "kinit...
";;
  kinit;;
  say "kvminit...
";;
  kvminit;;
  say "kvminithart...
";;
  kvminithart;;
  say "procinit...
";;
  procinit;;
  say "trapinit...
";;
  trapinit;;
  say "trapinithart...
";;
  trapinithart;;
  say "plicinit...
";;
  plicinit;;
  say "plicinithart...
";;
  plicinithart;;
  say "timerinit...
";;
  timerinit;;
  say "binit...
";;
  binit;;
  say "iinit...
";;
  iinit;;
  say "fileinit...
";;
  fileinit;;
  say "virtio_disk_init...
";;
  virtio_disk_init;;
  say "userinit...
";;
  userinit;;
  say "userinit done, calling scheduler
";;
  modify (with_k_started 1);;
  scheduler_start.

Definition start : KM (option nat) :=
  upd_regs (with_r_satp 0);;
  set_vectors 16 p_kernelvec;;
  main.
End trap.
