(* ===== verification/ProcThms.v ===== *)
(** * Properties of kernel/proc.c

    Killing a process, and the scheduler: every pass switches to the first
    RUNNABLE process in table order, so a process that stays RUNNABLE is run
    before NPROC other switches have happened. *)

From S2P Require Import Prelude Machine State CString Spinlock Printf Emu Kalloc Vm VmSpec VmUser VmCopy VmThms Sched Bytes Bio Log Console Pipe Fs File Proc.

(** ** kkill *)
Definition kill1 (p : proc) : proc :=
  let p := with_p_killed 1 p in
  if bool_decide (p_state p = SLEEPING) then with_p_state RUNNABLE p else p.

Lemma release_proc {B} i s l (k : KM B) :
  kctx s → lock_ready (LkProc i) s →
  (release (LkProc i);; k) (acq (LkProc i) (with_k_procs l s)) = k (with_k_procs l s).
Proof.
  intros Hk [n Hl]. apply (bind_Ok (release _) (λ _, k) _ tt). apply release_acq_id; [|by exists n].
  by eapply kctx_ext, Hk.
Qed.

Lemma kkill_miss pid i p l s :
  kctx s → lock_ready (LkProc i) s → k_procs s !! i = Some p → p_pid p ≠ pid →
  kkill_loop (i :: l) pid s = kkill_loop l pid s.
Proof.
  intros Hk Hl Hp Hne. cbn [kkill_loop]. rewrite (bind_Ok _ _ _ _ _ (acquire_ready _ _ Hk Hl)).
  rewrite (getproc_ok _ (acq (LkProc i) s) i p Hp). apply Z.eqb_neq in Hne. rewrite Hne.
  by rewrite (bind_Ok _ _ _ _ _ (release_acq_id _ _ Hk Hl)).
Qed.

Lemma kkill_hit pid i p l s :
  kctx s → lock_ready (LkProc i) s → k_procs s !! i = Some p → p_pid p = pid →
  kkill_loop (i :: l) pid s = Ok 0 (with_k_procs (<[i := kill1 p]> (k_procs s)) s).
Proof.
  intros Hk Hl Hp <-. cbn [kkill_loop]. rewrite (bind_Ok _ _ _ _ _ (acquire_ready _ _ Hk Hl)).
  rewrite (getproc_ok _ (acq (LkProc i) s) i p Hp), Z.eqb_refl.
  rewrite (bind_Ok _ _ _ _ _ (upd_proc_ok i _ (acq (LkProc i) s) p Hp)).
  set (p1 := with_p_killed 1 p). set (s1 := with_k_procs _ (acq _ s)).
  assert (k_procs s1 !! i = Some p1) as Hp1
    by (apply list_lookup_insert_eq; by eapply lookup_lt_Some).
  rewrite (getproc_ok _ s1 i p1 Hp1). unfold kill1. fold p1. cbv zeta.
  destruct (bool_decide (p_state p1 = SLEEPING)); cbn [when].
  - rewrite (bind_Ok _ _ _ _ _ (upd_proc_ok i _ s1 p1 Hp1)).
    change (with_k_procs ?x s1) with (acq (LkProc i) (with_k_procs x s)).
    rewrite release_proc by done. cbn [k_procs with_k_procs s1]. by rewrite list_insert_insert_eq.
  - rewrite bind_ret. change s1 with (acq (LkProc i) (with_k_procs (<[i := p1]> (k_procs s)) s)).
    by rewrite release_proc.
Qed.

Lemma kkill_skip pid s : calm s → ∀ n a, (a + n <= NPROC)%nat →
  (∀ i p, (a <= i < a + n)%nat → k_procs s !! i = Some p → p_pid p ≠ pid) →
  ∀ l, kkill_loop (seq a n ++ l) pid s = kkill_loop l pid s.
Proof.
  intros Hc. induction n as [|n IH]; intros a Ha H l; [done|]. cbn [seq app].
  destruct (lookup_lt_is_Some_2 (k_procs s) a) as [p Hp]; [rewrite (calm_procs s Hc); lia|].
  rewrite (kkill_miss pid a p); [|apply Hc|apply (calm_locks s Hc); cbn; lia|done|].
  - apply IH; [lia|]. intros i q Hi. apply H. lia.
  - apply (H a p); [lia|done].
Qed.

(** C24: [kkill pid] marks the first process with that pid as killed and, if it
    sleeps, makes it RUNNABLE so that it notices; nothing else changes.  When
    no process has the pid it returns -1 and changes nothing.  The pid 0 of
    free table entries is not excluded. *)
Theorem kkill_spec s pid :
  calm s →
  (∀ i p, k_procs s !! i = Some p → p_pid p = pid →
     (∀ j q, (j < i)%nat → k_procs s !! j = Some q → p_pid q ≠ pid) →
     kkill pid s = Ok 0 (with_k_procs (<[i := kill1 p]> (k_procs s)) s)) ∧
  ((∀ i p, k_procs s !! i = Some p → p_pid p ≠ pid) → kkill pid s = Ok (-1) s).
Proof.
  intros Hc. split.
  - intros i p Hp Hpid Hfirst. assert (i < NPROC)%nat as Hi.
    { rewrite <- (calm_procs s Hc). by eapply lookup_lt_Some. }
    unfold kkill. replace NPROC with (i + S (NPROC - S i))%nat by lia.
    rewrite seq_app, (kkill_skip pid s Hc) by (lia || (intros; by eapply Hfirst; [|eassumption]; lia)).
    apply kkill_hit; try done; [apply Hc|by apply (calm_locks s Hc)].
  - intros H. unfold kkill. rewrite <- (app_nil_r (seq 0 NPROC)).
    rewrite (kkill_skip pid s Hc); [done|lia|]. intros. by eapply H.
Qed.

Lemma kkill_spec_witness :
  kkill 0 sched_demo =
    Ok 0 (with_k_procs (<[1%nat := kill1 proc0]> (k_procs sched_demo)) sched_demo).
Proof.
  apply (kkill_spec sched_demo 0).
  - apply sched_demo_calm.
  - reflexivity.
  - reflexivity.
  - intros [|j] q Hj Hq; [|lia]. injection Hq as <-. discriminate.
Defined.

(** ** The scheduler *)
(** The state of the scheduler between two rounds of its inner loop. *)
Record scanning (s : kstate) : Prop := {
  sn_status : 0 <= r_status (k_regs s) < 4294967296;
  sn_noff : c_noff (k_cpu s) = 0;
  sn_locks : ∀ j, (j < NPROC)%nat → lock_ready (LkProc j) s;
  sn_procs : length (k_procs s) = NPROC }.

(** Process [i] holds its lock at a switch to or from the scheduler. *)
Record switched (i : nat) (s : kstate) : Prop := {
  sw_status : 0 <= r_status (k_regs s) < 4294967296;
  sw_off : has (r_status (k_regs s)) STATUS_IE = false;
  sw_noff : c_noff (k_cpu s) = 1;
  sw_lt : (i < NPROC)%nat;
  sw_lock : ∃ n, k_locks s !! LkProc i = Some (mk_spinlock 1 n (Some cpuid));
  sw_locks : ∀ j, (j < NPROC)%nat → j ≠ i → lock_ready (LkProc j) s;
  sw_procs : length (k_procs s) = NPROC }.

Definition runnable (s : kstate) (k : nat) : Prop :=
  ∃ p, k_procs s !! k = Some p ∧ p_state p = RUNNABLE.

(** [acquire] when no lock is held: interrupts, if enabled, go off. *)
Definition sacq (lk : lockid) (s : kstate) : kstate :=
  with_k_locks (<[lk := mk_spinlock 1 (lk_name (lock_at s lk)) (Some cpuid)]> (k_locks s))
    (with_k_cpu (with_c_noff 1 (with_c_intena (has (r_status (k_regs s)) STATUS_IE) (k_cpu s)))
      (with_k_regs (with_r_status (Z.land (r_status (k_regs s)) (u32 (Z.lnot STATUS_IE))) (k_regs s)) s)).

Lemma acquire_idle lk s :
  c_noff (k_cpu s) = 0 → lock_ready lk s → acquire lk s = Ok tt (sacq lk s).
Proof.
  intros Hn [name Hl]. unfold acquire. rewrite (bind_Ok _ _ _ _ _ (push_off_eq s)). cbv zeta.
  rewrite Hn. cbn [Z.eqb].
  unfold holding, cas_lock, set_lock, gets, modify, mbind, M_bind, mret, M_ret, sacq, lock_at.
  cbn. repeat (rewrite Hl; cbn). rewrite lookup_insert_eq. cbn. rewrite insert_insert_eq. cbn.
  by rewrite Hn.
Qed.

(** [release] of the last lock held: interrupts come back if they were on. *)
Definition srel (lk : lockid) (s : kstate) : kstate :=
  with_k_locks (<[lk := mk_spinlock 0 (lk_name (lock_at s lk)) None]> (k_locks s))
    (with_k_cpu (with_c_noff 0 (k_cpu s))
      (if c_intena (k_cpu s)
       then with_k_regs (with_r_status (Z.lor (r_status (k_regs s)) STATUS_IE) (k_regs s)) s else s)).

Lemma release_last lk s n :
  k_locks s !! lk = Some (mk_spinlock 1 n (Some cpuid)) → c_noff (k_cpu s) = 1 →
  has (r_status (k_regs s)) STATUS_IE = false →
  release lk s = Ok tt (srel lk s).
Proof.
  intros Hl Hn Hoff. unfold release, holding, set_lock, gets, modify, mbind, M_bind, mret, M_ret, srel, lock_at.
  cbn. rewrite Hl. cbn. rewrite bool_decide_true by done. cbn. rewrite Hl. cbn.
  rewrite lookup_insert_eq. cbn. rewrite insert_insert_eq.
  rewrite pop_off_eq; cbn; [|done|lia]. rewrite Hn. cbn. by destruct (c_intena (k_cpu s)).
Qed.

Lemma set_IE_range x : 0 <= x < 4294967296 → 0 <= Z.lor x STATUS_IE < 4294967296.
Proof.
  intros Hx. assert (0 <= Z.lor x STATUS_IE) by (apply Z.lor_nonneg; unfold STATUS_IE; lia).
  split; [done|]. destruct (Z.eq_dec (Z.lor x STATUS_IE) 0) as [->|]; [lia|].
  apply (Z.log2_lt_pow2 _ 32); [lia|]. rewrite Z.log2_lor by (unfold STATUS_IE; lia).
  apply Z.max_lub_lt; [|done]. destruct (Z.eq_dec x 0) as [->|]; [done|]. apply Z.log2_lt_pow2; lia.
Qed.

Lemma srel_scanning i s : switched i s → scanning (srel (LkProc i) s) ∧ k_procs (srel (LkProc i) s) = k_procs s.
Proof.
  intros [H1 H2 H3 H4 [n H5] H6 H7]. split; [|unfold srel; cbn; by destruct (c_intena _)].
  split.
  - unfold srel. cbn. destruct (c_intena _); [|done]. by apply set_IE_range.
  - done.
  - intros j Hj. unfold lock_ready, srel, lock_at. cbn. rewrite H5. cbn.
    destruct (decide (j = i)) as [->|]; [rewrite lookup_insert_eq; eauto|].
    destruct (H6 j) as [m ?]; [done..|]. exists m. by rewrite lookup_insert_ne by congruence.
  - unfold srel. cbn. by destruct (c_intena _).
Qed.

Lemma sacq_switched i s : (i < NPROC)%nat → scanning s → switched i (sacq (LkProc i) s).
Proof.
  intros Hi [H1 H2 H3 H4]. split; cbn; [by apply clear_IE_range|by apply has_clear_IE|done|done| | |done].
  - eexists. apply lookup_insert_eq.
  - intros j Hj Hne. destruct (H3 j Hj) as [n ?]. exists n. cbn. by rewrite lookup_insert_ne by congruence.
Qed.

(** The first RUNNABLE process of a list of table entries. *)
Definition first_in (s : kstate) (l : list nat) (o : option nat) : Prop :=
  match o with
  | None => ∀ j, j ∈ l → ¬ runnable s j
  | Some i => ∃ l1 l2, l = l1 ++ i :: l2 ∧ runnable s i ∧ ∀ j, j ∈ l1 → ¬ runnable s j
  end.
(** What a scan leaves behind. *)
Definition scanned (s : kstate) (o : option nat) (s' : kstate) : Prop :=
  match o with
  | None => scanning s' ∧ k_procs s' = k_procs s
  | Some i => switched i s' ∧ c_proc (k_cpu s') = Some i ∧
      ∃ p, k_procs s !! i = Some p ∧ k_procs s' = <[i := with_p_state RUNNING p]> (k_procs s)
  end.

Lemma scanned_procs s1 s2 o s' : k_procs s1 = k_procs s2 → scanned s1 o s' → scanned s2 o s'.
Proof. unfold scanned. by intros ->. Qed.

Lemma pick_spec i s : scanning s → (i < NPROC)%nat →
  wp (scheduler_pick i) (λ b s', if b : bool then runnable s i ∧ scanned s (Some i) s'
                                 else ¬ runnable s i ∧ scanned s None s') s.
Proof.
  intros Hs Hi. destruct (lookup_lt_is_Some_2 (k_procs s) i) as [p Hp]; [by rewrite sn_procs|].
  pose proof (acquire_idle (LkProc i) s (sn_noff s Hs) (sn_locks s Hs i Hi)) as E.
  pose proof (sacq_switched i s Hi Hs) as Hw. unfold scheduler_pick.
  assert (∀ B (f : proc → KM B), (q ← getproc i; f q) (sacq (LkProc i) s) = f p (sacq (LkProc i) s)) as G
    by (intros; by apply getproc_ok).
  unfold wp. rewrite (bind_Ok _ _ _ _ _ E), G. case_decide as Hr.
  - cbn -[sacq]. split; [by exists p|]. split; [|split; [done|by exists p]].
    destruct Hw as [W1 W2 W3 W4 W5 W6 W7]. split; try done. cbn. by rewrite length_insert.
  - destruct (sw_lock _ _ Hw) as [n Hl].
    rewrite (bind_Ok _ _ _ _ _ (release_last _ _ n Hl (sw_noff _ _ Hw) (sw_off _ _ Hw))).
    cbn -[srel sacq]. split; [|exact (srel_scanning i _ Hw)].
    intros (q & Hq & Hq'). congruence.
Qed.

Lemma scan_spec l : ∀ s, scanning s → (∀ j, j ∈ l → (j < NPROC)%nat) →
  wp (scheduler_scan l) (λ o s', first_in s l o ∧ scanned s o s') s.
Proof.
  induction l as [|i l IH]; intros s Hs Hl; cbn [scheduler_scan].
  { apply wp_ret. split; [|done]. intros j Hj. by apply not_elem_of_nil in Hj. }
  apply wp_bind. eapply wp_mono; [apply (pick_spec i s Hs); apply Hl; left|].
  intros [] s1 [Hr Hsc].
  - apply wp_ret. split; [|done]. exists [], l. split_and!; [done..|]. intros j Hj. by apply not_elem_of_nil in Hj.
  - destruct Hsc as [Hs1 Hp]. eapply wp_mono; [apply (IH s1 Hs1); intros; apply Hl; by right|].
    assert (∀ k, runnable s1 k ↔ runnable s k) as R by (intros; unfold runnable; by rewrite Hp).
    intros [j|] s2 [Hf Hc]; unfold scanned in *; rewrite Hp in Hc; (split; [|done]).
    + destruct Hf as (l1 & l2 & -> & Hj & Hn). exists (i :: l1), l2. split_and!; [done|by apply R|].
      intros k [->|Hk]%elem_of_cons; [done|]. rewrite <- R. by apply Hn.
    + intros k [->|Hk]%elem_of_cons; [done|]. rewrite <- R. by apply Hf.
Qed.

(** How far after [i] entry [k] comes in the cyclic order of the table. *)
Definition dist (i k : nat) : nat := if decide (i < k)%nat then k - i else k + NPROC - i.

Lemma runnable_lt s k : length (k_procs s) = NPROC → runnable s k → (k < NPROC)%nat.
Proof. intros <- (p & Hp & _). by eapply lookup_lt_Some. Qed.

(** A split of an interval is at its element. *)
Lemma seq_split a n l1 l2 j :
  seq a n = l1 ++ j :: l2 → (j = a + length l1)%nat ∧ ∀ k, (a <= k < j)%nat → k ∈ l1.
Proof.
  intros E. assert (seq a n !! length l1 = Some j) as H by (rewrite E; by apply list_lookup_middle).
  apply lookup_seq in H as [-> Hl]. split; [done|]. intros k Hk. apply list_elem_of_lookup.
  exists (k - a)%nat. rewrite <- (lookup_app_l l1 (a + length l1 :: l2)%nat), <- E by lia.
  apply lookup_seq. lia.
Qed.

Lemma turn_spec i s k : switched i s → runnable s k →
  wp (scheduler_turn i) (λ o s', ∃ j, o = Some j ∧ scanned s (Some j) s' ∧
     runnable s j ∧ ∀ k, runnable s k → (dist i j <= dist i k)%nat) s.
Proof.
  intros Hw Hk. pose proof (sw_lt _ _ Hw) as Hi. unfold scheduler_turn, scheduler_next, scheduler_return.
  set (s1 := with_k_cpu (with_c_proc None (k_cpu s)) s).
  assert (switched i s1) as Hw1 by (destruct Hw; by split). destruct (sw_lock _ _ Hw1) as [n Hl].
  pose proof (release_last _ _ n Hl (sw_noff _ _ Hw1) (sw_off _ _ Hw1)) as E.
  destruct (srel_scanning i s1 Hw1) as [Hs2 Hp2]. set (s2 := srel (LkProc i) s1) in *.
  assert (∀ m, runnable s2 m ↔ runnable s m) as R2 by (intros; unfold runnable; by rewrite Hp2).
  change (k_procs s1) with (k_procs s) in Hp2.
  apply wp_bind, wp_bind. eapply wp_Ok; [exact E|]. fold s2.
  eapply wp_mono; [apply (scan_spec _ s2 Hs2); intros j [? ?]%elem_of_seq; lia|].
  intros [j|] s3 [Hf Hc].
  - apply wp_ret. exists j. destruct Hf as (l1 & l2 & El & Hj & Hn).
    apply seq_split in El as [Ej Hlt]. apply (scanned_procs s2 s) in Hc; [|done].
    split; [done|]. split; [done|]. apply R2 in Hj. split; [done|]. pose proof (runnable_lt s j (sw_procs _ _ Hw) Hj). intros m Hm. pose proof (runnable_lt s m (sw_procs _ _ Hw) Hm).
    unfold dist. repeat case_decide; try lia. destruct (decide (m < j)%nat); [|lia].
    destruct (Hn m); [apply Hlt; lia|by apply R2].
  - destruct Hc as [Hs3 Hp3]. rewrite Hp2 in Hp3. unfold scheduler_idle, scheduler_pass. cbn [negb when].
    apply wp_bind, wp_ret, wp_bind. unfold intr_on, set_status.
    apply wp_bind, wp_gets, wp_modify.
    set (s4 := with_k_regs _ s3). assert (scanning s4) as Hs4.
    { destruct Hs3. split; try done. by apply set_IE_range. }
    assert (∀ m, runnable s4 m ↔ runnable s m) as R4
      by (intros; unfold runnable; change (k_procs s4) with (k_procs s3); by rewrite Hp3).
    eapply wp_mono; [apply (scan_spec _ s4 Hs4); intros j [? ?]%elem_of_seq; lia|].
    assert (∀ m, runnable s m → (m <= i)%nat) as Hle.
    { intros m Hm. pose proof (runnable_lt s m (sw_procs _ _ Hw) Hm). apply Nat.nlt_ge. intros ?.
      apply (Hf m); [apply elem_of_seq; lia|by apply R2]. }
    intros [j|] s5 [Hf5 Hc5].
    + exists j. destruct Hf5 as (l1 & l2 & El & Hj & Hn). apply seq_split in El as [Ej Hlt].
      apply (scanned_procs s4 s) in Hc5; [|done].
      apply R4 in Hj. split; [done|]. split; [done|]. split; [done|]. intros m Hm. apply Hle in Hj as ?. apply Hle in Hm as ?.
      unfold dist. repeat case_decide; try lia. destruct (decide (m < j)%nat); [|lia].
      destruct (Hn m); [apply Hlt; lia|by apply R4].
    + exfalso. apply (Hf5 k); [|by apply R4]. pose proof (runnable_lt s k (sw_procs _ _ Hw) Hk).
      apply elem_of_seq. lia.
Qed.

(** [starved k n i]: there was a sequence of [n] turns of the scheduler, the
    last of which switched to [i], with any execution of processes in between,
    in which [k] was RUNNABLE at every turn and never picked. *)
Inductive starved (k : nat) : nat → nat → Prop :=
| starved_0 i s : switched i s → starved k 0 i
| starved_S n i s j s' :
    starved k n i → switched i s → runnable s k →
    scheduler_turn i s = Ok (Some j) s' → j ≠ k → starved k (S n) j.

(** C20: the scheduler starves nobody.  Whenever the process that ran last
    gives up the CPU and some process is RUNNABLE, the scheduler switches to a
    RUNNABLE process; and a process [k] that stays RUNNABLE is picked before
    NPROC turns have passed, whatever the processes do in between. *)
Theorem scheduler_no_starvation k n i :
  starved k n i →
  (n < NPROC)%nat ∧
  ∀ s, switched i s → runnable s k →
    ∃ j s' p, scheduler_turn i s = Ok (Some j) s' ∧ k_procs s !! j = Some p ∧ p_state p = RUNNABLE
      ∧ k_procs s' = <[j := with_p_state RUNNING p]> (k_procs s) ∧ c_proc (k_cpu s') = Some j.
Proof.
  intros H. split.
  - assert (k < NPROC ∨ n = 0)%nat as Hk.
    { destruct H as [|n i s j s' _ Hw Hr]; [by right|left]. by apply (runnable_lt s k (sw_procs _ _ Hw)). }
    destruct Hk as [Hk| ->]; [|apply Nat.ltb_lt; reflexivity].
    assert (n + dist i k <= NPROC ∧ 1 <= dist i k ∧ i < NPROC)%nat as [? ?]; [|lia].
    induction H as [i s Hw|n i s j s' H IH Hw Hr Et Hj].
    + pose proof (sw_lt _ _ Hw). unfold dist. case_decide; lia.
    + destruct IH as (I1 & I2 & I3). destruct (wp_inv _ _ _ (turn_spec i s k Hw Hr)) as (o & s1 & Et' & j' & -> & Hc & Hrj & Hd).
      rewrite Et in Et'. injection Et' as <- <-. specialize (Hd k Hr).
      pose proof (runnable_lt s j (sw_procs _ _ Hw) Hrj). unfold dist in *. repeat case_decide; lia.
  - intros s Hw Hr. destruct (wp_inv _ _ _ (turn_spec i s k Hw Hr)) as (o & s1 & Et & j & -> & Hc & Hrj & Hd).
    destruct Hc as (_ & Hcp & p & Hp & Hps). exists j, s1, p. split_and!; try done.
    destruct Hrj as (q & Hq & ?). congruence.
Qed.

(** Process 0 has just yielded; processes 2 and 5 are RUNNABLE too. *)
Definition turn_demo : kstate :=
  with_k_locks (<[LkProc 0 := mk_spinlock 1 "proc" (Some cpuid)]> boot_locks)
    (with_k_cpu (with_c_noff 1 (with_c_proc (Some 0%nat) (k_cpu kstate0)))
      (with_k_procs (<[5%nat := with_p_state RUNNABLE proc0]> (<[2%nat := with_p_state RUNNABLE proc0]>
         (<[0%nat := with_p_state RUNNABLE proc0]> (replicate NPROC proc0)))) kstate0)).

Lemma turn_demo_switched : switched 0 turn_demo.
Proof.
  split; [cbn; lia|done|done|apply Nat.ltb_lt; reflexivity| | |done].
  - exists "proc". apply lookup_insert_eq.
  - intros j Hj Hne. exists "lock". cbn [k_locks turn_demo with_k_locks].
    rewrite lookup_insert_ne by congruence. by apply boot_locks_ready.
Qed.

Lemma scheduler_no_starvation_witness : ∃ j, starved 5 1 j ∧ (1 < NPROC)%nat.
Proof.
  assert (runnable turn_demo 5) as Hr by (exists (with_p_state RUNNABLE proc0); split; reflexivity).
  destruct (wp_inv _ _ _ (turn_spec 0 turn_demo 5 turn_demo_switched Hr))
    as (o & s1 & Et & j & -> & _ & _ & Hd).
  assert (starved 5 1 j) as H.
  { apply (starved_S 5 0 0 turn_demo j s1); [exact (starved_0 5 0 turn_demo turn_demo_switched)|
      exact turn_demo_switched|exact Hr|exact Et|].
    assert (runnable turn_demo 2) as H2 by (exists (with_p_state RUNNABLE proc0); split; reflexivity).
    apply Hd in H2. intros ->. vm_compute in H2. lia. }
  exists j. split; [exact H|]. apply (scheduler_no_starvation 5 1 j H).
Defined.
