(* ===== verification/User.v ===== *)
(** * User programs: system calls as events

    A user program is an interaction tree whose events are the system calls of
    user/user.h; what it keeps in its own memory is in the arguments and the
    bound variables.  [must h Q t s]: whatever the system answers within [h],
    the program [t] started in [s] comes to an end, by returning or by
    [exit], and then [Q] holds.  The rules below are those of a total-correctness
    logic: sequencing, and loops with a variant. *)

From S2P Require Import Prelude Machine.
From ITree Require Import ITree.
From Stdlib Require Import Wf_nat.

(** ** System calls (user/user.h) *)
Variant sysE : Type → Type :=
| Sys_fork : sysE Z
| Sys_exit (n : Z) : sysE Empty_set
| Sys_wait : sysE (Z * Z)
| Sys_pipe : sysE (Z * (Z * Z))
| Sys_write (fd : Z) (l : list Z) : sysE Z
| Sys_read (fd n : Z) : sysE (Z * list Z)
| Sys_close (fd : Z) : sysE Z
| Sys_kill (pid : Z) : sysE Z
| Sys_exec (path : list Z) (argv : list (list Z)) : sysE Z
| Sys_open (path : list Z) (mode : Z) : sysE Z
| Sys_mknod (path : list Z) (major minor : Z) : sysE Z
| Sys_unlink (path : list Z) : sysE Z
| Sys_fstat (fd : Z) : sysE (Z * list Z)
| Sys_link (old new : list Z) : sysE Z
| Sys_mkdir (path : list Z) : sysE Z
| Sys_chdir (path : list Z) : sysE Z
| Sys_dup (fd : Z) : sysE Z
| Sys_getpid : sysE Z
| Sys_sbrk (n t : Z) : sysE Z
| Sys_pause (n : Z) : sysE Z
| Sys_uptime : sysE Z.

Definition prog (A : Type) : Type := itree sysE A.
#[export] Instance prog_ret : MRet prog := λ A a, Ret a.
#[export] Instance prog_bind : MBind prog := λ A B f m, ITree.bind m f.

Definition call {A} (e : sysE A) : prog A := ITree.trigger e.
(** [exit] does not return. *)
Definition exit {A} (n : Z) : prog A := x ← call (Sys_exit n); match x : Empty_set with end.
(** [while] loops: [inl] goes round again, [inr] leaves. *)
Definition loop {I A} (f : I → prog (I + A)) (i : I) : prog A := ITree.iter f i.
Definition pwhen (b : bool) (m : prog unit) : prog unit := if b then m else mret tt.
Fixpoint each {A} (l : list A) (f : A → prog unit) : prog unit :=
  match l with [] => mret tt | x :: l' => f x;; each l' f end.

(** ** Runs *)
Inductive outcome (A : Type) : Type := Returned (a : A) | Exited (n : Z).
Arguments Returned {A} a.
Arguments Exited {A} n.

Section must.
Context {S : Type} (h : ∀ X, sysE X → S → X → S → Prop).
Arguments h {X} _ _ _ _.

Inductive must {A : Type} (Q : outcome A → S → Prop) : prog A → S → Prop :=
| must_ret' t s a : observe t = RetF a → Q (Returned a) s → must Q t s
| must_tau' t s t' : observe t = TauF t' → must Q t' s → must Q t s
| must_exit' t s n k : observe t = VisF (Sys_exit n) k → Q (Exited n) s → must Q t s
| must_call' t s X (e : sysE X) k : observe t = VisF e k → (∃ x s', h e s x s') →
    (∀ x s', h e s x s' → must Q (k x) s') → must Q t s.

Lemma must_ret {A} (Q : outcome A → S → Prop) a s : Q (Returned a) s → must Q (mret a) s.
Proof. by apply must_ret'. Qed.

Lemma must_exit {A} (Q : outcome A → S → Prop) n s : Q (Exited n) s → must Q (exit n) s.
Proof. intros H. eapply must_exit'; [cbn; reflexivity|done]. Qed.

Lemma must_mono {A} (P Q : outcome A → S → Prop) t s :
  must P t s → (∀ o s', P o s' → Q o s') → must Q t s.
Proof.
  intros H HPQ. induction H as [t s a E H|t s t' E _ IH|t s n k E H|t s X e k E Hp _ IH].
  - by eapply must_ret'; [|apply HPQ].
  - by eapply must_tau'.
  - by eapply must_exit'; [|apply HPQ].
  - by eapply must_call'.
Qed.

Lemma observe_bind {A B} (t : prog A) (f : A → prog B) :
  observe (t ≫= f) = match observe t with
    | RetF r => observe (f r) | TauF t' => TauF (t' ≫= f) | VisF e k => VisF e (λ x, (k x : prog A) ≫= f) end.
Proof.
  change (observe (t ≫= f)) with (observe (match observe t with
    | RetF r => f r | TauF t' => Tau (t' ≫= f) | VisF e k => Vis e (λ x, (k x : prog A) ≫= f) end)).
  by destruct (observe t).
Qed.

Lemma must_bind {A B} (Q : outcome B → S → Prop) (t : prog A) (f : A → prog B) s :
  must (λ o s', match o with Returned a => must Q (f a) s' | Exited n => Q (Exited n) s' end) t s →
  must Q (t ≫= f) s.
Proof.
  intros H. induction H as [t s a E H|t s t' E _ IH|t s n k E H|t s X e k E Hp _ IH].
  - remember (f a) as u eqn:Eu. assert (observe (t ≫= f) = observe u) as Eo by (rewrite observe_bind, E; by subst u).
    clear Eu. destruct H as [u s b E' H|u s t' E' H|u s n k E' H|u s X e k E' Hp H].
    + eapply must_ret'; [by rewrite Eo|done].
    + eapply must_tau'; [by rewrite Eo|done].
    + eapply must_exit'; [by rewrite Eo|done].
    + eapply must_call'; [by rewrite Eo|done|done].
  - eapply must_tau'; [by rewrite observe_bind, E|exact IH].
  - eapply must_exit'; [by rewrite observe_bind, E|done].
  - eapply must_call'; [by rewrite observe_bind, E|done|exact IH].
Qed.

Lemma must_call {A} (Q : outcome A → S → Prop) (e : sysE A) s :
  (∃ x s', h e s x s') → (∀ x s', h e s x s' → Q (Returned x) s') → must Q (call e) s.
Proof.
  intros Hp H. eapply must_call'; [cbn; reflexivity|done|]. intros x s' Hx.
  eapply must_ret'; [cbn; reflexivity|by apply H].
Qed.

(** One step of a program that starts with a system call. *)
Lemma must_step {A B} (Q : outcome B → S → Prop) (e : sysE A) (f : A → prog B) s :
  (∃ x s', h e s x s') → (∀ x s', h e s x s' → must Q (f x) s') → must Q (call e ≫= f) s.
Proof. intros Hp H. apply must_bind, must_call; [done|]. exact H. Qed.

(** Loops: an invariant [I n] whose [n] goes down in each round. *)
Lemma must_loop_down {J A} (Q : outcome A → S → Prop) (f : J → prog (J + A)) (I : nat → J → S → Prop) :
  (∀ n i s, I n i s → must (λ o s', match o with
     | Returned (inl j) => ∃ n', (n' < n)%nat ∧ I n' j s'
     | Returned (inr a) => Q (Returned a) s'
     | Exited n => Q (Exited n) s'
     end) (f i) s) →
  ∀ n i s, I n i s → must Q (loop f i) s.
Proof.
  intros Hf n. induction n as [n IH] using lt_wf_ind. intros i s HI.
  assert (must Q (f i ≫= λ lr, match lr with inl j => Tau (loop f j) | inr r => Ret r end) s) as H.
  { apply must_bind. eapply must_mono; [by apply (Hf n)|]. intros [[j|a]|m] s' Ho; [|by apply must_ret|done].
    destruct Ho as (n' & Hn & HI'). eapply must_tau'; [reflexivity|]. by eapply IH. }
  remember (f i ≫= _) as u eqn:Eu. assert (observe (loop f i) = observe u) as Eo by (by subst u).
  clear Eu. destruct H as [u s b E' H|u s t' E' H|u s m k E' H|u s X e k E' Hp H].
  - eapply must_ret'; [by rewrite Eo|done].
  - eapply must_tau'; [by rewrite Eo|done].
  - eapply must_exit'; [by rewrite Eo|done].
  - eapply must_call'; [by rewrite Eo|done|done].
Qed.
(** With a variant [v] of the state. *)
Lemma must_loop {J A} (Q : outcome A → S → Prop) (f : J → prog (J + A)) (I : J → S → Prop) (v : J → S → nat) :
  (∀ i s, I i s → must (λ o s', match o with
     | Returned (inl j) => I j s' ∧ (v j s' < v i s)%nat
     | Returned (inr a) => Q (Returned a) s'
     | Exited n => Q (Exited n) s'
     end) (f i) s) →
  ∀ i s, I i s → must Q (loop f i) s.
Proof.
  intros Hf i s HI. apply (must_loop_down Q f (λ n i s, I i s ∧ n = v i s)) with (v i s); [|done].
  intros n j s' [Hj ->]. eapply must_mono; [by apply Hf|]. intros [[k|a]|m] s'' Ho; [|done|done].
  destruct Ho as [Hk Hv]. by exists (v k s'').
Qed.
End must.

(** A system [h1] that keeps more in its state than [h2]: what holds of runs
    under [h1] holds of runs under [h2]. *)
Lemma must_refine {S1 S2 A} (h1 : ∀ X, sysE X → S1 → X → S1 → Prop) (h2 : ∀ X, sysE X → S2 → X → S2 → Prop)
    (f : S1 → S2) (Q : outcome A → S1 → Prop) t s :
  (∀ X (e : sysE X) s x s', h1 X e s x s' → h2 X e (f s) x (f s')) →
  (∀ X (e : sysE X) s x s2, h2 X e (f s) x s2 → ∃ s', h1 X e s x s' ∧ f s' = s2) →
  must h1 Q t s → must h2 (λ o s2, ∃ s', f s' = s2 ∧ Q o s') t (f s).
Proof.
  intros H12 H21 H. induction H as [t s a E H|t s t' E _ IH|t s n k E H|t s X e k E Hp _ IH].
  - eapply must_ret'; [done|]. by exists s.
  - by eapply must_tau'.
  - eapply must_exit'; [done|]. by exists s.
  - eapply must_call'; [done| |].
    + destruct Hp as (x & s' & Hx). exists x, (f s'). by apply H12.
    + intros x s2 Hx. destruct (H21 _ _ _ _ _ Hx) as (s' & Hs & <-). by apply IH.
Qed.

(** ** The system as programs that read and write streams see it
    Files by path, what is left to read on each open descriptor, and what was
    written to each descriptor.  A read returns any non-empty part of what is
    there, 0 at the end and -1 on a bad descriptor. *)
Record os : Type := mk_os { o_files : gmap (list Z) (list Z); o_fds : gmap Z (list Z); o_out : Z → list Z }.
Definition with_o_fds (v : gmap Z (list Z)) (s : os) : os := mk_os (o_files s) v (o_out s).
(** [l] was written to descriptor [fd]. *)
Definition put (fd : Z) (l : list Z) (s : os) : os :=
  mk_os (o_files s) (o_fds s) (λ x, if decide (x = fd) then o_out s x ++ l else o_out s x).

Definition ostep X (e : sysE X) (s : os) : X → os → Prop :=
  match e in sysE X return X → os → Prop with
  | Sys_read fd n => λ r s',
      match o_fds s !! fd with
      | None => r = (-1, []) ∧ s' = s
      | Some l => ∃ l1 l2, l = l1 ++ l2 ∧ r = (Z.of_nat (length l1), l1) ∧ Z.of_nat (length l1) <= Z.max n 0 ∧
          (l1 = [] → l = [] ∨ n <= 0) ∧ s' = with_o_fds (<[fd := l2]> (o_fds s)) s
      end
  | Sys_write fd l => λ r s',
      if decide (fd = 1 ∨ fd = 2) then r = Z.of_nat (length l) ∧ s' = put fd l s else r = -1 ∧ s' = s
  | Sys_open path mode => λ r s',
      match o_files s !! path with
      | Some c => 3 <= r ∧ o_fds s !! r = None ∧ s' = with_o_fds (<[r := c]> (o_fds s)) s
      | None => r = -1 ∧ s' = s
      end
  | Sys_close fd => λ r s', r = 0 ∧ s' = with_o_fds (delete fd (o_fds s)) s
  | _ => λ _ _, False
  end.

Lemma os_write {A} (Q : outcome A → os → Prop) (f : Z → prog A) fd l s :
  fd = 1 ∨ fd = 2 → must ostep Q (f (Z.of_nat (length l))) (put fd l s) → must ostep Q (call (Sys_write fd l) ≫= f) s.
Proof.
  intros Hfd H. apply must_step; cbn; destruct (decide _) as [_|]; [by eauto|done| |done]. by intros x s' [-> ->].
Qed.

Lemma os_read {A} (Q : outcome A → os → Prop) (f : Z * list Z → prog A) fd n s l :
  o_fds s !! fd = Some l →
  (∀ l1 l2, l = l1 ++ l2 → Z.of_nat (length l1) <= Z.max n 0 → (l1 = [] → l = [] ∨ n <= 0) →
     must ostep Q (f (Z.of_nat (length l1), l1)) (with_o_fds (<[fd := l2]> (o_fds s)) s)) →
  must ostep Q (call (Sys_read fd n) ≫= f) s.
Proof.
  intros Hl H. apply must_step; cbn; rewrite Hl.
  - exists (Z.of_nat (length (take (Z.to_nat n) l)), take (Z.to_nat n) l). eexists.
    exists (take (Z.to_nat n) l), (drop (Z.to_nat n) l). rewrite take_drop, length_take. split_and!; try done; [lia|].
    intros E. apply (f_equal length) in E. rewrite length_take in E. cbn in E.
    destruct l; [by left|right; cbn in E; lia].
  - intros x s' (l1 & l2 & -> & -> & Hn & Hz & ->). by apply H.
Qed.

Lemma fresh_fd (m : gmap Z (list Z)) : ∃ fd, 3 <= fd ∧ m !! fd = None.
Proof.
  set (l := (map_to_list m).*1). exists (foldr Z.max 2 l + 1).
  assert (∀ l : list Z, 2 <= foldr Z.max 2 l ∧ ∀ x, x ∈ l → x <= foldr Z.max 2 l) as B.
  { clear. induction l as [|y l [IH1 IH2]]; cbn; split; [lia|set_solver|lia|].
    intros x [->|Hx]%elem_of_cons; [lia|]. specialize (IH2 x Hx). lia. }
  destruct (B l) as [B1 B2]. split; [lia|]. apply eq_None_not_Some. intros [v Hv].
  assert (foldr Z.max 2 l + 1 ∈ l) as Hin by (apply list_elem_of_fmap; eexists (_, v); split; [done|by apply elem_of_map_to_list]).
  specialize (B2 _ Hin). lia.
Qed.

Lemma os_open {A} (Q : outcome A → os → Prop) (f : Z → prog A) path mode s c :
  o_files s !! path = Some c →
  (∀ fd, 3 <= fd → o_fds s !! fd = None → must ostep Q (f fd) (with_o_fds (<[fd := c]> (o_fds s)) s)) →
  must ostep Q (call (Sys_open path mode) ≫= f) s.
Proof.
  intros Hc H. apply must_step; cbn; rewrite Hc.
  - destruct (fresh_fd (o_fds s)) as (fd & ? & ?). by eauto 6.
  - intros fd s' (? & ? & ->). by apply H.
Qed.

Lemma os_open_fails {A} (Q : outcome A → os → Prop) (f : Z → prog A) path mode s :
  o_files s !! path = None → must ostep Q (f (-1)) s → must ostep Q (call (Sys_open path mode) ≫= f) s.
Proof. intros Hc H. apply must_step; cbn; rewrite Hc; [by eauto|]. by intros fd s' [-> ->]. Qed.

Lemma os_close {A} (Q : outcome A → os → Prop) (f : Z → prog A) fd s :
  must ostep Q (f 0) (with_o_fds (delete fd (o_fds s)) s) → must ostep Q (call (Sys_close fd) ≫= f) s.
Proof. intros H. apply must_step; cbn; [by eauto|]. by intros x s' [-> ->]. Qed.

(** What a stretch of a program that only reads and prints changes. *)
Definition printed (l : list Z) (s s' : os) : Prop :=
  o_files s' = o_files s ∧ ∀ x, o_out s' x = o_out (put 1 l s) x.

Lemma printed_nil s : printed [] s s.
Proof. split; [done|]. intros x. cbn. by destruct (decide _); rewrite ?app_nil_r. Qed.
Lemma printed_trans l l' s s' s'' : printed l s s' → printed l' s' s'' → printed (l ++ l') s s''.
Proof.
  intros [Hf Ho] [Hf' Ho']. split; [congruence|]. intros x. rewrite Ho'. cbn. rewrite Ho. cbn.
  destruct (decide _); by rewrite ?app_assoc.
Qed.
Lemma printed_put l s : printed l s (put 1 l s).
Proof. by split. Qed.
Lemma printed_fds v s : printed [] s (with_o_fds v s).
Proof. destruct (printed_nil s) as [_ H]. by split. Qed.
