(* ===== verification/Ulib.v ===== *)
(** * user/ulib.c and user/printf.c

    A C string is the list of its bytes; the end of the list reads as the
    terminating NUL, and a NUL inside the list ends the string as well.
    [memset] and [memmove] act on the bytes of memory.  [long] is 32 bits wide
    on CPUTwo, so the [uint64] of kernel/types.h is, too. *)

From S2P Require Import Prelude Machine User Printf.
From Stdlib Require Import Ascii Wf_nat.

(** ** user/ulib.c: strings *)
(** The bytes [strcpy] stores. *)
Fixpoint strcpy (t : list Z) : list Z :=
  match t with [] => [0] | c :: t' => if c =? 0 then [0] else c :: strcpy t' end.

(** The string that starts at the head of [l]: the bytes before the first NUL. *)
Fixpoint upto_nul (l : list Z) : list Z :=
  match l with
  | [] => []
  | c :: l' => if c =? 0 then [] else c :: upto_nul l'
  end.
Fixpoint strcmp (p q : list Z) : Z :=
  match p, q with
  | x :: p', y :: q' => if negb (x =? 0) && (x =? y) then strcmp p' q' else u8 x - u8 y
  | x :: _, [] => u8 x
  | [], y :: _ => - u8 y
  | [], [] => 0
  end.

Fixpoint strlen (s : list Z) : Z :=
  match s with [] => 0 | c :: s' => if c =? 0 then 0 else 1 + strlen s' end.

(** The string from the first [c] on; [None] is the null pointer. *)
Fixpoint strchr (s : list Z) (c : Z) : option (list Z) :=
  match s with
  | [] => None
  | x :: s' => if x =? 0 then None else if x =? c then Some s else strchr s' c
  end.

Fixpoint atoi_loop (s : list Z) (n : Z) : Z :=
  match s with
  | [] => n
  | c :: s' => if (48 <=? c) && (c <=? 57) then atoi_loop s' (i32 (n * 10 + c - 48)) else n
  end.
Definition atoi (s : list Z) : Z := atoi_loop s 0.

(** ** user/ulib.c: memory *)
(** [for(i = 0; i < n; i++) cdst[i] = c;] *)
Fixpoint memset_loop (n : nat) (m : mem) (cdst c : Z) : mem :=
  match n with O => m | S n' => memset_loop n' (stb m cdst c) (cdst + 1) c end.
Definition memset (m : mem) (dst c n : Z) : mem := memset_loop (Z.to_nat n) m dst c.

(** [while(n-- > 0) *dst++ = *src++;] *)
Fixpoint move_up (n : nat) (m : mem) (dst src : Z) : mem :=
  match n with O => m | S n' => move_up n' (stb m dst (ldb m src)) (dst + 1) (src + 1) end.
(** [while(n-- > 0) *--dst = *--src;] *)
Fixpoint move_down (n : nat) (m : mem) (dst src : Z) : mem :=
  match n with O => m | S n' => move_down n' (stb m (dst - 1) (ldb m (src - 1))) (dst - 1) (src - 1) end.
Definition memmove (m : mem) (vdst vsrc n : Z) : mem :=
  if vdst <? vsrc then move_up (Z.to_nat n) m vdst vsrc
  else move_down (Z.to_nat n) m (vdst + n) (vsrc + n).
Definition memcpy (m : mem) (dst src n : Z) : mem := memmove m dst src n.

(** [char_of]: the value of a [char] with the given byte, which C leaves to the
    implementation. *)
Section memcmp.
Variable char_of : Z → Z.
Fixpoint memcmp (n : nat) (m : mem) (p1 p2 : Z) : Z :=
  match n with
  | O => 0
  | S n' =>
      if negb (char_of (ldb m p1) =? char_of (ldb m p2)) then char_of (ldb m p1) - char_of (ldb m p2)
      else memcmp n' m (p1 + 1) (p2 + 1)
  end.
End memcmp.

(** ** user/ulib.c: system calls *)
(** [buf] starts as [acc]; at most [n] more rounds. *)
Fixpoint gets_loop (n : nat) (acc : list Z) : prog (list Z) :=
  match n with
  | O => mret acc
  | S n' =>
      '(cc, l) ← call (Sys_read 0 1);
      if cc <? 1 then mret acc else
      let c := hd 0 l in
      if (c =? 10) || (c =? 13) then mret (acc ++ [c]) else gets_loop n' (acc ++ [c])
  end.
(** The string left in [buf]. *)
Definition gets (max : Z) : prog (list Z) := gets_loop (Z.to_nat (max - 1)) [].

Definition stat (n : list Z) : prog (Z * list Z) :=
  fd ← call (Sys_open n O_RDONLY);
  if fd <? 0 then mret (-1, []) else
  r ← call (Sys_fstat fd);
  _ ← call (Sys_close fd);
  mret r.

Definition sbrk (n : Z) : prog Z := call (Sys_sbrk n SBRK_EAGER).
Definition sbrklazy (n : Z) : prog Z := call (Sys_sbrk n SBRK_LAZY).

(** The wrapper around [main]. *)
Definition start (main : prog Z) : prog unit := r ← main; exit r.

(** ** user/printf.c *)
Definition u64 (z : Z) : Z := z mod 18446744073709551616.
Definition putc (fd c : Z) : prog unit := _ ← call (Sys_write fd [u8 c]); mret tt.

(** [digits] *)
Definition udigit (d : Z) : Z := if d <? 10 then 48 + d else 55 + d.
(** [do{ buf[i++] = digits[x % base]; }while((x /= base) != 0);] *)
Fixpoint digits_loop (fuel : nat) (x base : Z) : list Z :=
  match fuel with
  | O => []
  | S f => udigit (x mod base) :: (if x / base =? 0 then [] else digits_loop f (x / base) base)
  end.
(** 20 digits hold any 64-bit number in base 10 or 16. *)
Definition printint_buf (xx base : Z) (sgn : bool) : list Z :=
  let neg := sgn && (xx <? 0) in
  let x := if neg then u64 (- xx) else u64 xx in
  digits_loop 20 x base ++ (if neg then [45] else []).
Definition printint (fd xx base : Z) (sgn : bool) : prog unit :=
  each (rev (printint_buf xx base sgn)) (putc fd).

Fixpoint printptr_loop (n : nat) (fd x : Z) : prog unit :=
  match n with
  | O => mret tt
  | S n' => putc fd (udigit (Z.shiftr x 28));; printptr_loop n' fd (u32 (Z.shiftl x 4))
  end.
Definition printptr (fd x : Z) : prog unit := putc fd 48;; putc fd 120;; printptr_loop 8 fd x.

(** The loop from [fmt[i]], in the given [state] (true for '%'). *)
Fixpoint vprintf (fd : Z) (fmt : list Z) (ap : list arg) (state : bool) : prog unit :=
  match fmt with
  | [] => mret tt
  | c0 :: fmt1 =>
    if negb state then
      if c0 =? chr "%" then vprintf fd fmt1 ap true else putc fd c0;; vprintf fd fmt1 ap false
    else
    let c1 := hd 0 fmt1 in
    let c2 := if c1 =? 0 then 0 else hd 0 (tl fmt1) in
    let skip1 := match fmt1 with _ :: fmt2 => vprintf fd fmt2 (tl ap) false | [] => mret tt end in
    let skip2 := match fmt1 with _ :: _ :: fmt3 => vprintf fd fmt3 (tl ap) false | _ => mret tt end in
    if c0 =? chr "d" then printint fd (i32 (arg_int ap)) 10 true;; vprintf fd fmt1 (tl ap) false else
    if (c0 =? chr "l") && (c1 =? chr "d") then printint fd (arg_int ap) 10 true;; skip1 else
    if (c0 =? chr "l") && (c1 =? chr "l") && (c2 =? chr "d") then printint fd (arg_int ap) 10 true;; skip2 else
    if c0 =? chr "u" then printint fd (arg_int ap) 10 false;; vprintf fd fmt1 (tl ap) false else
    if (c0 =? chr "l") && (c1 =? chr "u") then printint fd (arg_int ap) 10 false;; skip1 else
    if (c0 =? chr "l") && (c1 =? chr "l") && (c2 =? chr "u") then printint fd (arg_int ap) 10 false;; skip2 else
    if c0 =? chr "x" then printint fd (arg_int ap) 16 false;; vprintf fd fmt1 (tl ap) false else
    if (c0 =? chr "l") && (c1 =? chr "x") then printint fd (arg_int ap) 16 false;; skip1 else
    if (c0 =? chr "l") && (c1 =? chr "l") && (c2 =? chr "x") then printint fd (arg_int ap) 16 false;; skip2 else
    if c0 =? chr "p" then printptr fd (arg_int ap);; vprintf fd fmt1 (tl ap) false else
    if c0 =? chr "c" then putc fd (arg_int ap);; vprintf fd fmt1 (tl ap) false else
    if c0 =? chr "s" then
      each (default (str "(null)") (arg_str ap)) (putc fd);; vprintf fd fmt1 (tl ap) false else
    if c0 =? chr "%" then putc fd (chr "%");; vprintf fd fmt1 ap false else
    putc fd (chr "%");; putc fd c0;; vprintf fd fmt1 ap false
  end.
Definition fprintf (fd : Z) (fmt : list Z) (ap : list arg) : prog unit := vprintf fd fmt ap false.
Definition printf (fmt : list Z) (ap : list arg) : prog unit := vprintf 1 fmt ap false.

(** ** Printing returns and only writes to its descriptor *)
Section prints.
  Context {S : Type} (h : ∀ X, sysE X → S → X → S → Prop) (I : S → Prop) (fd : Z)
    (Hw : ∀ l s, I s → (∃ r s', h _ (Sys_write fd l) s r s') ∧ ∀ r s', h _ (Sys_write fd l) s r s' → I s').
  Notation prints t := (∀ s, I s → must h (λ o s', o = Returned tt ∧ I s') t s).

Lemma prints_ret : prints (mret tt : prog unit).
Proof. intros s Hs. by apply must_ret. Qed.
Lemma prints_seq (t1 t2 : prog unit) : prints t1 → prints t2 → prints (t1;; t2).
Proof.
  intros H1 H2 s Hs. apply must_bind. eapply must_mono; [by apply H1|]. intros o s' [-> Hs']. by apply H2.
Qed.
Lemma prints_putc c : prints (putc fd c).
Proof.
  intros s Hs. destruct (Hw [u8 c] s Hs) as [Hp Hn]. apply must_step; [done|]. intros r s' Hr. apply must_ret. by eauto.
Qed.
Lemma prints_each l : prints (each l (putc fd)).
Proof. induction l as [|c l IH]; cbn [each]; [apply prints_ret|]. apply prints_seq; [apply prints_putc|done]. Qed.
Lemma prints_ptr_loop n x : prints (printptr_loop n fd x).
Proof. revert x. induction n as [|n IH]; intros x; [apply prints_ret|]. apply prints_seq; [apply prints_putc|apply IH]. Qed.

Create HintDb printing.
#[local] Hint Resolve prints_ret prints_seq prints_putc prints_each prints_ptr_loop : printing.

Lemma prints_vprintf fmt ap state : prints (vprintf fd fmt ap state).
Proof.
  remember (length fmt) as n eqn:En. revert fmt ap state En.
  induction n as [n IH] using lt_wf_ind. intros [|c0 fmt] ap state ->; cbn [vprintf]; [apply prints_ret|].
  assert (∀ ap' st', prints (vprintf fd fmt ap' st')) as H1 by (intros ap' st'; eapply IH; [|done]; cbn; lia).
  assert (∀ ap', prints (match fmt with _ :: fmt2 => vprintf fd fmt2 ap' false | [] => mret tt end)) as H2.
  { intros ap'. destruct fmt as [|c1 fmt]; [apply prints_ret|]. eapply IH; [|done]; cbn; lia. }
  assert (∀ ap', prints (match fmt with _ :: _ :: fmt3 => vprintf fd fmt3 ap' false | _ => mret tt end)) as H3.
  { intros ap'. destruct fmt as [|c1 [|c2 fmt]]; [apply prints_ret..|]. eapply IH; [|done]; cbn; lia. }
  clear IH. unfold printint, printptr.
  repeat match goal with |- context [if ?x then _ else _] =>
    lazymatch x with context [vprintf] => fail | context [decide] => fail | _ => destruct x end end;
    eauto 12 with printing.
Qed.
Lemma prints_fprintf fmt ap : prints (fprintf fd fmt ap).
Proof. apply prints_vprintf. Qed.
End prints.

(** ** Printing to standard output *)
Definition decimal (n : Z) : list Z := rev (printint_buf n 10 true).
(** [t] prints [l] and leaves everything else as it was. *)
Definition outputs (t : prog unit) (l : list Z) : Prop :=
  ∀ s, must ostep (λ o s', o = Returned tt ∧ o_fds s' = o_fds s ∧ printed l s s') t s.

Lemma outputs_ret : outputs (mret tt) [].
Proof. intros s. apply must_ret. split_and!; [done..|apply printed_nil]. Qed.
Lemma outputs_seq t1 t2 l1 l2 : outputs t1 l1 → outputs t2 l2 → outputs (t1;; t2) (l1 ++ l2).
Proof.
  intros H1 H2 s. apply must_bind. eapply must_mono; [apply H1|]. intros o s1 (-> & Hf1 & Hp1).
  eapply must_mono; [apply H2|]. intros o s2 (-> & Hf2 & Hp2). split_and!; [done|congruence|by eapply printed_trans].
Qed.
Lemma outputs_putc c : outputs (putc 1 c) [u8 c].
Proof. intros s. apply os_write; [by left|]. apply must_ret. split_and!; [done..|apply printed_put]. Qed.
Lemma outputs_each l : Forall (λ c, 0 <= c < 256) l → outputs (each l (putc 1)) l.
Proof.
  induction 1 as [|c l Hc _ IH]; [apply outputs_ret|]. cbn [each]. change (c :: l) with ([c] ++ l).
  apply outputs_seq; [|done]. rewrite <- (Z.mod_small c 256) at 2 by done. apply outputs_putc.
Qed.

(** The digits of a number, least significant first, and their value. *)
Lemma atoi_app a b n :
  Forall (λ c, 48 <= c <= 57) a → atoi_loop (a ++ b) n = atoi_loop b (atoi_loop a n).
Proof.
  intros Ha. revert n. induction Ha as [|c a Hc _ IH]; intros n; [done|]. cbn [app atoi_loop].
  rewrite (proj2 (Z.leb_le 48 c)), (proj2 (Z.leb_le c 57)) by lia. apply IH.
Qed.
Lemma udigit_dec d : 0 <= d < 10 → udigit d = 48 + d.
Proof. intros Hd. unfold udigit. by rewrite (proj2 (Z.ltb_lt d 10)) by lia. Qed.
Lemma digits_value fuel x :
  0 <= x < 10 ^ Z.of_nat fuel → (0 < fuel)%nat →
  Forall (λ c, 48 <= c <= 57) (digits_loop fuel x 10) ∧
  ∀ n, 0 <= n → n * 10 ^ Z.of_nat (length (digits_loop fuel x 10)) + x < 2147483648 →
    atoi_loop (rev (digits_loop fuel x 10)) n = n * 10 ^ Z.of_nat (length (digits_loop fuel x 10)) + x.
Proof.
  revert x. induction fuel as [|fuel IH]; intros x Hx Hf; [lia|]. clear Hf. cbn [digits_loop].
  pose proof (Z.mod_pos_bound x 10 ltac:(lia)) as Hm. pose proof (Z.div_mod x 10 ltac:(lia)) as Hdm.
  rewrite udigit_dec by done.
  assert (∀ n, 0 <= n → n * 10 + x mod 10 < 2147483648 → atoi_loop [48 + x mod 10] n = n * 10 + x mod 10) as Hlast.
  { intros n Hn Hlt. cbn [atoi_loop]. rewrite (proj2 (Z.leb_le 48 _)), (proj2 (Z.leb_le _ 57)) by lia. cbn [andb].
    replace (n * 10 + (48 + x mod 10) - 48) with (n * 10 + x mod 10) by lia. unfold i32, u32. rewrite Z.mod_small; lia. }
  destruct (Z.eqb_spec (x / 10) 0) as [E|E].
  - split; [constructor; [lia|done]|]. intros n Hn Hlt. cbn [length] in *. cbn [rev app]. rewrite Hlast; lia.
  - destruct fuel as [|fuel]; [cbn in Hx; lia|].
    destruct (IH (x / 10)) as [Hd Hv].
    { split; [lia|]. apply Z.div_lt_upper_bound; [lia|]. rewrite <- Z.pow_succ_r by lia. rewrite <- Nat2Z.inj_succ. lia. }
    { lia. }
    set (ds := digits_loop (S fuel) (x / 10) 10) in *. split; [constructor; [lia|done]|].
    intros n Hn Hlt. cbn [length] in *. rewrite Nat2Z.inj_succ, Z.pow_succ_r in * by lia. cbn [rev].
    rewrite atoi_app by (by apply Forall_rev). assert (0 < 10 ^ Z.of_nat (length ds)) by (apply Z.pow_pos_nonneg; lia).
    rewrite Hv; [|lia|nia]. rewrite Hlast; nia.
Qed.

Lemma decimal_nonneg n : 0 <= n < 2147483648 → decimal n = rev (digits_loop 20 n 10).
Proof.
  intros Hn. unfold decimal, printint_buf. rewrite (proj2 (Z.ltb_ge n 0)) by lia. cbn [andb].
  unfold u64. by rewrite Z.mod_small, app_nil_r by lia.
Qed.
Lemma decimal_digits n : 0 <= n < 2147483648 → Forall (λ c, 48 <= c <= 57) (decimal n).
Proof.
  intros Hn. rewrite decimal_nonneg by done. apply Forall_rev. apply digits_value; [|lia]. split; [lia|].
  apply Z.lt_trans with 2147483648; [lia|by vm_compute].
Qed.
(** The numeral [printf] prints is the one [atoi] reads. *)
Lemma atoi_decimal n : 0 <= n < 2147483648 → atoi (decimal n) = n.
Proof.
  intros Hn. rewrite decimal_nonneg by done. unfold atoi.
  destruct (digits_value 20 n) as [_ Hv]; [split; [lia|]; apply Z.lt_trans with 2147483648; [lia|by vm_compute]|lia|].
  rewrite Hv; lia.
Qed.
Lemma outputs_printint n : 0 <= n < 2147483648 → outputs (printint 1 n 10 true) (decimal n).
Proof.
  intros Hn. apply outputs_each. eapply Forall_impl; [by apply decimal_digits|]. cbn. lia.
Qed.
