(* ===== verification/Grep.v ===== *)
(** * user/grep.c

    The matcher of Kernighan and Pike, against the language of its patterns;
    and [grep] itself, which prints the matching lines however the system
    cuts the input into reads. *)

From S2P Require Import Prelude Machine Printf User Ulib.
From Stdlib Require Import Ascii.

(** ** The matcher *)
(** [matchstar c re text], given [m = matchhere re]. *)
Fixpoint matchstar (c : Z) (m : list Z → bool) (text : list Z) : bool :=
  if m text then true else
  match text with
  | [] => false
  | x :: text' => if (x =? c) || (c =? chr ".") then matchstar c m text' else false
  end.

Fixpoint matchhere (re text : list Z) : bool :=
  match re with
  | [] => true
  | c :: re1 =>
    match re1 with
    | d :: re2 =>
        if d =? chr "*" then matchstar c (matchhere re2) text else
        match text with
        | x :: text' => if (c =? chr ".") || (c =? x) then matchhere re1 text' else false
        | [] => false
        end
    | [] =>
        if c =? chr "$" then match text with [] => true | _ => false end else
        match text with
        | x :: text' => if (c =? chr ".") || (c =? x) then matchhere re1 text' else false
        | [] => false
        end
    end
  end.

(** The search of [match] for a place where [re] matches. *)
Fixpoint match_from (re text : list Z) : bool :=
  if matchhere re text then true else match text with [] => false | _ :: text' => match_from re text' end.
Definition match_ (re text : list Z) : bool :=
  match re with
  | c :: re' => if c =? chr "^" then matchhere re' text else match_from re text
  | [] => match_from re text
  end.

(** ** The language of patterns *)
Inductive atom : Type := Any | Lit (c : Z).
Inductive item : Type := One (a : atom) | Star (a : atom) | End.
Definition fits (a : atom) (x : Z) : Prop := match a with Any => True | Lit c => x = c end.

Definition atom_of (c : Z) : atom := if c =? chr "." then Any else Lit c.
Fixpoint items (re : list Z) : list item :=
  match re with
  | [] => []
  | c :: re1 =>
    match re1 with
    | d :: re2 => if d =? chr "*" then Star (atom_of c) :: items re2 else One (atom_of c) :: items re1
    | [] => if c =? chr "$" then [End] else [One (atom_of c)]
    end
  end.

(** A prefix of the text is in the language. *)
Inductive lang : list item → list Z → Prop :=
| lang_nil t : lang [] t
| lang_one a l x t : fits a x → lang l t → lang (One a :: l) (x :: t)
| lang_star a l s t : Forall (fits a) s → lang l t → lang (Star a :: l) (s ++ t)
| lang_end : lang [End] [].

Lemma fits_spec c x : (c =? chr ".") || (c =? x) = true ↔ fits (atom_of c) x.
Proof.
  unfold atom_of. destruct (Z.eqb_spec c (chr ".")); cbn [orb fits]; [done|].
  rewrite Z.eqb_eq. naive_solver.
Qed.

Lemma matchstar_spec c m t :
  matchstar c m t = true ↔ ∃ s t', t = s ++ t' ∧ Forall (fits (atom_of c)) s ∧ m t' = true.
Proof.
  induction t as [|x t IH]; cbn [matchstar].
  - destruct (m []) eqn:E; split; try done.
    + intros _. exists [], []. done.
    + intros (s & t' & Et & _ & Hm). symmetry in Et. apply app_eq_nil in Et as [-> ->]. congruence.
  - destruct (m (x :: t)) eqn:E; [split; [intros _; exists [], (x :: t); done|done]|].
    rewrite orb_comm, (Z.eqb_sym x c). destruct ((c =? chr ".") || (c =? x)) eqn:Ef.
    + apply fits_spec in Ef. rewrite IH. split.
      * intros (s & t' & -> & Hs & Hm). exists (x :: s), t'. auto.
      * intros ([|y s] & t' & Et & Hs & Hm); cbn in Et; [congruence|]. injection Et as <- ->.
        apply Forall_cons in Hs as [_ Hs]. exists s, t'. done.
    + split; [done|]. intros ([|y s] & t' & Et & Hs & Hm); cbn in Et; [congruence|]. injection Et as <- ->.
      apply Forall_cons in Hs as [Hf _]. apply fits_spec in Hf. congruence.
Qed.

Lemma matchhere_spec re : ∀ t, matchhere re t = true ↔ lang (items re) t.
Proof.
  induction re as [re IH] using (induction_ltof1 _ length); unfold ltof in IH. intros t.
  destruct re as [|c [|d re]]; cbn [matchhere items].
  - split; [constructor|done].
  - destruct (Z.eqb_spec c (chr "$")).
    + destruct t; split; try done; [constructor|by inversion 1].
    + destruct t as [|x t]; [split; [done|by inversion 1]|].
      destruct ((c =? chr ".") || (c =? x)) eqn:Ef.
      * apply fits_spec in Ef. split; [|done]. intros _. by repeat constructor.
      * split; [done|]. inversion 1; subst. assert (fits (atom_of c) x) as Hf by done. apply fits_spec in Hf. congruence.
  - destruct (Z.eqb_spec d (chr "*")).
    + rewrite matchstar_spec. split.
      * intros (s & t' & -> & Hs & Hm). apply IH in Hm; [by constructor|cbn; lia].
      * inversion 1; subst. exists s, t0. split_and!; [done..|]. apply IH; [cbn; lia|done].
    + destruct t as [|x t]; [split; [done|by inversion 1]|].
      destruct ((c =? chr ".") || (c =? x)) eqn:Ef.
      * apply fits_spec in Ef. pose proof (IH (d :: re) ltac:(cbn; lia) t) as IH'. cbn [matchhere items] in IH'.
        rewrite IH'. split; [by constructor|by inversion 1].
      * split; [done|]. inversion 1; subst. assert (fits (atom_of c) x) as Hf by done. apply fits_spec in Hf. congruence.
Qed.

Lemma match_from_spec re t : match_from re t = true ↔ ∃ s t', t = s ++ t' ∧ lang (items re) t'.
Proof.
  induction t as [|x t IH]; cbn [match_from]; destruct (matchhere re _) eqn:E.
  - split; [|done]. intros _. exists [], []. split; [done|]. by apply matchhere_spec.
  - split; [done|]. intros (s & t' & Et & Hl). symmetry in Et. apply app_eq_nil in Et as [-> ->].
    apply matchhere_spec in Hl. congruence.
  - split; [|done]. intros _. exists [], (x :: t). split; [done|]. by apply matchhere_spec.
  - rewrite IH. split.
    + intros (s & t' & -> & Hl). by exists (x :: s), t'.
    + intros ([|y s] & t' & Et & Hl); cbn in Et; [subst t'; apply matchhere_spec in Hl; congruence|].
      injection Et as <- ->. by exists s, t'.
Qed.

(** C31: the matcher decides the language of its patterns: [match] accepts a
    text iff the pattern, with '^' as its first character, is in the language at the
    beginning of the text, or, without, somewhere in it; '.' stands
    for any character, 'c*' for any number of c's, and a final '$' for the
    end of the text. *)
Theorem match_iff_lang re t :
  match_ re t = true ↔
    match re with
    | c :: re' => if c =? chr "^" then lang (items re') t else ∃ s t', t = s ++ t' ∧ lang (items re) t'
    | [] => True
    end.
Proof.
  destruct re as [|c re]; cbn [match_].
  - destruct t; cbn; done.
  - destruct (c =? chr "^"); [apply matchhere_spec|apply match_from_spec].
Qed.

(** ** grep *)
(** The loop over the complete lines in the buffer from [p] on; what is left. *)
Definition grep_lines (pattern : list Z) : list Z → prog (list Z) :=
  loop (λ p,
    match strchr p 10 with
    | None => mret (inr p)
    | Some q =>
        let line := take (length p - length q) p in
        pwhen (match_ pattern line) (_ ← call (Sys_write 1 (line ++ [10])); mret tt);;
        mret (inl (tl q))
    end).
Definition sizeof_buf : Z := 1024.
Definition grep (pattern : list Z) (fd : Z) : prog unit :=
  loop (λ buf,
    '(n, l) ← call (Sys_read fd (sizeof_buf - Z.of_nat (length buf) - 1));
    if n <=? 0 then mret (inr tt) else
    p ← grep_lines pattern (buf ++ l);
    mret (inl p)) [].

Fixpoint grep_files (pattern : list Z) (files : list (list Z)) : prog unit :=
  match files with
  | [] => exit 0
  | f :: files' =>
      fd ← call (Sys_open f O_RDONLY);
      if fd <? 0 then
        printf (str "grep: cannot open %s
") [AStr (Some f)];; exit 1
      else
        grep pattern fd;;
        _ ← call (Sys_close fd);
        grep_files pattern files'
  end.
Definition grep_main (argv : list (list Z)) : prog unit :=
  match argv with
  | _ :: pattern :: files =>
      match files with
      | [] => grep pattern 0;; exit 0
      | _ => grep_files pattern files
      end
  | _ => fprintf 2 (str "usage: grep pattern [file ...]
") [];; exit 1
  end.

(** *** Lines *)
Definition unlines (ls : list (list Z)) : list Z := concat (map (λ l, l ++ [10]) ls).
(** A line: no newline, no NUL, and short enough for the buffer. *)
Definition is_line (l : list Z) : Prop := 10 ∉ l ∧ Forall (λ c, c ≠ 0) l ∧ Z.of_nat (length l) <= 1022.

Lemma strchr_spec s c :
  Forall (λ x, x ≠ 0) s →
  match strchr s c with
  | None => c ∉ s
  | Some q => ∃ x q', s = x ++ c :: q' ∧ q = c :: q' ∧ c ∉ x
  end.
Proof.
  induction 1 as [|y s Hy Hs IH]; cbn [strchr]; [apply not_elem_of_nil|].
  rewrite (proj2 (Z.eqb_neq y 0)) by done. destruct (Z.eqb_spec y c) as [->|Hne].
  - exists [], s. split_and!; [done..|apply not_elem_of_nil].
  - destruct (strchr s c) as [q|].
    + destruct IH as (x & q' & -> & -> & Hx). exists (y :: x), q'. split_and!; [done..|]. by apply not_elem_of_cons.
    + by apply not_elem_of_cons.
Qed.

Lemma unlines_first x r ls tail :
  10 ∉ x → 10 ∉ tail → Forall (λ l, 10 ∉ l) ls → x ++ 10 :: r = unlines ls ++ tail →
  ∃ ls', ls = x :: ls' ∧ r = unlines ls' ++ tail.
Proof.
  intros Hx Ht Hls E. destruct ls as [|l ls]; cbn in E.
  { exfalso. apply Ht. rewrite <- E. set_solver. }
  apply Forall_cons in Hls as [Hl _]. rewrite <- !app_assoc in E. cbn in E. exists ls.
  assert (x = l ∧ r = unlines ls ++ tail) as [-> ->]; [|done].
  clear Ht. revert l Hl E. induction x as [|c x IH]; intros [|d l] Hl E; cbn in E.
  - by injection E.
  - injection E as <- _. set_solver.
  - injection E as -> _. set_solver.
  - injection E as -> E. rewrite not_elem_of_cons in *. destruct (IH (proj2 Hx) l (proj2 Hl) E) as [-> ->]. done.
Qed.

Lemma unlines_none b ls tail : 10 ∉ b → b = unlines ls ++ tail → ls = [].
Proof. destruct ls as [|l ls]; [done|]. intros Hb ->. exfalso. apply Hb. cbn. set_solver. Qed.

(** *** What grep prints *)
Section prints.
  Context (pattern : list Z).
  Notation matching ls := (filter (λ l, match_ pattern l = true) ls).

Lemma must_grep_lines r tail ls p s :
  Forall is_line ls → is_line tail → Forall (λ c, c ≠ 0) p → p ++ r = unlines ls ++ tail →
  must ostep (λ o s', ∃ ls1 ls2 q, o = Returned q ∧ ls = ls1 ++ ls2 ∧ q ++ r = unlines ls2 ++ tail ∧ 10 ∉ q ∧
    (length q <= length p)%nat ∧ Forall (λ c, c ≠ 0) q ∧ o_fds s' = o_fds s ∧ printed (unlines (matching ls1)) s s')
    (grep_lines pattern p) s.
Proof.
  intros Hls Ht Hp E.
  apply (must_loop _ _ _ (λ q s', ∃ ls1 ls2, ls = ls1 ++ ls2 ∧ q ++ r = unlines ls2 ++ tail ∧
    (length q <= length p)%nat ∧ Forall (λ c, c ≠ 0) q ∧ o_fds s' = o_fds s ∧ printed (unlines (matching ls1)) s s')
    (λ q _, length q)).
  2: { exists [], ls. split_and!; [done..|lia|done|done|apply printed_nil]. }
  clear Hp E. intros q s' (ls1 & ls2 & -> & E & Hlen & Hq & Hfds & Hpr). pose proof (strchr_spec q 10 Hq) as Hs.
  destruct (strchr q 10) as [q1|]; [|apply must_ret; exists ls1, ls2, q; by split_and!].
  destruct Hs as (x & q' & -> & -> & Hx). rewrite <- app_assoc in E. cbn in E.
  apply Forall_app in Hls as [Hls1 Hls2].
  apply unlines_first in E as (ls' & -> & E); [|done|by apply Ht|by eapply Forall_impl; [exact Hls2|]; intros ? []].
  replace (take _ _) with x by (rewrite length_app, Nat.add_sub, take_app_length; done).
  apply Forall_app in Hq as [_ [_ Hq]%Forall_cons]. rewrite length_app in Hlen. cbn in Hlen.
  assert (∀ s2, o_fds s2 = o_fds s' → printed (unlines (matching [x])) s' s2 →
    (∃ ls1' ls2', ls1 ++ x :: ls' = ls1' ++ ls2' ∧ q' ++ r = unlines ls2' ++ tail ∧
    (length q' <= length p)%nat ∧ Forall (λ c, c ≠ 0) q' ∧ o_fds s2 = o_fds s ∧ printed (unlines (matching ls1')) s s2)
    ∧ (length q' < length (x ++ 10%Z :: q'))%nat) as Hnext.
  { intros s2 Hf2 Hp2. split; [|rewrite length_app; cbn; lia]. exists (ls1 ++ [x]), ls'.
    rewrite <- app_assoc. split_and!; [done..|lia|done|congruence|].
    rewrite list.filter_app. unfold unlines. rewrite map_app, concat_app. by eapply printed_trans. }
  apply must_bind. unfold pwhen. destruct (match_ pattern x) eqn:Em.
  - apply os_write; [by left|]. apply must_ret, must_ret. apply Hnext; [done|].
    rewrite filter_cons_True by done. cbn. rewrite app_nil_r. apply printed_put.
  - apply must_ret, must_ret. apply Hnext; [done|]. rewrite filter_cons_False by (by rewrite Em). apply printed_nil.
Qed.

(** A stretch without a newline at the front of the text is a piece of a line. *)
Lemma piece_short b r ls tail :
  Forall is_line ls → is_line tail → 10 ∉ b → b ++ r = unlines ls ++ tail → Z.of_nat (length b) <= 1022.
Proof.
  intros Hls Ht Hb E. destruct ls as [|l ls]; cbn in E.
  { apply (f_equal length) in E. rewrite length_app in E. destruct Ht as (_ & _ & ?). lia. }
  apply Forall_cons in Hls as [(_ & _ & Hl) _]. destruct (decide (length b <= length l)%nat) as [|Hlong]; [lia|].
  exfalso. apply Hb. apply list_elem_of_lookup. exists (length l).
  rewrite <- (lookup_app_l b r) by lia. rewrite E, <- !app_assoc. by apply list_lookup_middle.
Qed.

Lemma must_grep fd ls tail s :
  Forall is_line ls → is_line tail → o_fds s !! fd = Some (unlines ls ++ tail) →
  must ostep (λ o s', o = Returned tt ∧ o_fds s' = <[fd := []]> (o_fds s) ∧ printed (unlines (matching ls)) s s')
    (grep pattern fd) s.
Proof.
  intros Hls Ht Hfd.
  apply (must_loop _ _ _ (λ b s', ∃ ls1 ls2 r, ls = ls1 ++ ls2 ∧ b ++ r = unlines ls2 ++ tail ∧ 10 ∉ b ∧
    Forall (λ c, c ≠ 0) b ∧ o_fds s' = <[fd := r]> (o_fds s) ∧ printed (unlines (matching ls1)) s s')
    (λ b s', length (default [] (o_fds s' !! fd)))).
  2: { exists [], ls, (unlines ls ++ tail). rewrite insert_id by done. split_and!; try done; [set_solver|apply printed_nil]. }
  intros b s' (ls1 & ls2 & r & -> & E & Hb & Hb0 & Hfds & Hpr). apply Forall_app in Hls as [Hls1 Hls2].
  pose proof (piece_short _ _ _ _ Hls2 Ht Hb E) as Hshort.
  apply (os_read _ _ _ _ _ r); [rewrite Hfds; apply lookup_insert_eq|]. intros l1 l2 -> Hn Hz.
  rewrite Hfds, insert_insert_eq. destruct (Z.leb_spec (Z.of_nat (length l1)) 0) as [H0|H0].
  - assert (l1 = []) as -> by (destruct l1; [done|cbn in H0; lia]).
    destruct (Hz eq_refl) as [E0|]; [|unfold sizeof_buf in *; lia]. cbn in E0, E. subst l2. rewrite app_nil_r in E.
    pose proof (unlines_none _ _ _ Hb E) as ->. apply must_ret. rewrite app_nil_r. split_and!; [done..|].
    rewrite <- (app_nil_r (unlines _)). eapply printed_trans; [done|apply printed_fds].
  - apply must_bind.
    assert (Forall (λ c, c ≠ 0) (b ++ l1 ++ l2)) as Hnz.
    { rewrite E. clear -Hls2 Ht. apply Forall_app. split; [|apply Ht]. unfold unlines.
      induction Hls2 as [|l ls (_ & Hl & _) _ IH]; cbn; [done|]. by rewrite !Forall_app, Forall_singleton. }
    rewrite app_assoc in Hnz, E. apply Forall_app in Hnz as [Hnz _].
    eapply must_mono; [by apply (must_grep_lines l2 tail ls2)|].
    intros o s2 (la & lb & q & -> & -> & E' & Hq & Hlen & Hq0 & Hf2 & Hp2). apply must_ret. cbn in Hf2.
    split; [|rewrite Hf2, !lookup_insert_eq; cbn; rewrite ?Hfds, ?lookup_insert_eq; cbn; rewrite ?length_app; lia].
    exists (ls1 ++ la), lb, l2. rewrite <- app_assoc. split_and!; try done.
    rewrite list.filter_app. unfold unlines. rewrite map_app, concat_app. eapply printed_trans; [done|].
    apply (printed_trans [] _ _ _ _ (printed_fds _ _)) in Hp2. exact Hp2.
Qed.

Lemma must_grep_files files texts s :
  Forall2 (λ f t, o_files s !! f = Some (unlines t.1 ++ t.2) ∧ Forall is_line t.1 ∧ is_line t.2) files texts →
  must ostep (λ o s', o = Exited 0 ∧ printed (concat (map (λ t, unlines (matching t.1)) texts)) s s')
    (grep_files pattern files) s.
Proof.
  intros HF. revert s HF. revert texts. induction files as [|f files IH]; intros texts s HF.
  { apply Forall2_nil_inv_l in HF as ->. apply must_exit. split; [done|apply printed_nil]. }
  apply Forall2_cons_inv_l in HF as ([ls tail] & texts' & (Hf & Hls & Ht) & HF & ->). cbn in Hf, Hls, Ht.
  cbn [grep_files]. apply (os_open _ _ _ _ _ _ Hf). intros fd Hfd Hfresh.
  rewrite (proj2 (Z.ltb_ge fd 0)) by lia. apply must_bind.
  eapply must_mono; [apply (must_grep fd ls tail); [done..|apply lookup_insert_eq]|].
  intros o s2 (-> & Hf2 & Hp). apply (printed_trans [] _ _ _ _ (printed_fds _ _)) in Hp. apply os_close.
  eapply must_mono; [apply (IH texts')|].
  - eapply Forall2_impl; [exact HF|]. cbn. intros f' t. destruct Hp as [Hfiles _]. by rewrite Hfiles.
  - intros o s3 [-> Hp3]. split; [done|]. cbn.
    eapply printed_trans; [exact Hp|]. by apply (printed_trans [] _ _ _ _ (printed_fds _ _)) in Hp3.
Qed.
End prints.

(** C30: grep with files prints on standard output the lines of each file that
    its matcher accepts, whole and in order, and exits with 0, however the
    system cuts the input into reads: a line that straddles two reads is kept
    in the buffer and matched once.  Lines without NUL of up to 1022 bytes; a
    last line without a newline is not printed. *)
Theorem grep_prints_matching_lines argv0 pattern files texts s :
  files ≠ [] →
  Forall2 (λ f t, o_files s !! f = Some (unlines t.1 ++ t.2) ∧ Forall is_line t.1 ∧ is_line t.2) files texts →
  must ostep (λ o s', o = Exited 0 ∧ ∀ fd, o_out s' fd =
      o_out (put 1 (concat (map (λ t, unlines (filter (λ l, match_ pattern l = true) t.1)) texts)) s) fd)
    (grep_main (argv0 :: pattern :: files)) s.
Proof.
  intros Hne HF. cbn [grep_main]. destruct files as [|f files]; [done|].
  eapply must_mono; [by apply must_grep_files|]. intros o s' [-> [_ Ho]]. by split.
Qed.

Definition demo : os :=
  mk_os {[str "a" := str "one
two
"; str "b" := str "tree
stone
end"]} ∅ (λ _, []).

Lemma grep_prints_matching_lines_witness :
  must ostep (λ o s', o = Exited 0 ∧ o_out s' 1 = str "one
stone
") (grep_main [str "grep"; str "on*e$"; str "a"; str "b"]) demo.
Proof.
  eapply must_mono.
  - apply (grep_prints_matching_lines (str "grep") (str "on*e$") [str "a"; str "b"]
      [([str "one"; str "two"], []); ([str "tree"; str "stone"], str "end")] demo); [done|].
    assert (∀ l, bool_decide (10 ∉ l) && forallb (λ c, negb (c =? 0)) l && (Z.of_nat (length l) <=? 1022) = true → is_line l) as B.
    { intros l [[H1%bool_decide_eq_true H2]%andb_prop H3]%andb_prop. split_and!; [done| |lia].
      apply List.Forall_forall. intros c Hc. rewrite forallb_forall in H2. specialize (H2 c Hc).
      by destruct (Z.eqb_spec c 0). }
    repeat first [apply B; reflexivity | reflexivity | constructor].
  - intros o s' [-> Ho]. split; [done|]. rewrite Ho. reflexivity.
Defined.
