(* ===== verification/Sh.v ===== *)
(** The shell, user/sh.c.
    The command line is a buffer [b] of bytes without its final NUL; the
    pointers the parser moves are positions in it, [es] is its length.  A parsed
    command holds, as in the C structures, the positions where each word starts
    and ends; [nulterminate] writes a NUL at every end, and [runcmd] reads the
    words as C strings from the buffer.  A parser that calls [panic] is
    [Panics] with the message.  Allocation of command nodes succeeds. *)
From S2P Require Import Prelude Machine Printf User Ulib.
From Stdlib Require Import Ascii.
Open Scope Z_scope.

Definition MAXARGS : nat := 10.
Inductive cmd : Type :=
| EXEC (argv : list (nat * nat))
| REDIR (c : cmd) (file efile : nat) (mode fd : Z)
| PIPE (left right : cmd)
| LIST (left right : cmd)
| BACK (c : cmd).

(** ** Tokens *)
Definition whitespace : list Z := [32; 9; 13; 10; 11].
Definition symbols : list Z := str "<|>&;()".
Definition one_of (l : list Z) (c : Z) : bool := if strchr l c then true else false.
Definition is_ws : Z → bool := one_of whitespace.
Definition is_word (c : Z) : bool := negb (is_ws c) && negb (one_of symbols c).

(** How far a loop [while(s < es && f( *s )) s++] goes. *)
Fixpoint span (f : Z → bool) (l : list Z) : nat :=
  match l with
  | c :: l' => if f c then S (span f l') else 0
  | [] => 0
  end.
Definition skip (f : Z → bool) (b : list Z) (s : nat) : nat := s + span f (drop s b).
(** The byte at a position; the NUL at the end. *)
Definition byte (b : list Z) (s : nat) : Z := nth s b 0.

(** The token, its start, its end, and the position after the white space. *)
Definition gettoken (b : list Z) (s : nat) : Z * nat * nat * nat :=
  let q := skip is_ws b s in
  let c := byte b q in
  let '(ret, eq) :=
    if c =? 0 then (c, q)
    else if one_of (str "|();&<") c then (c, S q)
    else if c =? chr ">" then if byte b (S q) =? chr ">" then (chr "+", S (S q)) else (c, S q)
    else (chr "a", skip is_word b q) in
  (ret, q, eq, skip is_ws b eq).
Definition peek (b : list Z) (s : nat) (toks : list Z) : bool * nat :=
  let s := skip is_ws b s in
  (negb (byte b s =? 0) && one_of toks (byte b s), s).

(** ** Parsing *)
Inductive presult : Type := Parsed (c : cmd) (s : nat) | Panics (msg : list Z) | OutOfFuel.
Definition pthen (r : presult) (f : cmd → nat → presult) : presult :=
  match r with Parsed c s => f c s | _ => r end.

(** What [redircmd] is called with for each token. *)
Definition redircmd (tok : Z) (c : cmd) (q eq : nat) : cmd :=
  if tok =? chr "<" then REDIR c q eq O_RDONLY 0
  else if tok =? chr ">" then REDIR c q eq (Z.lor (Z.lor O_WRONLY O_CREATE) O_TRUNC) 1
  else if tok =? chr "+" then REDIR c q eq (Z.lor O_WRONLY O_CREATE) 1
  else c.
Fixpoint parseredirs (n : nat) (b : list Z) (c : cmd) (s : nat) : presult :=
  match n with
  | O => OutOfFuel
  | S n =>
      let '(p, s) := peek b s (str "<>") in
      if negb p then Parsed c s else
      let '(tok, _, _, s) := gettoken b s in
      let '(t, q, eq, s) := gettoken b s in
      if negb (t =? chr "a") then Panics (str "missing file for redirection") else
      parseredirs n b (redircmd tok c q eq) s
  end.

(** [cmd->argv[argc] = q; cmd->eargv[argc] = eq] where [cmd] is the command
    below the redirections of [ret]. *)
Fixpoint add_arg (ret : cmd) (w : nat * nat) : cmd :=
  match ret with
  | EXEC argv => EXEC (argv ++ [w])
  | REDIR c file efile mode fd => REDIR (add_arg c w) file efile mode fd
  | _ => ret
  end.
Fixpoint parseargs (n : nat) (b : list Z) (ret : cmd) (argc s : nat) : presult :=
  match n with
  | O => OutOfFuel
  | S n =>
      let '(p, s) := peek b s (str "|)&;") in
      if p then Parsed ret s else
      let '(tok, q, eq, s) := gettoken b s in
      if tok =? 0 then Parsed ret s else
      if negb (tok =? chr "a") then Panics (str "syntax") else
      let ret := add_arg ret (q, eq) in
      if (MAXARGS <=? S argc)%nat then Panics (str "too many args") else
      pthen (parseredirs n b ret s) (λ ret s, parseargs n b ret (S argc) s)
  end.
Fixpoint parsebacks (n : nat) (b : list Z) (c : cmd) (s : nat) : presult :=
  match n with
  | O => OutOfFuel
  | S n =>
      let '(p, s) := peek b s (str "&") in
      if p then let '(_, _, _, s) := gettoken b s in parsebacks n b (BACK c) s else Parsed c s
  end.

Fixpoint parseline (n : nat) (b : list Z) (s : nat) : presult :=
  match n with
  | O => OutOfFuel
  | S n =>
      pthen (parsepipe n b s) (λ c s,
      pthen (parsebacks n b c s) (λ c s,
      let '(p, s) := peek b s (str ";") in
      if p then let '(_, _, _, s) := gettoken b s in pthen (parseline n b s) (λ r s, Parsed (LIST c r) s)
      else Parsed c s))
  end
with parsepipe (n : nat) (b : list Z) (s : nat) : presult :=
  match n with
  | O => OutOfFuel
  | S n =>
      pthen (parseexec n b s) (λ c s,
      let '(p, s) := peek b s (str "|") in
      if p then let '(_, _, _, s) := gettoken b s in pthen (parsepipe n b s) (λ r s, Parsed (PIPE c r) s)
      else Parsed c s)
  end
with parseexec (n : nat) (b : list Z) (s : nat) : presult :=
  match n with
  | O => OutOfFuel
  | S n =>
      let '(p, s) := peek b s (str "(") in
      if p then parseblock n b s
      else pthen (parseredirs n b (EXEC []) s) (λ ret s, parseargs n b ret 0 s)
  end
with parseblock (n : nat) (b : list Z) (s : nat) : presult :=
  match n with
  | O => OutOfFuel
  | S n =>
      let '(p, s) := peek b s (str "(") in
      if negb p then Panics (str "parseblock") else
      let '(_, _, _, s) := gettoken b s in
      pthen (parseline n b s) (λ c s,
      let '(p, s) := peek b s (str ")") in
      if negb p then Panics (str "syntax - missing )") else
      let '(_, _, _, s) := gettoken b s in
      parseredirs n b c s)
  end.

(** [nulterminate]: the buffer here includes the byte at [es]. *)
Fixpoint nulterminate (b : list Z) (c : cmd) : list Z :=
  match c with
  | EXEC argv => foldl (λ b w, <[w.2 := 0]> b) b argv
  | REDIR c file efile mode fd => <[efile := 0]> (nulterminate b c)
  | PIPE l r => nulterminate (nulterminate b l) r
  | LIST l r => nulterminate (nulterminate b l) r
  | BACK c => nulterminate b c
  end.

Definition enough (b : list Z) : nat := 5 * length b + 8.

(** ** Running *)
Definition panic (s : list Z) : prog unit := fprintf 2 (str "%s
") [AStr (Some s)];; exit 1.
Definition fork1 : prog Z :=
  pid ← call Sys_fork;
  pwhen (pid =? -1) (panic (str "fork"));;
  mret pid.

(** The C string at a position of the buffer. *)
Definition cstr (b : list Z) (q : nat) : list Z := take (span (λ c, negb (c =? 0)) (drop q b)) (drop q b).

(** The parsed command and the NUL-terminated buffer its words are in. *)
Definition parsecmd (s : list Z) : prog (cmd * list Z) :=
  match parseline (enough s) s 0 with
  | Parsed c p =>
      let p := (peek s p []).2 in
      pwhen (negb (p =? length s)%nat) (fprintf 2 (str "leftovers: %s
") [AStr (Some (drop p s))];; panic (str "syntax"));;
      mret (c, nulterminate (s ++ [0]) c)
  | Panics msg => panic msg;; mret (EXEC [], s ++ [0])
  | OutOfFuel => mret (EXEC [], s ++ [0])
  end.

Fixpoint runcmd (b : list Z) (c : cmd) : prog unit :=
  match c with
  | EXEC argv =>
      match argv with
      | [] => exit 1
      | (q, _) :: _ =>
          _ ← call (Sys_exec (cstr b q) (map (λ w, cstr b w.1) argv));
          fprintf 2 (str "exec %s failed
") [AStr (Some (cstr b q))];;
          exit 0
      end
  | REDIR c file _ mode fd =>
      _ ← call (Sys_close fd);
      r ← call (Sys_open (cstr b file) mode);
      pwhen (r <? 0) (fprintf 2 (str "open %s failed
") [AStr (Some (cstr b file))];; exit 1);;
      runcmd b c;;
      exit 0
  | LIST l r =>
      pid ← fork1;
      pwhen (pid =? 0) (runcmd b l);;
      _ ← call Sys_wait;
      runcmd b r;;
      exit 0
  | PIPE l r =>
      '(ret, p) ← call Sys_pipe;
      pwhen (ret <? 0) (panic (str "pipe"));;
      pid ← fork1;
      pwhen (pid =? 0) (
        _ ← call (Sys_close 1); _ ← call (Sys_dup p.2); _ ← call (Sys_close p.1); _ ← call (Sys_close p.2);
        runcmd b l);;
      pid ← fork1;
      pwhen (pid =? 0) (
        _ ← call (Sys_close 0); _ ← call (Sys_dup p.1); _ ← call (Sys_close p.1); _ ← call (Sys_close p.2);
        runcmd b r);;
      _ ← call (Sys_close p.1); _ ← call (Sys_close p.2);
      _ ← call Sys_wait; _ ← call Sys_wait;
      exit 0
  | BACK c =>
      pid ← fork1;
      pwhen (pid =? 0) (runcmd b c);;
      exit 0
  end.

(** The line read, [None] at the end of the input. *)
Definition getcmd (nbuf : Z) : prog (option (list Z)) :=
  _ ← call (Sys_write 2 (str "$ "));
  buf ← Ulib.gets nbuf;
  mret (if byte buf 0 =? 0 then None else Some buf).

Definition open_console : prog unit :=
  loop (λ _,
    fd ← call (Sys_open (str "console") O_RDWR);
    if fd <? 0 then mret (inr tt) else
    if 3 <=? fd then (_ ← call (Sys_close fd); mret (inr tt)) else mret (inl tt)) tt.

Definition is_cd (cmd : list Z) : bool :=
  (byte cmd 0 =? chr "c") && (byte cmd 1 =? chr "d") && (byte cmd 2 =? chr " ").
Definition sh_main : prog unit :=
  open_console;;
  loop (λ _,
    l ← getcmd 100;
    match l with
    | None => mret (inr tt)
    | Some buf =>
        let cmd := cstr buf (span (λ c, (c =? chr " ") || (c =? 9)) buf) in
        if byte cmd 0 =? 10 then mret (inl tt) else
        if is_cd cmd then
          let dir := drop 3 (take (length cmd - 1) cmd) in
          r ← call (Sys_chdir dir);
          pwhen (r <? 0) (fprintf 2 (str "cannot cd %s
") [AStr (Some dir)]);;
          mret (inl tt)
        else
          pid ← fork1;
          pwhen (pid =? 0) ('(c, b) ← parsecmd cmd; runcmd b c);;
          _ ← call Sys_wait;
          mret (inl tt)
    end) tt;;
  exit 0.
