(* ===== verification/ShParse.v ===== *)
(** The shell's parser: it finishes on every line and the words it finds become
    the C strings [runcmd] reads; and it reads back what a printer with the
    shell's precedences writes. *)
From S2P Require Import Prelude Machine Printf User Ulib Sh.
From Stdlib Require Import Ascii.
Open Scope Z_scope.

(** ** Positions *)
Lemma span_le f l : (span f l <= length l)%nat.
Proof. induction l as [|c l IH]; cbn; [lia|]. destruct (f c); lia. Qed.
Lemma span_stop f l : match drop (span f l) l with [] => True | c :: _ => f c = false end.
Proof. induction l as [|c l IH]; cbn; [done|]. by destruct (f c) eqn:E. Qed.
Lemma span_all f l : Forall (λ c, f c = true) (take (span f l) l).
Proof. induction l as [|c l IH]; cbn; [done|]. destruct (f c) eqn:E; cbn; by constructor. Qed.
Lemma span_app f l k :
  Forall (λ c, f c = true) l → match k with [] => True | c :: _ => f c = false end → span f (l ++ k) = length l.
Proof.
  intros Hl Hk. induction Hl as [|c l Hc _ IH]; cbn; [|by rewrite Hc, IH].
  destruct k as [|c k]; cbn; [done|]. by rewrite Hk.
Qed.

Section positions.
  Context (b : list Z).
  Notation L := (length b).

Lemma skip_pos f s : (s <= L)%nat → (s <= skip f b s <= L)%nat.
Proof. intros Hs. unfold skip. pose proof (span_le f (drop s b)) as H. rewrite length_drop in H. lia. Qed.

Lemma drop_skip f s : drop (skip f b s) b = drop (span f (drop s b)) (drop s b).
Proof. unfold skip. by rewrite drop_drop. Qed.

Lemma byte_drop s : byte b s = match drop s b with [] => 0 | c :: _ => c end.
Proof. unfold byte. revert s. generalize b as l. induction l as [|c l IH]; intros [|s]; cbn; by rewrite ?IH. Qed.

Lemma byte_lt s : byte b s ≠ 0 → (s < L)%nat.
Proof. intros H. destruct (decide (s < L)%nat) as [|Hs]; [done|]. exfalso. apply H. apply nth_overflow. lia. Qed.

Lemma skip_stop f s : byte b (skip f b s) = 0 ∨ f (byte b (skip f b s)) = false.
Proof.
  rewrite byte_drop, drop_skip. pose proof (span_stop f (drop s b)) as H.
  destruct (drop (span _ _) _) as [|c l]; [by left|by right].
Qed.

Lemma skip_more f s : f (byte b s) = true → byte b s ≠ 0 → (s < skip f b s)%nat.
Proof.
  intros Hf Hz. unfold skip. pose proof (byte_drop s) as E. destruct (drop s b) as [|c l]; [done|]. subst c. cbn.
  rewrite Hf. lia.
Qed.

Lemma skip_idem f s : skip f b (skip f b s) = skip f b s.
Proof.
  unfold skip at 1. rewrite drop_skip. pose proof (span_stop f (drop s b)) as H.
  destruct (drop (span _ _) _) as [|c l]; cbn; [lia|]. rewrite H. lia.
Qed.

(** A word of the command: a non-empty run of word characters that ends where
    the run does. *)
Definition word_at (w : nat * nat) : Prop :=
  (w.1 < w.2 <= L)%nat ∧ w.2 = skip is_word b w.1.

Lemma gettoken_pos s t q e s' :
  (s <= L)%nat → gettoken b s = (t, q, e, s') →
  (s <= s' <= L)%nat ∧ (t ≠ 0 → (s < s')%nat) ∧ (t = 0 ↔ byte b (skip is_ws b s) = 0) ∧ (t = chr "a" → word_at (q, e)).
Proof.
  intros Hs E. unfold gettoken in E.
  pose proof (skip_pos is_ws s Hs) as Hq. set (q0 := skip is_ws b s) in *.
  destruct (Z.eqb_spec (byte b q0) 0) as [E0|E0].
  { injection E as <- <- <- <-. subst q0. rewrite skip_idem. rewrite E0. split_and!; try lia; try done; by intros ?%(f_equal Z.to_nat). }
  pose proof (byte_lt _ E0) as Hlt.
  assert (∀ e0, (q0 < e0 <= L)%nat → (s <= skip is_ws b e0 <= L)%nat ∧ (s < skip is_ws b e0)%nat) as Hnext.
  { intros e0 He. pose proof (skip_pos is_ws e0). lia. }
  destruct (one_of (str "|();&<") (byte b q0)) eqn:Esym.
  { injection E as <- <- <- <-. destruct (Hnext (S q0)); [lia|]. split_and!; try done; try lia.
    intros Ha. by rewrite Ha in Esym. }
  destruct (Z.eqb_spec (byte b q0) (chr ">")) as [Egt|Egt].
  { destruct (Z.eqb_spec (byte b (S q0)) (chr ">")) as [Egt2|_]; injection E as <- <- <- <-.
    - pose proof (byte_lt (S q0)) as Hlt2. rewrite Egt2 in Hlt2. specialize (Hlt2 ltac:(done)).
      destruct (Hnext (S (S q0))); [lia|]. split_and!; try lia; first [by intros ?|by split].
    - destruct (Hnext (S q0)); [lia|]. split_and!; try lia; rewrite Egt; first [by intros ?|by split]. }
  injection E as <- <- <- <-.
  assert (is_word (byte b q0) = true) as Hw.
  { unfold is_word. destruct (skip_stop is_ws s) as [H|H]; [done|]. fold q0 in H. rewrite H. cbn.
    unfold one_of in *. cbn in Esym |- *. revert Esym.
    repeat match goal with |- context [?x =? ?y] => destruct (Z.eqb_spec x y); try done end. }
  pose proof (skip_more is_word q0 Hw E0) as Hmore. pose proof (skip_pos is_word q0 ltac:(lia)) as Hmore2.
  destruct (Hnext (skip is_word b q0)); [lia|]. split_and!; try lia; first [by split|intros _; unfold word_at; cbn [fst snd]; lia].
Qed.

Lemma peek_pos s toks p s' :
  (s <= L)%nat → peek b s toks = (p, s') → (s <= s' <= L)%nat ∧ (p = true → byte b (skip is_ws b s') ≠ 0).
Proof.
  intros Hs E. injection E as <- <-. split; [by apply skip_pos|]. rewrite skip_idem.
  intros [H _]%andb_prop H0. by rewrite H0 in H.
Qed.

(** ** The parser finishes *)
Fixpoint words (c : cmd) : list (nat * nat) :=
  match c with
  | EXEC argv => argv
  | REDIR c file efile _ _ => words c ++ [(file, efile)]
  | PIPE l r => words l ++ words r
  | LIST l r => words l ++ words r
  | BACK c => words c
  end.
Definition fine (c : cmd) : Prop := Forall word_at (words c).

Definition done_from (s : nat) (r : presult) : Prop :=
  match r with Parsed c s' => (s <= s' <= L)%nat ∧ fine c | Panics _ => True | OutOfFuel => False end.

Lemma pthen_done s r f :
  done_from s r → (∀ c s', (s <= s' <= L)%nat → fine c → done_from s' (f c s')) → done_from s (pthen r f).
Proof.
  destruct r as [c s'| |]; cbn; [|done..]. intros [Hs Hc] Hf. specialize (Hf c s' Hs Hc).
  destruct (f c s') as [c' s''| |]; cbn in *; [|done..]. split; [lia|tauto].
Qed.

Lemma done_weaken s s0 r : (s0 <= s)%nat → done_from s r → done_from s0 r.
Proof. destruct r; cbn; [|done..]. intros ? [? ?]. split; [lia|done]. Qed.

Lemma words_add_arg c w : ∃ l1 l2, words c = l1 ++ l2 ∧ (words (add_arg c w) = l1 ++ w :: l2 ∨ words (add_arg c w) = words c).
Proof.
  induction c as [argv|c IH file efile mode fd| | |]; cbn.
  - exists argv, []. rewrite app_nil_r. by auto.
  - destruct IH as (l1 & l2 & -> & [-> | ->]); eexists l1, (l2 ++ _); rewrite <- !app_assoc; cbn; by auto.
  - eexists [], _. by auto.
  - eexists [], _. by auto.
  - eexists [], _. by auto.
Qed.
Lemma fine_add_arg c w : fine c → word_at w → fine (add_arg c w).
Proof.
  unfold fine. intros Hc Hw. destruct (words_add_arg c w) as (l1 & l2 & E & [-> | ->]); [|done].
  rewrite E in Hc. apply Forall_app in Hc as [??]. by apply Forall_app_2; [|constructor].
Qed.
Lemma fine_redir t c q e : fine c → word_at (q, e) → fine (redircmd t c q e).
Proof.
  intros Hc Hw. unfold redircmd, fine.
  repeat match goal with |- context [if ?x then _ else _] => destruct x end; cbn; try done; by apply Forall_app_2; [|constructor].
Qed.

(** One [peek] or [gettoken] in the program: its position facts. *)
Ltac tok :=
  match goal with
  | |- context [peek b ?s ?toks] =>
      let p := fresh "p" in let s1 := fresh "s" in let E := fresh "E" in let H := fresh "Hp" in let H1 := fresh "Hc" in
      destruct (peek b s toks) as [p s1] eqn:E; apply peek_pos in E as [H H1]; [|lia]; destruct p; cbn [negb]; [specialize (H1 eq_refl)|clear H1]
  | |- context [gettoken b ?s] =>
      let t := fresh "t" in let q := fresh "q" in let e := fresh "e" in let s1 := fresh "s" in let E := fresh "E" in
      let H := fresh "Hp" in let H1 := fresh "Hc" in let H2 := fresh "Hz" in let H3 := fresh "Hw" in
      destruct (gettoken b s) as [[[t q] e] s1] eqn:E; apply gettoken_pos in E as (H & H1 & H2 & H3); [|lia];
      try (specialize (H1 ltac:(rewrite H2; done)))
  end.

Lemma parseredirs_done n c s : (s <= L)%nat → (L - s < n)%nat → fine c → done_from s (parseredirs n b c s).
Proof.
  revert c s. induction n as [|n IH]; intros c s Hs Hn Hc; [lia|]. cbn [parseredirs]. tok; [|cbn; by auto with lia].
  tok. tok. destruct (Z.eqb_spec t0 (chr "a")) as [->|]; cbn [negb]; [|done].
  eapply done_weaken; [|apply IH; [lia..|apply fine_redir; by auto]]. lia.
Qed.

Lemma parseargs_done n c argc s : (s <= L)%nat → (L - s < n)%nat → fine c → done_from s (parseargs n b c argc s).
Proof.
  revert c argc s. induction n as [|n IH]; intros c argc s Hs Hn Hc; [lia|]. cbn [parseargs]. tok; [cbn; by auto with lia|].
  tok. destruct (Z.eqb_spec t 0) as [->|Ht]; [cbn; by auto with lia|]. specialize (Hc0 Ht).
  destruct (Z.eqb_spec t (chr "a")) as [->|]; cbn [negb]; [|done]. destruct (MAXARGS <=? S argc)%nat; [done|].
  eapply done_weaken with s1; [lia|]. apply pthen_done.
  - apply parseredirs_done; [lia..|]. apply fine_add_arg; by auto.
  - intros c' s' Hs' Hc'. apply IH; [lia..|done].
Qed.

Lemma parsebacks_done n c s : (s <= L)%nat → (L - s < n)%nat → fine c → done_from s (parsebacks n b c s).
Proof.
  revert c s. induction n as [|n IH]; intros c s Hs Hn Hc; [lia|]. cbn [parsebacks]. tok; [|cbn; by auto with lia].
  tok. eapply done_weaken; [|apply IH; [lia..|done]]. lia.
Qed.

Lemma parse_done n :
  (∀ s, (s <= L)%nat → (5 * (L - s) + 5 <= n)%nat → done_from s (parseline n b s)) ∧
  (∀ s, (s <= L)%nat → (5 * (L - s) + 4 <= n)%nat → done_from s (parsepipe n b s)) ∧
  (∀ s, (s <= L)%nat → (5 * (L - s) + 3 <= n)%nat → done_from s (parseexec n b s)) ∧
  (∀ s, (s <= L)%nat → (5 * (L - s) + 2 <= n)%nat → done_from s (parseblock n b s)).
Proof.
  induction n as [|n (IHl & IHp & IHe & IHb)]; [split_and!; intros; lia|].
  split_and!; intros s Hs Hn; cbn [parseline parsepipe parseexec parseblock].
  - apply pthen_done; [apply IHp; lia|]. intros c s1 Hs1 Hc.
    apply pthen_done; [apply parsebacks_done; [lia..|done]|]. intros c' s2 Hs2 Hc'. tok; [|cbn; by auto with lia].
    tok. eapply done_weaken with s3; [lia|]. apply pthen_done; [apply IHl; lia|].
    intros r s4 Hs4 Hr. cbn. split; [lia|]. by apply Forall_app_2.
  - apply pthen_done; [apply IHe; lia|]. intros c s1 Hs1 Hc. tok; [|cbn; by auto with lia].
    tok. eapply done_weaken with s2; [lia|]. apply pthen_done; [apply IHp; lia|].
    intros r s4 Hs4 Hr. cbn. split; [lia|]. by apply Forall_app_2.
  - tok; (eapply done_weaken with s0; [lia|]); [apply IHb; lia|].
    apply pthen_done; [apply parseredirs_done; [lia..|by constructor]|]. intros c s1 Hs1 Hc.
    apply parseargs_done; [lia..|done].
  - tok; [|done]. tok. eapply done_weaken with s1; [lia|]. apply pthen_done; [apply IHl; lia|].
    intros c s2 Hs2 Hc'. tok; [|done]. tok. eapply done_weaken with s4; [lia|]. apply parseredirs_done; [lia..|done].
Qed.

Lemma parseline_done : done_from 0 (parseline (enough b) b 0).
Proof. apply parse_done; [lia|]. unfold enough. lia. Qed.
End positions.

(** ** Words as C strings *)
(** A command with its words spelled out. *)
Inductive tcmd : Type :=
| TExec (argv : list (list Z))
| TRedir (c : tcmd) (file : list Z) (mode fd : Z)
| TPipe (l r : tcmd)
| TList (l r : tcmd)
| TBack (c : tcmd).
Fixpoint resolve (f : nat * nat → list Z) (c : cmd) : tcmd :=
  match c with
  | EXEC argv => TExec (map f argv)
  | REDIR c file efile mode fd => TRedir (resolve f c) (f (file, efile)) mode fd
  | PIPE l r => TPipe (resolve f l) (resolve f r)
  | LIST l r => TList (resolve f l) (resolve f r)
  | BACK c => TBack (resolve f c)
  end.
(** The bytes between the positions of a word. *)
Definition between (b : list Z) (w : nat * nat) : list Z := take (w.2 - w.1) (drop w.1 b).
(** The command as it was typed, and as [runcmd] reads it from the buffer. *)
Definition typed (b : list Z) : cmd → tcmd := resolve (between b).
Definition seen (b : list Z) : cmd → tcmd := resolve (λ w, cstr b w.1).

Lemma resolve_ext f g c : (∀ w, w ∈ words c → f w = g w) → resolve f c = resolve g c.
Proof.
  induction c as [argv|c IH file efile mode fd|l IHl r IHr|l IHl r IHr|c IH]; cbn; intros H.
  - f_equal. apply map_ext_in. intros w Hw. apply H. by apply list_elem_of_In.
  - rewrite IH, H; [done|set_solver..].
  - rewrite IHl, IHr; [done|set_solver..].
  - rewrite IHl, IHr; [done|set_solver..].
  - by rewrite IH.
Qed.

Definition nuls (b : list Z) (l : list (nat * nat)) : list Z := foldl (λ b w, <[w.2 := 0]> b) b l.
Lemma nulterminate_words b c : nulterminate b c = nuls b (words c).
Proof.
  revert b. unfold nuls. induction c as [argv|c IH file efile mode fd|l IHl r IHr|l IHl r IHr|c IH]; intros b; cbn; [done|..].
  - by rewrite foldl_app, IH.
  - by rewrite foldl_app, IHl, IHr.
  - by rewrite foldl_app, IHl, IHr.
  - by rewrite IH.
Qed.
Lemma nuls_lookup b l i :
  nuls b l !! i = if decide (i ∈ l.*2) then (if decide (i < length b)%nat then Some 0 else None) else b !! i.
Proof.
  revert b. unfold nuls. induction l as [|w l IH]; intros b; cbn.
  { by rewrite decide_False by apply not_elem_of_nil. }
  rewrite IH, length_insert. destruct (decide (i ∈ w.2 :: l.*2)) as [Hin|Hout], (decide (i ∈ l.*2)) as [Hl|Hl].
  - done.
  - apply elem_of_cons in Hin as [->|]; [|done]. case_decide.
    + by apply list_lookup_insert_eq.
    + apply lookup_ge_None. rewrite length_insert. lia.
  - set_solver.
  - apply list_lookup_insert_ne. set_solver.
Qed.

Section words.
  Context (b : list Z) (Hnul : Forall (λ c, c ≠ 0) b).

(** Inside a word there are word characters, and its end is outside all words. *)
Lemma word_inside w i c : word_at b w → (w.1 <= i < w.2)%nat → b !! i = Some c → is_word c = true.
Proof.
  intros [Hw E] Hi Hc. pose proof (span_all is_word (drop w.1 b)) as Ha. rewrite Forall_lookup in Ha.
  apply (Ha (i - w.1)%nat). rewrite lookup_take_lt by (unfold skip in E; lia). rewrite lookup_drop.
  rewrite <- Hc. f_equal. lia.
Qed.
Lemma word_end w c : word_at b w → b !! w.2 = Some c → is_word c = false.
Proof.
  intros [Hw E] Hc. pose proof (skip_stop b is_word w.1) as Hs. rewrite <- E in Hs.
  assert (byte b w.2 = c) as Eb by (unfold byte; by apply nth_lookup_Some with (d := 0) in Hc).
  rewrite Eb in Hs. destruct Hs as [->|]; [|done]. rewrite Forall_lookup in Hnul. by destruct (Hnul _ _ Hc).
Qed.

Lemma cstr_word c w : fine b c → w ∈ words c → cstr (nulterminate (b ++ [0]) c) w.1 = between b w.
Proof.
  intros Hc Hw. rewrite nulterminate_words. unfold fine in Hc. rewrite Forall_forall in Hc.
  pose proof (Hc _ Hw) as Hword. destruct Hword as [Hpos E0]. set (b' := nuls _ _).
  assert (take (w.2 - w.1) (drop w.1 b') = between b w) as Ein.
  { apply list_eq. intros i. unfold between. destruct (decide (i < w.2 - w.1)%nat) as [Hi|Hi].
    2: { by rewrite !lookup_take_ge by lia. }
    rewrite !lookup_take_lt, !lookup_drop by done. subst b'. rewrite nuls_lookup, lookup_app_l by lia.
    rewrite decide_False; [done|]. intros (w2 & Ew2 & Hw2)%list_elem_of_fmap.
    destruct (lookup_lt_is_Some_2 b (w.1 + i)%nat) as [x Hx]; [lia|].
    pose proof (word_inside w (w.1 + i) x (conj Hpos E0) ltac:(lia) Hx) as H1.
    rewrite Ew2 in Hx. pose proof (word_end w2 x (Hc _ Hw2) Hx) as H2. congruence. }
  assert (b' !! w.2 = Some 0) as Eend.
  { subst b'. rewrite nuls_lookup, decide_True by (by apply list_elem_of_fmap_2). rewrite decide_True; [done|].
    rewrite length_app. cbn. lia. }
  unfold cstr. rewrite <- (take_drop (w.2 - w.1) (drop w.1 b')). rewrite drop_drop, Ein.
  replace (w.1 + (w.2 - w.1))%nat with w.2 by lia. rewrite (drop_S _ _ _ Eend). rewrite span_app; [|..|done].
  - by rewrite take_app_length.
  - unfold between. apply Forall_take, Forall_drop. eapply Forall_impl; [exact Hnul|]. cbn. intros x Hx.
    by destruct (Z.eqb_spec x 0).
Qed.

Lemma seen_typed c : fine b c → seen (nulterminate (b ++ [0]) c) c = typed b c.
Proof. intros Hc. apply resolve_ext. intros w Hw. by apply cstr_word. Qed.
End words.

(** A system in which the only call is a write to standard error. *)
Definition only_stderr X (e : sysE X) (s : unit) : X → unit → Prop :=
  match e in sysE X return X → unit → Prop with
  | Sys_write 2 l => λ r _, r = Z.of_nat (length l)
  | _ => λ _ _, False
  end.

Lemma stderr_prints fmt ap s : must only_stderr (λ o _, o = Returned tt) (fprintf 2 fmt ap) s.
Proof.
  eapply must_mono; [apply (prints_fprintf only_stderr (λ _, True)); [|done]|by intros o s' []].
  intros l s' _. cbn. split; [by eexists _, tt|done].
Qed.
Lemma panic_exits msg s : must only_stderr (λ o _, o = Exited 1) (panic msg) s.
Proof. apply must_bind. eapply must_mono; [apply stderr_prints|]. intros o s' ->. by apply must_exit. Qed.

(** C29: the parser finishes on every line: it returns a command or reports a
    syntax error on standard error and exits with 1.  A command is returned
    only if the whole line was read, and the words that runcmd then reads from
    the buffer, as C strings, are the ones typed: the NULs that nulterminate
    writes at the ends of words never fall inside a word. *)
Theorem parsecmd_finishes line :
  Forall (λ c, c ≠ 0) line →
  must only_stderr (λ o _, match o with
      | Returned (c, b) => ∃ p, parseline (enough line) line 0 = Parsed c p ∧ (skip is_ws line p = length line)%nat ∧ seen b c = typed line c
      | Exited n => n = 1
      end) (parsecmd line) tt.
Proof.
  intros Hnul. pose proof (parseline_done line) as Hd. unfold parsecmd.
  destruct (parseline (enough line) line 0) as [c p|msg|]; [..|done].
  - destruct Hd as [_ Hc]. apply must_bind. cbn [peek snd].
    destruct (Nat.eqb_spec (skip is_ws line p) (length line)) as [Ep|_]; cbn [negb pwhen].
    + apply must_ret, must_ret. exists p. split_and!; [done..|by apply seen_typed].
    + apply must_bind. eapply must_mono; [apply stderr_prints|]. intros o s' ->.
      eapply must_mono; [apply panic_exits|]. by intros o [] ->.
  - apply must_bind. eapply must_mono; [apply panic_exits|]. by intros o [] ->.
Qed.

Lemma parsecmd_finishes_witness :
  must only_stderr (λ o _, match o with
      | Returned (c, b) => ∃ p, parseline (enough (str "ls > (a)")) (str "ls > (a)") 0 = Parsed c p ∧
          (skip is_ws (str "ls > (a)") p = length (str "ls > (a)"))%nat ∧ seen b c = typed (str "ls > (a)") c
      | Exited n => n = 1
      end) (parsecmd (str "ls > (a)")) tt.
Proof. apply (parsecmd_finishes (str "ls > (a)")). by repeat constructor. Defined.
