(* ===== verification/ShPrint.v ===== *)
(** The shell's grammar: a printer that uses parentheses only where the
    precedences of [;], [&], [|] and redirections ask for them, and the theorem
    that the parser reads back what it prints. *)
From S2P Require Import Prelude Machine Printf User Ulib Sh ShParse.
From Stdlib Require Import Ascii Wf_nat.
Open Scope Z_scope.

(** ** More fuel gives the same result *)
Definition extends (r r' : presult) : Prop := r = OutOfFuel ∨ r' = r.

Lemma extends_refl r : extends r r.
Proof. by right. Qed.
Lemma extends_trans r1 r2 r3 : extends r1 r2 → extends r2 r3 → extends r1 r3.
Proof. intros [->| ->]; [by left|done]. Qed.
Lemma extends_pthen r r' f f' : extends r r' → (∀ c s, extends (f c s) (f' c s)) → extends (pthen r f) (pthen r' f').
Proof. intros [->| ->] Hf; [by left|]. destruct r; cbn; [done|apply extends_refl..]. Qed.

Create HintDb fuel.
#[export] Hint Resolve extends_refl extends_pthen : fuel.

Section fuel.
  Context (b : list Z).

Lemma parseredirs_more n m c s : m = S n → extends (parseredirs n b c s) (parseredirs m b c s).
Proof.
  revert m c s. induction n as [|n IH]; intros m c s Em; [by left|]. destruct m as [|m]; [done|]. injection Em as Em.
  cbn [parseredirs].
  destruct (peek b s _) as [[] s1]; cbn [negb]; [|apply extends_refl].
  destruct (gettoken b s1) as [[[t q] e] s2]. destruct (gettoken b s2) as [[[t' q'] e'] s3].
  destruct (negb _); [apply extends_refl|by apply IH].
Qed.
Lemma parseargs_more n m c argc s : m = S n → extends (parseargs n b c argc s) (parseargs m b c argc s).
Proof.
  revert m c argc s. induction n as [|n IH]; intros m c argc s Em; [by left|]. destruct m as [|m]; [done|]. injection Em as Em.
  cbn [parseargs].
  destruct (peek b s _) as [[] s1]; [apply extends_refl|].
  destruct (gettoken b s1) as [[[t q] e] s2]. destruct (t =? 0); [apply extends_refl|].
  destruct (negb _); [apply extends_refl|]. destruct (_ <=? _)%nat; [apply extends_refl|].
  apply extends_pthen; [by apply parseredirs_more|]. intros c' s'. by apply IH.
Qed.
Lemma parsebacks_more n m c s : m = S n → extends (parsebacks n b c s) (parsebacks m b c s).
Proof.
  revert m c s. induction n as [|n IH]; intros m c s Em; [by left|]. destruct m as [|m]; [done|]. injection Em as Em.
  cbn [parsebacks].
  destruct (peek b s _) as [[] s1]; [|apply extends_refl]. destruct (gettoken b s1) as [[[t q] e] s2]. by apply IH.
Qed.

Lemma parse_more n m : m = S n →
  (∀ s, extends (parseline n b s) (parseline m b s)) ∧ (∀ s, extends (parsepipe n b s) (parsepipe m b s)) ∧
  (∀ s, extends (parseexec n b s) (parseexec m b s)) ∧ (∀ s, extends (parseblock n b s) (parseblock m b s)).
Proof.
  revert m. induction n as [|n IH]; intros m Em; [split_and!; by left|].
  destruct m as [|m]; [done|]. injection Em as Em. destruct (IH m Em) as (IHl & IHp & IHe & IHb).
  split_and!; intros s; cbn [parseline parsepipe parseexec parseblock].
  - apply extends_pthen; [apply IHp|]. intros c s1. apply extends_pthen; [by apply parsebacks_more|]. intros c' s2.
    destruct (peek b s2 _) as [[] s3]; [|apply extends_refl]. destruct (gettoken b s3) as [[[t q] e] s4].
    apply extends_pthen; [apply IHl|by auto with fuel].
  - apply extends_pthen; [apply IHe|]. intros c s1. destruct (peek b s1 _) as [[] s3]; [|apply extends_refl].
    destruct (gettoken b s3) as [[[t q] e] s4]. apply extends_pthen; [apply IHp|by auto with fuel].
  - destruct (peek b s _) as [[] s3]; [apply IHb|].
    apply extends_pthen; [by apply parseredirs_more|]. intros c s1. by apply parseargs_more.
  - destruct (peek b s _) as [[] s3]; cbn [negb]; [|apply extends_refl].
    destruct (gettoken b s3) as [[[t q] e] s4]. apply extends_pthen; [apply IHl|]. intros c s1.
    destruct (peek b s1 _) as [[] s5]; cbn [negb]; [|apply extends_refl].
    destruct (gettoken b s5) as [[[t' q'] e'] s6]. by apply parseredirs_more.
Qed.

Lemma parseline_extends n m s : (n <= m)%nat → extends (parseline n b s) (parseline m b s).
Proof.
  induction 1 as [|m _ IH]; [apply extends_refl|]. eapply extends_trans; [exact IH|]. by apply parse_more.
Qed.
End fuel.

(** ** The printer *)
Definition spaced (w : list Z) : list Z := 32 :: w.
Definition redir : Type := list Z * Z * Z.
Definition show_redir (r : redir) : list Z :=
  let '(file, mode, fd) := r in
  32 :: (if fd =? 0 then str "<" else if bool_decide (mode = Z.lor O_WRONLY O_CREATE) then str ">>" else str ">") ++ file.
Definition paren (p : bool) (l : list Z) : list Z := if p then 40 :: l ++ [41] else l.
(** Levels: 0 a line, 1 a pipe with its [&]s, 2 a pipe, 3 a simple command. *)
Fixpoint show (lvl : nat) (t : tcmd) : list Z :=
  match t with
  | TExec argv => concat (map spaced argv)
  | TRedir c file mode fd => show 3 c ++ show_redir (file, mode, fd)
  | TPipe l r => paren (3 <=? lvl)%nat (show 3 l ++ 124 :: show 2 r)
  | TList l r => paren (1 <=? lvl)%nat (show 1 l ++ 59 :: show 0 r)
  | TBack c => paren (2 <=? lvl)%nat (show 1 c ++ [38])
  end.

Definition word (w : list Z) : Prop := w ≠ [] ∧ Forall (λ c, is_word c = true ∧ c ≠ 0) w.
Definition redir_ok (r : redir) : Prop :=
  let '(file, mode, fd) := r in
  word file ∧ ((mode = O_RDONLY ∧ fd = 0) ∨ (mode = Z.lor (Z.lor O_WRONLY O_CREATE) O_TRUNC ∧ fd = 1) ∨ (mode = Z.lor O_WRONLY O_CREATE ∧ fd = 1)).
Fixpoint printable (t : tcmd) : Prop :=
  match t with
  | TExec argv => Forall word argv ∧ (length argv < MAXARGS)%nat
  | TRedir c file mode fd => printable c ∧ redir_ok (file, mode, fd)
  | TPipe l r => printable l ∧ printable r
  | TList l r => printable l ∧ printable r
  | TBack c => printable c
  end.

(** ** What is left of the line *)
Definition strip (l : list Z) : list Z := drop (span is_ws l) l.
Definition rest (b : list Z) (s : nat) : list Z := drop (skip is_ws b s) b.
(** The text after a phrase: nothing, or one of these symbols. *)
Definition nxt (syms k : list Z) : Prop := strip k = [] ∨ ∃ c k', strip k = c :: k' ∧ c ∈ syms.

Lemma nxt_weaken l l' k : nxt l k → l ⊆ l' → nxt l' k.
Proof. intros [H|(c & k' & E & Hc)] Hl; [by left|]. right. exists c, k'. split; [done|]. by apply Hl. Qed.
Lemma nxt_here l c k : c ∈ l → is_ws c = false → nxt l (c :: k).
Proof. intros Hc Hw. right. exists c, k. unfold strip. cbn. by rewrite Hw. Qed.

Lemma strip_head c k : is_ws c = false → strip (c :: k) = c :: k.
Proof. intros Hc. unfold strip. cbn. by rewrite Hc. Qed.
Lemma strip_space k : strip (32 :: k) = strip k.
Proof. done. Qed.
Lemma strip_idem k : strip (strip k) = strip k.
Proof.
  unfold strip at 1. pose proof (span_stop is_ws k) as H. fold (strip k) in H.
  destruct (strip k) as [|c l]; [done|]. cbn. by rewrite H.
Qed.

Lemma one_of_notin l c : c ∉ l → one_of l c = false.
Proof.
  unfold one_of. induction l as [|y l IH]; [done|]. intros [Hy Hl]%not_elem_of_cons. cbn.
  destruct (y =? 0); [done|]. destruct (Z.eqb_spec y c); [congruence|by apply IH].
Qed.

Section tokens.
  Context (b : list Z).

Lemma rest_drop s : rest b s = strip (drop s b).
Proof. unfold rest, strip. by rewrite drop_skip. Qed.
Lemma rest_skip s : rest b (skip is_ws b s) = rest b s.
Proof. unfold rest. by rewrite skip_idem. Qed.
Lemma byte_rest s : byte b (skip is_ws b s) = match rest b s with [] => 0 | c :: _ => c end.
Proof. apply byte_drop. Qed.
Lemma drop_after s c l : rest b s = c :: l → drop (S (skip is_ws b s)) b = l.
Proof. unfold rest. intros E. rewrite <- Nat.add_1_r, <- drop_drop, E. done. Qed.

Lemma peek_nil s toks : rest b s = [] → peek b s toks = (false, skip is_ws b s).
Proof. intros E. unfold peek. by rewrite byte_rest, E. Qed.
Lemma peek_cons s toks c l : rest b s = c :: l → c ≠ 0 → peek b s toks = (one_of toks c, skip is_ws b s).
Proof. intros E Hc. unfold peek. rewrite byte_rest, E. by destruct (Z.eqb_spec c 0). Qed.

Lemma tok_end s : rest b s = [] → ∃ q e s', gettoken b s = (0, q, e, s') ∧ rest b s' = [].
Proof. intros E. unfold gettoken. rewrite byte_rest, E. cbn. eexists _, _, _. split; [done|]. by rewrite !rest_skip. Qed.
Lemma tok_sym s c l :
  rest b s = c :: l → c ∈ str "|();&<" → ∃ q e s', gettoken b s = (c, q, e, s') ∧ rest b s' = strip l.
Proof.
  intros E Hc. unfold gettoken. rewrite byte_rest, E.
  assert (one_of (str "|();&<") c = true ∧ c ≠ 0) as [-> Hz] by (cbn in Hc; set_unfold in Hc; by destruct_or! Hc; subst c).
  destruct (Z.eqb_spec c 0); [done|]. eexists _, _, _. split; [done|]. rewrite rest_skip, rest_drop. by erewrite drop_after.
Qed.
Lemma tok_gt s l :
  rest b s = chr ">" :: l → match l with [] => True | c :: _ => c ≠ chr ">" end →
  ∃ q e s', gettoken b s = (chr ">", q, e, s') ∧ rest b s' = strip l.
Proof.
  intros E Hl. unfold gettoken. rewrite byte_rest, E. cbn [one_of strchr]. pose proof (drop_after _ _ _ E) as El.
  rewrite byte_drop, El. replace (match l with [] => 0 | c :: _ => c end =? chr ">") with false.
  2: { destruct l as [|c l]; [done|]. by destruct (Z.eqb_spec c (chr ">")). }
  eexists _, _, _. split; [done|]. by rewrite rest_skip, rest_drop, El.
Qed.
Lemma tok_gtgt s l :
  rest b s = chr ">" :: chr ">" :: l → ∃ q e s', gettoken b s = (chr "+", q, e, s') ∧ rest b s' = strip l.
Proof.
  intros E. unfold gettoken. rewrite byte_rest, E. pose proof (drop_after _ _ _ E) as El.
  rewrite byte_drop, El. eexists _, _, _. split; [done|]. rewrite rest_skip, rest_drop.
  replace (S (S (skip is_ws b s))) with (S (skip is_ws b s) + 1)%nat by lia. by rewrite <- drop_drop, El.
Qed.
Lemma word_char c : is_word c = true → is_ws c = false ∧ c ∉ symbols.
Proof.
  unfold is_word. intros [H1%negb_true_iff H2%negb_true_iff]%andb_prop. split; [done|].
  intros Hc. cbn in Hc. set_unfold in Hc. by destruct_or! Hc; subst c.
Qed.
Lemma tok_word s w l :
  rest b s = w ++ l → word w → match l with [] => True | c :: _ => is_word c = false end →
  ∃ q e s', gettoken b s = (chr "a", q, e, s') ∧ rest b s' = strip l ∧ between b (q, e) = w.
Proof.
  intros E [Hne Hw] Hl. destruct w as [|c w]; [done|]. unfold gettoken. rewrite byte_rest, E. cbn [app].
  pose proof (proj1 (Forall_cons _ _ _) Hw) as [[Hc Hz] _]. destruct (word_char c Hc) as [_ Hsym].
  destruct (Z.eqb_spec c 0); [done|].
  replace (one_of (str "|();&<") c) with false.
  2: { symmetry. apply one_of_notin. cbn in Hsym |- *. set_solver. }
  destruct (Z.eqb_spec c (chr ">")) as [->|]; [cbn in Hsym; set_solver|].
  set (q := skip is_ws b s). unfold rest in E. fold q in E.
  assert (skip is_word b q = (q + length (c :: w))%nat) as Ee.
  { unfold skip. rewrite E. f_equal. apply span_app; [|done]. eapply Forall_impl; [exact Hw|]. by intros x []. }
  eexists _, _, _. split; [done|]. rewrite Ee. split.
  - rewrite rest_skip, rest_drop. by rewrite <- drop_drop, E, drop_app_length.
  - unfold between. cbn [fst snd]. rewrite E. rewrite Nat.add_comm, Nat.add_sub. by rewrite take_app_length.
Qed.
End tokens.

(** ** Reading back *)
(** With enough fuel, [p] parses. *)
Definition runs (p : nat → presult) (c : cmd) (s : nat) : Prop := ∃ n, ∀ m, (n <= m)%nat → p m = Parsed c s.
Lemma runs_step p p' c s : runs p' c s → (∀ n, p (S n) = p' n) → runs p c s.
Proof.
  intros [n Hn] E. exists (S n). intros [|m] Hm; [lia|]. rewrite E. apply Hn. lia.
Qed.
Lemma runs_then p f c s c' s' : runs p c s → runs (λ n, f n c s) c' s' → runs (λ n, pthen (p n) (f n)) c' s'.
Proof.
  intros [n Hn] [n' Hn']. exists (n + n')%nat. intros m Hm. rewrite Hn by lia. cbn. apply Hn'. lia.
Qed.
Lemma runs_now p c s : (∀ n, p n = Parsed c s) → runs p c s.
Proof. intros H. exists O. by intros. Qed.

Section reading.
  Context (b : list Z).
  Notation typed := (typed b).
  Notation rest := (rest b).

(** [parseredirs] where there is nothing to do. *)
Lemma redirs_none c s :
  match rest s with [] => True | x :: _ => x ≠ 0 ∧ x ≠ chr "<" ∧ x ≠ chr ">" end →
  runs (λ n, parseredirs n b c s) c (skip is_ws b s).
Proof.
  intros H. apply runs_step with (λ _, Parsed c (skip is_ws b s)); [by apply runs_now|]. intros n. cbn [parseredirs].
  destruct (rest s) as [|x l] eqn:E; [by rewrite (peek_nil _ _ _ E)|]. destruct H as (Hz & H1 & H2).
  rewrite (peek_cons _ _ _ _ _ E Hz), one_of_notin; [done|]. cbn. set_solver.
Qed.

Definition add_redir (t : tcmd) (r : redir) : tcmd := let '(file, mode, fd) := r in TRedir t file mode fd.
Definition show_redirs (rs : list redir) : list Z := concat (map show_redir rs).

Lemma nonword l k : nxt l k → l ⊆ symbols → match strip k with [] => True | c :: _ => is_word c = false end.
Proof.
  intros [->|(c & k' & -> & Hc)] Hl; [done|]. apply Hl in Hc. cbn in Hc. set_unfold in Hc. by destruct_or! Hc; subst c.
Qed.
Lemma word_head w k : word w → strip (w ++ k) = w ++ k.
Proof.
  intros [Hne Hw]. destruct w as [|c w]; [done|]. apply Forall_cons in Hw as [[Hc _] _].
  apply strip_head. by apply word_char.
Qed.

(** What can follow a word: white space, a symbol or the end. *)
Definition ends (k : list Z) : Prop := match k with [] => True | c :: _ => is_word c = false end.
Lemma nxt_ends l k : nxt l k → l ⊆ symbols → ends k.
Proof.
  intros Hn Hl. pose proof (nonword _ _ Hn Hl) as H. unfold strip in H. destruct k as [|c k]; [done|]. cbn in *.
  unfold is_word. destruct (is_ws c) eqn:Ec; [done|]. cbn in H. unfold is_word in H. by rewrite Ec in H.
Qed.

(** The symbol of a redirection. *)
Lemma redir_tok c s file mode fd k :
  word file → (mode = O_RDONLY ∧ fd = 0) ∨ (mode = Z.lor (Z.lor O_WRONLY O_CREATE) O_TRUNC ∧ fd = 1) ∨ (mode = Z.lor O_WRONLY O_CREATE ∧ fd = 1) →
  rest s = strip ((if fd =? 0 then str "<" else if bool_decide (mode = Z.lor O_WRONLY O_CREATE) then str ">>" else str ">") ++ file ++ k) →
  ∃ tok q e s1, peek b s (str "<>") = (true, skip is_ws b s) ∧
    gettoken b (skip is_ws b s) = (tok, q, e, s1) ∧ rest s1 = file ++ k ∧
    (∀ q e, typed (redircmd tok c q e) = TRedir (typed c) (between b (q, e)) mode fd).
Proof.
  intros Hf Hm Es.
  assert (match file ++ k with [] => True | x :: _ => x ≠ chr ">" end) as Hgt.
  { destruct Hf as [Hne Hw], file as [|x file]; [done|]. apply Forall_cons in Hw as [[Hx _] _]. cbn. by intros ->. }
  destruct Hm as [[-> ->]|[[-> ->]|[-> ->]]].
  - change (rest s = chr "<" :: file ++ k) in Es. pose proof Es as Es'. rewrite <- rest_skip in Es'.
    destruct (tok_sym _ _ _ _ Es') as (q & e & s1 & Et & E1); [cbn; set_solver|].
    eexists _, q, e, s1. rewrite (peek_cons _ _ _ _ _ Es) by done. rewrite E1, word_head by done. by split_and!.
  - change (rest s = chr ">" :: file ++ k) in Es. pose proof Es as Es'. rewrite <- rest_skip in Es'.
    destruct (tok_gt _ _ _ Es' Hgt) as (q & e & s1 & Et & E1).
    eexists _, q, e, s1. rewrite (peek_cons _ _ _ _ _ Es) by done. rewrite E1, word_head by done. by split_and!.
  - change (rest s = chr ">" :: chr ">" :: file ++ k) in Es. pose proof Es as Es'. rewrite <- rest_skip in Es'.
    destruct (tok_gtgt _ _ _ Es') as (q & e & s1 & Et & E1).
    eexists _, q, e, s1. rewrite (peek_cons _ _ _ _ _ Es) by done. rewrite E1, word_head by done. by split_and!.
Qed.

Lemma redirs_run rs c s k l :
  Forall redir_ok rs → rest s = strip (show_redirs rs ++ k) → nxt l k → l ⊆ str "|)&;" →
  ∃ c' s', runs (λ n, parseredirs n b c s) c' s' ∧ rest s' = strip k ∧ typed c' = foldl add_redir (typed c) rs.
Proof.
  intros Hrs. revert c s. induction Hrs as [|[[file mode] fd] rs [Hf Hm] Hrs IH]; intros c s Es Hk Hl.
  - exists c, (skip is_ws b s). split; [|by rewrite rest_skip]. apply redirs_none. rewrite Es. change (show_redirs [] ++ k) with k.
    destruct Hk as [->|(x & k' & -> & Hx)]; [done|]. apply Hl in Hx. cbn in Hx. set_unfold in Hx. by destruct_or! Hx; subst x.
  - change (show_redirs ((file, mode, fd) :: rs)) with (show_redir (file, mode, fd) ++ show_redirs rs) in Es.
    rewrite <- app_assoc in Es. unfold show_redir in Es. cbn [app] in Es. rewrite strip_space, <- app_assoc in Es.
    assert (ends (show_redirs rs ++ k)) as Hends.
    { destruct rs as [|[[]] rs]; [|done]. eapply nxt_ends; [exact Hk|]. set_solver. }
    destruct (redir_tok c s file mode fd (show_redirs rs ++ k) Hf Hm Es) as (tok & q & e & s1 & Ep & Et & E1 & Hr).
    destruct (tok_word _ _ _ _ E1 Hf Hends) as (q' & e' & s3 & Et' & E3 & Eb).
    destruct (IH (redircmd tok c q' e') s3 E3 Hk Hl) as (c' & s' & Hrun & E' & Hty). exists c', s'.
    split_and!; [|done|by rewrite Hty, Hr, Eb].
    eapply runs_step; [exact Hrun|]. intros n. cbn [parseredirs]. rewrite Ep. cbn [negb]. by rewrite Et, Et'.
Qed.

Lemma args_stop c argc s k l :
  rest s = strip k → nxt l k → l ⊆ str "|)&;" → ∃ s', runs (λ n, parseargs n b c argc s) c s' ∧ rest s' = strip k.
Proof.
  intros Es Hk Hl. destruct Hk as [Ek|(x & k' & Ek & Hx)]; rewrite Ek in *.
  - pose proof Es as Es'. rewrite <- rest_skip in Es'. destruct (tok_end _ _ Es') as (q & e & s' & Et & E'). exists s'.
    split; [|done]. apply runs_step with (λ _, Parsed c s'); [by apply runs_now|]. intros n. cbn [parseargs].
    by rewrite (peek_nil _ _ _ Es), Et.
  - apply Hl in Hx. exists (skip is_ws b s). split; [|by rewrite rest_skip].
    apply runs_step with (λ _, Parsed c (skip is_ws b s)); [by apply runs_now|]. intros n. cbn [parseargs].
    cbn in Hx. set_unfold in Hx. by destruct_or! Hx; subst x; rewrite (peek_cons _ _ _ _ _ Es).
Qed.

(** A word is next. *)
Lemma word_next s w k : rest s = w ++ k → word w → ∃ x l, rest s = x :: l ∧ x ≠ 0 ∧ x ∉ symbols.
Proof.
  intros Es [Hne Hw]. destruct w as [|x w]; [done|]. apply Forall_cons in Hw as [[Hx Hz] _]. exists x, (w ++ k).
  split_and!; [done..|]. by apply word_char.
Qed.

Lemma args_run argv rs dn s k l :
  Forall word argv → Forall redir_ok rs → rest s = strip (concat (map spaced argv) ++ show_redirs rs ++ k) →
  (length dn + length argv < MAXARGS)%nat → (argv = [] → rs = []) → nxt l k → l ⊆ str "|)&;" →
  ∃ c' s', runs (λ n, parseargs n b (EXEC dn) (length dn) s) c' s' ∧ rest s' = strip k ∧
    typed c' = foldl add_redir (TExec (map (between b) dn ++ argv)) rs.
Proof.
  intros Hw Hrs. revert dn s. induction Hw as [|w argv Hw Hws IH]; intros dn s Es Hlen Hnil Hk Hl.
  { rewrite (Hnil eq_refl) in *. destruct (args_stop (EXEC dn) (length dn) s k l Es Hk Hl) as (s' & Hrun & E').
    exists (EXEC dn), s'. by rewrite app_nil_r. }
  cbn [map concat] in Es. rewrite <- app_assoc in Es. cbn [spaced app] in Es. rewrite strip_space, word_head in Es by done.
  assert (ends (concat (map spaced argv) ++ show_redirs rs ++ k)) as Hends.
  { destruct argv; [|done]. destruct rs as [|[[]] rs]; [|done]. eapply nxt_ends; [exact Hk|]. set_solver. }
  destruct (word_next _ _ _ Es Hw) as (x & l' & Ex & Hz & Hx).
  pose proof Es as Es'. rewrite <- rest_skip in Es'.
  destruct (tok_word _ _ _ _ Es' Hw Hends) as (q & e & s1 & Et & E1 & Eb).
  assert (∃ c2 s2 c' s', runs (λ n, parseredirs n b (EXEC (dn ++ [(q, e)])) s1) c2 s2 ∧
    runs (λ n, parseargs n b c2 (S (length dn)) s2) c' s' ∧ rest s' = strip k ∧
    typed c' = foldl add_redir (TExec (map (between b) (dn ++ [(q, e)]) ++ argv)) rs) as (c2 & s2 & c' & s' & H1 & H2 & E' & Hty).
  { destruct argv as [|w' argv].
    - destruct (redirs_run rs (EXEC (dn ++ [(q, e)])) s1 k l) as (c2 & s2 & Hr & E2 & Ht2); [done..|].
      destruct (args_stop c2 (S (length dn)) s2 k l E2 Hk Hl) as (s' & Hrun & E'). exists c2, s2, c2, s'.
      split_and!; try done. by rewrite app_nil_r.
    - exists (EXEC (dn ++ [(q, e)])), (skip is_ws b s1). apply Forall_cons in Hws as [Hw' _].
      destruct (IH (dn ++ [(q, e)]) (skip is_ws b s1)) as (c' & s' & Hr & E' & Hty'); try done.
      + by rewrite rest_skip.
      + rewrite length_app. cbn in Hlen |- *. lia.
      + exists c', s'. split_and!; try done; [|by rewrite length_app, Nat.add_1_r in Hr].
        apply redirs_none. cbn [map concat] in E1. rewrite <- !app_assoc in E1. cbn [spaced app] in E1.
        rewrite strip_space, word_head in E1 by done. destruct (word_next _ _ _ E1 Hw') as (y & l2 & -> & Hy & Hy').
        cbn in Hy'. split_and!; [done|set_solver..]. }
  exists c', s'. split_and!; [|done|rewrite Hty, map_app, <- app_assoc; cbn [map app]; by rewrite Eb].
  eapply runs_step; [exact (runs_then _ (λ n c s, parseargs n b c (S (length dn)) s) _ _ _ _ H1 H2)|].
  intros n. cbn [parseargs]. rewrite (peek_cons _ _ _ _ _ Ex Hz), one_of_notin by (cbn in Hx |- *; set_solver).
  rewrite Et. cbn [Z.eqb add_arg]. change (chr "a" =? 0) with false. change (chr "a" =? chr "a") with true. cbn [negb].
  cbn [length] in Hlen. by rewrite (proj2 (Nat.leb_gt _ _)) by lia.
Qed.

(** A simple command with its redirections. *)
Lemma exec_run argv rs s k l :
  Forall word argv → (length argv < MAXARGS)%nat → Forall redir_ok rs →
  rest s = strip (concat (map spaced argv) ++ show_redirs rs ++ k) → nxt l k → l ⊆ str "|)&;" →
  ∃ c s', runs (λ n, parseexec n b s) c s' ∧ rest s' = strip k ∧ typed c = foldl add_redir (TExec argv) rs.
Proof.
  intros Hw Hlen Hrs Es Hk Hl.
  assert (∀ s1 c' s', rest s1 = rest s → peek b s (str "(") = (false, s1) →
    runs (λ n, pthen (parseredirs n b (EXEC []) s1) (λ ret s, parseargs n b ret 0 s)) c' s' → runs (λ n, parseexec n b s) c' s') as Hstep.
  { intros s1 c' s' E1 Ep Hr. eapply runs_step; [exact Hr|]. intros n. cbn [parseexec]. by rewrite Ep. }
  destruct argv as [|w argv].
  - destruct (redirs_run rs (EXEC []) (skip is_ws b s) k l) as (c2 & s2 & Hr & E2 & Ht2); try done; [by rewrite rest_skip|].
    destruct (args_stop c2 0 s2 k l E2 Hk Hl) as (s' & Hrun & E'). exists c2, s'. split_and!; try done.
    apply (Hstep (skip is_ws b s)); [apply rest_skip| |by eapply (runs_then _ (λ n c s, parseargs n b c 0 s))].
    destruct (rest s) as [|x l'] eqn:Ex; [by apply peek_nil|].
    assert (x ≠ 0 ∧ x ≠ chr "(") as [Hz Hx].
    { destruct rs as [|[[file mode] fd] rs]; [change (x :: l' = strip k) in Es|cbn in Es].
      - destruct Hk as [Ek|(y & k' & Ek & Hy)]; rewrite Ek in Es; [done|]. injection Es as -> _. apply Hl in Hy.
        cbn in Hy. set_unfold in Hy. by destruct_or! Hy; subst y.
      - apply Forall_cons in Hrs as [[_ Hm] _]. by destruct Hm as [[-> ->]|[[-> ->]|[-> ->]]]; injection Es as -> _. }
    rewrite (peek_cons _ _ _ _ _ Ex Hz). by rewrite one_of_notin by (cbn; set_solver).
  - apply Forall_cons in Hw as Hw'. destruct Hw' as [Hw0 _].
    assert (∃ k1, rest s = w ++ k1) as [k1 E1].
    { rewrite Es. cbn [map concat]. rewrite <- !app_assoc. cbn [spaced app]. rewrite strip_space, word_head by done. by eexists. }
    destruct (word_next _ _ _ E1 Hw0) as (x & l' & Ex & Hz & Hx). cbn in Hx.
    destruct (args_run (w :: argv) rs [] (skip is_ws b (skip is_ws b s)) k l) as (c' & s' & Hr & E' & Hty); try done.
    { by rewrite !rest_skip. }
    exists c', s'. split_and!; try done. apply (Hstep (skip is_ws b s)); [apply rest_skip| |].
    + rewrite (peek_cons _ _ _ _ _ Ex Hz). by rewrite one_of_notin by (cbn; set_solver).
    + eapply (runs_then _ (λ n c s, parseargs n b c 0 s)); [|exact Hr]. apply redirs_none. rewrite rest_skip, Ex. set_solver.
Qed.

(** *** Each level of the grammar *)
Inductive backs : cmd → nat → cmd → nat → Prop :=
| backs_refl c s : backs c s c s
| backs_snoc c s c' s' l q e s'' t : backs c s c' s' → rest s' = chr "&" :: l →
    gettoken b (skip is_ws b s') = (t, q, e, s'') → backs c s (BACK c') s''.

Definition reads_exec (t : tcmd) : Prop := ∀ rs s k,
  Forall redir_ok rs → rest s = strip (show 3 t ++ show_redirs rs ++ k) → nxt (str "|)&;") k →
  ∃ c s', runs (λ n, parseexec n b s) c s' ∧ rest s' = strip k ∧ typed c = foldl add_redir t rs.
Definition reads_pipe (t : tcmd) : Prop := ∀ s k, rest s = strip (show 2 t ++ k) → nxt (str ")&;") k →
  ∃ c s', runs (λ n, parsepipe n b s) c s' ∧ rest s' = strip k ∧ typed c = t.
Definition reads_backs (t : tcmd) : Prop := ∀ s k, rest s = strip (show 1 t ++ k) → nxt (str ")&;") k →
  ∃ c0 s0 c s', runs (λ n, parsepipe n b s) c0 s0 ∧ backs c0 s0 c s' ∧ rest s' = strip k ∧ typed c = t.
Definition reads_line (t : tcmd) : Prop := ∀ s k, rest s = strip (show 0 t ++ k) → nxt (str ")") k →
  ∃ c s', runs (λ n, parseline n b s) c s' ∧ rest s' = strip k ∧ typed c = t.

Lemma peek_hit s toks c l : rest s = c :: l → c ∈ symbols → one_of toks c = true → peek b s toks = (true, skip is_ws b s).
Proof.
  intros E Hc Ht. rewrite (peek_cons _ _ _ _ _ E), Ht; [done|]. cbn in Hc. set_unfold in Hc. by destruct_or! Hc; subst c.
Qed.
Lemma peek_miss s toks l k :
  rest s = strip k → nxt l k → l ⊆ symbols → (∀ c, c ∈ l → c ∉ toks) → peek b s toks = (false, skip is_ws b s).
Proof.
  intros E [Ek|(c & k' & Ek & Hc)] Hl Ht; rewrite Ek in E; [by apply peek_nil|].
  rewrite (peek_cons _ _ _ _ _ E), one_of_notin; [done|by apply Ht|]. apply Hl in Hc. cbn in Hc. set_unfold in Hc.
  by destruct_or! Hc; subst c.
Qed.

Lemma exec_pipe t : reads_exec t → show 2 t = show 3 t → reads_pipe t.
Proof.
  intros He E2 s k Es Hk. rewrite E2 in Es.
  destruct (He [] s k) as (c & s' & Hr & E' & Ht); [done..|by eapply nxt_weaken; [exact Hk|set_solver]|].
  exists c, (skip is_ws b s'). split_and!; [|by rewrite rest_skip|done].
  eapply runs_step; [|intros n; reflexivity]. cbn beta.
  eapply (runs_then _ (λ n c s, _)); [exact Hr|]. apply runs_now. intros n. cbn beta.
  by rewrite (peek_miss _ _ _ _ E' Hk) by (cbn; set_solver).
Qed.
Lemma pipe_backs t : reads_pipe t → show 1 t = show 2 t → reads_backs t.
Proof.
  intros Hp E1 s k Es Hk. rewrite E1 in Es. destruct (Hp s k Es Hk) as (c & s' & Hr & E' & Ht).
  exists c, s', c, s'. split_and!; try done. constructor.
Qed.

Lemma backs_more c s c' s' ce se :
  backs c s c' s' → runs (λ n, parsebacks n b c' s') ce se → runs (λ n, parsebacks n b c s) ce se.
Proof.
  intros H. induction H as [|c s c' s' l q e s'' t _ IH E Et]; [done|]. intros Hr.
  apply IH. eapply runs_step; [exact Hr|]. intros n. cbn [parsebacks].
  rewrite (peek_hit _ _ _ _ E) by (try done; cbn; set_solver). by rewrite Et.
Qed.
Lemma backs_run c s c' s' k :
  backs c s c' s' → rest s' = strip k → nxt (str ");") k → runs (λ n, parsebacks n b c s) c' (skip is_ws b s').
Proof.
  intros H E Hk. eapply backs_more; [exact H|].
  apply runs_step with (λ _, Parsed c' (skip is_ws b s')); [by apply runs_now|]. intros n. cbn [parsebacks].
  by rewrite (peek_miss _ _ _ _ E Hk) by (cbn; set_solver).
Qed.

Lemma backs_line t : reads_backs t → show 0 t = show 1 t → reads_line t.
Proof.
  intros Hb E0 s k Es Hk. rewrite E0 in Es.
  destruct (Hb s k Es) as (c0 & s0 & c & s' & Hr & Hbs & E' & Ht); [by eapply nxt_weaken; [exact Hk|set_solver]|].
  exists c, (skip is_ws b (skip is_ws b s')). split_and!; [|by rewrite !rest_skip|done].
  eapply runs_step; [|intros n; reflexivity]. cbn beta.
  eapply (runs_then _ (λ n c s, _)); [exact Hr|]. cbn beta.
  eapply (runs_then _ (λ n c s, _)); [eapply backs_run; [done..|by eapply nxt_weaken; [exact Hk|set_solver]]|].
  apply runs_now. intros n. cbn beta. by rewrite (peek_miss _ _ _ _ (eq_trans (rest_skip b s') E') Hk) by (cbn; set_solver).
Qed.

(** A symbol and the phrase after it. *)
Lemma after_sym s c l : rest s = c :: l → c ∈ str "|();&<" → ∃ q e s', gettoken b (skip is_ws b s) = (c, q, e, s') ∧ rest s' = strip l.
Proof. intros E Hc. apply tok_sym; [by rewrite rest_skip|done]. Qed.

Lemma pipe_pipe l r : reads_exec l → reads_pipe r → reads_pipe (TPipe l r).
Proof.
  intros Hl Hr s k Es Hk. cbn [show Nat.leb paren] in Es. rewrite <- app_assoc in Es. cbn [app] in Es.
  destruct (Hl [] s (124 :: show 2 r ++ k)) as (cl & s1 & Hrl & E1 & Htl); [done..|by apply nxt_here; [cbn; set_solver|]|].
  rewrite strip_head in E1 by done.
  destruct (after_sym _ _ _ E1) as (q & e & s2 & Et & E2); [cbn; set_solver|].
  destruct (Hr s2 k E2 Hk) as (cr & s' & Hrr & E' & Htr). exists (PIPE cl cr), s'.
  split_and!; [|done|cbn in Htl; cbn; by rewrite Htl, Htr].
  eapply runs_step; [|intros n; reflexivity]. cbn beta.
  eapply (runs_then _ (λ n c s, _)); [exact Hrl|]. cbn beta.
  rewrite (peek_hit _ _ _ _ E1) by (try done; cbn; set_solver). rewrite Et.
  eapply (runs_then _ (λ n c s, _)); [exact Hrr|]. by apply runs_now.
Qed.

Lemma back_back t : reads_backs t → reads_backs (TBack t).
Proof.
  intros Hb s k Es Hk. cbn [show Nat.leb paren] in Es. rewrite <- app_assoc in Es. cbn [app] in Es.
  destruct (Hb s (38 :: k) Es) as (c0 & s0 & c & s' & Hr & Hbs & E' & Ht); [by apply nxt_here; [cbn; set_solver|]|].
  rewrite strip_head in E' by done.
  destruct (after_sym _ _ _ E') as (q & e & s2 & Et & E2); [cbn; set_solver|].
  exists c0, s0, (BACK c), s2. split_and!; [done|by eapply backs_snoc|done|cbn; by rewrite Ht].
Qed.

Lemma list_line l r : reads_backs l → reads_line r → reads_line (TList l r).
Proof.
  intros Hl Hr s k Es Hk. cbn [show Nat.leb paren] in Es. rewrite <- app_assoc in Es. cbn [app] in Es.
  destruct (Hl s (59 :: show 0 r ++ k) Es) as (c0 & s0 & c & s1 & Hrl & Hbs & E1 & Htl); [by apply nxt_here; [cbn; set_solver|]|].
  pose proof E1 as E1'. rewrite strip_head in E1' by done. rewrite <- rest_skip in E1'.
  destruct (after_sym _ _ _ E1') as (q & e & s2 & Et & E2); [cbn; set_solver|].
  destruct (Hr s2 k E2 Hk) as (cr & s' & Hrr & E' & Htr). exists (LIST c cr), s'.
  split_and!; [|done|cbn; by rewrite Htl, Htr].
  eapply runs_step; [|intros n; reflexivity]. cbn beta.
  eapply (runs_then _ (λ n c s, _)); [exact Hrl|]. cbn beta.
  eapply (runs_then _ (λ n c s, _)); [eapply backs_run; [done..|by apply nxt_here; [cbn; set_solver|]]|]. cbn beta.
  rewrite (peek_hit _ _ _ _ E1') by (try done; cbn; set_solver). rewrite Et.
  eapply (runs_then _ (λ n c s, _)); [exact Hrr|]. by apply runs_now.
Qed.

Lemma block_exec t : reads_line t → show 3 t = 40 :: show 0 t ++ [41] → reads_exec t.
Proof.
  intros Hl E3 rs s k Hrs Es Hk. rewrite E3 in Es. cbn [app] in Es. rewrite <- !app_assoc in Es. cbn [app] in Es.
  rewrite strip_head in Es by done. pose proof Es as Es'. rewrite <- rest_skip in Es'.
  destruct (after_sym _ _ _ Es') as (q & e & s1 & Et & E1); [cbn; set_solver|].
  destruct (Hl s1 (41 :: show_redirs rs ++ k) E1) as (c & s2 & Hr & E2 & Ht); [by apply nxt_here; [cbn; set_solver|]|].
  rewrite strip_head in E2 by done.
  destruct (after_sym _ _ _ E2) as (q' & e' & s3 & Et' & E3'); [cbn; set_solver|].
  destruct (redirs_run rs c s3 k (str "|)&;") Hrs E3' Hk) as (c' & s' & Hr' & E' & Ht'); [done|].
  exists c', s'. split_and!; [|done|by rewrite Ht', Ht].
  eapply runs_step with (λ n, parseblock n b (skip is_ws b s)).
  2: { intros n. cbn [parseexec]. by rewrite (peek_hit _ _ _ _ Es) by (try done; cbn; set_solver). }
  eapply runs_step.
  2: { intros n. cbn [parseblock]. rewrite (peek_hit _ _ _ _ Es') by (try done; cbn; set_solver). cbn [negb]. rewrite Et. reflexivity. }
  eapply (runs_then _ (λ n c s, _)); [exact Hr|]. cbn beta.
  rewrite (peek_hit _ _ _ _ E2) by (try done; cbn; set_solver). cbn [negb]. rewrite Et'. exact Hr'.
Qed.

Lemma reads_all t : printable t → reads_exec t ∧ reads_pipe t ∧ reads_backs t ∧ reads_line t.
Proof.
  induction t as [argv|c IH file mode fd|l IHl r IHr|l IHl r IHr|c IH]; cbn [printable].
  - intros [Hw Hlen]. assert (reads_exec (TExec argv)) as He.
    { intros rs s k Hrs Es Hk. by apply (exec_run argv rs s k (str "|)&;")). }
    pose proof (exec_pipe _ He eq_refl) as Hp. pose proof (pipe_backs _ Hp eq_refl) as Hb.
    split_and!; try done. by apply backs_line.
  - intros [Hc Hr]. destruct (IH Hc) as (He & _). assert (reads_exec (TRedir c file mode fd)) as He'.
    { intros rs s k Hrs Es Hk. apply (He ((file, mode, fd) :: rs) s k); [by constructor| |done].
      rewrite Es. f_equal. cbn [show]. unfold show_redirs. cbn [map concat]. by rewrite !app_assoc. }
    pose proof (exec_pipe _ He' eq_refl) as Hp. pose proof (pipe_backs _ Hp eq_refl) as Hb.
    split_and!; try done. by apply backs_line.
  - intros [Hl Hr]. destruct (IHl Hl) as (He & _), (IHr Hr) as (_ & Hp & _).
    pose proof (pipe_pipe _ _ He Hp) as Hp'. pose proof (pipe_backs _ Hp' eq_refl) as Hb.
    pose proof (backs_line _ Hb eq_refl) as Hln. split_and!; try done. by apply block_exec.
  - intros [Hl Hr]. destruct (IHl Hl) as (_ & _ & Hb & _), (IHr Hr) as (_ & _ & _ & Hln).
    pose proof (list_line _ _ Hb Hln) as Hln'. pose proof (block_exec _ Hln' eq_refl) as He.
    pose proof (exec_pipe _ He eq_refl) as Hp. split_and!; try done. by apply pipe_backs.
  - intros Hc. destruct (IH Hc) as (_ & _ & Hb & _). pose proof (back_back _ Hb) as Hb'.
    pose proof (backs_line _ Hb' eq_refl) as Hln. pose proof (block_exec _ Hln eq_refl) as He.
    split_and!; try done. by apply exec_pipe.
Qed.
End reading.

(** ** The theorem *)
Lemma show_nonzero lvl t : printable t → Forall (λ c, c ≠ 0) (show lvl t).
Proof.
  assert (∀ w, word w → Forall (λ c, c ≠ 0) w) as Hword by (intros w [_ Hw]; eapply Forall_impl; [exact Hw|by intros x []]).
  assert (∀ p l, Forall (λ c, c ≠ 0) l → Forall (λ c, c ≠ 0) (paren p l)) as Hparen.
  { intros [] l Hl; [|done]. constructor; [done|]. apply Forall_app_2; [done|by constructor]. }
  revert lvl. induction t as [argv|c IH file mode fd|l IHl r IHr|l IHl r IHr|c IH]; intros lvl; cbn [printable show].
  - intros [Hw _]. induction Hw as [|w argv Hw _ IH]; cbn [map concat]; [done|]. apply Forall_app_2; [|done].
    constructor; [done|by apply Hword].
  - intros [Hc [Hf Hm]]. apply Forall_app_2; [by apply IH|]. constructor; [done|]. apply Forall_app_2; [|by apply Hword].
    by destruct Hm as [[-> ->]|[[-> ->]|[-> ->]]]; repeat constructor.
  - intros [Hl Hr]. apply Hparen, Forall_app_2; [by apply IHl|]. constructor; [done|by apply IHr].
  - intros [Hl Hr]. apply Hparen, Forall_app_2; [by apply IHl|]. constructor; [done|by apply IHr].
  - intros Hc. apply Hparen, Forall_app_2; [by apply IH|by constructor].
Qed.

Lemma parseline_show t (line := show 0 t) :
  printable t →
  ∃ c p, parseline (enough line) line 0 = Parsed c p ∧ skip is_ws line p = length line ∧ seen (nulterminate (line ++ [0]) c) c = t.
Proof.
  intros Ht. pose proof (show_nonzero 0 t Ht) as Hnul. fold line in Hnul.
  destruct (reads_all line t Ht) as (_ & _ & _ & Hline).
  destruct (Hline 0%nat []) as (c & s & [n Hn] & Es & Hty); [by rewrite app_nil_r, rest_drop|by left|].
  pose proof (parseline_done line) as Hd.
  assert (parseline (enough line) line 0 = Parsed c s) as E.
  { destruct (parseline_extends line (enough line) (enough line + n) 0) as [H|H]; [lia|by rewrite H in Hd|].
    rewrite <- H. apply Hn. lia. }
  rewrite E in Hd. destruct Hd as [Hs Hc]. exists c, s. split_and!; [done| |by rewrite seen_typed].
  pose proof (skip_pos line is_ws s ltac:(lia)) as Hp. apply (f_equal length) in Es. unfold rest in Es.
  rewrite length_drop in Es. cbn in Es. lia.
Qed.

(** No system call is made. *)
Definition no_calls X (e : sysE X) (s : unit) : X → unit → Prop := λ _ _, False.

(** C28: the shell reads back every command: a command printed with parentheses
    only where the precedence of semicolon, ampersand, pipe and redirection
    and the grouping to the right of lists and pipes ask for them is parsed to
    that command, without a system call, and runcmd sees its words in the
    buffer. *)
Theorem parsecmd_reads_back t :
  printable t →
  must no_calls (λ o _, ∃ c b, o = Returned (c, b) ∧ seen b c = t) (parsecmd (show 0 t)) tt.
Proof.
  intros Ht. destruct (parseline_show t Ht) as (c & p & E & Hp & Hseen). unfold parsecmd. rewrite E. cbn [peek snd].
  rewrite Hp, Nat.eqb_refl. apply must_bind, must_ret, must_ret. by eexists _, _.
Qed.

(** Words and commands, decided. *)
Definition wordb (w : list Z) : bool := bool_decide (w ≠ []) && forallb (λ c, is_word c && negb (c =? 0)) w.
Lemma wordb_word w : wordb w = true → word w.
Proof.
  intros [H1%bool_decide_eq_true H2]%andb_prop. split; [done|]. apply List.Forall_forall. intros c Hc.
  rewrite forallb_forall in H2. apply H2 in Hc. apply andb_prop in Hc as [? Hz]. by destruct (Z.eqb_spec c 0).
Qed.
Ltac solve_printable :=
  repeat split; repeat first [apply wordb_word; reflexivity | apply Forall_nil_2 | apply Forall_cons_2];
  first [apply Nat.ltb_lt; reflexivity | by auto].

(** [( a & b ; c | d > o ) < in x >> y | e] and the like: nested groups. *)
Definition demo_cmd : tcmd :=
  TPipe (TRedir (TList (TBack (TExec [str "a"; str "-l"])) (TPipe (TExec [str "c"]) (TRedir (TExec [str "d"]) (str "o") (Z.lor (Z.lor O_WRONLY O_CREATE) O_TRUNC) 1)))
    (str "in") O_RDONLY 0) (TRedir (TExec [str "e"; str "x"]) (str "log") (Z.lor O_WRONLY O_CREATE) 1).

Lemma parsecmd_reads_back_witness :
  show 0 demo_cmd = str "( a -l&; c| d >o) <in| e x >>log" ∧
  must no_calls (λ o _, ∃ c b, o = Returned (c, b) ∧ seen b c = demo_cmd) (parsecmd (show 0 demo_cmd)) tt.
Proof.
  split; [reflexivity|]. apply (parsecmd_reads_back demo_cmd). solve_printable.
Defined.
