(* ===== verification/ShRun.v ===== *)
(** How the shell runs a command: the processes [runcmd] starts and the
    descriptors each of them gets.  A semantics of programs that fork, with the
    descriptor table of each process, in which calls succeed; and the theorem
    that parsing and running a command line starts the processes its structure
    asks for, with exactly their descriptors: no end of a pipe leaks into a
    process that does not use it, or stays open in one that waits. *)
From S2P Require Import Prelude Machine Printf User Ulib Sh ShParse ShPrint.
From Stdlib Require Import Ascii.
From ITree Require Import Core.ITreeDefinition.
Open Scope Z_scope.

(** ** Processes and descriptors *)
Inductive obj : Type := OFile (path : list Z) (mode : Z) | PipeR (p : nat) | PipeW (p : nat).
Notation fds := (gmap Z obj).
(** What a process does that others notice: it starts a program by [exec], with
    its path, arguments and descriptors, or waits for a child, with the
    descriptors it then holds. *)
Inductive act : Type := Launch (path : list Z) (argv : list (list Z)) (T : fds) | Waits (T : fds).

(** Descriptors are given out lowest first. *)
Definition lowest (T : fds) (a : Z) : Prop := 0 <= a ∧ T !! a = None ∧ ∀ i, 0 <= i < a → is_Some (T !! i).

Lemma lowest_exists T : ∃ a, lowest T a.
Proof.
  assert (∀ n : nat, (∃ a, lowest T a) ∨ ∀ i, 0 <= i < Z.of_nat n → is_Some (T !! i)) as H.
  { induction n as [|n [IH|IH]]; [right; intros; lia|by left|].
    destruct (T !! Z.of_nat n) as [o|] eqn:E.
    - right. intros i Hi. destruct (decide (i = Z.of_nat n)) as [->|]; [by eexists|apply IH; lia].
    - left. exists (Z.of_nat n). split_and!; [lia|done|done]. }
  destruct (H (S (size (dom T)))) as [|Hall]; [done|]. exfalso.
  assert (list_to_set (seqZ 0 (Z.of_nat (S (size (dom T))))) ⊆ dom T) as Hsub.
  { intros i. rewrite elem_of_list_to_set, elem_of_seqZ, elem_of_dom. intros Hi. apply Hall. lia. }
  apply subseteq_size in Hsub. rewrite size_list_to_set, length_seqZ in Hsub by apply NoDup_seqZ. lia.
Qed.

(** [spawns Q t T n l n']: the process running [t] with the table [T], and all
    its descendants, do the actions [l], those of a child before what its parent
    does after the [fork]; [n] is the number of pipes made before and [n'] the
    number after.  [Q] holds where [t] returns. *)
Inductive spawns {A : Type} (Q : A → fds → nat → list act → nat → Prop) :
  prog A → fds → nat → list act → nat → Prop :=
| sp_ret t T n l n' a : observe t = RetF a → Q a T n l n' → spawns Q t T n l n'
| sp_tau t T n l n' t' : observe t = TauF t' → spawns Q t' T n l n' → spawns Q t T n l n'
| sp_exit t T n x k : observe t = VisF (Sys_exit x) k → spawns Q t T n [] n
| sp_exec t T n path argv k : observe t = VisF (Sys_exec path argv) k → spawns Q t T n [Launch path argv T] n
| sp_fork t T n l1 n1 l2 n2 k : observe t = VisF Sys_fork k →
    spawns Q (k 0) T n l1 n1 → (∀ pid, 0 < pid → spawns Q (k pid) T n1 l2 n2) → spawns Q t T n (l1 ++ l2) n2
| sp_wait t T n l n' k : observe t = VisF Sys_wait k → (∀ r, spawns Q (k r) T n l n') → spawns Q t T n (Waits T :: l) n'
| sp_pipe t T n l n' a b k : observe t = VisF Sys_pipe k → lowest T a → lowest (<[a := PipeR n]> T) b →
    spawns Q (k (0, (a, b))) (<[b := PipeW n]> (<[a := PipeR n]> T)) (S n) l n' → spawns Q t T n l n'
| sp_close t T n l n' fd o k : observe t = VisF (Sys_close fd) k → T !! fd = Some o →
    spawns Q (k 0) (delete fd T) n l n' → spawns Q t T n l n'
| sp_dup t T n l n' fd o a k : observe t = VisF (Sys_dup fd) k → T !! fd = Some o → lowest T a →
    spawns Q (k a) (<[a := o]> T) n l n' → spawns Q t T n l n'
| sp_open t T n l n' path mode a k : observe t = VisF (Sys_open path mode) k → lowest T a →
    spawns Q (k a) (<[a := OFile path mode]> T) n l n' → spawns Q t T n l n'.

(** A call and what follows it. *)
Lemma call_obs {X A} (e : sysE X) (f : X → prog A) : ∃ k, observe (call e ≫= f) = VisF e k ∧ ∀ x, observe (k x) = observe (f x).
Proof.
  exists (λ x, (Ret x : prog X) ≫= f). split; [rewrite observe_bind; cbn; reflexivity|]. intros x. by rewrite observe_bind.
Qed.
Ltac by_call e f :=
  let k := fresh "k" in let E := fresh "E" in let Ek := fresh "Ek" in destruct (call_obs e f) as (k & E & Ek).

Section spawns.
  Context {A : Type} (Q : A → fds → nat → list act → nat → Prop).

Lemma spawns_obs t t' T n l n' : observe t = observe t' → spawns Q t' T n l n' → spawns Q t T n l n'.
Proof.
  intros E H. destruct H as [?????? E'|?????? E'|????? E'|?????? E'|???????? E'|?????? E'|???????? E'|???????? E'|????????? E'|????????? E'];
    rewrite <- E in E'; [eapply sp_ret|eapply sp_tau|eapply sp_exit|eapply sp_exec|eapply sp_fork|eapply sp_wait|eapply sp_pipe|eapply sp_close|eapply sp_dup|eapply sp_open]; eauto.
Qed.

Lemma spawns_bind {B} (t : prog B) (f : B → prog A) T n l n' :
  spawns (λ a T n l n', spawns Q (f a) T n l n') t T n l n' → spawns Q (t ≫= f) T n l n'.
Proof.
  intros H. induction H as [???? ? ? E H|?????? E _ IH|????? E|?????? E|???????? E _ IH1 _ IH2|?????? E _ IH|???????? E Ha Hb _ IH|???????? E Ho _ IH|????????? E Ho Ha _ IH|????????? E Ha _ IH].
  - eapply spawns_obs; [|exact H]. by rewrite observe_bind, E.
  - eapply sp_tau; [by rewrite observe_bind, E|done].
  - eapply sp_exit. by rewrite observe_bind, E.
  - eapply sp_exec. by rewrite observe_bind, E.
  - eapply sp_fork; [by rewrite observe_bind, E|done..].
  - eapply sp_wait; [by rewrite observe_bind, E|done..].
  - eapply sp_pipe; [by rewrite observe_bind, E|done..].
  - eapply sp_close; [by rewrite observe_bind, E|done..].
  - eapply sp_dup; [by rewrite observe_bind, E|done..].
  - eapply sp_open; [by rewrite observe_bind, E|done..].
Qed.

Lemma spawns_ret a T n l n' : Q a T n l n' → spawns Q (mret a) T n l n'.
Proof. by apply sp_ret. Qed.
Lemma spawns_exit x T n : spawns Q (exit x) T n [] n.
Proof. eapply sp_exit. cbn. reflexivity. Qed.

End spawns.

(** A program that does not return. *)
Notation never := (λ _ _ _ _ _, False).
Lemma spawns_never {A B} (Q : A → fds → nat → list act → nat → Prop) (t : prog B) (f : B → prog A) T n l n' :
  spawns never t T n l n' → spawns Q (t ≫= f) T n l n'.
Proof. intros H. apply spawns_bind. induction H; [done|eapply sp_tau|eapply sp_exit|eapply sp_exec|eapply sp_fork|eapply sp_wait|eapply sp_pipe|eapply sp_close|eapply sp_dup|eapply sp_open]; eauto. Qed.

(** Rules for a call and what follows it. *)
Section calls.
  Context {A : Type} (Q : A → fds → nat → list act → nat → Prop).
Lemma spawns_close f fd o T n l n' :
  T !! fd = Some o → spawns Q (f 0) (delete fd T) n l n' → spawns Q (call (Sys_close fd) ≫= f) T n l n'.
Proof. intros Ho H. by_call (Sys_close fd) f. eapply sp_close; [exact E|done|]. by eapply spawns_obs; [apply Ek|]. Qed.
Lemma spawns_dup f fd o a T n l n' :
  T !! fd = Some o → lowest T a → spawns Q (f a) (<[a := o]> T) n l n' → spawns Q (call (Sys_dup fd) ≫= f) T n l n'.
Proof. intros Ho Ha H. by_call (Sys_dup fd) f. eapply sp_dup; [exact E|done..|]. by eapply spawns_obs; [apply Ek|]. Qed.
Lemma spawns_open f path mode a T n l n' :
  lowest T a → spawns Q (f a) (<[a := OFile path mode]> T) n l n' → spawns Q (call (Sys_open path mode) ≫= f) T n l n'.
Proof. intros Ha H. by_call (Sys_open path mode) f. eapply sp_open; [exact E|done..|]. by eapply spawns_obs; [apply Ek|]. Qed.
Lemma spawns_wait f T n l n' : (∀ r, spawns Q (f r) T n l n') → spawns Q (call Sys_wait ≫= f) T n (Waits T :: l) n'.
Proof. intros H. by_call Sys_wait f. eapply sp_wait; [exact E|]. intros r. by eapply spawns_obs; [apply Ek|]. Qed.
Lemma spawns_exec f path argv T n : spawns Q (call (Sys_exec path argv) ≫= f) T n [Launch path argv T] n.
Proof. by_call (Sys_exec path argv) f. eapply sp_exec. exact E. Qed.
Lemma spawns_pipe f a b T n l n' :
  lowest T a → lowest (<[a := PipeR n]> T) b → spawns Q (f (0, (a, b))) (<[b := PipeW n]> (<[a := PipeR n]> T)) (S n) l n' →
  spawns Q (call Sys_pipe ≫= f) T n l n'.
Proof. intros Ha Hb H. by_call Sys_pipe f. eapply sp_pipe; [exact E|done..|]. by eapply spawns_obs; [apply Ek|]. Qed.
Lemma spawns_fork1 f T n l1 n1 l2 n2 :
  spawns Q (f 0) T n l1 n1 → (∀ pid, 0 < pid → spawns Q (f pid) T n1 l2 n2) → spawns Q (fork1 ≫= f) T n (l1 ++ l2) n2.
Proof.
  intros H1 H2. apply spawns_bind. unfold fork1.
  set (g := λ pid : Z, pwhen (pid =? -1) (panic (str "fork"));; mret pid).
  assert (∀ pid, 0 <= pid → ∀ l m m', spawns Q (f pid) T m l m' → spawns (λ a T n l n', spawns Q (f a) T n l n') (g pid) T m l m') as Hg.
  { intros pid Hpid l m m' H. subst g. cbn beta. rewrite (proj2 (Z.eqb_neq pid (-1))) by lia.
    by apply spawns_bind, spawns_ret, spawns_ret. }
  by_call Sys_fork g. eapply sp_fork; [exact E|by eapply spawns_obs; [apply Ek|]; apply Hg|].
  intros pid Hpid. eapply spawns_obs; [apply Ek|]. apply Hg; [lia|by apply H2].
Qed.
End calls.

(** ** What a command asks for
    The shell process of a pipe waits for both sides, and that of a list for
    its left side, holding no descriptor but those it was given. *)
Fixpoint plan (t : tcmd) (T : fds) (n : nat) : list act * nat :=
  match t with
  | TExec argv => (match argv with [] => [] | path :: _ => [Launch path argv T] end, n)
  | TRedir c file mode fd => plan c (<[fd := OFile file mode]> T) n
  | TPipe l r =>
      let '(l1, n1) := plan l (<[1 := PipeW n]> T) (S n) in
      let '(l2, n2) := plan r (<[0 := PipeR n]> T) n1 in
      (l1 ++ l2 ++ [Waits T; Waits T], n2)
  | TList l r =>
      let '(l1, n1) := plan l T n in
      let '(l2, n2) := plan r T n1 in
      (l1 ++ Waits T :: l2, n2)
  | TBack c => plan c T n
  end.
(** Redirections are of standard input or output. *)
Fixpoint std_redirs (t : tcmd) : Prop :=
  match t with
  | TExec _ => True
  | TRedir c _ _ fd => std_redirs c ∧ (fd = 0 ∨ fd = 1)
  | TPipe l r => std_redirs l ∧ std_redirs r
  | TList l r => std_redirs l ∧ std_redirs r
  | TBack c => std_redirs c
  end.
Definition std_open (T : fds) : Prop := is_Some (T !! 0) ∧ is_Some (T !! 1).

Lemma std_open_insert T fd o : std_open T → std_open (<[fd := o]> T).
Proof. intros [H0 H1]. split; rewrite lookup_insert; case_decide; by eauto. Qed.
Lemma lowest_std T fd : std_open T → fd = 0 ∨ fd = 1 → lowest (delete fd T) fd.
Proof.
  intros [H0 H1] Hfd. split_and!; [lia|apply lookup_delete_eq|]. intros i Hi. rewrite lookup_delete_ne by lia.
  by replace i with 0 by lia.
Qed.
Lemma lowest_not_std T a : std_open T → lowest T a → a ≠ 0 ∧ a ≠ 1.
Proof. intros [[o0 H0] [o1 H1]] (_ & Ha & _). split; intros ->; congruence. Qed.

(** The table after one side of a pipe has moved its end to [fd] and closed both. *)
Lemma pipe_side (T : fds) a b fd o o1 o2 :
  T !! a = None → T !! b = None → a ≠ b → fd ≠ a → fd ≠ b →
  delete b (delete a (<[fd := o]> (delete fd (<[b := o2]> (<[a := o1]> T))))) = <[fd := o]> T.
Proof.
  intros Ha Hb Hab Hfa Hfb. rewrite insert_delete_eq, (delete_insert_ne _ a fd), (delete_insert_ne _ b fd) by congruence.
  f_equal. rewrite (delete_insert_ne _ a b) by congruence. rewrite (delete_insert_id T a) by done. by rewrite delete_insert_id.
Qed.

Section run.
  Context (b : list Z).

Lemma spawns_child {A} (Q : A → fds → nat → list act → nat → Prop) (m : prog unit) (f : prog A) T n l n' :
  spawns never m T n l n' → spawns Q (pwhen (0 =? 0) m;; f) T n l n'.
Proof. apply (spawns_never Q m (λ _, f)). Qed.
Lemma spawns_parent {A} (Q : A → fds → nat → list act → nat → Prop) (m : prog unit) (f : prog A) pid T n l n' :
  0 < pid → spawns Q f T n l n' → spawns Q (pwhen (pid =? 0) m;; f) T n l n'.
Proof. intros Hpid H. rewrite (proj2 (Z.eqb_neq pid 0)) by lia. by apply spawns_bind, spawns_ret. Qed.

Lemma runcmd_pipe l r T n :
  std_open T → (∀ T n, std_open T → spawns never (runcmd b l) T n (plan (seen b l) T n).1 (plan (seen b l) T n).2) →
  (∀ T n, std_open T → spawns never (runcmd b r) T n (plan (seen b r) T n).1 (plan (seen b r) T n).2) →
  spawns never (runcmd b (PIPE l r)) T n (plan (seen b (PIPE l r)) T n).1 (plan (seen b (PIPE l r)) T n).2.
Proof.
  intros Hstd Hl Hr. cbn [runcmd seen resolve plan]. fold (seen b l) (seen b r).
  destruct (lowest_exists T) as [p0 Hp0]. destruct (lowest_exists (<[p0 := PipeR n]> T)) as [p1 Hp1].
  pose proof (lowest_not_std _ _ Hstd Hp0) as [Hp00 Hp01].
  pose proof (lowest_not_std _ _ (std_open_insert _ _ _ Hstd) Hp1) as [Hp10 Hp11].
  assert (p0 ≠ p1 ∧ T !! p1 = None) as [Hne Hn1].
  { destruct Hp1 as (_ & Hp1 & _). rewrite lookup_insert in Hp1. by case_decide. }
  assert (T !! p0 = None) as Hn0 by apply Hp0.
  eapply spawns_pipe; [done..|]. cbn [snd fst]. apply spawns_bind, spawns_ret.
  set (T2 := <[p1 := PipeW n]> (<[p0 := PipeR n]> T)).
  assert (std_open T2) as Hstd2 by (by apply std_open_insert, std_open_insert).
  assert (T2 !! p0 = Some (PipeR n) ∧ T2 !! p1 = Some (PipeW n)) as [H20 H21].
  { subst T2. by rewrite lookup_insert_ne, !lookup_insert_eq by congruence. }
  assert (∀ fd e o (c : cmd) m, fd = 0 ∨ fd = 1 → T2 !! e = Some o → e = p0 ∨ e = p1 →
    (∀ T n, std_open T → spawns never (runcmd b c) T n (plan (seen b c) T n).1 (plan (seen b c) T n).2) →
    spawns never (_ ← call (Sys_close fd); _ ← call (Sys_dup e); _ ← call (Sys_close p0); _ ← call (Sys_close p1); runcmd b c)
      T2 m (plan (seen b c) (<[fd := o]> T) m).1 (plan (seen b c) (<[fd := o]> T) m).2) as Hside.
  { intros fd e o c m Hfd He Hep Hc. assert (is_Some (T2 !! fd)) as [ofd Hofd] by (destruct Hfd as [->| ->]; apply Hstd2).
    assert (fd ≠ p0 ∧ fd ≠ p1) as [Hf0 Hf1] by (destruct Hfd as [->| ->]; split; congruence).
    eapply spawns_close; [exact Hofd|]. eapply (spawns_dup _ _ _ o fd).
    { rewrite lookup_delete_ne; [done|]. by destruct Hep as [->| ->]. } { by apply lowest_std. }
    eapply (spawns_close _ _ _ (PipeR n)); [by rewrite lookup_insert_ne, lookup_delete_ne by done|].
    eapply (spawns_close _ _ _ (PipeW n)); [by rewrite lookup_delete_ne, lookup_insert_ne, lookup_delete_ne by done|].
    unfold T2. rewrite pipe_side by done. apply Hc. by apply std_open_insert. }
  pose proof (Hside 1 p1 _ l (S n) (or_intror eq_refl) H21 (or_intror eq_refl) Hl) as HL.
  destruct (plan (seen b l) (<[1 := PipeW n]> T) (S n)) as [l1 n1]. cbn [fst snd] in HL.
  pose proof (Hside 0 p0 _ r n1 (or_introl eq_refl) H20 (or_introl eq_refl) Hr) as HR.
  destruct (plan (seen b r) (<[0 := PipeR n]> T) n1) as [l2 n2]. cbn [fst snd] in HR |- *.
  eapply spawns_fork1; [cbn beta; apply spawns_child; exact HL|]. intros pid Hpid. cbn beta. apply spawns_parent; [done|].
  eapply spawns_fork1; [cbn beta; apply spawns_child; exact HR|]. intros pid' Hpid'. cbn beta. apply spawns_parent; [done|].
  eapply spawns_close; [exact H20|]. eapply spawns_close; [by rewrite lookup_delete_ne|].
  replace (delete p1 (delete p0 T2)) with T.
  2:{ subst T2. rewrite (delete_insert_ne _ p0 p1), (delete_insert_id T p0) by done. by rewrite delete_insert_id. }
  apply spawns_wait. intros _. apply spawns_wait. intros _. apply spawns_exit.
Qed.

Lemma runcmd_spawns c T n :
  std_open T → std_redirs (seen b c) →
  spawns never (runcmd b c) T n (plan (seen b c) T n).1 (plan (seen b c) T n).2.
Proof.
  revert T n. induction c as [argv|c IH file efile mode fd|l IHl r IHr|l IHl r IHr|c IH]; intros T n Hstd Hfd.
  - destruct argv as [|[q e] argv]; cbn [runcmd seen resolve map plan fst snd]; [apply spawns_exit|apply spawns_exec].
  - destruct Hfd as [Hc Hfd]. assert (is_Some (T !! fd)) as [o Ho] by (destruct Hfd as [->| ->]; apply Hstd).
    cbn [runcmd]. eapply spawns_close; [exact Ho|]. eapply spawns_open; [by apply lowest_std|].
    rewrite (proj2 (Z.ltb_ge fd 0)) by (destruct Hfd; lia). apply spawns_bind, spawns_ret, spawns_never.
    rewrite insert_delete_eq. apply IH; [by apply std_open_insert|done].
  - destruct Hfd. apply runcmd_pipe; by auto.
  - destruct Hfd as [Hl Hr]. cbn [runcmd seen resolve plan]. fold (seen b l) (seen b r).
    specialize (IHl T n Hstd Hl). destruct (plan (seen b l) T n) as [l1 n1].
    specialize (IHr T n1 Hstd Hr). destruct (plan (seen b r) T n1) as [l2 n2]. cbn [fst snd] in *.
    eapply spawns_fork1; [cbn beta; apply spawns_child; exact IHl|]. intros pid Hpid. cbn beta. apply spawns_parent; [done|].
    apply spawns_wait. intros _. by apply spawns_never.
  - cbn [runcmd seen resolve plan]. fold (seen b c). specialize (IH T n Hstd Hfd).
    destruct (plan (seen b c) T n) as [l1 n1]. cbn [fst snd] in *. rewrite <- (app_nil_r l1).
    eapply spawns_fork1; [cbn beta; apply spawns_child; exact IH|]. intros pid Hpid. cbn beta. apply spawns_parent; [done|]. apply spawns_exit.
Qed.
End run.

Lemma printable_std t : printable t → std_redirs t.
Proof.
  induction t as [argv|c IH file mode fd|l IHl r IHr|l IHl r IHr|c IH]; cbn; [done|..|done].
  - intros [Hc [_ Hm]]. split; [by apply IH|]. tauto.
  - intros []; by auto.
  - intros []; by auto.
Qed.


Definition tty : obj := OFile (str "console") O_RDWR.
(** [a < in | b | c > out]: three programs, two pipes. *)
Definition demo_pipe : tcmd :=
  TPipe (TRedir (TExec [str "a"]) (str "in") O_RDONLY 0)
    (TPipe (TExec [str "b"]) (TRedir (TExec [str "c"]) (str "out") (Z.lor (Z.lor O_WRONLY O_CREATE) O_TRUNC) 1)).
Definition demo_fds : fds := <[0 := tty]> (<[1 := tty]> (<[2 := tty]> ∅)).

