(* ===== verification/Cmds.v ===== *)
(** The other user programs: cat, echo, wc, kill, ln, mkdir, rm, ls, init and
    the small test programs, as interaction trees over the system calls.
    [cat] copies its input and [wc] counts it, however it is cut into reads. *)
From S2P Require Import Prelude Machine Bytes Printf Console Fs User Ulib.
From Stdlib Require Import Ascii.
Open Scope Z_scope.

(** ** user/cat.c *)
Definition cat (fd : Z) : prog unit :=
  n ← loop (λ _,
    '(n, buf) ← call (Sys_read fd 512);
    if n <=? 0 then mret (inr n) else
    w ← call (Sys_write 1 buf);
    if negb (w =? n) then fprintf 2 (str "cat: write error
") [];; exit 1 else
    mret (inl tt)) tt;
  pwhen (n <? 0) (fprintf 2 (str "cat: read error
") [];; exit 1).
Fixpoint cat_files (files : list (list Z)) : prog unit :=
  match files with
  | [] => exit 0
  | f :: files' =>
      fd ← call (Sys_open f O_RDONLY);
      if fd <? 0 then fprintf 2 (str "cat: cannot open %s
") [AStr (Some f)];; exit 1 else
      cat fd;;
      _ ← call (Sys_close fd);
      cat_files files'
  end.
Definition cat_main (argv : list (list Z)) : prog unit :=
  match argv with
  | _ :: (_ :: _) as files => cat_files files
  | _ => cat 0;; exit 0
  end.

(** ** user/echo.c *)
Fixpoint echo_args (args : list (list Z)) : prog unit :=
  match args with
  | [] => exit 0
  | a :: args' =>
      _ ← call (Sys_write 1 a);
      _ ← call (Sys_write 1 (match args' with [] => [10] | _ => [32] end));
      echo_args args'
  end.
Definition echo_main (argv : list (list Z)) : prog unit := echo_args (tl argv).

(** ** user/wc.c *)
Record counts : Type := mk_counts { wc_l : Z; wc_w : Z; wc_c : Z; inword : bool }.
Definition wc_byte (s : counts) (x : Z) : counts :=
  let l := if x =? 10 then i32 (wc_l s + 1) else wc_l s in
  let c := i32 (wc_c s + 1) in
  if strchr [32; 13; 9; 10; 11] x then mk_counts l (wc_w s) c false
  else if negb (inword s) then mk_counts l (i32 (wc_w s + 1)) c true
  else mk_counts l (wc_w s) c true.
Definition wc (fd : Z) (name : list Z) : prog unit :=
  '(n, s) ← loop (λ s,
    '(n, buf) ← call (Sys_read fd 512);
    if n <=? 0 then mret (inr (n, s)) else mret (inl (foldl wc_byte s buf))) (mk_counts 0 0 0 false);
  pwhen (n <? 0) (printf (str "wc: read error
") [];; exit 1);;
  printf (str "%d %d %d %s
") [AInt (wc_l s); AInt (wc_w s); AInt (wc_c s); AStr (Some name)].
Fixpoint wc_files (files : list (list Z)) : prog unit :=
  match files with
  | [] => exit 0
  | f :: files' =>
      fd ← call (Sys_open f O_RDONLY);
      if fd <? 0 then printf (str "wc: cannot open %s
") [AStr (Some f)];; exit 1 else
      wc fd f;;
      _ ← call (Sys_close fd);
      wc_files files'
  end.
Definition wc_main (argv : list (list Z)) : prog unit :=
  match argv with
  | _ :: (_ :: _) as files => wc_files files
  | _ => wc 0 [];; exit 0
  end.

(** ** user/kill.c, user/ln.c, user/mkdir.c, user/rm.c *)
Definition kill_main (argv : list (list Z)) : prog unit :=
  pwhen (length argv <? 2)%nat (fprintf 2 (str "usage: kill pid...
") [];; exit 1);;
  each (tl argv) (λ a, _ ← call (Sys_kill (atoi a)); mret tt);;
  exit 0.
Definition ln_main (argv : list (list Z)) : prog unit :=
  match argv with
  | [_; old; new] =>
      r ← call (Sys_link old new);
      pwhen (r <? 0) (fprintf 2 (str "link %s %s: failed
") [AStr (Some old); AStr (Some new)]);;
      exit 0
  | _ => fprintf 2 (str "Usage: ln old new
") [];; exit 1
  end.
Fixpoint mkdir_args (args : list (list Z)) : prog unit :=
  match args with
  | [] => exit 0
  | a :: args' =>
      r ← call (Sys_mkdir a);
      if r <? 0 then fprintf 2 (str "mkdir: %s failed to create
") [AStr (Some a)];; exit 0 else mkdir_args args'
  end.
Definition mkdir_main (argv : list (list Z)) : prog unit :=
  pwhen (length argv <? 2)%nat (fprintf 2 (str "Usage: mkdir files...
") [];; exit 1);;
  mkdir_args (tl argv).
Fixpoint rm_args (args : list (list Z)) : prog unit :=
  match args with
  | [] => exit 0
  | a :: args' =>
      r ← call (Sys_unlink a);
      if r <? 0 then fprintf 2 (str "rm: %s failed to delete
") [AStr (Some a)];; exit 0 else rm_args args'
  end.
Definition rm_main (argv : list (list Z)) : prog unit :=
  pwhen (length argv <? 2)%nat (fprintf 2 (str "Usage: rm files...
") [];; exit 1);;
  rm_args (tl argv).

(** ** user/ls.c *)
(** The part of a path after its last slash. *)
Fixpoint after_slash (path : list Z) : list Z :=
  match path with
  | [] => []
  | c :: path' => if existsb (Z.eqb 47) path' then after_slash path' else if c =? 47 then path' else path
  end.
Definition fmtname (path : list Z) : list Z :=
  let p := after_slash path in
  if (DIRSIZ <=? length p)%nat then p else p ++ replicate (DIRSIZ - length p) 32.
Definition st_ino (st : list Z) : Z := getb 4 4 st.
Definition st_type (st : list Z) : Z := i16 (getb 2 8 st).
Definition st_size (st : list Z) : Z := getb 4 12 st.
Definition ls_line (name st : list Z) : prog unit :=
  printf (str "%s %d %d %d
") [AStr (Some name); AInt (st_type st); AInt (st_ino st); AInt (st_size st)].
Definition ls_dir (path : list Z) (fd : Z) : prog unit :=
  loop (λ _,
    '(n, de) ← call (Sys_read fd DIRENT);
    if negb (n =? DIRENT) then mret (inr tt) else
    if de_inum de =? 0 then mret (inl tt) else
    let buf := path ++ [47] ++ upto_nul (de_name de) in
    '(r, st) ← stat buf;
    (if r <? 0 then printf (str "ls: cannot stat %s
") [AStr (Some buf)] else ls_line (fmtname buf) st);;
    mret (inl tt)) tt.
Definition ls (path : list Z) : prog unit :=
  fd ← call (Sys_open path O_RDONLY);
  if fd <? 0 then fprintf 2 (str "ls: cannot open %s
") [AStr (Some path)] else
  '(r, st) ← call (Sys_fstat fd);
  if r <? 0 then fprintf 2 (str "ls: cannot stat %s
") [AStr (Some path)];; (_ ← call (Sys_close fd); mret tt) else
  (if (st_type st =? T_DEVICE) || (st_type st =? T_FILE) then ls_line (fmtname path) st
   else pwhen (st_type st =? T_DIR)
     (if (512 <? length path + 1 + DIRSIZ + 1)%nat then printf (str "ls: path too long
") [] else ls_dir path fd));;
  (_ ← call (Sys_close fd); mret tt).
Definition ls_main (argv : list (list Z)) : prog unit :=
  match tl argv with
  | [] => ls (str ".");; exit 0
  | paths => each paths ls;; exit 0
  end.

(** ** user/init.c *)
Definition init_wait (pid : Z) : prog unit :=
  loop (λ _,
    '(wpid, _) ← call Sys_wait;
    if wpid =? pid then mret (inr tt) else
    if wpid <? 0 then printf (str "init: wait returned an error
") [];; exit 1 else
    mret (inl tt)) tt.
Definition init_main : prog unit :=
  fd ← call (Sys_open (str "console") O_RDWR);
  pwhen (fd <? 0) (
    _ ← call (Sys_mknod (str "console") CONSOLE 0);
    _ ← call (Sys_open (str "console") O_RDWR);
    mret tt);;
  _ ← call (Sys_dup 0);
  _ ← call (Sys_dup 0);
  loop (λ _,
    printf (str "init: starting sh
") [];;
    pid ← call Sys_fork;
    pwhen (pid <? 0) (printf (str "init: fork failed
") [];; exit 1);;
    pwhen (pid =? 0) (
      _ ← call (Sys_exec (str "sh") [str "sh"]);
      printf (str "init: exec sh failed
") [];; exit 1);;
    init_wait pid;;
    mret (inl tt)) tt.

(** ** user/zombie.c, user/forphan.c, user/dorphan.c, user/stressfs.c, user/forktest.c *)
Definition zombie_main : prog unit :=
  pid ← call Sys_fork;
  pwhen (0 <? pid) (_ ← call (Sys_pause 5); mret tt);;
  exit 0.
Definition sit : prog unit := loop (λ _, _ ← call (Sys_pause 1000); mret (inl tt)) tt.
Definition forphan_main (s : list Z) : prog unit :=
  fd ← call (Sys_open (str "file0") (Z.lor O_CREATE O_WRONLY));
  pwhen (fd <? 0) (printf (str "%s: open failed
") [AStr (Some s)];; exit 1);;
  '(r, st) ← call (Sys_fstat fd);
  pwhen (r <? 0) (fprintf 2 (str "%s: cannot stat %s
") [AStr (Some s); AStr (Some (str "ff"))];; exit 1);;
  r ← call (Sys_unlink (str "file0"));
  pwhen (r <? 0) (printf (str "%s: unlink failed
") [AStr (Some s)];; exit 1);;
  r ← call (Sys_open (str "file0") O_RDONLY);
  pwhen (negb (r =? -1)) (printf (str "%s: open successed
") [AStr (Some s)];; exit 1);;
  printf (str "wait for kill and reclaim %d
") [AInt (st_ino st)];;
  sit.
Definition dorphan_main (s : list Z) : prog unit :=
  r ← call (Sys_mkdir (str "dd"));
  pwhen (negb (r =? 0)) (printf (str "%s: mkdir dd failed
") [AStr (Some s)];; exit 1);;
  r ← call (Sys_chdir (str "dd"));
  pwhen (negb (r =? 0)) (printf (str "%s: chdir dd failed
") [AStr (Some s)];; exit 1);;
  r ← call (Sys_unlink (str "../dd"));
  pwhen (r <? 0) (printf (str "%s: unlink failed
") [AStr (Some s)];; exit 1);;
  printf (str "wait for kill and reclaim
") [];;
  sit.

(** The fork loop: the number of the process, 4 in the last child. *)
Fixpoint stress_forks (n : nat) (i : Z) : prog Z :=
  match n with
  | O => mret i
  | S n' => pid ← call Sys_fork; if 0 <? pid then mret i else stress_forks n' (i + 1)
  end.
Definition stressfs_main : prog unit :=
  printf (str "stressfs starting
") [];;
  i ← stress_forks 4 0;
  printf (str "write %d
") [AInt i];;
  let path := str "stressfs" ++ [chr "0" + i] in
  let data := replicate 512 (chr "a") in
  fd ← call (Sys_open path (Z.lor O_CREATE O_RDWR));
  each (seq 0 20) (λ _, _ ← call (Sys_write fd data); mret tt);;
  _ ← call (Sys_close fd);
  printf (str "read
") [];;
  fd ← call (Sys_open path O_RDONLY);
  each (seq 0 20) (λ _, _ ← call (Sys_read fd 512); mret tt);;
  _ ← call (Sys_close fd);
  _ ← call Sys_wait;
  exit 0.

Definition print (s : list Z) : prog unit := _ ← call (Sys_write 1 s); mret tt.
(** The number of forks that worked, at most [n] more. *)
Fixpoint forktest_forks (n : nat) (k : Z) : prog Z :=
  match n with
  | O => mret k
  | S n' =>
      pid ← call Sys_fork;
      if pid <? 0 then mret k else
      pwhen (pid =? 0) (exit 0);;
      forktest_forks n' (k + 1)
  end.
Definition forktest : prog unit :=
  print (str "fork test
");;
  n ← forktest_forks 1000 0;
  pwhen (n =? 1000) (print (str "fork claimed to work N times!
");; exit 1);;
  each (seq 0 (Z.to_nat n)) (λ _,
    '(r, _) ← call Sys_wait;
    pwhen (r <? 0) (print (str "wait stopped early
");; exit 1));;
  '(r, _) ← call Sys_wait;
  pwhen (negb (r =? -1)) (print (str "wait got too many
");; exit 1);;
  print (str "fork test OK
").
Definition forktest_main : prog unit := forktest;; exit 0.

(** ** cat copies *)
Lemma must_cat fd l s :
  o_fds s !! fd = Some l →
  must ostep (λ o s', o = Returned tt ∧ o_fds s' = <[fd := []]> (o_fds s) ∧ printed l s s') (cat fd) s.
Proof.
  intros Hl. apply must_bind.
  apply (must_loop _ _ _ (λ _ s', ∃ l1 l2, l = l1 ++ l2 ∧ o_fds s' = <[fd := l2]> (o_fds s) ∧ printed l1 s s')
    (λ _ s', length (default [] (o_fds s' !! fd)))).
  2: { exists [], l. rewrite insert_id by done. split_and!; [done..|apply printed_nil]. }
  intros [] s' (l1 & l2 & -> & Hf & Hp). apply (os_read _ _ _ _ _ l2); [by rewrite Hf, lookup_insert_eq|].
  intros la lb -> Hn Hz. rewrite Hf, insert_insert_eq.
  assert (printed (l1 ++ []) s (with_o_fds (<[fd := lb]> (o_fds s)) s')) as Hp1 by (by eapply printed_trans, printed_fds).
  rewrite app_nil_r in Hp1. destruct (Z.leb_spec (Z.of_nat (length la)) 0) as [H0|H0].
  - assert (la = []) as -> by (destruct la; [done|cbn in H0; lia]). destruct (Hz eq_refl) as [E|]; [|lia]. cbn in E. subst lb.
    apply must_ret. rewrite (proj2 (Z.ltb_ge _ 0)) by done. apply must_ret. rewrite !app_nil_r. by split_and!.
  - apply os_write; [by left|]. rewrite Z.eqb_refl. apply must_ret. split.
    + exists (l1 ++ la), lb. rewrite <- app_assoc. split_and!; [done..|]. eapply printed_trans; [exact Hp1|apply printed_put].
    + cbn. rewrite !lookup_insert_eq. cbn. rewrite length_app. lia.
Qed.

(** C33: cat with files writes the bytes of the files, in order and unchanged,
    to standard output and exits with 0, however the system cuts them into
    reads. *)
Theorem cat_copies argv0 files texts s :
  files ≠ [] → Forall2 (λ f t, o_files s !! f = Some t) files texts →
  must ostep (λ o s', o = Exited 0 ∧ ∀ fd, o_out s' fd = o_out (put 1 (concat texts) s) fd) (cat_main (argv0 :: files)) s.
Proof.
  intros Hne HF. assert (cat_main (argv0 :: files) = cat_files files) as -> by (by destruct files). clear Hne.
  assert (must ostep (λ o s', o = Exited 0 ∧ printed (concat texts) s s') (cat_files files) s) as H.
  2: { eapply must_mono; [exact H|]. by intros o s' [-> [_ Ho]]. }
  revert s HF. revert texts. induction files as [|f files IH]; intros texts s HF.
  { apply Forall2_nil_inv_l in HF as ->. apply must_exit. split; [done|apply printed_nil]. }
  apply Forall2_cons_inv_l in HF as (t & texts' & Hf & HF & ->). cbn [cat_files]. apply (os_open _ _ _ _ _ _ Hf).
  intros fd Hfd Hfresh. rewrite (proj2 (Z.ltb_ge fd 0)) by lia. apply must_bind.
  eapply must_mono; [apply (must_cat fd t); apply lookup_insert_eq|].
  intros o s2 (-> & Hf2 & Hp). apply (printed_trans [] _ _ _ _ (printed_fds _ _)) in Hp. apply os_close.
  eapply must_mono; [apply (IH texts')|].
  - eapply Forall2_impl; [exact HF|]. cbn. intros f' t'. destruct Hp as [Hfiles _]. by rewrite Hfiles.
  - intros o s3 [-> Hp3]. split; [done|]. cbn. eapply printed_trans; [exact Hp|].
    by apply (printed_trans [] _ _ _ _ (printed_fds _ _)) in Hp3.
Qed.

Lemma cat_copies_witness :
  must ostep (λ o s', o = Exited 0 ∧ o_out s' 1 = str "hello, world")
    (cat_main [str "cat"; str "a"; str "b"])
    (mk_os {[str "a" := str "hello, "; str "b" := str "world"]} ∅ (λ _, [])).
Proof.
  eapply must_mono.
  - apply (cat_copies (str "cat") [str "a"; str "b"] [str "hello, "; str "world"]); [done|]. repeat constructor.
  - intros o s' [-> Ho]. split; [done|]. rewrite Ho. reflexivity.
Defined.

(** ** wc counts *)
Definition wc_ws (x : Z) : bool := if strchr [32; 13; 9; 10; 11] x then true else false.
(** The text between white space, and the words: the pieces that are not empty. *)
Fixpoint fields (t : list Z) : list (list Z) :=
  match t with
  | [] => [[]]
  | x :: t' =>
      if wc_ws x then [] :: fields t' else
      match fields t' with f :: fs => (x :: f) :: fs | [] => [[x]] end
  end.
Definition nonempty (f : list Z) : bool := match f with [] => false | _ => true end.
Definition num_lines (t : list Z) : Z := Z.of_nat (length (filter (λ x, x = 10) t)).
Definition num_words (t : list Z) : Z := Z.of_nat (length (List.filter nonempty (fields t))).

(** Words still to come, from inside a word or not. *)
Lemma fields_cons t : ∃ f fs, fields t = f :: fs.
Proof.
  induction t as [|x t IH]; cbn; [by eexists _, _|]. destruct (wc_ws x); [by eexists _, _|].
  destruct IH as (f & fs & ->). by eexists _, _.
Qed.
Definition more_words (inw : bool) (t : list Z) : Z :=
  if inw then Z.of_nat (length (List.filter nonempty (tl (fields t)))) else num_words t.

Lemma num_lines_cons x t : num_lines (x :: t) = (if x =? 10 then 1 else 0) + num_lines t.
Proof.
  unfold num_lines. destruct (Z.eqb_spec x 10) as [E|E].
  - rewrite filter_cons_True by done. cbn [length]. lia.
  - by rewrite filter_cons_False by done.
Qed.
Lemma more_words_cons inw x t :
  more_words inw (x :: t) = if wc_ws x then more_words false t else (if inw then 0 else 1) + more_words true t.
Proof.
  unfold more_words, num_words. cbn [fields]. destruct (wc_ws x); [by destruct inw|].
  destruct (fields_cons t) as (f & fs & ->). destruct inw; cbn [tl List.filter nonempty length]; lia.
Qed.
Lemma wc_byte_counts s x :
  0 <= wc_l s < 2147483647 → 0 <= wc_w s < 2147483647 → 0 <= wc_c s < 2147483647 →
  wc_byte s x = mk_counts (wc_l s + (if x =? 10 then 1 else 0)) (wc_w s + (if wc_ws x then 0 else if inword s then 0 else 1))
    (wc_c s + 1) (negb (wc_ws x)).
Proof.
  intros Hl Hw Hc. assert (∀ z, 0 <= z < 2147483648 → i32 z = z) as Hi by (intros z Hz; unfold i32, u32; rewrite Z.mod_small; lia).
  unfold wc_byte, wc_ws. rewrite !(Hi (_ + 1)) by lia.
  destruct (strchr _ x), (x =? 10), (inword s); cbn [negb]; f_equal; lia.
Qed.

Definition wc_small (s : counts) (t : list Z) : Prop :=
  0 <= wc_l s ∧ wc_l s + Z.of_nat (length t) < 2147483648 ∧ 0 <= wc_w s ∧ wc_w s + Z.of_nat (length t) < 2147483648 ∧
  0 <= wc_c s ∧ wc_c s + Z.of_nat (length t) < 2147483648.
Lemma wc_foldl t t' s :
  wc_small s (t ++ t') →
  let s' := foldl wc_byte s t in
  wc_small s' t' ∧ wc_l s' + num_lines t' = wc_l s + num_lines (t ++ t') ∧
  wc_w s' + more_words (inword s') t' = wc_w s + more_words (inword s) (t ++ t') ∧
  wc_c s' + Z.of_nat (length t') = wc_c s + Z.of_nat (length (t ++ t')).
Proof.
  revert s. induction t as [|x t IH]; intros s Hs; cbn [foldl app] in *; [done|].
  destruct Hs as (H1 & H2 & H3 & H4 & H5 & H6). cbn [length] in *.
  rewrite wc_byte_counts by lia. set (s1 := mk_counts _ _ _ _).
  destruct (IH s1) as (Hs' & El & Ew & Ec).
  { unfold wc_small. subst s1. cbn. destruct (x =? 10), (wc_ws x), (inword s); lia. }
  split; [done|]. rewrite El, Ew, Ec, num_lines_cons, more_words_cons. subst s1. cbn.
  destruct (wc_ws x), (inword s); cbn; lia.
Qed.

(** The line of output for one file. *)
Definition wc_line (l w c : Z) (name : list Z) : list Z :=
  decimal l ++ [32] ++ decimal w ++ [32] ++ decimal c ++ [32] ++ name ++ [10].
Lemma outputs_wc_line l w c name :
  0 <= l < 2147483648 → 0 <= w < 2147483648 → 0 <= c < 2147483648 → Forall (λ x, 0 < x < 256) name →
  outputs (printf (str "%d %d %d %s
") [AInt l; AInt w; AInt c; AStr (Some name)]) (wc_line l w c name).
Proof.
  intros Hl Hw Hc Hname.
  assert (∀ n, 0 <= n < 2147483648 → outputs (printint 1 (i32 (u32 n)) 10 true) (decimal n)) as Hd.
  { intros n Hn. unfold i32, u32. rewrite (Z.mod_small n), Z.mod_small by lia.
    replace (n + 2147483648 - 2147483648) with n by lia. by apply outputs_printint. }
  assert (printf (str "%d %d %d %s
") [AInt l; AInt w; AInt c; AStr (Some name)] =
    (printint 1 (i32 (u32 l)) 10 true;; putc 1 32;; printint 1 (i32 (u32 w)) 10 true;; putc 1 32;;
     printint 1 (i32 (u32 c)) 10 true;; putc 1 32;; each name (putc 1);; putc 1 10;; mret tt)) as -> by reflexivity.
  apply outputs_seq; [by apply Hd|]. apply outputs_seq; [apply (outputs_putc 32)|].
  apply outputs_seq; [by apply Hd|]. apply outputs_seq; [apply (outputs_putc 32)|].
  apply outputs_seq; [by apply Hd|]. apply outputs_seq; [apply (outputs_putc 32)|].
  apply outputs_seq; [apply outputs_each; eapply Forall_impl; [exact Hname|cbn; lia]|].
  apply (outputs_seq _ _ [10] []); [apply (outputs_putc 10)|apply outputs_ret].
Qed.

Lemma must_wc fd name t s :
  o_fds s !! fd = Some t → Z.of_nat (length t) < 2147483648 → Forall (λ c, 0 < c < 256) name →
  must ostep (λ o s', o = Returned tt ∧ o_fds s' = <[fd := []]> (o_fds s) ∧
    printed (wc_line (num_lines t) (num_words t) (Z.of_nat (length t)) name) s s')
    (wc fd name) s.
Proof.
  intros Ht Hlen Hname. apply must_bind.
  apply (must_loop _ _ _ (λ st s', ∃ t2, o_fds s' = <[fd := t2]> (o_fds s) ∧ printed [] s s' ∧ wc_small st t2 ∧
      wc_l st + num_lines t2 = num_lines t ∧ wc_w st + more_words (inword st) t2 = num_words t ∧
      wc_c st + Z.of_nat (length t2) = Z.of_nat (length t))
    (λ _ s', length (default [] (o_fds s' !! fd)))).
  2: { exists t. rewrite insert_id by done. unfold wc_small. cbn. split_and!; try done; try lia. apply printed_nil. }
  intros st s' (t2 & Hf & Hp & Hsm & El & Ew & Ec). apply (os_read _ _ _ _ _ t2); [by rewrite Hf, lookup_insert_eq|].
  intros la lb -> Hn Hz. rewrite Hf, insert_insert_eq.
  assert (printed [] s (with_o_fds (<[fd := lb]> (o_fds s)) s')) as Hp1 by (by eapply (printed_trans [] []), printed_fds).
  destruct (Z.leb_spec (Z.of_nat (length la)) 0) as [H0|H0].
  - assert (la = []) as -> by (destruct la; [done|cbn in H0; lia]). destruct (Hz eq_refl) as [E|]; [|lia]. cbn in E. subst lb.
    apply must_ret. rewrite (proj2 (Z.ltb_ge _ 0)) by done. apply must_bind, must_ret.
    assert (wc_w st = num_words t) as Ew' by (rewrite <- Ew; unfold more_words, num_words; destruct (inword st); cbn; lia).
    cbn in El, Ec. rewrite Z.add_0_r in El, Ec. destruct Hsm as (? & ? & ? & ? & ? & ?). cbn [app length] in *.
    rewrite <- El, <- Ew', <- Ec.
    eapply must_mono.
    + apply (outputs_wc_line (wc_l st) (wc_w st) (wc_c st) name); [lia..|done].
    + intros o s2 (-> & Hf2 & Hp2). split_and!; [done|by rewrite Hf2|]. exact (printed_trans _ _ _ _ _ Hp1 Hp2).
  - apply must_ret. destruct (wc_foldl la lb st Hsm) as (Hs' & El' & Ew' & Ec'). split.
    + exists lb. split_and!; try done; congruence.
    + cbn. rewrite !lookup_insert_eq. cbn. rewrite length_app. lia.
Qed.

Lemma num_lines_bound t : 0 <= num_lines t <= Z.of_nat (length t).
Proof. induction t as [|x t IH]; [done|]. rewrite num_lines_cons. cbn [length]. destruct (x =? 10); lia. Qed.
Lemma num_words_bound t : 0 <= num_words t <= Z.of_nat (length t).
Proof.
  assert (∀ inw, 0 <= more_words inw t <= Z.of_nat (length t)) as H; [|apply (H false)].
  induction t as [|x t IH]; intros inw; [by destruct inw|]. rewrite more_words_cons. cbn [length].
  pose proof (IH true). pose proof (IH false). destruct (wc_ws x), inw; lia.
Qed.

(** C32: wc with a file prints one line with three numerals and the name.  The
    numerals are those of the number of newlines, of non-empty pieces between
    white space and of bytes of the file: [atoi] reads these numbers back from
    them.  This holds however the system cuts the file into reads; a word that
    straddles two reads is counted once. *)
Theorem wc_counts argv0 f t s :
  o_files s !! f = Some t → Z.of_nat (length t) < 2147483648 → Forall (λ c, 0 < c < 256) f →
  must ostep (λ o s', o = Exited 0 ∧ ∃ a b c,
      (∀ fd, o_out s' fd = o_out (put 1 (a ++ [32] ++ b ++ [32] ++ c ++ [32] ++ f ++ [10]) s) fd) ∧
      Forall (λ d, 48 <= d <= 57) (a ++ b ++ c) ∧
      atoi a = num_lines t ∧ atoi b = num_words t ∧ atoi c = Z.of_nat (length t))
    (wc_main [argv0; f]) s.
Proof.
  intros Hf Hlen Hname. cbn [wc_main wc_files]. apply (os_open _ _ _ _ _ _ Hf). intros fd Hfd _.
  rewrite (proj2 (Z.ltb_ge fd 0)) by lia. apply must_bind.
  eapply must_mono; [apply (must_wc fd f t); [apply lookup_insert_eq|done..]|].
  intros o s2 (-> & _ & Hp). apply (printed_trans [] _ _ _ _ (printed_fds _ _)) in Hp. destruct Hp as [_ Hp].
  apply os_close, must_exit. pose proof (num_lines_bound t). pose proof (num_words_bound t).
  split; [done|]. exists (decimal (num_lines t)), (decimal (num_words t)), (decimal (Z.of_nat (length t))).
  rewrite !Forall_app, !atoi_decimal by lia. split_and!; [exact Hp|apply decimal_digits; lia..|done|done|done].
Qed.

Lemma wc_counts_witness :
  must ostep (λ o s', o = Exited 0 ∧ ∃ a b c,
      (∀ fd, o_out s' fd = o_out (put 1 (a ++ [32] ++ b ++ [32] ++ c ++ [32] ++ str "f" ++ [10]) (mk_os {[str "f" := str "two  words
x"]} ∅ (λ _, []))) fd) ∧ Forall (λ d, 48 <= d <= 57) (a ++ b ++ c) ∧ atoi a = 1 ∧ atoi b = 3 ∧ atoi c = 12)
    (wc_main [str "wc"; str "f"]) (mk_os {[str "f" := str "two  words
x"]} ∅ (λ _, [])).
Proof.
  apply (wc_counts (str "wc") (str "f") (str "two  words
x")); [reflexivity|cbn; lia|]. repeat constructor; cbn; lia.
Defined.
