(* ===== verification/Grind.v ===== *)
(** user/grind.c: random system calls, for ever.  [rand_next] is passed along;
    the static buffer and the descriptor of [go] are arguments of its steps.
    The random number generator is the one of Park and Miller, computed without
    overflow, and a permutation of its states. *)
From S2P Require Import Prelude Machine Bytes Printf Console Fs User Ulib Cmds.
From Stdlib Require Import Ascii Znumtheory.
Open Scope Z_scope.

(** ** The random number generator *)
(** The new value of the context, and the result. *)
Definition do_rand (ctx : Z) : Z * Z :=
  let x := i32 (u32 (ctx mod 2147483646 + 1)) in
  let hi := x ÷ 127773 in
  let lo := Z.rem x 127773 in
  let x := i32 (i32 (16807 * lo) - i32 (2836 * hi)) in
  let x := if x <? 0 then i32 (x + 2147483647) else x in
  let x := i32 (x - 1) in
  (u32 x, i32 x).
Definition rand (rand_next : Z) : Z * Z := do_rand rand_next.

(** ** [go] *)
Definition O_CRW : Z := Z.lor O_CREATE O_RDWR.
(** The bytes of [buf] after [l] is stored at [off]. *)
Definition store (off : nat) (l buf : list Z) : list Z :=
  take off buf ++ l ++ drop (off + length l) buf.
Definition fails (msg : list Z) : prog unit := printf (msg ++ [10]) [];; exit 1.
Definition close_open (path : list Z) : prog unit :=
  fd ← call (Sys_open path O_CRW); _ ← call (Sys_close fd); mret tt.
Definition grind_unlink (path : list Z) : prog unit := _ ← call (Sys_unlink path); mret tt.
Definition grind_chdir (path msg : list Z) : prog unit :=
  r ← call (Sys_chdir path); pwhen (negb (r =? 0)) (fails msg).
(** [fork], and [child] in the child. *)
Definition forked (child : prog unit) : prog Z :=
  pid ← call Sys_fork;
  if pid =? 0 then child;; exit 0 else
  pwhen (pid <? 0) (fails (str "grind: fork failed"));;
  mret pid.
Definition wait0 : prog unit := _ ← call Sys_wait; mret tt.

(** A child that writes to a pipe and reads from it ([what == 19]). *)
Definition grind_pipe : prog unit :=
  '(r, (fd0, fd1)) ← call Sys_pipe;
  pwhen (r <? 0) (fails (str "grind: pipe failed"));;
  _ ← forked (
    _ ← call Sys_fork; _ ← call Sys_fork;
    w ← call (Sys_write fd1 [chr "x"]);
    pwhen (negb (w =? 1)) (printf (str "grind: pipe write failed" ++ [10]) []);;
    '(n, _) ← call (Sys_read fd0 1);
    pwhen (negb (n =? 1)) (printf (str "grind: pipe read failed" ++ [10]) []));
  _ ← call (Sys_close fd0); _ ← call (Sys_close fd1);
  wait0.

(** A file is created, written and looked at ([what == 21]). *)
Definition grind_create : prog unit :=
  grind_unlink (str "c");;
  fd1 ← call (Sys_open (str "c") O_CRW);
  pwhen (fd1 <? 0) (fails (str "grind: create c failed"));;
  w ← call (Sys_write fd1 [chr "x"]);
  pwhen (negb (w =? 1)) (fails (str "grind: write c failed"));;
  '(r, st) ← call (Sys_fstat fd1);
  pwhen (negb (r =? 0)) (fails (str "grind: fstat failed"));;
  pwhen (negb (st_size st =? 1))
    (printf (str "grind: fstat reports wrong size %d" ++ [10]) [AInt (i32 (st_size st))];; exit 1);;
  pwhen (200 <? st_ino st)
    (printf (str "grind: fstat reports crazy i-number %d" ++ [10]) [AInt (st_ino st)];; exit 1);;
  _ ← call (Sys_close fd1);
  grind_unlink (str "c").

(** The children of [echo hi | cat] ([what == 22]). *)
Definition efails (msg : list Z) (n : Z) : prog unit := fprintf 2 (msg ++ [10]) [];; exit n.
Definition grind_echo (aa0 aa1 bb0 bb1 : Z) : prog unit :=
  _ ← call (Sys_close bb0); _ ← call (Sys_close bb1); _ ← call (Sys_close aa0); _ ← call (Sys_close 1);
  r ← call (Sys_dup aa1);
  pwhen (negb (r =? 1)) (efails (str "grind: dup failed") 1);;
  _ ← call (Sys_close aa1);
  _ ← call (Sys_exec (str "grindir/../echo") [str "echo"; str "hi"]);
  efails (str "grind: echo: not found") 2.
Definition grind_cat (aa0 aa1 bb0 bb1 : Z) : prog unit :=
  _ ← call (Sys_close aa1); _ ← call (Sys_close bb0); _ ← call (Sys_close 0);
  r ← call (Sys_dup aa0);
  pwhen (negb (r =? 0)) (efails (str "grind: dup failed") 4);;
  _ ← call (Sys_close aa0); _ ← call (Sys_close 1);
  r ← call (Sys_dup bb1);
  pwhen (negb (r =? 1)) (efails (str "grind: dup failed") 5);;
  _ ← call (Sys_close bb1);
  _ ← call (Sys_exec (str "/cat") [str "cat"]);
  efails (str "grind: cat: not found") 6.
(** The bytes a read of one byte leaves at [off]. *)
Definition read1 (fd : Z) (off : nat) (buf : list Z) : prog (list Z) :=
  '(_, l) ← call (Sys_read fd 1); mret (store off l buf).
(** [wait(&st)]: a failing [wait] leaves [st] alone. *)
Definition wait_status (st : Z) : prog Z :=
  '(pid, x) ← call Sys_wait; mret (if pid <? 0 then st else x).
(** [st1] and [st2] are what the uninitialised variables hold. *)
Definition grind_pipeline (st1 st2 : Z) : prog unit :=
  '(r, (aa0, aa1)) ← call Sys_pipe;
  pwhen (r <? 0) (efails (str "grind: pipe failed") 1);;
  '(r, (bb0, bb1)) ← call Sys_pipe;
  pwhen (r <? 0) (efails (str "grind: pipe failed") 1);;
  pid1 ← call Sys_fork;
  pwhen (pid1 =? 0) (grind_echo aa0 aa1 bb0 bb1);;
  pwhen (pid1 <? 0) (efails (str "grind: fork failed") 3);;
  pid2 ← call Sys_fork;
  pwhen (pid2 =? 0) (grind_cat aa0 aa1 bb0 bb1);;
  pwhen (pid2 <? 0) (efails (str "grind: fork failed") 7);;
  _ ← call (Sys_close aa0); _ ← call (Sys_close aa1); _ ← call (Sys_close bb1);
  buf ← read1 bb0 0 [0; 0; 0; 0]; buf ← read1 bb0 1 buf; buf ← read1 bb0 2 buf;
  _ ← call (Sys_close bb0);
  st1 ← wait_status st1; st2 ← wait_status st2;
  pwhen (negb (st1 =? 0) || negb (st2 =? 0) || negb (strcmp buf (str "hi" ++ [10]) =? 0))
    (printf (str "grind: exec pipeline failed %d %d " ++ [34] ++ str "%s" ++ [34; 10])
       [AInt st1; AInt st2; AStr (Some buf)];; exit 1).

(** The cases from 9 on. *)
Definition go_case (what break0 st1 st2 : Z) : prog unit :=
  if what =? 9 then
    _ ← call (Sys_mkdir (str "grindir/../a"));
    close_open (str "a/../a/./a");; grind_unlink (str "a/a")
  else if what =? 10 then
    _ ← call (Sys_mkdir (str "/../b"));
    close_open (str "grindir/../b/b");; grind_unlink (str "b/b")
  else if what =? 11 then
    grind_unlink (str "b");; _ ← call (Sys_link (str "../grindir/./../a") (str "../b")); mret tt
  else if what =? 12 then
    grind_unlink (str "../grindir/../a");; _ ← call (Sys_link (str ".././b") (str "/grindir/../a")); mret tt
  else if what =? 13 then _ ← forked (mret tt); wait0
  else if what =? 14 then _ ← forked (_ ← call Sys_fork; _ ← call Sys_fork; mret tt); wait0
  else if what =? 15 then _ ← sbrk 6011; mret tt
  else if what =? 16 then
    b ← sbrk 0;
    pwhen (break0 <? b) (b ← sbrk 0; _ ← sbrk (i32 (- (b - break0))); mret tt)
  else if what =? 17 then
    pid ← forked (close_open (str "a"));
    grind_chdir (str "../grindir/..") (str "grind: chdir failed");;
    _ ← call (Sys_kill pid); wait0
  else if what =? 18 then
    _ ← forked (p ← call Sys_getpid; _ ← call (Sys_kill p); mret tt); wait0
  else if what =? 19 then grind_pipe
  else if what =? 20 then
    _ ← forked (
      grind_unlink (str "a");; _ ← call (Sys_mkdir (str "a")); _ ← call (Sys_chdir (str "a"));
      grind_unlink (str "../a");; _ ← call (Sys_open (str "x") O_CRW); grind_unlink (str "x"));
    wait0
  else if what =? 21 then grind_create
  else if what =? 22 then grind_pipeline st1 st2
  else mret tt.
(** One round with [fd] and [buf]. *)
Definition go_step (what break0 st1 st2 fd : Z) (buf : list Z) : prog (Z * list Z) :=
  if what =? 1 then close_open (str "grindir/../a");; mret (fd, buf)
  else if what =? 2 then close_open (str "grindir/../grindir/../b");; mret (fd, buf)
  else if what =? 3 then grind_unlink (str "grindir/../a");; mret (fd, buf)
  else if what =? 4 then
    grind_chdir (str "grindir") (str "grind: chdir grindir failed");;
    grind_unlink (str "../b");; _ ← call (Sys_chdir (str "/")); mret (fd, buf)
  else if what =? 5 then
    _ ← call (Sys_close fd); fd ← call (Sys_open (str "/grindir/../a") O_CRW); mret (fd, buf)
  else if what =? 6 then
    _ ← call (Sys_close fd); fd ← call (Sys_open (str "/./grindir/./../b") O_CRW); mret (fd, buf)
  else if what =? 7 then _ ← call (Sys_write fd buf); mret (fd, buf)
  else if what =? 8 then '(_, l) ← call (Sys_read fd 999); mret (fd, store 0 l buf)
  else go_case what break0 st1 st2;; mret (fd, buf).
Definition go (which_child st1 st2 rand_next : Z) : prog unit :=
  break0 ← sbrk 0;
  _ ← call (Sys_mkdir (str "grindir"));
  grind_chdir (str "grindir") (str "grind: chdir grindir failed");;
  _ ← call (Sys_chdir (str "/"));
  loop (λ '(iters, rand_next, fd, buf),
    let iters := u32 (iters + 1) in
    pwhen (iters mod 500 =? 0)
      (_ ← call (Sys_write 1 (if negb (which_child =? 0) then [chr "B"] else [chr "A"])); mret tt);;
    let '(rand_next, x) := rand rand_next in
    let what := Z.rem x 23 in
    '(fd, buf) ← go_step what break0 st1 st2 fd buf;
    mret (inl (iters, rand_next, fd, buf))) (0, rand_next, -1, replicate 999 0).

(** ** [iter] and [main] *)
Definition iter (u1 u2 rand_next : Z) : prog unit :=
  grind_unlink (str "a");;
  grind_unlink (str "b");;
  pid1 ← call Sys_fork;
  pwhen (pid1 <? 0) (fails (str "grind: fork failed"));;
  pwhen (pid1 =? 0) (go 0 u1 u2 (Z.lxor rand_next 31);; exit 0);;
  pid2 ← call Sys_fork;
  pwhen (pid2 <? 0) (fails (str "grind: fork failed"));;
  pwhen (pid2 =? 0) (go 1 u1 u2 (Z.lxor rand_next 7177);; exit 0);;
  st1 ← wait_status (-1);
  pwhen (negb (st1 =? 0)) (_ ← call (Sys_kill pid1); _ ← call (Sys_kill pid2); mret tt);;
  st2 ← wait_status (-1);
  exit 0.
Definition grind_main (u1 u2 : Z) : prog unit :=
  loop (λ rand_next,
    pid ← call Sys_fork;
    pwhen (pid =? 0) (iter u1 u2 rand_next;; exit 0);;
    pwhen (0 <? pid) wait0;;
    _ ← call (Sys_pause 20);
    mret (inl (u32 (rand_next + 1)))) 1.

(** ** The generator is the one of Park and Miller *)
Definition P : Z := 2147483647.

(** Schrage's decomposition, [P = 127773 * 16807 + 2836]. *)
Lemma schrage x : 16807 * (x mod 127773) - 2836 * (x / 127773) = 16807 * x - P * (x / 127773).
Proof. pose proof (Z.div_mod x 127773). unfold P. lia. Qed.

(** A multiplier prime to [P] hits no multiple of [P] below it. *)
Lemma park_miller_nonzero x : - P < x < P → x ≠ 0 → ¬ (P | 16807 * x).
Proof.
  intros Hx H0 Hd. apply Gauss in Hd.
  - apply Z.divide_abs_r in Hd. apply Z.divide_pos_le in Hd; lia.
  - apply Zgcd_1_rel_prime. by vm_compute.
Qed.

(** One step of the generator without the machine's arithmetic. *)
Definition park_miller (x : Z) : Z := (16807 * x) mod P.

Lemma do_rand_steps ctx :
  let x := ctx mod 2147483646 + 1 in
  let y := 16807 * (x mod 127773) - 2836 * (x / 127773) in
  1 ≤ x < P ∧ 0 ≤ 16807 * (x mod 127773) < P ∧ 0 ≤ 2836 * (x / 127773) < P ∧ - P < y < P ∧
  (if y <? 0 then y + P else y) = park_miller x ∧ 1 ≤ park_miller x < P.
Proof.
  intros x y. pose proof (Z.mod_pos_bound ctx 2147483646 eq_refl) as Hc.
  assert (1 ≤ x < P) as Hx by (unfold x, P; lia).
  pose proof (Z.mod_pos_bound x 127773 eq_refl) as Hm.
  assert (0 ≤ x / 127773 ≤ 16807) as Hq.
  { split; [apply Z.div_pos; lia|]. apply Z.lt_succ_r, Z.div_lt_upper_bound; unfold P in *; lia. }
  assert (- P < y < P) as Hy by (unfold y, P; lia).
  assert (y ≠ 0 ∧ (if y <? 0 then y + P else y) = park_miller x) as [Hy0 Hpm].
  { pose proof (schrage x) as Hs. fold y in Hs. split.
    - intros E. apply (park_miller_nonzero x); [lia|lia|]. exists (x / 127773). lia.
    - unfold park_miller. destruct (Z.ltb_spec y 0).
      + apply Z.mod_unique_pos with (x / 127773 - 1); [lia|]. lia.
      + apply Z.mod_unique_pos with (x / 127773); [lia|]. lia. }
  split_and!; [lia|lia|unfold P; lia|unfold P; lia|lia|unfold P; lia|lia|lia|done| |]; rewrite <-Hpm; destruct (Z.ltb_spec y 0); lia.
Qed.

Lemma i32_fits z : - 2147483648 ≤ z < 2147483648 → i32 z = z.
Proof. intros. unfold i32. rewrite u32_small; lia. Qed.
Lemma do_rand_eq ctx :
  let y := park_miller (ctx mod 2147483646 + 1) - 1 in do_rand ctx = (y, y).
Proof.
  destruct (do_rand_steps ctx) as (Hx & Hlo & Hhi & Hy & Hpm & Hb). set (x := ctx mod 2147483646 + 1) in *.
  cbn zeta. unfold do_rand. fold x. unfold P in *.
  rewrite (i32_u32_small x) by lia. rewrite Z.quot_div_nonneg, Z.rem_mod_nonneg by lia.
  rewrite !(i32_fits (_ * _)), (i32_fits (_ - 2836 * _)) by lia.
  set (z := if _ <? 0 then _ else _). assert (z = park_miller x) as ->.
  { rewrite <-Hpm. unfold z. by destruct (Z.ltb_spec (16807 * (x mod 127773) - 2836 * (x / 127773)) 0); [rewrite i32_fits by lia|]. }
  rewrite !i32_fits, u32_small by lia. done.
Qed.
Lemma park_miller_inj x x' : 1 ≤ x < P → 1 ≤ x' < P → park_miller x' = park_miller x → x' = x.
Proof.
  intros Hx Hx' E. destruct (decide (x' = x)) as [|Hne]; [done|exfalso].
  apply (park_miller_nonzero (x' - x)); [lia|lia|]. apply Z.mod_divide; [done|].
  rewrite Z.mul_sub_distr_l, Zminus_mod. unfold park_miller in E. by rewrite E, Z.sub_diag.
Qed.

(** C40: the generator of grind computes x -> 16807 x mod (2^31 - 1), shifted by
    one, from every value of its context; none of its 32-bit signed products,
    differences and sums overflows, its result is never negative, and two
    contexts below 0x7ffffffe with the same successor are equal, so it
    permutes its states. *)
Theorem do_rand_park_miller ctx :
  let x := ctx mod 2147483646 + 1 in
  let y := park_miller x - 1 in
  do_rand ctx = (y, y) ∧ 0 ≤ y < 2147483646 ∧
  0 ≤ 16807 * (x mod 127773) < 2147483648 ∧ 0 ≤ 2836 * (x / 127773) < 2147483648 ∧
  (∀ ctx', 0 ≤ ctx < 2147483646 → 0 ≤ ctx' < 2147483646 → (do_rand ctx').1 = (do_rand ctx).1 → ctx' = ctx).
Proof.
  intros x y. pose proof do_rand_eq as Heq.
  destruct (do_rand_steps ctx) as (Hx & Hlo & Hhi & _ & _ & Hpm). fold x in Hx, Hlo, Hhi, Hpm.
  split; [apply Heq|]. split; [unfold y, P in *; lia|]. split; [unfold P in *; lia|]. split; [unfold P in *; lia|].
  intros ctx' Hc Hc' E. rewrite !Heq in E. cbn in E.
  destruct (do_rand_steps ctx') as (Hx' & _). rewrite Z.mod_small in E, Hx' by lia. rewrite Z.mod_small in E by lia.
  assert (park_miller (ctx' + 1) = park_miller (ctx + 1)) as Ep by lia.
  apply park_miller_inj in Ep; unfold P; lia.
Qed.
