(* ===== verification/Umalloc.v ===== *)
(** The user memory allocator, user/umalloc.c (Kernighan and Ritchie).
    The headers of blocks are the fields [h_ptr] and [h_size] at the address of
    each header; a header is one unit of 8 bytes.  The state of the allocator is
    passed explicitly, [sbrk] is a system call. *)
From S2P Require Import Prelude Machine User Ulib.
Open Scope Z_scope.

Definition SBRK_ERROR : Z := 4294967295.
(** [sizeof(Header)] *)
Definition UNIT : Z := 8.

Record heap : Type := mk_heap { h_ptr : Z → Z; h_size : Z → Z; h_freep : Z }.
Definition upd (f : Z → Z) (a v : Z) : Z → Z := λ x, if x =? a then v else f x.
Definition set_ptr (a v : Z) (h : heap) : heap := mk_heap (upd (h_ptr h) a v) (h_size h) (h_freep h).
Definition set_size (a v : Z) (h : heap) : heap := mk_heap (h_ptr h) (upd (h_size h) a v) (h_freep h).
Definition set_freep (v : Z) (h : heap) : heap := mk_heap (h_ptr h) (h_size h) v.
(** Pointer arithmetic on headers. *)
Definition at_unit (p n : Z) : Z := u32 (p + UNIT * n).

(** The block after which [bp] goes. *)
Definition free_find (h : heap) (bp : Z) : prog Z :=
  loop (λ p,
    if (p <? bp) && (bp <? h_ptr h p) then mret (inr p) else
    if (h_ptr h p <=? p) && ((p <? bp) || (bp <? h_ptr h p)) then mret (inr p) else
    mret (inl (h_ptr h p))) (h_freep h).
(** [bp] linked to the block after [p], or joined with it. *)
Definition join_right (p bp : Z) (h : heap) : heap :=
  if at_unit bp (h_size h bp) =? h_ptr h p then
    let h := set_size bp (u32 (h_size h bp + h_size h (h_ptr h p))) h in
    set_ptr bp (h_ptr h (h_ptr h p)) h
  else set_ptr bp (h_ptr h p) h.
(** [p] linked to [bp], or joined with it. *)
Definition join_left (p bp : Z) (h : heap) : heap :=
  if at_unit p (h_size h p) =? bp then
    let h := set_size p (u32 (h_size h p + h_size h bp)) h in
    set_ptr p (h_ptr h bp) h
  else set_ptr p bp h.
Definition free (ap : Z) (h : heap) : prog heap :=
  let bp := u32 (ap - UNIT) in
  p ← free_find h bp;
  mret (set_freep p (join_left p bp (join_right p bp h))).

(** The result of [morecore] and the heap. *)
Definition morecore (nu : Z) (h : heap) : prog (Z * heap) :=
  let nu := if nu <? 4096 then 4096 else nu in
  p ← sbrk (i32 (u32 (nu * UNIT)));
  if p =? SBRK_ERROR then mret (0, h) else
  h ← free (at_unit p 1) (set_size p nu h);
  mret (h_freep h, h).

Section malloc.
Variable base : Z.

(** [malloc]'s loop at [prevp] and [p]. *)
Definition malloc_loop (nunits : Z) : Z * Z * heap → prog (Z * heap) :=
  loop (λ '(prevp, p, h),
    if nunits <=? h_size h p then
      (if h_size h p =? nunits then
         mret (inr (at_unit p 1, set_freep prevp (set_ptr prevp (h_ptr h p) h)))
       else
         let h := set_size p (u32 (h_size h p - nunits)) h in
         let p := at_unit p (h_size h p) in
         mret (inr (at_unit p 1, set_freep prevp (set_size p nunits h))))
    else if p =? h_freep h then
      '(p, h) ← morecore nunits h;
      if p =? 0 then mret (inr (0, h)) else mret (inl (p, h_ptr h p, h))
    else mret (inl (p, h_ptr h p, h))).
Definition malloc (nbytes : Z) (h : heap) : prog (Z * heap) :=
  let nunits := u32 (u32 (nbytes + UNIT - 1) / UNIT + 1) in
  let h := if h_freep h =? 0 then set_size base 0 (set_ptr base base (set_freep base h)) else h in
  malloc_loop nunits (h_freep h, h_ptr h (h_freep h), h).
End malloc.
