(* ===== verification/UmallocThms.v ===== *)
(** Correctness of the user memory allocator (Umalloc).
    The free list is a ring of blocks sorted by address that starts at [base];
    what it stands for is the set of free addresses, [area].  [free] adds the
    block to that set, [malloc] takes one of the right size out of it, asking the
    system for more memory when no block is large enough; neither touches an
    address outside the set.  Both loops terminate. *)
From S2P Require Import Prelude Machine User Ulib Umalloc.
Open Scope Z_scope.

(** The system: [sbrk] moves the break [s] up, or fails and leaves it. *)
Definition brkstep (X : Type) (e : sysE X) (s : Z) : X → Z → Prop :=
  match e in sysE X return X → Z → Prop with
  | Sys_sbrk n t => λ r s', (0 ≤ n ∧ s + n ≤ 2147483648 ∧ r = s ∧ s' = s + n) ∨ (r = SBRK_ERROR ∧ s' = s)
  | _ => λ _ _, False
  end.

(** The same with the calls of [sbrk] in the state: their arguments, and whether
    the system gave the memory. *)
Notation calls := (list (Z * bool)).
Definition sbrkstep (X : Type) (e : sysE X) (s : Z * calls) : X → Z * calls → Prop :=
  match e in sysE X return X → Z * calls → Prop with
  | Sys_sbrk n t => λ r s',
      (0 ≤ n ∧ s.1 + n ≤ 2147483648 ∧ r = s.1 ∧ s' = (s.1 + n, s.2 ++ [(n, true)])) ∨
      (r = SBRK_ERROR ∧ s' = (s.1, s.2 ++ [(n, false)]))
  | _ => λ _ _, False
  end.

Lemma sbrk_calls {A} (Q : outcome A → Z * calls → Prop) t brk cs :
  must sbrkstep Q t (brk, cs) → must brkstep (λ o brk', ∃ s', s'.1 = brk' ∧ Q o s') t brk.
Proof.
  apply (must_refine sbrkstep brkstep fst).
  - intros X [] s x s' H; try done. destruct H as [(? & ? & -> & ->)|[-> ->]]; [left|right]; by cbn.
  - intros X [] s x s' H; try done. destruct H as [(? & ? & -> & ->)|[-> ->]];
      [exists (s.1 + n, s.2 ++ [(n, true)])|exists (s.1, s.2 ++ [(n, false)])]; (split; [|done]); [left|right]; by cbn.
Qed.

(** ** Lists of blocks: address and size in units *)
Notation block := (Z * Z)%type.
Definition gap (x y : block) : Prop := x.1 + 8 * x.2 < y.1.
Definition inside (b : block) (x : Z) : Prop := b.1 ≤ x < b.1 + 8 * b.2.
Definition area (l : list block) (x : Z) : Prop := ∃ b, b ∈ l ∧ inside b x.
Definition head_addr (l : list block) (z : Z) : Z := match l with [] => z | b :: _ => b.1 end.
Fixpoint links (h : heap) (l : list block) (z : Z) : Prop :=
  match l with
  | [] => True
  | b :: l' => h_size h b.1 = b.2 ∧ h_ptr h b.1 = head_addr l' z ∧ links h l' z
  end.
(** The headers outside [D] are as before. *)
Definition kept (D : Z → Prop) (h h' : heap) : Prop :=
  ∀ x, ¬ D x → h_ptr h' x = h_ptr h x ∧ h_size h' x = h_size h x.

Lemma links_app h L R z : links h (L ++ R) z ↔ links h L (head_addr R z) ∧ links h R z.
Proof. induction L as [|b L IH]; cbn; [tauto|]. rewrite IH. destruct L; cbn; tauto. Qed.
Lemma links_kept (D : Z → Prop) h h' l z :
  kept D h h' → (∀ b, b ∈ l → ¬ D b.1) → links h l z → links h' l z.
Proof.
  intros Hk. induction l as [|b l IH]; cbn; [done|]. intros Hl (Hs & Hp & Hr).
  destruct (Hk b.1) as [-> ->]; [apply Hl; by left|]. split_and!; [done|done|].
  apply IH; [|done]. intros c Hc. apply Hl. by right.
Qed.
Lemma links_freep h l z p : links h l z → links (set_freep p h) l z.
Proof. apply (links_kept (λ _, False)); [done|]. by intros ? _ []. Qed.
Lemma links_lookup h l z i b :
  links h l z → l !! i = Some b → h_size h b.1 = b.2 ∧ h_ptr h b.1 = from_option fst z (l !! S i).
Proof.
  revert i. induction l as [|c l IH]; intros [|i]; cbn; [done|done| |].
  - intros (Hs & Hp & _) [= <-]. split; [done|]. by destruct l.
  - intros (_ & _ & Hr) Hi. by apply IH.
Qed.
Lemma area_app L R x : area (L ++ R) x ↔ area L x ∨ area R x.
Proof. unfold area. set_solver. Qed.
Lemma area_cons b l x : area (b :: l) x ↔ inside b x ∨ area l x.
Proof. unfold area. set_solver. Qed.
Lemma area_nil x : area [] x ↔ False.
Proof. unfold area. set_solver. Qed.
Lemma gap_lookup l i j b c :
  StronglySorted gap l → l !! i = Some b → l !! j = Some c → (i < j)%nat → gap b c.
Proof.
  intros Hs. revert i j. induction Hs as [|a l Hs IH Ha]; intros [|i] [|j]; cbn; try done; try lia.
  - intros [= <-] Hj _. by apply (proj1 (Forall_lookup _ _) Ha j).
  - intros Hi Hj ?. apply (IH i j); [done|done|lia].
Qed.

Section ring.
Variable base : Z.

Definition good (brk : Z) (b : block) : Prop := base + 8 ≤ b.1 ∧ 1 ≤ b.2 ∧ b.1 + 8 * b.2 ≤ brk.
(** The free list of a heap: the blocks after [base]. *)
Record ring (h : heap) (bs : list block) (brk : Z) : Prop := {
  ring_links : links h ((base, 0) :: bs) base;
  ring_gaps : StronglySorted gap ((base, 0) :: bs);
  ring_pos : Forall (good brk) bs;
  ring_freep : ∃ i b, ((base, 0) :: bs) !! i = Some b ∧ b.1 = h_freep h;
  ring_base : 0 < base ∧ base + 8 ≤ brk ∧ brk ≤ 2147483648;
}.

(** ** The place of a block in the ring *)
Definition place (l L : list block) (p : block) (R : list block) (bp : Z) : Prop :=
  l = L ++ p :: R ∧ p.1 < bp ∧ Forall (λ c, bp < c.1) R.

Lemma place_exists bp b l :
  StronglySorted gap (b :: l) → Forall (λ c, 0 ≤ c.2) (b :: l) → b.1 < bp → Forall (λ c, c.1 ≠ bp) l →
  ∃ L p R, place (b :: l) L p R bp.
Proof.
  revert b. induction l as [|c l IH]; intros b Hs Hn Hb Hl.
  { exists [], b, []. by split_and!. }
  apply StronglySorted_inv in Hs as [Hs Hg]. apply Forall_cons in Hl as [Hc Hl], Hn as [Hb2 Hn].
  destruct (decide (c.1 < bp)) as [Hcb|Hcb].
  - destruct (IH c Hs Hn Hcb Hl) as (L & p & R & -> & Hp & HR). by exists (b :: L), p, R.
  - exists [], b, (c :: l). split_and!; [done|done|]. apply Forall_cons; split; [lia|].
    apply StronglySorted_inv in Hs as [_ Hs]. apply Forall_cons in Hn as [Hc2 _].
    eapply Forall_impl; [exact Hs|]. unfold gap. intros d Hd. cbn in Hd, Hc2. lia.
Qed.

(** Steps from index [i] to index [k] round a ring of [n] blocks. *)
Definition dist (n i k : nat) : nat := if decide (i ≤ k)%nat then (k - i)%nat else (k + n - i)%nat.
(** The index after [i]. *)
Definition nxt (n i : nat) : nat := if decide (S i < n)%nat then S i else 0%nat.
Lemma dist_nxt n i k : (i < n)%nat → (k < n)%nat → i ≠ k → (dist n (nxt n i) k < dist n i k)%nat.
Proof. unfold dist, nxt. repeat case_decide; lia. Qed.

Section ring_facts.
Context (h : heap) (bs : list block) (brk : Z) (Hr : ring h bs brk).
Let l := (base, 0) :: bs.

Lemma ring_nonneg : Forall (λ c, 0 ≤ c.2) l.
Proof.
  apply Forall_cons; split; [done|]. eapply Forall_impl; [apply (ring_pos _ _ _ Hr)|]. unfold good. cbn. intros; lia.
Qed.
Lemma ring_ge i b : l !! i = Some b → base ≤ b.1.
Proof.
  destruct i as [|i]; cbn; [by intros [= <-]|]. intros Hi.
  pose proof (proj1 (Forall_lookup _ _) (ring_pos _ _ _ Hr) i b Hi) as H. unfold good in H. lia.
Qed.
Lemma ring_next i b : l !! i = Some b →
  h_size h b.1 = b.2 ∧ ∃ c, l !! nxt (length l) i = Some c ∧ h_ptr h b.1 = c.1.
Proof.
  intros Hi. destruct (links_lookup _ _ _ _ _ (ring_links _ _ _ Hr) Hi) as [Hs Hp]. split; [done|].
  unfold nxt. case_decide as Hlt.
  - destruct (lookup_lt_is_Some_2 l (S i) Hlt) as [c Hc]. exists c. split; [done|]. rewrite Hp.
    change ((base, 0) :: bs) with l. by rewrite Hc.
  - exists (base, 0). split; [done|]. rewrite Hp. change ((base, 0) :: bs) with l.
    rewrite lookup_ge_None_2; [done|lia].
Qed.
Lemma ring_lt i j b c : l !! i = Some b → l !! j = Some c → (i < j)%nat → b.1 < c.1.
Proof.
  intros Hi Hj Hij. pose proof (gap_lookup l i j b c (ring_gaps _ _ _ Hr) Hi Hj Hij) as Hg.
  pose proof (proj1 (Forall_lookup _ _) ring_nonneg i b Hi) as Hb. unfold gap in Hg. cbn in Hb. lia.
Qed.
Lemma ring_inj i j b c : l !! i = Some b → l !! j = Some c → b.1 = c.1 → i = j.
Proof.
  intros Hi Hj E. destruct (Nat.lt_trichotomy i j) as [H|[H|H]]; [|done|].
  - pose proof (ring_lt _ _ _ _ Hi Hj H). lia.
  - pose proof (ring_lt _ _ _ _ Hj Hi H). lia.
Qed.

Lemma free_find_ok {S} (hd : ∀ X, sysE X → S → X → S → Prop) L p R bp s :
  base < bp → place l L p R bp →
  must hd (λ o s', o = Returned p.1 ∧ s' = s) (free_find h bp) s.
Proof.
  intros Hbp (El & Hp & HR). destruct (ring_freep _ _ _ Hr) as (i0 & b0 & Hi0 & Hf).
  set (k := length L). assert (l !! k = Some p) as Hk by (rewrite El; by apply list_lookup_middle).
  apply (must_loop_down hd) with (I := λ n a s', s' = s ∧ ∃ i b, l !! i = Some b ∧ a = b.1 ∧ n = dist (length l) i k)
    (n := dist (length l) i0 k); [|split; [done|]; by exists i0, b0].
  intros n a s' (-> & i & b & Hi & -> & ->).
  destruct (ring_next i b Hi) as (_ & c & Hc & ->). pose proof (ring_ge _ _ Hc) as Hcb.
  pose proof (lookup_lt_Some _ _ _ Hi) as Hil. pose proof (lookup_lt_Some _ _ _ Hk) as Hkl.
  assert (∀ j d, l !! j = Some d → (k < j)%nat → bp < d.1) as Hafter.
  { intros j d Hj Hkj. rewrite El, lookup_app_r in Hj by (unfold k in Hkj; lia).
    destruct (j - length L)%nat as [|m] eqn:Em; [unfold k in Hkj; lia|]. by apply (proj1 (Forall_lookup _ _) HR m). }
  assert (∀ j d, l !! j = Some d → (j ≤ k)%nat → d.1 < bp) as Hbefore.
  { intros j d Hj Hjk. destruct (decide (j = k)) as [->|]; [by simplify_eq|].
    pose proof (ring_lt j k d p Hj Hk ltac:(lia)). lia. }
  assert (i = k → b = p) as Hbk by (intros ->; by simplify_eq).
  destruct (decide (i = k)) as [Eik|Hne].
  - rewrite Hbk by done. destruct (p.1 <? bp) eqn:E1; [|lia]. cbn [andb orb].
    destruct (bp <? c.1) eqn:E2; [by apply must_ret|].
    rewrite andb_true_r. assert (c.1 ≤ p.1) as Hle.
    { unfold nxt in Hc. case_decide; [pose proof (Hafter _ _ Hc ltac:(lia)); lia|].
      cbn in Hc. injection Hc as <-. apply (ring_ge k p Hk). }
    destruct (c.1 <=? p.1) eqn:E3; [by apply must_ret|lia].
  - assert ((b.1 <? bp) && (bp <? c.1) = false ∧ (c.1 <=? b.1) && ((b.1 <? bp) || (bp <? c.1)) = false) as [-> ->].
    { unfold nxt in Hc. case_decide as Hlt.
      - pose proof (ring_lt _ _ _ _ Hi Hc ltac:(lia)).
        destruct (decide (i < k)%nat); [pose proof (Hbefore _ _ Hc ltac:(lia))|pose proof (Hafter _ _ Hi ltac:(lia))]; lia.
      - cbn in Hc. injection Hc as <-. pose proof (Hafter _ _ Hi ltac:(lia)). cbn. lia. }
    apply must_ret. exists (dist (length l) (nxt (length l) i) k). split; [by apply dist_nxt|].
    split; [done|]. by exists (nxt (length l) i), c.
Qed.
End ring_facts.

(** ** [free] *)
Lemma upd_eq f a v : upd f a v a = v.
Proof. unfold upd. by rewrite Z.eqb_refl. Qed.
Lemma upd_ne f a v x : x ≠ a → upd f a v x = f x.
Proof. unfold upd. intros ?. by destruct (Z.eqb_spec x a). Qed.
Lemma at_unit_small p n : 0 ≤ p + 8 * n < 4294967296 → at_unit p n = p + 8 * n.
Proof. intros. unfold at_unit, UNIT, u32. by rewrite Z.mod_small. Qed.
Lemma gaps_sooner a n l b :
  StronglySorted gap l → (∀ c, c ∈ l → 0 ≤ c.2) → (∀ c, head l = Some c → gap (a, n) c) → b ∈ l → gap (a, n) b.
Proof.
  destruct l as [|c l]; [by intros _ _ _ Hb%not_elem_of_nil|]. intros Hs Hn Hc Hb.
  specialize (Hc c eq_refl). specialize (Hn c ltac:(by left)). apply elem_of_cons in Hb as [->|Hb]; [done|].
  apply StronglySorted_inv in Hs as [_ Hs]. rewrite Forall_forall in Hs. specialize (Hs _ Hb).
  unfold gap in *. cbn in *. lia.
Qed.

Section join.
Context (brk : Z) (Hbrk : 0 < base ∧ brk ≤ 2147483648).

(** What [join_right] makes of the block [a] and the blocks [R] after it. *)
Definition joined (h h1 : heap) (a n : Z) (R : list block) (n1 : Z) (R1 : list block) : Prop :=
  links h1 ((a, n1) :: R1) base ∧ StronglySorted gap ((a, n1) :: R1) ∧ Forall (good brk) ((a, n1) :: R1) ∧
  (∀ x, area ((a, n1) :: R1) x ↔ inside (a, n) x ∨ area R x) ∧ kept (λ x, x = a) h h1 ∧
  (length R1 ≤ length R)%nat ∧ n ≤ n1.

Lemma join_right_ok h p a R :
  let n := h_size h a in
  p ≠ a → h_ptr h p = head_addr R base → links h R base → StronglySorted gap R → Forall (good brk) R →
  good brk (a, n) → Forall (λ c, a + 8 * n ≤ c.1) R →
  ∃ n1 R1, joined h (join_right p a h) a n R n1 R1.
Proof.
  intros n Hpa Hp Hl Hs Hg Ha HR. pose proof Ha as (Ha1 & Ha2 & Ha3). cbn in Ha1, Ha2, Ha3.
  rewrite Forall_forall in HR, Hg.
  assert (∀ c, c ∈ R → c.1 ≠ a) as Hne by (intros c Hc; pose proof (HR c Hc); lia).
  unfold join_right. fold n. rewrite at_unit_small by lia. rewrite Hp.
  destruct (Z.eqb_spec (a + 8 * n) (head_addr R base)) as [E|E].
  - destruct R as [|q R]; [cbn in E; lia|]. cbn in E. destruct Hl as (Hqs & Hqp & Hl).
    pose proof (Hne q ltac:(by left)) as Hqa. pose proof (Hg q ltac:(by left)) as (Hq1 & Hq2 & Hq3).
    apply StronglySorted_inv in Hs as [Hs Hsq]. cbn [head_addr set_size h_ptr h_size].
    exists (n + q.2), R. rewrite Hp. cbn [head_addr]. rewrite Hqs, Hqp. rewrite u32_small by lia. unfold joined.
    assert (kept (λ x, x = a) h (set_ptr a (head_addr R base) (set_size a (n + q.2) h))) as Hk.
    { intros x Hx. cbn. by rewrite !upd_ne. }
    rewrite Forall_forall in Hsq. split_and!; [|apply StronglySorted_cons; split; [|done]| | |done|cbn; lia|lia].
    + cbn. rewrite !upd_eq. split_and!; [done|done|]. eapply links_kept; [exact Hk| |done].
      intros c Hc. apply Hne. by right.
    + rewrite Forall_forall. intros c Hc. specialize (Hsq c Hc). unfold gap in *. cbn. lia.
    + apply Forall_cons; split; [unfold good; cbn; lia|]. apply Forall_forall. intros c Hc. apply Hg. by right.
    + intros x. rewrite !area_cons. assert (inside (a, n + q.2) x ↔ inside (a, n) x ∨ inside q x) as ->; [|tauto].
      unfold inside. cbn. lia.
  - assert (kept (λ x, x = a) h (set_ptr a (head_addr R base) h)) as Hk by (intros x Hx; cbn; by rewrite !upd_ne).
    exists n, R. unfold joined. split_and!; [|apply StronglySorted_cons; split; [|done]| | |done|lia|lia].
    + cbn. rewrite upd_eq. split_and!; [done|done|]. by eapply links_kept.
    + rewrite Forall_forall. intros c Hc. eapply gaps_sooner; [done|intros d Hd; by apply Hg in Hd as (?&?&?); lia| |done].
      intros d Hd. destruct R as [|e R]; [done|]. injection Hd as ->. specialize (HR d ltac:(by left)).
      unfold gap. cbn in *. lia.
    + apply Forall_cons; split; [done|]. by apply Forall_forall.
    + intros x. by rewrite area_cons.
Qed.

(** What becomes of the ring when [a] is behind [p] and its right side is done. *)
Lemma join_left_ok h p a n1 L R1 :
  links h (L ++ [p]) (h_ptr h p.1) → links h ((a, n1) :: R1) base →
  StronglySorted gap (L ++ [p]) → StronglySorted gap ((a, n1) :: R1) →
  (∀ c d, c ∈ L → d ∈ (a, n1) :: R1 → gap c d) → (∀ d, d ∈ R1 → gap p d) →
  0 ≤ p.2 → p.1 + 8 * p.2 ≤ a → 0 < p.1 → good brk (a, n1) → (∀ c, c ∈ L → c.1 < p.1) →
  let h2 := join_left p.1 a h in
  ∃ M, links h2 (L ++ M) base ∧ StronglySorted gap (L ++ M) ∧ kept (λ x, x = p.1) h h2 ∧
    (M = (p.1, p.2 + n1) :: R1 ∧ p.1 + 8 * p.2 = a ∨ M = p :: (a, n1) :: R1).
Proof.
  intros Hl Hr Hs Hs1 HL Hp Hp2 Hpa Hp0 (Ha1 & Ha2 & Ha3) HLp h2. cbn in Ha1, Ha2, Ha3.
  apply links_app in Hl as (Hl & Hps & _ & _). apply StronglySorted_app in Hs as (Hsg & Hs & _).
  apply StronglySorted_inv in Hs1 as Hs1'. destruct Hs1' as [Hs1' Hg1]. rewrite Forall_forall in Hg1.
  assert (kept (λ x, x = p.1) h h2) as Hk.
  { intros x Hx. unfold h2, join_left. case_match; cbn; rewrite ?upd_ne by done; done. }
  destruct Hr as (Has & Hap & Hr). cbn in Has, Hap.
  assert (∀ c, c ∈ R1 → c.1 ≠ p.1) as HRp by (intros c Hc; specialize (Hp c Hc); unfold gap in Hp; lia).
  assert (∀ M, head_addr M base = p.1 → links h2 M base → links h2 (L ++ M) base) as Hlink.
  { intros M HM HlM. apply links_app. split; [|done]. rewrite HM. eapply links_kept; [exact Hk| |exact Hl].
    intros c Hc. specialize (HLp c Hc). cbn. lia. }
  assert (h2 = if p.1 + 8 * p.2 =? a then set_ptr p.1 (h_ptr h a) (set_size p.1 (u32 (p.2 + n1)) h) else set_ptr p.1 a h)
    as Eh by (unfold h2, join_left; by rewrite Hps, Has, at_unit_small by lia).
  assert (links h2 R1 base) as HlR by (eapply links_kept; [exact Hk|exact HRp|exact Hr]).
  clearbody h2. destruct (Z.eqb_spec (p.1 + 8 * p.2) a) as [E|E]; [rewrite u32_small in Eh by lia|]; subst h2.
  - exists ((p.1, p.2 + n1) :: R1). split_and!; [apply Hlink; [done|]| |done|by left].
    + cbn. rewrite !upd_eq. by split_and!.
    + apply StronglySorted_app_2; [|done|apply StronglySorted_cons; split; [|done]].
      * intros c d Hc [->|Hd]%elem_of_cons; [|apply HL; [done|by right]].
        apply (Hsg c p Hc). by apply list_elem_of_singleton.
      * rewrite Forall_forall. intros d Hd. specialize (Hg1 d Hd). unfold gap in *. cbn in *. lia.
  - exists (p :: (a, n1) :: R1). split_and!; [apply Hlink; [done|]| |done|by right].
    + cbn. rewrite !upd_eq, !upd_ne by lia. by split_and!.
    + apply StronglySorted_app_2; [|done|apply StronglySorted_cons; split; [|done]].
      * intros c d Hc [->|Hd]%elem_of_cons; [|by apply HL].
        apply (Hsg c p Hc). by apply list_elem_of_singleton.
      * apply Forall_cons; split; [unfold gap; cbn; lia|]. by apply Forall_forall.
Qed.
End join.

(** A block given to [free]: outside the free list, its size in its header. *)
Definition taken (h : heap) (bs : list block) (brk a n : Z) : Prop :=
  h_size h a = n ∧ good brk (a, n) ∧ ∀ x, inside (a, n) x → ¬ area bs x.

Lemma taken_place h bs brk a n :
  ring h bs brk → taken h bs brk a n → ∃ L p R, place ((base, 0) :: bs) L p R a ∧
    p.1 + 8 * p.2 ≤ a ∧ Forall (λ c, a + 8 * n ≤ c.1) R.
Proof.
  intros Hr (Hn & (Ha1 & Ha2 & Ha3) & Hd). cbn in Ha1, Ha2, Ha3. pose proof (ring_pos _ _ _ Hr) as Hg.
  assert (∀ c, c ∈ bs → c.1 + 8 * c.2 ≤ a ∨ a + 8 * n ≤ c.1) as Hdis.
  { intros c Hc. destruct (decide (c.1 + 8 * c.2 ≤ a ∨ a + 8 * n ≤ c.1)) as [|Hno]; [done|exfalso].
    rewrite Forall_forall in Hg. destruct (Hg c Hc) as (_ & Hc2 & _).
    apply (Hd (Z.max a c.1)); [unfold inside; cbn; lia|]. exists c. split; [done|]. unfold inside. lia. }
  rewrite Forall_forall in Hg.
  destruct (place_exists a (base, 0) bs) as (L & p & R & El & Hp & HR).
  - apply (ring_gaps _ _ _ Hr).
  - by eapply ring_nonneg.
  - cbn. lia.
  - apply Forall_forall. intros c Hc. destruct (Hg c Hc) as (_ & ? & _), (Hdis c Hc); lia.
  - exists L, p, R. split; [by split_and!|].
    assert (p = (base, 0) ∨ p ∈ bs) as Hpb by (apply elem_of_cons; rewrite El; set_solver).
    split.
    + destruct Hpb as [->|Hpb]; [cbn; lia|]. destruct (Hdis p Hpb); [done|lia].
    + apply Forall_forall. intros c Hc. rewrite Forall_forall in HR. specialize (HR c Hc). cbn in HR.
      assert (c ∈ bs) as Hcb.
      { assert (c ∈ (base, 0) :: bs) as Hcl by (rewrite El; set_solver).
        apply elem_of_cons in Hcl as [->|]; [cbn in HR; lia|done]. }
      destruct (Hg c Hcb) as (_ & ? & _), (Hdis c Hcb); lia.
Qed.

(** What [free] makes of the ring: the block is in it, nothing else has changed. *)
Definition freed (h : heap) (bs : list block) (brk a n : Z) (h' : heap) : Prop :=
  ∃ bs', ring h' bs' brk ∧ (∀ x, area bs' x ↔ area bs x ∨ inside (a, n) x) ∧
    kept (λ x, x = base ∨ area bs x ∨ inside (a, n) x) h h' ∧
    (length bs' ≤ S (length bs))%nat ∧ ∃ b, b ∈ bs' ∧ n ≤ b.2.

Lemma area_ring bs x : area ((base, 0) :: bs) x ↔ area bs x.
Proof. rewrite area_cons. unfold inside. cbn. intuition lia. Qed.

(** The ring from the parts that [join_right] and [join_left] give. *)
Lemma freed_intro h bs brk a n L p R h1 n1 R1 h2 M :
  ring h bs brk → taken h bs brk a n → (base, 0) :: bs = L ++ p :: R → p.1 + 8 * p.2 ≤ a →
  joined brk h h1 a n R n1 R1 →
  links h2 (L ++ M) base → StronglySorted gap (L ++ M) → kept (λ x, x = p.1) h1 h2 →
  (M = (p.1, p.2 + n1) :: R1 ∧ p.1 + 8 * p.2 = a ∨ M = p :: (a, n1) :: R1) →
  freed h bs brk a n (set_freep p.1 h2).
Proof.
  intros Hr (Hn & (Ha1 & Ha2 & Ha3) & Hd) El Hpa (_ & _ & Hg1 & Har & Hk1 & Hlen & Hnn) Hl Hs Hk2 HM.
  cbn in Ha1, Ha2, Ha3. pose proof (ring_nonneg _ _ _ Hr) as Hnn'. pose proof (ring_pos _ _ _ Hr) as Hg.
  pose proof (ring_base _ _ _ Hr) as Hb.
  assert (0 ≤ p.2) as Hp2. { rewrite Forall_forall in Hnn'. apply Hnn'. rewrite El. set_solver. }
  assert (∃ bs', (base, 0) :: bs' = L ++ M ∧ Forall (good brk) bs' ∧ (∃ b, b ∈ bs' ∧ n ≤ b.2)) as (bs' & El' & Hg' & Hbig).
  { apply Forall_cons in Hg1 as Hg1'. destruct Hg1' as [Ha Hg1'].
    destruct L as [|b0 L]; cbn in El; injection El as E0 El.
    - destruct HM as [[_ HM]| ->]; [subst p; cbn in HM; lia|]. subst p. exists ((a, n1) :: R1).
      split_and!; [done|done|]. exists (a, n1). split; [by left|done].
    - subst b0. rewrite El in Hg. apply Forall_app in Hg as [HgL Hg]. apply Forall_cons in Hg as [Hgp HgR].
      exists (L ++ M). split; [done|]. split.
      + apply Forall_app; split; [done|]. destruct HM as [[-> HM]| ->]; [|by apply Forall_cons].
        apply Forall_cons; split; [|done]. unfold good in *. cbn in *. lia.
      + destruct HM as [[-> HM]| ->]; [exists (p.1, p.2 + n1)|exists (a, n1)]; (split; [set_solver|cbn; lia]). }
  exists bs'. split_and!; [split| | | |].
  - rewrite El'. by apply links_freep.
  - by rewrite El'.
  - done.
  - exists (length L). rewrite El'. destruct HM as [[-> _]| ->]; rewrite list_lookup_middle by done; eauto.
  - done.
  - intros x. rewrite <-(area_ring bs'), <-(area_ring bs), El, El', !area_app, area_cons.
    specialize (Har x). rewrite area_cons in Har. destruct HM as [[-> HM]| ->]; [|rewrite !area_cons; tauto].
    rewrite area_cons. assert (inside (p.1, p.2 + n1) x ↔ inside p x ∨ inside (a, n1) x) as ->; [|tauto].
    unfold inside, good in *. apply Forall_cons in Hg1 as [Hg1 _]. cbn in *. lia.
  - intros x Hx. change (h_ptr (set_freep p.1 h2)) with (h_ptr h2). change (h_size (set_freep p.1 h2)) with (h_size h2).
    destruct (Hk2 x) as [-> ->]; [|apply Hk1].
    + intros ->. apply Hx. assert (p ∈ (base, 0) :: bs) as Hp by (rewrite El; set_solver).
      apply elem_of_cons in Hp as [->|Hp]; [by left|right; left]. exists p. split; [done|].
      rewrite Forall_forall in Hg. destruct (Hg p Hp) as (_ & ? & _). unfold inside. lia.
    + intros ->. apply Hx. right. right. unfold inside. cbn. lia.
  - apply (f_equal length) in El, El'. rewrite length_app in El, El'. cbn in El, El'.
    destruct HM as [[-> _]| ->]; cbn in El'; lia.
  - done.
Qed.

Lemma free_ok {S} (hd : ∀ X, sysE X → S → X → S → Prop) h bs brk a n s :
  ring h bs brk → taken h bs brk a n →
  must hd (λ o s', s' = s ∧ ∃ h', o = Returned h' ∧ freed h bs brk a n h') (free (a + 8) h) s.
Proof.
  intros Hr Ht. destruct (taken_place _ _ _ _ _ Hr Ht) as (L & p & R & Hpl & Hpa & HR).
  pose proof Ht as (Hn & Hga & _). pose proof Hga as (Ha1 & Ha2 & Ha3). cbn in Ha1, Ha2, Ha3.
  pose proof (ring_base _ _ _ Hr) as Hb. pose proof Hpl as (El & Hp & HRa).
  unfold free, UNIT. replace (a + 8 - 8) with a by lia. rewrite u32_small by lia.
  apply must_bind. eapply must_mono; [eapply (free_find_ok _ _ _ Hr hd); [lia|exact Hpl]|].
  intros o s' [-> ->]. apply must_ret. split; [done|]. eexists; split; [done|].
  pose proof (ring_links _ _ _ Hr) as Hl. rewrite El in Hl. apply links_app in Hl as [HlL Hl]. cbn in HlL.
  destruct Hl as (Hps & Hpp & HlR). pose proof (ring_gaps _ _ _ Hr) as Hs. rewrite El in Hs.
  apply StronglySorted_app in Hs as (HsLp & HsL & Hs). apply StronglySorted_inv in Hs as [HsR HspR].
  assert (∀ c, c ∈ L ++ [p] → 0 ≤ c.2 ∧ 0 < c.1) as HLp.
  { intros c Hc. assert (c ∈ (base, 0) :: bs) as Hcl by (rewrite El; set_solver). clear -Hcl Hr Hb.
    apply list_elem_of_lookup in Hcl as [i Hi]. pose proof (ring_ge _ _ _ Hr _ _ Hi).
    pose proof (proj1 (Forall_lookup _ _) (ring_nonneg _ _ _ Hr) i c Hi) as Hc. cbn in Hc. lia. }
  assert (Forall (good brk) R) as HgR.
  { pose proof (ring_pos _ _ _ Hr) as Hg. destruct L as [|b0 L]; cbn in El; injection El as _ El; rewrite El in Hg; [done|].
    by apply Forall_app in Hg as [_ [_ Hg]%Forall_cons]. }
  assert (∀ c, c ∈ L → gap c p) as HLg by (intros c Hc; apply HsLp; [done|by left]).
  destruct (join_right_ok brk ltac:(lia) h p.1 a R) as (n1 & R1 & Hj); [lia|done|done|done|done|by rewrite Hn|by rewrite Hn|].
  rewrite Hn in Hj. pose proof Hj as (Hl1 & Hs1 & Hg1 & _ & Hk1 & _ & _).
  apply StronglySorted_inv in Hs1 as Hs1'. destruct Hs1' as [_ Hs1']. rewrite Forall_forall in Hs1'.
  apply Forall_cons in Hg1 as Hg1'. destruct Hg1' as [Hg1a _]. pose proof Hg1a as (_ & Hn1 & _). cbn in Hn1.
  destruct (join_left_ok brk ltac:(lia) (join_right p.1 a h) p a n1 L R1) as (M & HlM & HsM & Hk2 & HM); try done.
  - apply links_app. cbn. destruct (Hk1 p.1) as [-> ->]; [lia|]. split_and!; [|done|done|done].
    eapply links_kept; [exact Hk1| |exact HlL]. intros c Hc. specialize (HLg c Hc).
    destruct (HLp c) as [? _]; [set_solver|]. unfold gap in HLg. lia.
  - apply StronglySorted_app_2; [|done|by repeat constructor]. intros c d Hc ->%list_elem_of_singleton. by apply HLg.
  - intros c d Hc Hd. specialize (HLg c Hc). destruct (HLp p) as [? _]; [set_solver|].
    apply elem_of_cons in Hd as [->|Hd]; [|specialize (Hs1' d Hd)]; unfold gap in *; cbn in *; lia.
  - intros d Hd. specialize (Hs1' d Hd). unfold gap in *. cbn in *. lia.
  - apply HLp. set_solver.
  - apply HLp. set_solver.
  - intros c Hc. specialize (HLg c Hc). destruct (HLp c) as [? _]; [set_solver|]. unfold gap in HLg. lia.
  - eapply freed_intro; done.
Qed.

(** ** Taking a block out of the ring *)
Definition took (h : heap) (bs : list block) (brk a n : Z) (h' : heap) : Prop :=
  ∃ bs', ring h' bs' brk ∧ taken h' bs' brk a n ∧ (∀ x, area bs' x ↔ area bs x ∧ ¬ inside (a, n) x) ∧
    (∀ x, inside (a, n) x → area bs x) ∧ kept (λ x, x = base ∨ area bs x) h h'.

(** The blocks on both sides of the block [b] in a ring. *)
Lemma ring_around h bs brk L c b R :
  ring h bs brk → (base, 0) :: bs = L ++ c :: b :: R →
  good brk b ∧ b ∈ bs ∧ (∀ d, d ∈ L ++ [c] → gap d b ∧ 0 ≤ d.2 ∧ 0 < d.1) ∧ (∀ d, d ∈ R → gap b d) ∧
  (∃ B, (base, 0) :: B = L ++ [c] ∧ bs = B ++ b :: R).
Proof.
  intros Hr El. pose proof (ring_gaps _ _ _ Hr) as Hs.
  assert (∃ B, (base, 0) :: B = L ++ [c] ∧ bs = B ++ b :: R) as (B & EB & Ebs).
  { destruct L as [|b0 L]; cbn in El; injection El as <- ->; [by exists []|]. exists (L ++ [c]).
    split; [done|]. by rewrite <-app_assoc. }
  assert (b ∈ bs) as Hb by (rewrite Ebs; set_solver).
  pose proof (ring_pos _ _ _ Hr) as Hg. rewrite Forall_forall in Hg.
  change (c :: b :: R) with ([c] ++ b :: R) in El. rewrite app_assoc in El. rewrite El in Hs.
  apply StronglySorted_app in Hs as (HsL & _ & [_ HsR]%StronglySorted_inv). rewrite Forall_forall in HsR.
  split_and!; [by apply Hg|done| |done|by exists B].
  intros d Hd. split; [apply HsL; [done|by left]|]. rewrite <-EB in Hd.
  pose proof (ring_base _ _ _ Hr). apply elem_of_cons in Hd as [->|Hd]; [cbn; lia|].
  destruct (Hg d) as (? & ? & _); [rewrite Ebs; set_solver|]. lia.
Qed.

Lemma unlink_ok h bs brk L c b R :
  ring h bs brk → (base, 0) :: bs = L ++ c :: b :: R →
  took h bs brk b.1 b.2 (set_freep c.1 (set_ptr c.1 (h_ptr h b.1) h)).
Proof.
  intros Hr El. destruct (ring_around _ _ _ _ _ _ _ Hr El) as (Hgb & Hb & HL & HR & B & EB & Ebs).
  pose proof Hgb as (Hb1 & Hb2 & Hb3). pose proof (ring_links _ _ _ Hr) as Hl. rewrite El in Hl.
  apply links_app in Hl as (HlL & Hcs & Hcp & Hbs & Hbp & HlR).
  pose proof (ring_gaps _ _ _ Hr) as Hs. rewrite El in Hs. apply StronglySorted_app in Hs as (HsLR & HsL & Hs).
  apply StronglySorted_inv in Hs as [[HsR _]%StronglySorted_inv [Hcb HcR]%Forall_cons].
  pose proof (ring_pos _ _ _ Hr) as Hg. rewrite Ebs in Hg. apply Forall_app in Hg as [HgB [_ HgR]%Forall_cons].
  assert (kept (λ x, x = c.1) h (set_ptr c.1 (h_ptr h b.1) h)) as Hk by (intros x Hx; cbn; by rewrite upd_ne).
  assert ((base, 0) :: B ++ R = L ++ c :: R) as El'.
  { change ((base, 0) :: B ++ R) with (((base, 0) :: B) ++ R). by rewrite EB, <-app_assoc. }
  destruct (HL c ltac:(set_solver)) as (_ & Hc2 & Hc0).
  assert (∀ x, inside b x → ¬ area (B ++ R) x) as Hno.
  { intros x Hx (d & Hd & Hdx). apply elem_of_app in Hd as [Hd|Hd].
    - destruct (HL d) as [Hdg _]; [rewrite <-EB; set_solver|]. unfold gap, inside in *. lia.
    - specialize (HR d Hd). unfold gap, inside in *. lia. }
  exists (B ++ R). split_and!; [split| | | |].
  - rewrite El'. apply links_freep, links_app. split; [|cbn; rewrite upd_eq; split_and!; [done|done|]].
    + eapply links_kept; [exact Hk| |exact HlL]. intros d Hd. cbn. specialize (HsLR d c Hd ltac:(by left)).
      destruct (HL d ltac:(set_solver)) as (_ & ? & _). unfold gap in HsLR. lia.
    + eapply links_kept; [exact Hk| |exact HlR]. rewrite Forall_forall in HcR. intros d Hd. cbn.
      specialize (HcR d Hd). unfold gap in HcR. lia.
  - rewrite El'. apply StronglySorted_app_2; [|done|by apply StronglySorted_cons].
    intros d e Hd He. apply HsLR; [done|]. set_solver.
  - by apply Forall_app.
  - exists (length L), c. split; [|done]. by rewrite El', list_lookup_middle.
  - apply (ring_base _ _ _ Hr).
  - split_and!; [by cbn|by destruct b|]. destruct b. exact Hno.
  - intros x. rewrite Ebs, !area_app, area_cons. specialize (Hno x). rewrite area_app in Hno. destruct b. tauto.
  - intros x Hx. exists b. split; [done|]. by destruct b.
  - intros x Hx. apply Hk. intros ->. apply Hx. assert (c ∈ (base, 0) :: B) as Hc by (rewrite EB; set_solver).
    apply elem_of_cons in Hc as [->|Hc]; [by left|right]. exists c. split; [set_solver|].
    rewrite Forall_forall in HgB. destruct (HgB c Hc) as (_ & ? & _). unfold inside. lia.
Qed.

Lemma carve_ok h bs brk L c b R n :
  ring h bs brk → (base, 0) :: bs = L ++ c :: b :: R → 1 ≤ n < b.2 →
  let a := b.1 + 8 * (b.2 - n) in
  took h bs brk a n (set_freep c.1 (set_size a n (set_size b.1 (b.2 - n) h))).
Proof.
  intros Hr El Hn a. destruct (ring_around _ _ _ _ _ _ _ Hr El) as (Hgb & Hb & HL & HR & B & EB & Ebs).
  pose proof Hgb as (Hb1 & Hb2 & Hb3). pose proof (ring_links _ _ _ Hr) as Hl.
  change (c :: b :: R) with ([c] ++ b :: R) in El. rewrite app_assoc in El. rewrite El in Hl.
  apply links_app in Hl as (HlL & Hbs & Hbp & HlR). cbn in HlL.
  pose proof (ring_gaps _ _ _ Hr) as Hs. rewrite El in Hs. apply StronglySorted_app in Hs as (_ & HsL & [HsR _]%StronglySorted_inv).
  pose proof (ring_pos _ _ _ Hr) as Hg. rewrite Ebs in Hg. apply Forall_app in Hg as [HgB [_ HgR]%Forall_cons].
  set (b' := (b.1, b.2 - n)). set (h' := set_size a n (set_size b.1 (b.2 - n) h)).
  assert (kept (λ x, x = b.1 ∨ x = a) h h') as Hk by (intros x Hx; cbn; by rewrite !upd_ne by tauto).
  assert ((base, 0) :: B ++ b' :: R = (L ++ [c]) ++ b' :: R) as El' by (by rewrite <-EB).
  assert (∀ d, d ∈ L ++ [c] → d.1 < b.1 ∧ gap d b') as HLd.
  { intros d Hd. destruct (HL d Hd) as (Hd1 & Hd2 & _). unfold gap in *. cbn. lia. }
  assert (∀ d, d ∈ R → a < d.1 ∧ gap b' d) as HRd.
  { intros d Hd. specialize (HR d Hd). unfold gap, a in *. cbn. lia. }
  assert (∀ x, inside b x ↔ inside b' x ∨ inside (a, n) x) as Hsplit by (intros x; unfold inside, a; cbn; lia).
  assert (∀ x, inside (a, n) x → ¬ inside b' x) as Hdis by (intros x; unfold inside, a; cbn; lia).
  assert (∀ x, inside (a, n) x → ¬ area (B ++ b' :: R) x) as Hno.
  { intros x Hx (d & Hd & Hdx). assert (inside b x) as Hbx by (apply Hsplit; by right).
    apply elem_of_app in Hd as [Hd|[->|Hd]%elem_of_cons]; [| by eapply Hdis|].
    - destruct (HL d) as [Hdg _]; [rewrite <-EB; set_solver|]. unfold gap, inside in *. lia.
    - specialize (HR d Hd). unfold gap, inside in *. lia. }
  exists (B ++ b' :: R). split_and!; [split| | | |].
  - rewrite El'. apply links_freep, links_app. split; [|cbn; split_and!].
    + eapply links_kept; [exact Hk| |exact HlL]. intros d Hd. cbn. specialize (HLd d Hd). lia.
    + rewrite upd_ne by (unfold a; lia). by rewrite upd_eq.
    + done.
    + eapply links_kept; [exact Hk| |exact HlR]. intros d Hd. cbn. specialize (HRd d Hd). lia.
  - rewrite El'. apply StronglySorted_app_2; [|done|apply StronglySorted_cons; split; [|done]].
    + intros d e Hd [->|He]%elem_of_cons; [by apply HLd|]. destruct (HLd d Hd) as [_ H1], (HRd e He) as [_ H2].
      unfold gap in *. cbn in *. lia.
    + apply Forall_forall. intros d Hd. by apply HRd.
  - apply Forall_app; split; [done|]. apply Forall_cons; split; [|done]. unfold good. cbn. lia.
  - exists (length L), c. split; [|done]. rewrite El', <-app_assoc. by apply list_lookup_middle.
  - apply (ring_base _ _ _ Hr).
  - split_and!; [cbn; by rewrite upd_eq|unfold good, a; cbn; lia|exact Hno].
  - intros x. rewrite Ebs, !area_app, !area_cons, Hsplit. specialize (Hno x). rewrite area_app, area_cons in Hno. tauto.
  - intros x Hx. exists b. split; [done|]. apply Hsplit. by right.
  - intros x Hx. apply Hk. intros Hxb. apply Hx. right. exists b. split; [done|]. unfold inside, a in *. lia.
Qed.

(** ** [morecore] *)
Lemma ring_more h bs brk brk' n :
  ring h bs brk → brk ≤ brk' ≤ 2147483648 → ring (set_size brk n h) bs brk'.
Proof.
  intros Hr Hbrk. pose proof (ring_base _ _ _ Hr) as Hb. pose proof (ring_pos _ _ _ Hr) as Hg. split.
  - apply (links_kept (λ x, x = brk) h); [|  |apply (ring_links _ _ _ Hr)].
    + intros x Hx. cbn. by rewrite upd_ne.
    + rewrite Forall_forall in Hg. intros b [->|Hb']%elem_of_cons; [cbn; lia|]. destruct (Hg b Hb'). cbn. lia.
  - apply (ring_gaps _ _ _ Hr).
  - eapply Forall_impl; [exact Hg|]. unfold good. intros; lia.
  - apply (ring_freep _ _ _ Hr).
  - lia.
Qed.

(** The ring with the memory between the two breaks added. *)
Definition grown (h : heap) (bs : list block) (brk : Z) (h' : heap) (bs' : list block) (brk' : Z) : Prop :=
  ring h' bs' brk' ∧ brk ≤ brk' ∧ (∀ x, area bs' x ↔ area bs x ∨ brk ≤ x < brk') ∧
  kept (λ x, x = base ∨ area bs x ∨ brk ≤ x < brk') h h'.

(** How much [morecore] asks for. *)
Definition ask (n : Z) : Z := 8 * Z.max 4096 n.

Lemma morecore_ok h bs brk cs nu :
  ring h bs brk → 1 ≤ nu < 268435456 →
  must sbrkstep (λ o s', o = Returned (0, h) ∧ s' = (brk, cs ++ [(ask nu, false)]) ∨
    ∃ h' bs', o = Returned (h_freep h', h') ∧ s' = (brk + ask nu, cs ++ [(ask nu, true)]) ∧
      grown h bs brk h' bs' (brk + ask nu) ∧
      (length bs' ≤ S (length bs))%nat ∧ ∃ b, b ∈ bs' ∧ nu ≤ b.2) (morecore nu h) (brk, cs).
Proof.
  intros Hr Hnu. pose proof (ring_base _ _ _ Hr) as Hb. unfold morecore.
  set (m := if nu <? 4096 then 4096 else nu). assert (1 ≤ m < 268435456 ∧ nu ≤ m ∧ ask nu = m * 8) as (Hm & Hmn & ->).
  { unfold m, ask. destruct (Z.ltb_spec nu 4096); lia. }
  clearbody m. unfold UNIT. rewrite i32_u32_small by lia. apply must_step; [do 2 eexists; by right|].
  intros r brk' [(_ & Hle & -> & ->)|[-> ->]]; [|apply must_ret; by left]. cbn [fst snd] in *.
  destruct (Z.eqb_spec brk SBRK_ERROR) as [E|_]; [unfold SBRK_ERROR in E; lia|].
  assert (ring (set_size brk m h) bs (brk + m * 8)) as Hr' by (apply (ring_more _ _ _ _ _ Hr); lia).
  assert (taken (set_size brk m h) bs (brk + m * 8) brk m) as Ht.
  { split_and!; [cbn; by rewrite upd_eq|unfold good; cbn; lia|]. intros x Hx (b & Hbb & Hbx).
    pose proof (ring_pos _ _ _ Hr) as Hg. rewrite Forall_forall in Hg. destruct (Hg b Hbb) as (_ & _ & ?).
    unfold inside in *. cbn in Hx. lia. }
  rewrite at_unit_small by lia. apply must_bind. eapply must_mono; [by apply (free_ok sbrkstep _ _ _ _ _ _ Hr' Ht)|].
  intros o s' (-> & h' & -> & bs' & Hr'' & Har & Hk & Hlen & b & Hbb & Hb2). apply must_ret. right.
  assert (∀ x, inside (brk, m) x ↔ brk ≤ x < brk + m * 8) as Hin by (intros x; unfold inside; cbn; lia).
  exists h', bs'. split_and!; [done|done| |done|exists b; split; [done|lia]]. split_and!; [done|lia| |].
  - intros x. by rewrite Har, Hin.
  - intros x Hx. destruct (Hk x) as [-> ->]; [by rewrite Hin|]. cbn. rewrite upd_ne; [done|]. intros ->. apply Hx. right. right. lia.
Qed.

(** ** [malloc] *)
(** What [malloc] does for [n] units: it takes a block out of the free list and
    the memory between the breaks, or fails when no free block has [n] units. *)
Definition got (h : heap) (bs : list block) (brk n r : Z) (h' : heap) (brk' : Z) : Prop :=
  ∃ bs', ring h' bs' brk' ∧ brk ≤ brk' ∧ kept (λ x, x = base ∨ area bs x ∨ brk ≤ x < brk') h h' ∧
    (r = 0 ∧ brk' = brk ∧ (∀ x, area bs' x ↔ area bs x) ∧ (∀ b, b ∈ bs → b.2 < n) ∨
     r ≠ 0 ∧ taken h' bs' brk' (r - 8) n ∧ (∀ x, inside (r - 8, n) x → area bs x ∨ brk ≤ x < brk') ∧
     (∀ x, area bs' x ↔ (area bs x ∨ brk ≤ x < brk') ∧ ¬ inside (r - 8, n) x)).

(** The calls of [sbrk] it makes: none when a free block has [n] units, and
    otherwise one; it fails if and only if that one was refused. *)
Definition served (bs : list block) (brk : Z) (cs : calls) (n brk' : Z) (cs' : calls) : Prop :=
  (∃ b, b ∈ bs ∧ n ≤ b.2) ∧ cs' = cs ∧ brk' = brk ∨
  (∀ b, b ∈ bs → b.2 < n) ∧ cs' = cs ++ [(ask n, true)] ∧ brk' = brk + ask n.
Definition asked (bs : list block) (brk : Z) (cs : calls) (n r brk' : Z) (cs' : calls) : Prop :=
  r = 0 ∧ (∀ b, b ∈ bs → b.2 < n) ∧ cs' = cs ++ [(ask n, false)] ∧ brk' = brk ∨
  r ≠ 0 ∧ served bs brk cs n brk' cs'.

Lemma got_took h0 bs0 brk0 h bs brk a n h' :
  grown h0 bs0 brk0 h bs brk → took h bs brk a n h' → at_unit a 1 ≠ 0 ∧ got h0 bs0 brk0 n (at_unit a 1) h' brk.
Proof.
  intros (Hr & Hle & Har & Hk) (bs' & Hr' & Ht & Har' & Hin & Hk'). pose proof Ht as (_ & (Ha1 & Ha2 & Ha3) & _).
  cbn in Ha1, Ha2, Ha3. pose proof (ring_base _ _ _ Hr). rewrite at_unit_small by lia.
  split; [lia|]. exists bs'. replace (a + 8 * 1 - 8) with a by lia. split_and!; [done|done| |right; split_and!; [lia|done| |]].
  - intros x Hx. destruct (Hk' x) as [-> ->]; [rewrite Har; tauto|]. by apply Hk.
  - intros x Hx. by apply Har, Hin.
  - intros x. by rewrite Har', Har.
Qed.
Lemma grown_refl h bs brk : ring h bs brk → grown h bs brk h bs brk.
Proof. intros Hr. split_and!; [done|done| |done]. intros x. split; [by left|]. intros [|]; [done|lia]. Qed.

(** The loop of [malloc]: [prevp] and [p] are neighbours, the blocks between
    [freep] and [p] are too small; once there is a block that is large enough
    the loop finds it before it is back at [freep]. *)
Definition scan (h0 : heap) (bs0 : list block) (brk0 : Z) (cs0 : calls) (nunits : Z) (n : nat)
    (st : Z * Z * heap) (s : Z * calls) : Prop :=
  ∃ bs j c b f d, let l := (base, 0) :: bs in let i := nxt (length l) j in let h := st.2 in let brk := s.1 in
    grown h0 bs0 brk0 h bs brk ∧ l !! j = Some c ∧ l !! i = Some b ∧ st.1 = (c.1, b.1) ∧
    l !! f = Some d ∧ h_freep h = d.1 ∧
    (∀ m e, l !! m = Some e → (dist (length l) i f < dist (length l) m f)%nat → e.2 < nunits) ∧
    (h = h0 ∧ bs = bs0 ∧ brk = brk0 ∧ s.2 = cs0 ∧ n = (dist (length l) i f + length l + 3)%nat ∨
     (∃ e, e ∈ bs ∧ nunits ≤ e.2) ∧ (∀ e, e ∈ bs0 → e.2 < nunits) ∧ s = (brk0 + ask nunits, cs0 ++ [(ask nunits, true)]) ∧
     n = dist (length l) i f).

(** The scan starts after [freep]. *)
Lemma scan_start h bs brk :
  ring h bs brk → let l := (base, 0) :: bs in ∃ f d b, l !! f = Some d ∧ h_freep h = d.1 ∧
    l !! nxt (length l) f = Some b ∧ h_ptr h (h_freep h) = b.1 ∧
    dist (length l) (nxt (length l) f) f = length bs ∧
    ∀ m e, l !! m = Some e → (dist (length l) m f ≤ length bs)%nat.
Proof.
  intros Hr l. destruct (ring_freep _ _ _ Hr) as (f & d & Hf & Hd). fold l in Hf.
  destruct (ring_next _ _ _ Hr _ _ Hf) as (_ & b & Hb & Hp). fold l in Hb.
  pose proof (lookup_lt_Some _ _ _ Hf) as Hlt. cbn in Hlt.
  exists f, d, b. split_and!; [done|done|done|by rewrite <-Hd| |].
  - unfold dist, nxt, l. cbn [length]. repeat case_decide; lia.
  - intros m e Hm%lookup_lt_Some. unfold dist, l in *. cbn [length] in *. case_decide; lia.
Qed.
Lemma nxt_dist n i f m :
  (i < n)%nat → (f < n)%nat → (m < n)%nat → i ≠ f → (dist n (nxt n i) f < dist n m f)%nat → m = i ∨ (dist n i f < dist n m f)%nat.
Proof. unfold dist, nxt. repeat case_decide; lia. Qed.

Lemma ring_split bs j c b :
  let l := (base, 0) :: bs in
  l !! j = Some c → l !! nxt (length l) j = Some b → 1 ≤ b.2 → ∃ L R, l = L ++ c :: b :: R.
Proof.
  intros l Hj Hi Hb. unfold nxt in Hi. case_decide; [|cbn in Hi; injection Hi as <-; cbn in Hb; lia].
  exists (take j l), (drop (S (S j)) l). rewrite <-(take_drop_middle l j c Hj) at 1. by rewrite (drop_S l b (S j) Hi).
Qed.

(** When the scan comes to [freep] and that block is too small, all are. *)
Lemma scan_all_small (l : list block) f d nunits :
  l !! f = Some d → d.2 < nunits →
  (∀ m e, l !! m = Some e → (dist (length l) f f < dist (length l) m f)%nat → e.2 < nunits) →
  ∀ e, e ∈ l → e.2 < nunits.
Proof.
  intros Hf Hd Hsm e [m Hm]%list_elem_of_lookup. destruct (decide (m = f)) as [->|]; [by simplify_eq|].
  apply (Hsm m e Hm). apply lookup_lt_Some in Hm, Hf. unfold dist. repeat case_decide; lia.
Qed.

Section loop.
Context (h0 : heap) (bs0 : list block) (brk0 : Z) (cs0 : calls) (nunits : Z) (Hn : 1 ≤ nunits < 268435456).

Lemma scan_found prevp p h n s :
  scan h0 bs0 brk0 cs0 nunits n (prevp, p, h) s → nunits ≤ h_size h p →
  ∃ a h', got h0 bs0 brk0 nunits (at_unit a 1) h' s.1 ∧ asked bs0 brk0 cs0 nunits (at_unit a 1) s.1 s.2 ∧
    (if h_size h p =? nunits then a = p ∧ h' = set_freep prevp (set_ptr prevp (h_ptr h p) h) else
       let h1 := set_size p (u32 (h_size h p - nunits)) h in
       a = at_unit p (h_size h1 p) ∧ h' = set_freep prevp (set_size a nunits h1)).
Proof.
  intros (bs & j & c & b & f & d & Hg & Hj & Hi & Epp & _ & _ & _ & Hv) Hle. cbn [fst snd] in *. injection Epp as -> ->.
  pose proof Hg as (Hr & _). pose proof (ring_base _ _ _ Hr) as Hb.
  destruct (ring_next _ _ _ Hr _ _ Hi) as [Hs _]. rewrite Hs in Hle |- *.
  destruct (ring_split _ _ _ _ Hj Hi ltac:(lia)) as (L & R & El).
  destruct (ring_around _ _ _ _ _ _ _ Hr El) as ((Hb1 & Hb2 & Hb3) & Hbin & _).
  assert (served bs0 brk0 cs0 nunits s.1 s.2) as Hsv.
  { destruct Hv as [(_ & -> & -> & -> & _)|(_ & Hsm & -> & _)]; [left|right]; split_and!; try done. by exists b. }
  destruct (Z.eqb_spec b.2 nunits) as [E|E].
  - destruct (got_took h0 bs0 brk0 h bs s.1 b.1 b.2 _ Hg (unlink_ok _ _ _ _ _ _ _ Hr El)) as [Hr0 Hgt].
    rewrite E in Hgt. do 2 eexists. split_and!; [exact Hgt|by right|done|done].
  - cbn zeta. rewrite u32_small by lia. cbn [h_size set_size]. rewrite upd_eq, at_unit_small by lia.
    destruct (got_took h0 bs0 brk0 h bs s.1 _ nunits _ Hg (carve_ok _ _ _ _ _ _ _ nunits Hr El ltac:(lia))) as [Hr0 Hgt].
    do 2 eexists. split_and!; [exact Hgt|by right|done|done].
Qed.

(** One step of the scan past a block that is too small. *)
Lemma scan_next prevp p h n s :
  scan h0 bs0 brk0 cs0 nunits n (prevp, p, h) s → h_size h p < nunits → p ≠ h_freep h →
  ∃ n', (n' < n)%nat ∧ scan h0 bs0 brk0 cs0 nunits n' (p, h_ptr h p, h) s.
Proof.
  intros (bs & j & c & b & f & d & Hg & Hj & Hi & Epp & Hf & Hfd & Hsm & Hv) Hs Hpf. cbn [fst snd] in *.
  injection Epp as -> ->. set (l := (base, 0) :: bs) in *. set (i := nxt (length l) j) in *.
  pose proof Hg as (Hr & _). destruct (ring_next _ _ _ Hr _ _ Hi) as (Hbs & b' & Hb' & Hp). fold l in Hb'.
  assert (i ≠ f) as Hif by (intros E; rewrite E in Hi; rewrite Hfd in Hpf; simplify_eq).
  pose proof (lookup_lt_Some _ _ _ Hi) as Hil. pose proof (lookup_lt_Some _ _ _ Hf) as Hfl.
  pose proof (dist_nxt _ _ _ Hil Hfl Hif) as Hd.
  assert (∀ m e, l !! m = Some e → (dist (length l) (nxt (length l) i) f < dist (length l) m f)%nat → e.2 < nunits) as Hsm'.
  { intros m e Hm Hdm. pose proof (lookup_lt_Some _ _ _ Hm) as Hml.
    destruct (nxt_dist _ _ _ _ Hil Hfl Hml Hif Hdm) as [->|Hlt]; [|by eapply Hsm].
    rewrite Hi in Hm. injection Hm as <-. lia. }
  destruct Hv as [(Eh & Eb & Ek & Ec & ->)|(Hbig & Hsm0 & Es & ->)];
    [exists (dist (length l) (nxt (length l) i) f + length l + 3)%nat|exists (dist (length l) (nxt (length l) i) f)];
    (split; [lia|]); exists bs, i, b, b', f, d; cbn [fst snd]; fold l; rewrite Hp;
    (split_and!; [done|done|done|done|done|done|done|]); [left|right]; by split_and!.
Qed.

(** The scan is back at [freep]: nothing is large enough, and nothing has changed. *)
Lemma scan_end prevp p h n s :
  scan h0 bs0 brk0 cs0 nunits n (prevp, p, h) s → h_size h p < nunits → p = h_freep h →
  h = h0 ∧ s = (brk0, cs0) ∧ ring h bs0 brk0 ∧ (∀ b, b ∈ bs0 → b.2 < nunits) ∧ (S (length bs0) + 3 ≤ n)%nat.
Proof.
  intros (bs & j & c & b & f & d & Hg & Hj & Hi & Epp & Hf & Hfd & Hsm & Hv) Hs Hpf. cbn [fst snd] in *.
  injection Epp as -> ->. set (l := (base, 0) :: bs) in *. set (i := nxt (length l) j) in *.
  pose proof Hg as (Hr & _). destruct (ring_next _ _ _ Hr _ _ Hi) as (Hbs & _).
  assert (i = f) as -> by (eapply (ring_inj _ _ _ Hr); [exact Hi|exact Hf|by rewrite Hpf]).
  assert (∀ e, e ∈ l → e.2 < nunits) as Hall by (eapply scan_all_small; [exact Hi|lia|exact Hsm]).
  destruct Hv as [(Eh & Eb & Ek & Ec & ->)|[(e & He & Hbig) _]].
  - destruct s as [brk cs]. cbn in *. subst. split_and!; [done|done|done|intros e He; apply Hall; by right|cbn; lia].
  - specialize (Hall e ltac:(by right)). lia.
Qed.

(** After [morecore] the scan starts again, now with a block that is large enough. *)
Lemma scan_again h bs :
  grown h0 bs0 brk0 h bs (brk0 + ask nunits) → (∃ b, b ∈ bs ∧ nunits ≤ b.2) → (∀ b, b ∈ bs0 → b.2 < nunits) →
  scan h0 bs0 brk0 cs0 nunits (length bs) (h_freep h, h_ptr h (h_freep h), h)
    (brk0 + ask nunits, cs0 ++ [(ask nunits, true)]).
Proof.
  intros Hg Hbig Hsm. pose proof Hg as (Hr & _).
  destruct (scan_start _ _ _ Hr) as (f & d & b & Hf & Hd & Hb & Hp & Hdist & Hmax).
  exists bs, f, d, b, f, d. cbn [fst snd]. rewrite Hp, Hdist.
  split_and!; [done|done|done|by rewrite Hd|done|done| |by right]. intros m e Hm Hlt. specialize (Hmax m e Hm). lia.
Qed.

Lemma malloc_loop_ok n st s :
  scan h0 bs0 brk0 cs0 nunits n st s →
  must sbrkstep (λ o s', ∃ r h', o = Returned (r, h') ∧ got h0 bs0 brk0 nunits r h' s'.1 ∧
    asked bs0 brk0 cs0 nunits r s'.1 s'.2) (malloc_loop nunits st) s.
Proof.
  apply (must_loop_down sbrkstep). clear n st s. intros n [[prevp p] h] s Hsc.
  destruct (Z.leb_spec nunits (h_size h p)) as [Hle|Hlt].
  { destruct (scan_found _ _ _ _ _ Hsc Hle) as (a & h' & Hgot & Hask & E).
    destruct (h_size h p =? nunits); destruct E as [-> ->]; apply must_ret; eauto. }
  destruct (Z.eqb_spec p (h_freep h)) as [E|E]; [|apply must_ret; by apply (scan_next _ _ _ _ _ Hsc)].
  destruct (scan_end _ _ _ _ _ Hsc Hlt E) as (-> & -> & Hr & Hsm & Hlen).
  apply must_bind. eapply must_mono; [by apply (morecore_ok _ _ _ _ _ Hr)|].
  intros o s' [[-> ->]|(h' & bs' & -> & -> & Hg & Hl' & Hbig)].
  - cbn. apply must_ret. exists 0, h0. split_and!; [done| |by left]. exists bs0. split_and!; [done|done|done|by left].
  - pose proof Hg as (Hr' & _). pose proof (ring_base _ _ _ Hr') as Hb.
    destruct (ring_freep _ _ _ Hr') as (f & d & Hf & Hd). pose proof (ring_ge _ _ _ Hr' _ _ Hf).
    destruct (Z.eqb_spec (h_freep h') 0); [lia|]. apply must_ret. exists (length bs'). split; [lia|].
    by apply scan_again.
Qed.
End loop.

(** The first call of [malloc] finds [freep] null and makes the empty ring. *)
Definition heap_ok (h : heap) (bs : list block) (brk : Z) : Prop :=
  ring h bs brk ∨ h_freep h = 0 ∧ bs = [] ∧ 0 < base ∧ base + 8 ≤ brk ∧ brk ≤ 2147483648.
Definition units (nbytes : Z) : Z := (nbytes + 7) / 8 + 1.

Lemma units_bounds nbytes :
  0 ≤ nbytes < 2147483632 → 1 ≤ units nbytes < 268435456 ∧ nbytes ≤ 8 * (units nbytes - 1).
Proof. intros Hn. unfold units. pose proof (Z.div_mod (nbytes + 7) 8). pose proof (Z.mod_pos_bound (nbytes + 7) 8). lia. Qed.

Lemma ring_init h brk :
  0 < base ∧ base + 8 ≤ brk ∧ brk ≤ 2147483648 → ring (set_size base 0 (set_ptr base base (set_freep base h))) [] brk.
Proof.
  intros Hb. split; [cbn; by rewrite !upd_eq|by repeat constructor|done| |done]. exists 0%nat. by exists (base, 0).
Qed.

Lemma scan_first h bs brk cs nunits :
  ring h bs brk →
  scan h bs brk cs nunits (length bs + S (length bs) + 3)%nat (h_freep h, h_ptr h (h_freep h), h) (brk, cs).
Proof.
  intros Hr. destruct (scan_start _ _ _ Hr) as (f & d & b & Hf & Hd & Hb & Hp & Hdist & Hmax).
  exists bs, f, d, b, f, d. cbn [fst snd]. rewrite Hp, Hdist.
  split_and!; [by apply grown_refl|done|done|by rewrite Hd|done|done| |by left].
  intros m e Hm Hlt. specialize (Hmax m e Hm). lia.
Qed.

Lemma malloc_asks h bs brk cs nbytes :
  heap_ok h bs brk → 0 ≤ nbytes < 2147483632 →
  must sbrkstep (λ o s', ∃ r h', o = Returned (r, h') ∧ got h bs brk (units nbytes) r h' s'.1 ∧
    asked bs brk cs (units nbytes) r s'.1 s'.2) (malloc base nbytes h) (brk, cs).
Proof.
  intros Hok Hn. pose proof (units_bounds nbytes Hn) as [Hu _].
  unfold malloc, UNIT. replace (nbytes + 8 - 1) with (nbytes + 7) by lia. rewrite (u32_small (nbytes + 7)) by lia.
  fold (units nbytes). rewrite u32_small by lia. destruct Hok as [Hr|(Hf & -> & Hb)].
  - destruct (ring_freep _ _ _ Hr) as (f & d & Hfd & Hd). pose proof (ring_ge _ _ _ Hr _ _ Hfd).
    pose proof (ring_base _ _ _ Hr). destruct (Z.eqb_spec (h_freep h) 0); [lia|].
    eapply (malloc_loop_ok h bs brk); [done|]. by apply scan_first.
  - rewrite Hf. cbn [Z.eqb]. set (h1 := set_size base 0 _). pose proof (ring_init h brk Hb) as Hr. fold h1 in Hr.
    eapply must_mono; [eapply (malloc_loop_ok h1 [] brk); [done|by apply scan_first]|].
    intros o s' (r & h' & -> & (bs' & Hr' & Hle & Hk & Hcase) & Hask). exists r, h'. split_and!; [done| |done].
    exists bs'. split_and!; [done|done| |done]. intros x Hx. destruct (Hk x Hx) as [-> ->].
    cbn. rewrite !upd_ne; [done| |]; intros ->; apply Hx; by left.
Qed.

Lemma malloc_got h bs brk nbytes :
  heap_ok h bs brk → 0 ≤ nbytes < 2147483632 →
  must brkstep (λ o brk', ∃ r h', o = Returned (r, h') ∧ got h bs brk (units nbytes) r h' brk') (malloc base nbytes h) brk.
Proof.
  intros Hok Hn. eapply must_mono; [eapply sbrk_calls; by apply (malloc_asks h bs brk [])|].
  intros o brk' (s' & <- & r & h' & -> & Hg & _). eauto.
Qed.

(** ** Clients: any sequence of calls *)
Inductive request : Type := Malloc (nbytes : Z) | Free (i : nat).
(** [live] are the pointers [malloc] has given and their sizes; [Free i] gives
    the [i]-th of them back. *)
Fixpoint client (rs : list request) (h : heap) (live : list (Z * Z)) : prog (heap * list (Z * Z)) :=
  match rs with
  | [] => mret (h, live)
  | Malloc nbytes :: rs =>
      '(r, h) ← malloc base nbytes h;
      client rs h (if r =? 0 then live else (r, nbytes) :: live)
  | Free i :: rs =>
      match live !! i with
      | Some (r, _) => h ← free r h; client rs h (delete i live)
      | None => client rs h live
      end
  end.

(** The block of a pointer. *)
Definition block_of (v : Z * Z) : block := (v.1 - 8, units v.2).
Definition disjoint_blocks (b c : block) : Prop := ∀ x, inside b x → ¬ inside c x.
Record client_ok (brk0 : Z) (h : heap) (bs live : list block) (brk : Z) : Prop := {
  client_heap : heap_ok h bs brk ∧ (live = [] ∨ ring h bs brk);
  client_live : Forall (λ b, taken h bs brk b.1 b.2) live;
  client_disjoint : StronglySorted disjoint_blocks live;
  client_all : ∀ x, area bs x ∨ area live x ↔ brk0 ≤ x < brk;
  client_brk : brk0 ≤ brk;
}.

Lemma disjoint_sym b c : disjoint_blocks b c → disjoint_blocks c b.
Proof. intros H x Hc Hb. by apply (H x). Qed.
Lemma block_eta (b : block) : (b.1, b.2) = b.
Proof. by destruct b. Qed.
Lemma inside_start b brk : good brk b → inside b b.1.
Proof. intros (_ & Hb & _). unfold inside. lia. Qed.

(** A block in use stays so when the allocator works elsewhere. *)
Lemma taken_kept (D : Z → Prop) h h' bs bs' brk brk' b :
  taken h bs brk b.1 b.2 → kept D h h' → brk ≤ brk' → ¬ D b.1 → (∀ x, inside b x → ¬ area bs' x) → taken h' bs' brk' b.1 b.2.
Proof.
  unfold taken. rewrite block_eta. intros (Hs & (Hg1 & Hg2 & Hg3) & _) Hk Hle HD Hd.
  destruct (Hk b.1 HD) as [_ ->]. split_and!; [done|unfold good; lia|done].
Qed.

Lemma client_malloc brk0 h bs live brk nbytes r h' brk' :
  client_ok brk0 h bs live brk → got h bs brk (units nbytes) r h' brk' →
  ∃ bs', client_ok brk0 h' bs' (if r =? 0 then live else block_of (r, nbytes) :: live) brk'.
Proof.
  intros [_ Hl Hd Hall Hle0] (bs' & Hr & Hle & Hk & Hcase). exists bs'. rewrite Forall_forall in Hl.
  assert (∀ b, b ∈ live → good brk b ∧ ∀ x, inside b x → ¬ area bs x) as Hlb.
  { intros b Hb. destruct (Hl b Hb) as (_ & Hg & Hn). rewrite block_eta in Hg, Hn. done. }
  assert (∀ b x, b ∈ live → inside b x → ¬ (area bs x ∨ brk ≤ x < brk')) as Hout.
  { intros b x Hb Hx. destruct (Hlb b Hb) as [(_ & _ & Hg) Hn]. intros [Ha|Ha]; [by apply (Hn x)|].
    unfold inside in Hx. lia. }
  assert (∀ b, b ∈ live → (∀ x, inside b x → ¬ area bs' x) → taken h' bs' brk' b.1 b.2) as Hlive.
  { intros b Hb Hn. eapply taken_kept; [by apply Hl|exact Hk|done| |done]. destruct (Hlb b Hb) as [Hg _].
    pose proof (inside_start b brk Hg) as Hin. pose proof Hg as (Hg1 & _). intros [E|E]; [lia|by eapply Hout]. }
  destruct Hcase as [(-> & -> & Har & _)|(Hr0 & Ht & Hin & Har)].
  - cbn. split; [split; [by left|by right]| |done| |done].
    + apply Forall_forall. intros b Hb. apply Hlive; [done|]. intros x Hx. rewrite Har. by apply (proj2 (Hlb b Hb)).
    + intros x. by rewrite Har.
  - destruct (Z.eqb_spec r 0); [done|]. unfold block_of. cbn [fst snd].
    split; [split; [by left|by right]| | | |lia].
    + apply Forall_cons; split; [done|]. apply Forall_forall. intros b Hb. apply Hlive; [done|].
      intros x Hx. rewrite Har. intros [Hx' _]. by eapply Hout.
    + apply StronglySorted_cons; split; [|done]. apply Forall_forall. intros b Hb x Hx Hbx. eapply Hout; [done|done|by apply Hin].
    + intros x. rewrite area_cons, Har. specialize (Hall x). specialize (Hin x).
      assert (brk0 ≤ x < brk' ↔ brk0 ≤ x < brk ∨ brk ≤ x < brk') as -> by lia. rewrite <-Hall.
      destruct (decide ((r - 8, units nbytes).1 ≤ x < (r - 8, units nbytes).1 + 8 * (r - 8, units nbytes).2)) as [Hi|Hi];
        fold (inside (r - 8, units nbytes) x) in Hi; tauto.
Qed.

Lemma client_free brk0 h bs live brk i b h' :
  client_ok brk0 h bs live brk → live !! i = Some b → freed h bs brk b.1 b.2 h' →
  ∃ bs', client_ok brk0 h' bs' (delete i live) brk.
Proof.
  intros [_ Hl Hd Hall Hle0] Hi (bs' & Hr & Har & Hk & _). exists bs'. rewrite block_eta in Har, Hk.
  rewrite delete_take_drop. rewrite <-(take_drop_middle live i b Hi) in Hl, Hd, Hall.
  set (L := take i live) in *. set (R := drop (S i) live) in *.
  apply Forall_app in Hl as [HlL [Hlb HlR]%Forall_cons]. apply StronglySorted_app in Hd as (HdLR & HdL & [HdR HbR]%StronglySorted_inv).
  rewrite Forall_forall in HbR.
  assert (∀ c, c ∈ L ++ R → disjoint_blocks c b) as Hdis.
  { intros c [Hc|Hc]%elem_of_app; [apply HdLR; [done|by left]|apply disjoint_sym; by apply HbR]. }
  split; [split; [by left|by right]| | | |done].
  - assert (Forall (λ b, taken h bs brk b.1 b.2) (L ++ R)) as HLR by (by apply Forall_app). rewrite Forall_forall in HLR.
    apply Forall_forall. intros c Hc. specialize (HLR c Hc). pose proof HLR as (_ & Hg & Hn). rewrite block_eta in Hg, Hn.
    pose proof (inside_start c brk Hg) as Hin. pose proof Hg as (Hg1 & _).
    eapply taken_kept; [exact HLR|exact Hk|done| |].
    + intros [E|[E|E]]; [lia|by apply (Hn c.1)|by apply (Hdis c Hc c.1)].
    + intros x Hx. rewrite Har. intros [E|E]; [by apply (Hn x)|by apply (Hdis c Hc x)].
  - apply StronglySorted_app_2; [|done|done]. intros c d Hc Hd'. apply HdLR; [done|by right].
  - intros x. rewrite <-Hall, Har, !area_app, area_cons. tauto.
Qed.

Definition small_request (q : request) : Prop := match q with Malloc n => 0 ≤ n < 2147483632 | Free _ => True end.

Lemma client_run brk0 rs h bs live brk :
  Forall small_request rs → client_ok brk0 h bs (block_of <$> live) brk →
  must brkstep (λ o brk', ∃ h' bs' live', o = Returned (h', live') ∧ client_ok brk0 h' bs' (block_of <$> live') brk')
    (client rs h live) brk.
Proof.
  intros Hrs. revert h bs live brk. induction Hrs as [|q rs Hq _ IH]; intros h bs live brk Hok.
  { apply must_ret. by exists h, bs, live. }
  destruct q as [nbytes|i]; cbn [client].
  - apply must_bind. eapply must_mono; [apply malloc_got; [apply (client_heap _ _ _ _ _ Hok)|exact Hq]|].
    intros o brk' (r & h' & -> & Hg). destruct (client_malloc _ _ _ _ _ _ _ _ _ Hok Hg) as [bs' Hok'].
    apply (IH h' bs'). by destruct (r =? 0).
  - destruct (live !! i) as [[r n]|] eqn:Hi; [|by apply (IH h bs)].
    assert ((block_of <$> live) !! i = Some (block_of (r, n))) as Hb by (by rewrite list_lookup_fmap, Hi).
    pose proof (client_heap _ _ _ _ _ Hok) as [_ [E|Hr]]; [by rewrite E in Hb|].
    pose proof (proj1 (Forall_lookup _ _) (client_live _ _ _ _ _ Hok) i _ Hb) as Ht.
    replace r with ((block_of (r, n)).1 + 8) by (cbn; lia).
    apply must_bind. eapply must_mono; [by apply (free_ok brkstep _ _ _ _ _ _ Hr Ht)|].
    intros o s' (-> & h' & -> & Hf). destruct (client_free _ _ _ _ _ _ _ _ Hok Hb Hf) as [bs' Hok'].
    apply (IH h' bs'). by rewrite list_fmap_delete.
Qed.

(** C35: [malloc] of less than 2^31 - 16 bytes always returns.  It either takes
    a block with room for [nbytes] bytes out of the free memory and the memory
    it got from [sbrk], writes the block's size in its header and changes no
    header outside that memory; or it returns 0, and then the free memory is
    what it was.  It calls [sbrk] if and only if no free block is large enough,
    then once, for the units it needs or 4096; it returns 0 if and only if that
    call was refused. *)
Theorem malloc_takes_block h bs brk cs nbytes :
  heap_ok h bs brk → 0 ≤ nbytes < 2147483632 →
  must sbrkstep (λ o s', ∃ r h', o = Returned (r, h') ∧ got h bs brk (units nbytes) r h' s'.1 ∧
    asked bs brk cs (units nbytes) r s'.1 s'.2 ∧
    ∀ x, r ≤ x < r + nbytes → inside (r - 8, units nbytes) x) (malloc base nbytes h) (brk, cs).
Proof.
  intros Hok Hn. eapply must_mono; [by apply malloc_asks|]. intros o s' (r & h' & -> & Hg & Ha).
  exists r, h'. split_and!; [done|done|done|]. intros x Hx. pose proof (units_bounds nbytes Hn). unfold inside. cbn. lia.
Qed.

(** C34: whatever sequence of [malloc] (of less than 2^31 - 16 bytes) and [free]
    a program makes from the start, every call returns; the blocks it holds are pairwise disjoint, keep the sizes
    in their headers and are disjoint from the free list; and the blocks it
    holds and the free list together are all the memory got from [sbrk], so that
    none is lost. *)
Theorem heap_blocks_disjoint rs h brk :
  0 < base → base + 8 ≤ brk → brk ≤ 2147483648 → h_freep h = 0 → Forall small_request rs →
  must brkstep (λ o brk', ∃ h' bs' live, o = Returned (h', live) ∧
    client_ok brk h' bs' (block_of <$> live) brk') (client rs h []) brk.
Proof.
  intros Hb1 Hb2 Hb3 Hf Hrs. apply (client_run brk rs h []); [done|].
  split; [split; [by right|by left]|done|constructor| |done]. intros x. cbn. rewrite area_nil. lia.
Qed.
End ring.

Definition heap0 : heap := mk_heap (λ _, 0) (λ _, 0) 0.

Lemma malloc_takes_block_witness :
  must sbrkstep (λ o s', ∃ r h', o = Returned (r, h') ∧ got 4096 heap0 [] 8192 3 r h' s'.1 ∧
    asked [] 8192 [] 3 r s'.1 s'.2 ∧
    ∀ x, r ≤ x < r + 10 → inside (r - 8, 3) x) (malloc 4096 10 heap0) (8192, []).
Proof. apply (malloc_takes_block 4096 heap0 [] 8192 [] 10); [right; repeat split; lia|lia]. Defined.

Lemma heap_blocks_disjoint_witness :
  must brkstep (λ o brk', ∃ h' bs' live, o = Returned (h', live) ∧
    client_ok 4096 8192 h' bs' (block_of <$> live) brk')
    (client 4096 [Malloc 10; Malloc 40000; Free 1; Malloc 3; Free 0; Free 7] heap0 []) 8192.
Proof.
  apply (heap_blocks_disjoint 4096); [lia|lia|lia|reflexivity|].
  repeat (constructor; [cbn; first [lia|exact I]|]). constructor.
Defined.
