(* ===== verification/Mkfs.v ===== *)
(** The file system image builder, mkfs/mkfs.c, a host program.
    The image file is a function from block numbers to blocks; the inode and
    superblock structures have the layout of kernel/fs.h, through the kernel's
    own accessors.  Host reads and writes of the image succeed inside its
    [FSSIZE] blocks, and a read past them is the [die] of [rsect]; [die] and a
    failed assertion are [None].  An input file is the list of chunks that
    [read] returns for it, [None] if it cannot be opened. *)
From S2P Require Import Prelude Machine State Printf Bytes Bio Log Cache Fs FsBlock.
From Stdlib Require Import Ascii.
Open Scope Z_scope.

Definition NINODES : Z := 200.
Definition nbitmap : Z := FSSIZE / BPB + 1.
Definition ninodeblocks : Z := NINODES / IPB + 1.
Definition nlog : Z := LOGBLOCKS + 1.
Definition nmeta : Z := 2 + nlog + ninodeblocks + nbitmap.
Definition nblocks : Z := FSSIZE - nmeta.

(** Little-endian order, as the bytes of the result on a little-endian host. *)
Definition xshort (x : Z) : Z := of_bytes [u8 x; u8 (Z.shiftr x 8)].
Definition xint (x : Z) : Z := of_bytes [u8 x; u8 (Z.shiftr x 8); u8 (Z.shiftr x 16); u8 (Z.shiftr x 24)].

Definition sb : superblock :=
  mk_superblock FSMAGIC (xint FSSIZE) (xint nblocks) (xint NINODES) (xint nlog) (xint 2) (xint (2 + nlog)) (xint (2 + nlog + ninodeblocks)).
(** The block with the superblock at its front. *)
Definition sb_block : list Z :=
  put_at 0 (bytes_of 4 (sb_magic sb) ++ bytes_of 4 (sb_size sb) ++ bytes_of 4 (sb_nblocks sb) ++ bytes_of 4 (sb_ninodes sb) ++
    bytes_of 4 (sb_nlog sb) ++ bytes_of 4 (sb_logstart sb) ++ bytes_of 4 (sb_inodestart sb) ++ bytes_of 4 (sb_bmapstart sb)) zero_block.

Record mkst : Type := mk_mkst { m_img : Z → list Z; m_freeinode : Z; m_freeblock : Z }.
Definition with_m_img (v : Z → list Z) (m : mkst) : mkst := mk_mkst v (m_freeinode m) (m_freeblock m).

(** ** Blocks and inodes *)
Definition rsect (sec : Z) (m : mkst) : option (list Z) := if sec <? FSSIZE then Some (m_img m sec) else None.
Definition wsect (sec : Z) (buf : list Z) (m : mkst) : mkst := with_m_img (fset (m_img m) sec buf) m.

Definition winode (inum : Z) (ip : inode) (m : mkst) : option mkst :=
  buf ← rsect (IBLOCK inum sb) m;
  Some (wsect (IBLOCK inum sb) (put_dinode (dip_off inum) ip buf) m).
(** The struct dinode, as the kernel's inode without its bookkeeping. *)
Definition no_inode (inum : Z) : inode := mk_inode ROOTDEV inum 0 0 0 0 0 0 0 (replicate (S NDIRECT) 0).
Definition rinode (inum : Z) (m : mkst) : option inode :=
  buf ← rsect (IBLOCK inum sb) m;
  Some (load_dinode (dip_off inum) buf (no_inode inum)).

Definition ialloc (type : Z) (m : mkst) : option (Z * mkst) :=
  let inum := m_freeinode m in
  let m := mk_mkst (m_img m) (u32 (inum + 1)) (m_freeblock m) in
  let din := mk_inode ROOTDEV inum 0 0 (xshort type) 0 0 (xshort 1) (xint 0) (replicate (S NDIRECT) 0) in
  m ← winode inum din m;
  Some (inum, m).

Definition balloc (used : Z) (m : mkst) : option mkst :=
  if negb (used <? BPB) then None else
  Some (wsect (sb_bmapstart sb) (foldl (λ buf i, set_bit i buf) zero_block (seqZ 0 used)) m).

(** ** iappend *)
(** [freeblock++] *)
Definition take_block (m : mkst) : Z * mkst := (m_freeblock m, mk_mkst (m_img m) (m_freeinode m) (u32 (m_freeblock m + 1))).
(** The block of the file block [fbn], allocated if there is none. *)
Definition file_block (din : inode) (fbn : Z) (m : mkst) : option (Z * inode * mkst) :=
  if fbn <? Z.of_nat NDIRECT then
    let '(din, m) :=
      if addr_at din (Z.to_nat fbn) =? 0 then let '(b, m) := take_block m in (set_addr (Z.to_nat fbn) (xint b) din, m) else (din, m) in
    Some (addr_at din (Z.to_nat fbn), din, m)
  else
    let '(din, m) :=
      if addr_at din NDIRECT =? 0 then let '(b, m) := take_block m in (set_addr NDIRECT (xint b) din, m) else (din, m) in
    let ind := addr_at din NDIRECT in
    let j := Z.to_nat (fbn - Z.of_nat NDIRECT) in
    indirect ← rsect ind m;
    if word_at indirect j =? 0 then
      let '(b, m) := take_block m in
      let indirect := putb 4 (4 * j) (xint b) indirect in
      Some (word_at indirect j, din, wsect ind indirect m)
    else Some (word_at indirect j, din, m).
Fixpoint iappend_loop (fuel : nat) (din : inode) (p : list Z) (off : Z) (m : mkst) : option (inode * Z * mkst) :=
  match p with
  | [] => Some (din, off, m)
  | _ =>
    match fuel with
    | O => None
    | S fuel =>
        let fbn := off / BSIZE in
        if negb (fbn <? MAXFILE) then None else
        '(x, din, m) ← file_block din fbn m;
        let n1 := Z.min (Z.of_nat (length p)) ((fbn + 1) * BSIZE - off) in
        buf ← rsect x m;
        let m := wsect x (put_at (Z.to_nat (off - fbn * BSIZE)) (take (Z.to_nat n1) p) buf) m in
        iappend_loop fuel din (drop (Z.to_nat n1) p) (off + n1) m
    end
  end.
Definition iappend (inum : Z) (p : list Z) (m : mkst) : option mkst :=
  din ← rinode inum m;
  '(din, off, m) ← iappend_loop (length p) din p (xint (i_size din)) m;
  winode inum (with_i_size (xint off) din) m.

(** ** main *)
Definition de (inum : Z) (name : list Z) : list Z :=
  bytes_of 2 (xshort inum) ++ take DIRSIZ (name ++ replicate DIRSIZ 0).
Definition shortname (arg : list Z) : option (list Z) :=
  let s := if bool_decide (take 5 arg = str "user/") then drop 5 arg else arg in
  if existsb (Z.eqb 47) s then None else
  Some (if bool_decide (take 1 s = str "_") then drop 1 s else s).
Fixpoint append_chunks (inum : Z) (chunks : list (list Z)) (m : mkst) : option mkst :=
  match chunks with
  | [] => Some m
  | c :: chunks' => m ← iappend inum c m; append_chunks inum chunks' m
  end.
Definition add_file (rootino : Z) (f : list Z * option (list (list Z))) (m : mkst) : option mkst :=
  name ← shortname f.1;
  chunks ← f.2;
  if negb (length name <=? DIRSIZ)%nat then None else
  '(inum, m) ← ialloc T_FILE m;
  m ← iappend rootino (de inum name) m;
  append_chunks inum chunks m.
Fixpoint add_files (rootino : Z) (files : list (list Z * option (list (list Z)))) (m : mkst) : option mkst :=
  match files with
  | [] => Some m
  | f :: files' => m ← add_file rootino f m; add_files rootino files' m
  end.
Definition mkfs (files : list (list Z * option (list (list Z)))) : option mkst :=
  let m := mk_mkst (λ _, zero_block) 1 nmeta in
  let m := wsect 1 sb_block m in
  '(rootino, m) ← ialloc T_DIR m;
  if negb (rootino =? ROOTINO) then None else
  m ← iappend rootino (de rootino (str ".")) m;
  m ← iappend rootino (de rootino (str "..")) m;
  m ← add_files rootino files m;
  din ← rinode rootino m;
  let off := (xint (i_size din) / BSIZE + 1) * BSIZE in
  m ← winode rootino (with_i_size (xint off) din) m;
  balloc (m_freeblock m) m.
