(* ===== verification/MkfsThms.v ===== *)
(** The image mkfs builds is one the kernel can run on: its superblock, bitmap
    and inodes satisfy the invariants the theorems about the kernel's file
    system ask for, and its files hold the bytes they were given. *)
From S2P Require Import Prelude Machine State Printf Emu Bytes Bio BioSpec Log LogImg Cache Fs FsBlock FsInode FsFile Mkfs.
From Stdlib Require Import Ascii.
Open Scope Z_scope.

Notation imgV := (Z → list Z).

(** ** Constants *)
Lemma sb_eq : sb = mk_superblock FSMAGIC 2000 1953 200 31 2 33 46.
Proof. reflexivity. Qed.
Lemma nmeta_eq : nmeta = 47.
Proof. reflexivity. Qed.
Lemma xint_small x : 0 <= x < 4294967296 → xint x = x.
Proof.
  intros Hx. unfold xint, of_bytes, u8. rewrite !Z.shiftr_div_pow2 by lia. change (2 ^ 8) with 256. change (2 ^ 16) with 65536.
  change (2 ^ 24) with 16777216. zl.
Qed.
Lemma xshort_small x : 0 <= x < 65536 → xshort x = x.
Proof. intros Hx. unfold xshort, of_bytes, u8. rewrite !Z.shiftr_div_pow2 by lia. change (2 ^ 8) with 256. zl. Qed.
Lemma iblock_range inum : 0 <= inum < 208 → IBLOCK inum sb = inum / 16 + 33 ∧ 33 <= IBLOCK inum sb < 46.
Proof. intros Hi. rewrite sb_eq. unfold IBLOCK. cbn [sb_inodestart]. change IPB with 16. unfold u32. zl. Qed.

(** ** Files in progress *)
(** The slots a file of [nb] blocks has: its data blocks, and the indirect
    block past the direct ones. *)
Definition needs (nb k : Z) : bool := if k =? MAXFILE then 12 <? nb else k <? nb.
Definition blocks (nb : Z) : Z := nb + (if 12 <? nb then 1 else 0).
Definition nblk (n : Z) : Z := (n + 1023) / 1024.

(** The inode [ip] has blocks below [fb] in the slots [S]; they hold [c] and zeros
    after it. *)
Record filled (V : imgV) (fb : Z) (ip : inode) (c : list Z) (S : Z → bool) : Prop := {
  fl_ok : inode_ok ip;
  fl_len : Z.of_nat (length c) <= MAXFILE * 1024;
  fl_data : ∀ o, 0 <= o < Z.of_nat (length c) → S (o / 1024) = true;
  fl_slot : ∀ k, 0 <= k <= MAXFILE → fblk V ip k ≠ 0 ↔ S k = true;
  fl_range : ∀ k, 0 <= k <= MAXFILE → fblk V ip k ≠ 0 → nmeta <= fblk V ip k < fb;
  fl_inj : ∀ k k', 0 <= k <= MAXFILE → 0 <= k' <= MAXFILE → fblk V ip k ≠ 0 → fblk V ip k = fblk V ip k' → k = k';
  fl_bytes : ∀ o, 0 <= o < MAXFILE * 1024 → fblk V ip (o / 1024) ≠ 0 →
    byte_at (V (fblk V ip (o / 1024))) (o mod 1024) = default 0 (c !! Z.to_nat o) }.

(** Blocks not yet given out are zero. *)
Record fresh (V : imgV) (fb : Z) : Prop := {
  fr_len : ∀ b, length (V b) = Z.to_nat BSIZE;
  fr_zero : ∀ b, fb <= b → V b = zero_block;
  fr_fb : nmeta <= fb <= FSSIZE }.

Definition has (V : imgV) (ip : inode) (b : Z) : Prop := ∃ k, 0 <= k <= MAXFILE ∧ fblk V ip k ≠ 0 ∧ fblk V ip k = b.

(** From one state to a later one: only the file's own blocks and new ones changed. *)
Record grows (V : imgV) (fb : Z) (ip : inode) (V' : imgV) (fb' : Z) (ip' : inode) : Prop := {
  gw_fb : fb <= fb';
  gw_meta : ip' = with_i_addrs (i_addrs ip') ip;
  gw_keep : ∀ b, b < fb → ¬ has V ip b → V' b = V b;
  gw_own : ∀ b, has V' ip' b → has V ip b ∨ fb <= b < fb' }.

Lemma grows_refl V fb ip : grows V fb ip V fb ip.
Proof. split; [lia|by destruct ip|done|by left]. Qed.
Lemma grows_trans V1 fb1 ip1 V2 fb2 ip2 V3 fb3 ip3 :
  grows V1 fb1 ip1 V2 fb2 ip2 → grows V2 fb2 ip2 V3 fb3 ip3 → grows V1 fb1 ip1 V3 fb3 ip3.
Proof.
  intros [A1 A2 A3 A4] [B1 B2 B3 B4]. split; [lia|rewrite B2, A2; by destruct ip1| |].
  - intros b Hb Hn. rewrite B3; [by apply A3|lia|]. intros [H|H]%A4; [done|lia].
  - intros b [[H|H]%A4|H]%B4; [by left|right; lia|right; lia].
Qed.

Lemma fblk_frame V V' ip k : (fblk V ip MAXFILE ≠ 0 → V' (fblk V ip MAXFILE) = V (fblk V ip MAXFILE)) → fblk V' ip k = fblk V ip k.
Proof.
  assert (fblk V ip MAXFILE = addr_at ip NDIRECT) as -> by reflexivity. intros H. unfold fblk.
  destruct (k <? _); [done|]. destruct (k =? MAXFILE); [done|]. destruct (Z.eqb_spec (addr_at ip NDIRECT) 0); [done|]. by rewrite H.
Qed.
Lemma filled_frame V V' fb fb' ip c S :
  filled V fb ip c S → (∀ b, has V ip b → V' b = V b) → fb <= fb' →
  filled V' fb' ip c S ∧ ∀ k, fblk V' ip k = fblk V ip k.
Proof.
  intros [F1 F2 F3 F4 F5 F6 F7] HV Hfb.
  assert (∀ k, fblk V' ip k = fblk V ip k) as E.
  { intros k. apply fblk_frame. intros H. apply HV. exists MAXFILE. split; [|done]. by vm_compute. }
  split; [|done]. split; try done; intros; rewrite ?E in *; try by eauto.
  - specialize (F5 k). lia.
  - rewrite HV; [by apply F7|]. exists (o / 1024). change MAXFILE with 268 in *. split; [zl|done].
Qed.
Lemma has_frame V V' ip b : (∀ k, fblk V' ip k = fblk V ip k) → has V' ip b ↔ has V ip b.
Proof. intros E. unfold has. by setoid_rewrite E. Qed.

(** The local inode's other fields do not matter. *)
Lemma filled_meta V fb ip ip' c S : filled V fb ip c S → inode_ok ip' → i_addrs ip' = i_addrs ip → filled V fb ip' c S.
Proof.
  intros [F1 F2 F3 F4 F5 F6 F7] Hok Ha. assert (∀ k, fblk V ip' k = fblk V ip k) as E.
  { intros k. unfold fblk, addr_at. by rewrite Ha. }
  split; try done; intros; rewrite ?E in *; by eauto.
Qed.
Lemma filled_ext V fb ip c S S' : filled V fb ip c S → (∀ k, 0 <= k <= MAXFILE → S k = S' k) → filled V fb ip c S'.
Proof.
  intros [F1 F2 F3 F4 F5 F6 F7] HS. split; try done.
  - intros o Ho. rewrite <- HS; [by apply F3|]. change MAXFILE with 268 in *. zl.
  - intros k Hk. rewrite <- HS by done. by apply F4.
Qed.

Lemma byte_zero i : byte_at zero_block i = 0.
Proof.
  unfold byte_at, zero_block. destruct (replicate (Z.to_nat BSIZE) 0 !! Z.to_nat i) as [x|] eqn:E; [|done].
  by apply lookup_replicate in E as [-> _].
Qed.

(** A block in a new slot [s]; the image may change in the file's indirect block. *)
Lemma add_slot V fb ip c S s V' ip' :
  filled V fb ip c S → nmeta <= fb → V fb = zero_block → 0 <= s <= MAXFILE → S s = false → inode_ok ip' →
  (∀ k, 0 <= k <= MAXFILE → fblk V' ip' k = if decide (k = s) then fb else fblk V ip k) →
  (∀ b, b ≠ fblk V ip MAXFILE → V' b = V b) →
  filled V' (fb + 1) ip' c (λ k, S k || (k =? s)) ∧ (∀ b, has V' ip' b → has V ip b ∨ b = fb).
Proof.
  intros [F1 F2 F3 F4 F5 F6 F7] Hfb Hz Hs HS Hok E HV. pose proof nmeta_eq as Hm. change MAXFILE with 268 in *.
  assert (∀ k, 0 <= k <= 268 → fblk V ip k ≠ fb) as Hnew.
  { intros k Hk Ek. specialize (F5 k Hk ltac:(lia)). lia. }
  split; [split; try done|].
  - intros o Ho. by rewrite F3.
  - intros k Hk. rewrite E by done. destruct (decide (k = s)) as [->|Hne].
    + rewrite Z.eqb_refl, orb_true_r. split; [done|lia].
    + rewrite (proj2 (Z.eqb_neq k s)), orb_false_r by done. by apply F4.
  - intros k Hk. rewrite E by done. destruct (decide (k = s)); [lia|]. intros Hk'. specialize (F5 k Hk Hk'). lia.
  - intros k k' Hk Hk'. rewrite !E by done. destruct (decide (k = s)) as [->|], (decide (k' = s)) as [->|]; [done|..|by apply F6].
    + intros _ Ek. by destruct (Hnew k' Hk').
    + intros _ Ek. by destruct (Hnew k Hk).
  - intros o Ho. change MAXFILE with 268 in *. assert (0 <= o / 1024 <= 268 ∧ o / 1024 ≠ 268) as [Hk Hk2] by zl. rewrite E by done. destruct (decide (o / 1024 = s)) as [Es|Hne].
    + intros _. rewrite HV by (intros Ef; by apply (Hnew 268)). rewrite Hz, byte_zero.
      rewrite lookup_ge_None_2; [done|]. destruct (decide (o < Z.of_nat (length c))) as [Hlt|]; [|lia].
      rewrite <- Es, F3 in HS by lia. done.
    + intros Hnz. rewrite HV; [by apply F7|]. intros Ef. by apply F6 in Ef.
  - intros b (k & Hk & Hnz & <-). rewrite E in * by done. destruct (decide (k = s)); [by right|left]. by exists k.
Qed.

(** A direct block or the indirect block from the next free block. *)
Lemma alloc_addr V fb ip c S k :
  filled V fb ip c S → fresh V fb → fb < FSSIZE → (k <= NDIRECT)%nat → S (slot k) = false →
  let ip' := set_addr k fb ip in
  filled V (fb + 1) ip' c (λ x, S x || (x =? slot k)) ∧ grows V fb ip V (fb + 1) ip' ∧ fresh V (fb + 1) ∧
  (∀ x, 0 <= x <= MAXFILE → fblk V ip' x = if decide (x = slot k) then fb else fblk V ip x).
Proof.
  intros F [R1 R2 R3] Hfb Hk HS ip'. pose proof nmeta_eq as Hm. change FSSIZE with 2000 in *.
  assert (0 <= slot k <= MAXFILE) as Hslot by (unfold slot; change MAXFILE with 268; change NDIRECT with 12%nat in *; case_match; lia).
  assert (addr_at ip k = 0) as Hz.
  { destruct (Z.eq_dec (addr_at ip k) 0) as [|Hne]; [done|]. exfalso.
    assert (fblk V ip (slot k) = addr_at ip k) as E.
    { unfold fblk, slot. change NDIRECT with 12%nat in *. destruct (Nat.ltb_spec k 12).
      - rewrite (proj2 (Z.ltb_lt _ _)) by lia. by rewrite Nat2Z.id.
      - replace k with 12%nat by lia. done. }
    pose proof (fl_slot _ _ _ _ _ F (slot k) Hslot) as [H _]. rewrite E in H. by rewrite H in HS. }
  assert (∀ x, 0 <= x <= MAXFILE → fblk V ip' x = if decide (x = slot k) then fb else fblk V ip x) as E.
  { intros x Hx. apply fblk_set_addr; try done; [apply (fl_ok _ _ _ _ _ F)|lia|by apply R2]. }
  destruct (add_slot V fb ip c S (slot k) V ip' F) as [F' Ho]; try done; [lia|by apply R2|apply inode_ok_set; [apply F|lia]|].
  split_and!; try done.
  - split; [lia|by destruct ip|done|]. intros b [H|H]%Ho; [by left|right; lia].
  - split; [done|intros; apply R2; lia|change FSSIZE with 2000; lia].
Qed.

(** An entry of the indirect block from the next free block. *)
Lemma alloc_entry V fb ip c S j :
  filled V fb ip c S → fresh V fb → fb < FSSIZE → (j < NINDIRECT)%nat → S (Z.of_nat NDIRECT + Z.of_nat j) = false → S MAXFILE = true →
  let V' := fset V (addr_at ip NDIRECT) (putb 4 (4 * j) fb (V (addr_at ip NDIRECT))) in
  filled V' (fb + 1) ip c (λ x, S x || (x =? Z.of_nat NDIRECT + Z.of_nat j)) ∧ grows V fb ip V' (fb + 1) ip ∧ fresh V' (fb + 1) ∧
  (∀ x, 0 <= x <= MAXFILE → fblk V' ip x = if decide (x = Z.of_nat NDIRECT + Z.of_nat j) then fb else fblk V ip x).
Proof.
  intros F [R1 R2 R3] Hfb Hj HS HM V'. pose proof nmeta_eq as Hm. change FSSIZE with 2000 in *. change NINDIRECT with 256%nat in *.
  assert (0 <= MAXFILE <= MAXFILE) as HMr by (by vm_compute).
  assert (fblk V ip MAXFILE = addr_at ip NDIRECT) as Ei by done.
  assert (addr_at ip NDIRECT ≠ 0) as Hnz by (rewrite <- Ei; by apply (fl_slot _ _ _ _ _ F)).
  pose proof (fl_range _ _ _ _ _ F MAXFILE HMr ltac:(by rewrite Ei)) as Hir. rewrite Ei in Hir.
  assert (∀ x, 0 <= x <= MAXFILE → fblk V' ip x = if decide (x = Z.of_nat NDIRECT + Z.of_nat j) then fb else fblk V ip x) as E.
  { intros x Hx. apply (fblk_put V V); try done. lia. }
  assert (0 <= Z.of_nat NDIRECT + Z.of_nat j <= MAXFILE) as Hs by (change NDIRECT with 12%nat; change MAXFILE with 268; lia).
  assert (∀ b, b ≠ fblk V ip MAXFILE → V' b = V b) as HV by (intros b Hb; apply fset_ne; by rewrite <- Ei).
  destruct (add_slot V fb ip c S (Z.of_nat NDIRECT + Z.of_nat j) V' ip F) as [F' Ho]; try done; [lia|by apply R2|apply F|].
  split_and!; try done.
  - split; [lia|by destruct ip| |intros b [H|H]%Ho; [by left|right; lia]].
    intros b Hb Hn. apply HV. intros ->. apply Hn. exists MAXFILE. rewrite Ei. done.
  - split; [|intros b Hb|change FSSIZE with 2000; lia].
    + intros b. destruct (decide (b = addr_at ip NDIRECT)) as [->|Hb]; [|by rewrite HV].
      unfold V'. rewrite fset_eq, length_putb; [apply R1|]. rewrite R1. change (Z.to_nat BSIZE) with 1024%nat. lia.
    + rewrite HV; [apply R2; lia|]. rewrite Ei. lia.
Qed.

Lemma needs_S nb k : 0 <= nb → nb ≠ 12 → 0 <= k <= MAXFILE → nb < MAXFILE → needs (nb + 1) k = needs nb k || (k =? nb).
Proof.
  intros H0 H12 Hk Hn. unfold needs. change MAXFILE with 268 in *.
  destruct (Z.eqb_spec k 268), (Z.eqb_spec k nb), (Z.ltb_spec 12 nb), (Z.ltb_spec 12 (nb + 1)), (Z.ltb_spec k nb), (Z.ltb_spec k (nb + 1)); cbn; try done; lia.
Qed.

(** The second half of [file_block]: the entry of the indirect block. *)
Lemma ind_entry_ok V fi fb ip c S j :
  filled V fb ip c S → fresh V fb → (j < NINDIRECT)%nat → S MAXFILE = true →
  fb + (if S (12 + Z.of_nat j) then 0 else 1) <= FSSIZE →
  ∃ V', let fb' := fb + (if S (12 + Z.of_nat j) then 0 else 1) in let m := mk_mkst V fi fb in
    (indirect ← rsect (addr_at ip NDIRECT) m;
     if word_at indirect j =? 0 then
       let '(b, m) := take_block m in
       let indirect := putb 4 (4 * j) (xint b) indirect in
       Some (word_at indirect j, ip, wsect (addr_at ip NDIRECT) indirect m)
     else Some (word_at indirect j, ip, m)) = Some (fblk V' ip (12 + Z.of_nat j), ip, mk_mkst V' fi fb') ∧
    fblk V' ip (12 + Z.of_nat j) ≠ 0 ∧
    filled V' fb' ip c (λ x, S x || (x =? 12 + Z.of_nat j)) ∧ fresh V' fb' ∧ grows V fb ip V' fb' ip.
Proof.
  intros F R Hj HM Hcap. pose proof nmeta_eq as Hm. pose proof (fr_fb _ _ R) as Hfb. change FSSIZE with 2000 in *. change NINDIRECT with 256%nat in *.
  assert (0 <= MAXFILE <= MAXFILE) as HMr by (by vm_compute).
  assert (fblk V ip MAXFILE ≠ 0) as Hnz by (by apply (fl_slot _ _ _ _ _ F)).
  pose proof (fl_range _ _ _ _ _ F MAXFILE HMr Hnz) as Hir.
  change (fblk V ip MAXFILE) with (addr_at ip NDIRECT) in *.
  assert (word_at (V (addr_at ip NDIRECT)) j = fblk V ip (12 + Z.of_nat j)) as Ew.
  { rewrite fblk_indirect by lia. rewrite (proj2 (Z.eqb_neq _ 0)) by done. f_equal. lia. }
  assert (0 <= 12 + Z.of_nat j <= MAXFILE) as Hs by (change MAXFILE with 268; lia).
  pose proof (fl_slot _ _ _ _ _ F _ Hs) as Hsl.
  unfold rsect. cbn [m_img mbind option_bind]. change FSSIZE with 2000. rewrite (proj2 (Z.ltb_lt _ 2000)) by lia. cbn [mbind option_bind]. rewrite Ew.
  destruct (S (12 + Z.of_nat j)) eqn:ES.
  - exists V. destruct (Z.eqb_spec (fblk V ip (12 + Z.of_nat j)) 0) as [E0|E0]; [by apply Hsl in E0|].
    rewrite Z.add_0_r. split_and!; [done..| |done|apply grows_refl].
    eapply filled_ext; [exact F|]. intros k Hk. destruct (Z.eqb_spec k (12 + Z.of_nat j)) as [->|]; [by rewrite ES|by rewrite orb_false_r].
  - destruct (Z.eqb_spec (fblk V ip (12 + Z.of_nat j)) 0) as [E0|E0]; [|by apply Hsl in E0].
    destruct (alloc_entry V fb ip c S j F R) as (F' & G & R' & E); [change FSSIZE with 2000; lia|done..|].
    eexists. split_and!; [|..|exact F'|exact R'|exact G].
    + cbn [take_block m_freeblock m_freeinode m_img]. unfold wsect, with_m_img. cbn [m_freeblock m_freeinode m_img].
      rewrite (xint_small fb) by lia. replace (u32 (fb + 1)) with (fb + 1) by (unfold u32; rewrite Z.mod_small; lia).
      rewrite E by done. rewrite decide_True by done. unfold word_at. rewrite getb_putb_eq.
      * change (256 ^ Z.of_nat 4) with 4294967296. by rewrite Z.mod_small by lia.
      * rewrite (fr_len _ _ R). change (Z.to_nat BSIZE) with 1024%nat. lia.
    + rewrite E by done. rewrite decide_True by done. lia.
Qed.

(** [file_block] on a file of [nb] blocks: the block is there, or is the next one. *)
Definition got_block (V : imgV) (fi fb : Z) (ip : inode) (c : list Z) (nb fbn : Z) : Prop :=
  ∃ ip' V', let nb' := Z.max nb (fbn + 1) in let fb' := fb + blocks nb' - blocks nb in
    file_block ip fbn (mk_mkst V fi fb) = Some (fblk V' ip' fbn, ip', mk_mkst V' fi fb') ∧ fblk V' ip' fbn ≠ 0 ∧
    filled V' fb' ip' c (needs nb') ∧ fresh V' fb' ∧ grows V fb ip V' fb' ip'.

Lemma file_block_direct V fi fb ip c nb fbn :
  filled V fb ip c (needs nb) → fresh V fb → 0 <= fbn <= nb → fbn < 12 →
  fb + blocks (Z.max nb (fbn + 1)) - blocks nb <= FSSIZE → got_block V fi fb ip c nb fbn.
Proof.
  intros F R Hfbn H12 Hcap. pose proof nmeta_eq as Hm. pose proof (fr_fb _ _ R) as Hfb. change FSSIZE with 2000 in *.
  assert (0 <= fbn <= MAXFILE) as Hr by (change MAXFILE with 268; lia).
  pose proof (fl_slot _ _ _ _ _ F fbn Hr) as Hsl.
  assert (∀ V ip, fblk V ip fbn = addr_at ip (Z.to_nat fbn)) as Ef.
  { intros V0 ip0. unfold fblk. change (Z.of_nat NDIRECT) with 12. by rewrite (proj2 (Z.ltb_lt _ _)) by lia. }
  assert (slot (Z.to_nat fbn) = fbn) as Es.
  { unfold slot. change NDIRECT with 12%nat. rewrite (proj2 (Nat.ltb_lt _ _)) by lia. lia. }
  unfold got_block, file_block. change (Z.of_nat NDIRECT) with 12. rewrite (proj2 (Z.ltb_lt fbn 12)) by lia.
  destruct (decide (fbn < nb)) as [Hlt|Hge].
  - exists ip, V. replace (Z.max nb (fbn + 1)) with nb by lia. replace (fb + blocks nb - blocks nb) with fb by lia.
    assert (fblk V ip fbn ≠ 0) as Hnz.
    { apply Hsl. unfold needs. change MAXFILE with 268. rewrite (proj2 (Z.eqb_neq _ _)), (proj2 (Z.ltb_lt _ _)) by lia. done. }
    rewrite <- (Ef V), (proj2 (Z.eqb_neq _ 0)) by done. rewrite Ef. split_and!; [done|by rewrite <- (Ef V)|done|done|apply grows_refl].
  - assert (fbn = nb) as -> by lia. replace (Z.max nb (nb + 1)) with (nb + 1) in * by lia.
    assert (needs nb nb = false) as Hn.
    { unfold needs. change MAXFILE with 268. rewrite (proj2 (Z.eqb_neq _ _)), Z.ltb_irrefl by lia. done. }
    assert (blocks (nb + 1) - blocks nb = 1) as Eb by (unfold blocks; rewrite !(proj2 (Z.ltb_ge 12 _)) by lia; lia).
    replace (fb + blocks (nb + 1) - blocks nb) with (fb + 1) in * by lia.
    destruct (alloc_addr V fb ip c (needs nb) (Z.to_nat nb) F R) as (F' & G & R' & E);
      [change FSSIZE with 2000; lia|change NDIRECT with 12%nat; lia|by rewrite Es|]. rewrite Es in *.
    exists (set_addr (Z.to_nat nb) fb ip), V.
    assert (fblk V ip nb = 0) as E0 by (destruct (Z.eq_dec (fblk V ip nb) 0) as [|H%Hsl]; [done|congruence]).
    rewrite <- (Ef V), E0. cbn [Z.eqb take_block m_freeblock m_img m_freeinode].
    replace (u32 (fb + 1)) with (fb + 1) by (unfold u32; rewrite Z.mod_small; lia). rewrite (xint_small fb) by lia.
    split_and!; [by rewrite <- (Ef V)|rewrite E, decide_True by done; lia| |done|done].
    eapply filled_ext; [exact F'|]. intros k Hk. symmetry. apply needs_S; try done; change MAXFILE with 268; lia.
Qed.

Lemma file_block_indirect V fi fb ip c nb fbn :
  filled V fb ip c (needs nb) → fresh V fb → 0 <= fbn <= nb → 12 <= fbn < MAXFILE →
  fb + blocks (Z.max nb (fbn + 1)) - blocks nb <= FSSIZE → got_block V fi fb ip c nb fbn.
Proof.
  intros F R Hfbn H12 Hcap. pose proof nmeta_eq as Hm. pose proof (fr_fb _ _ R) as Hfb. change FSSIZE with 2000 in *. change MAXFILE with 268 in *.
  assert (12 + Z.of_nat (Z.to_nat (fbn - 12)) = fbn) as Ej by lia.
  assert (∃ ip1 d, (if addr_at ip NDIRECT =? 0 then
      (set_addr NDIRECT (xint fb) ip, mk_mkst V fi (u32 (fb + 1))) else (ip, mk_mkst V fi fb)) = (ip1, mk_mkst V fi (fb + d)) ∧
    d = (if needs nb 268 then 0 else 1) ∧
    filled V (fb + d) ip1 c (λ k, needs nb k || (k =? 268)) ∧ fresh V (fb + d) ∧ grows V fb ip V (fb + d) ip1) as (ip1 & d & E1 & Ed & F1 & R1 & G1).
  { pose proof (fl_slot _ _ _ _ _ F 268 ltac:(by vm_compute)) as Hsl. change (fblk V ip 268) with (addr_at ip NDIRECT) in Hsl.
    destruct (Z.eqb_spec (addr_at ip NDIRECT) 0) as [E0|E0].
    - assert (needs nb 268 = false) as Hn by (destruct (needs nb 268); [by apply Hsl in E0|done]). rewrite Hn.
      destruct (alloc_addr V fb ip c (needs nb) NDIRECT F R) as (F' & G & R' & E); [|done|done|].
      { change FSSIZE with 2000. unfold needs, blocks in *. change MAXFILE with 268 in *. cbn in Hn. destruct (Z.ltb_spec 12 nb); [done|].
        rewrite (proj2 (Z.ltb_lt 12 (Z.max _ _))) in Hcap by lia. lia. }
      exists (set_addr NDIRECT fb ip), 1. rewrite (xint_small fb) by lia.
      replace (u32 (fb + 1)) with (fb + 1) by (unfold u32; rewrite Z.mod_small; lia). split_and!; done.
    - apply Hsl in E0. rewrite E0. exists ip, 0. rewrite Z.add_0_r. split_and!; [done..| |done|apply grows_refl].
      eapply filled_ext; [exact F|]. intros k Hk. destruct (Z.eqb_spec k 268) as [->|]; [by rewrite E0|by rewrite orb_false_r]. }
  assert ((if needs nb fbn || (fbn =? 268) then 0 else 1) + d = blocks (Z.max nb (fbn + 1)) - blocks nb) as Ec.
  { subst d. unfold needs, blocks. change MAXFILE with 268. rewrite (proj2 (Z.eqb_neq fbn 268)), Z.eqb_refl, orb_false_r by lia.
    destruct (Z.ltb_spec 12 nb), (Z.ltb_spec fbn nb), (Z.ltb_spec 12 (Z.max nb (fbn + 1))); lia. }
  destruct (ind_entry_ok V fi (fb + d) ip1 c (λ k, needs nb k || (k =? 268)) (Z.to_nat (fbn - 12)) F1 R1) as (V' & E2 & Hnz & F2 & R2 & G2).
  { change NINDIRECT with 256%nat. lia. } { change MAXFILE with 268. by rewrite Z.eqb_refl, orb_true_r. }
  { cbn beta. rewrite Ej. change FSSIZE with 2000. lia. }
  cbn beta in E2, F2, R2, G2. rewrite Ej in *. exists ip1, V'. cbv zeta.
  replace (fb + blocks (Z.max nb (fbn + 1)) - blocks nb) with (fb + d + (if needs nb fbn || (fbn =? 268) then 0 else 1)) by lia.
  split_and!; [|done| |done|by eapply grows_trans].
  - unfold file_block. change (Z.of_nat NDIRECT) with 12. rewrite (proj2 (Z.ltb_ge fbn 12)) by lia.
    cbn [take_block m_freeblock m_img m_freeinode]. rewrite E1. exact E2.
  - eapply filled_ext; [exact F2|]. intros k Hk. unfold needs. change MAXFILE with 268 in *.
    destruct (Z.eqb_spec k 268), (Z.eqb_spec k fbn), (Z.ltb_spec 12 nb), (Z.ltb_spec k nb), (Z.ltb_spec 12 (Z.max nb (fbn + 1))), (Z.ltb_spec k (Z.max nb (fbn + 1))); cbn; try done; lia.
Qed.

(** Bytes written behind the end of the file, within its last block. *)
Lemma write_piece V fb ip c nb q (off := Z.of_nat (length c)) (fbn := off / 1024) (x := fblk V ip fbn) :
  filled V fb ip c (needs nb) → fresh V fb → fbn < nb → fbn < MAXFILE → off + Z.of_nat (length q) <= (fbn + 1) * 1024 →
  let V' := fset V x (put_at (Z.to_nat (off - fbn * 1024)) q (V x)) in
  filled V' fb ip (c ++ q) (needs nb) ∧ fresh V' fb ∧ grows V fb ip V' fb ip.
Proof.
  intros F [R1 R2 R3] Hnb Hmax Hlen V'. pose proof nmeta_eq as Hm. destruct F as [F1 F2 F3 F4 F5 F6 F7]. change MAXFILE with 268 in *.
  assert (0 <= fbn) as H0 by (subst fbn off; zl).
  assert (needs nb fbn = true) as Hneed.
  { unfold needs. change MAXFILE with 268. rewrite (proj2 (Z.eqb_neq _ _)), (proj2 (Z.ltb_lt _ _)) by lia. done. }
  assert (x ≠ 0) as Hx by (by apply F4; [lia|]).
  pose proof (F5 fbn ltac:(lia) Hx) as Hxr. fold x in Hxr.
  assert (0 <= off - fbn * 1024 < 1024) as Hoff by (subst fbn off; zl).
  assert (Z.to_nat (off - fbn * 1024) + length q <= length (V x))%nat as Hfit.
  { rewrite R1. change (Z.to_nat BSIZE) with 1024%nat. lia. }
  assert (∀ b, b ≠ x → V' b = V b) as HV by (intros b Hb; by apply fset_ne).
  assert (∀ k, fblk V' ip k = fblk V ip k) as E.
  { intros k. apply fblk_frame. change MAXFILE with 268. intros Hi. apply HV. intros Ex. apply F6 in Ex; lia. }
  split_and!.
  - split; try done; try (intros; rewrite ?E in *; by eauto).
    + rewrite length_app. change MAXFILE with 268. lia.
    + intros o. rewrite length_app. intros Ho. destruct (decide (o < off)) as [Hlt|Hge]; [apply F3; lia|].
      replace (o / 1024) with fbn by (subst fbn off; zl). done.
    + intros o Ho Hk. change MAXFILE with 268 in *. rewrite E in *. specialize (F7 o Ho Hk).
      destruct (decide (o / 1024 = fbn)) as [Ek|Hne].
      * rewrite Ek in *. fold x in F7 |- *. unfold V'. rewrite fset_eq. unfold byte_at in *. rewrite lookup_put_at by done.
        case_decide as Hd.
        -- rewrite lookup_app_r by (subst off; zl). f_equal. f_equal. subst off; zl.
        -- rewrite F7. f_equal. destruct (decide (o < off)) as [Hlt|Hge]; [by rewrite lookup_app_l by lia|].
           rewrite !lookup_ge_None_2; [done|rewrite length_app; zl|lia].
      * rewrite HV by (intros Ex; apply F6 in Ex; [done|zl|lia|done]). rewrite F7. f_equal.
        destruct (decide (o < off)) as [Hlt|Hge]; [by rewrite lookup_app_l by lia|].
        rewrite !lookup_ge_None_2; [done|rewrite length_app; subst fbn off; zl|lia].
  - split; [|intros b Hb; rewrite HV; [by apply R2|lia]|done].
    intros b. destruct (decide (b = x)) as [->|]; [|by rewrite HV]. unfold V'. rewrite fset_eq, length_put_at; [apply R1|done].
  - split; [lia|by destruct ip| |].
    + intros b Hb Hn. apply HV. intros ->. apply Hn. exists fbn. change MAXFILE with 268. split; [lia|done].
    + intros b Hb. left. by apply (has_frame V V').
Qed.

Lemma blocks_mono a b : a <= b → blocks a <= blocks b.
Proof. unfold blocks. intros H. destruct (Z.ltb_spec 12 a), (Z.ltb_spec 12 b); lia. Qed.
Lemma nblk_mono a b : a <= b → nblk a <= nblk b.
Proof. unfold nblk. zl. Qed.

Lemma iappend_loop_ok fuel p V fi fb ip c :
  let n := Z.of_nat (length c) in let n' := n + Z.of_nat (length p) in
  filled V fb ip c (needs (nblk n)) → fresh V fb → (length p <= fuel)%nat → n' <= MAXFILE * 1024 →
  fb + blocks (nblk n') - blocks (nblk n) <= FSSIZE →
  ∃ ip' V', let fb' := fb + blocks (nblk n') - blocks (nblk n) in
    iappend_loop fuel ip p n (mk_mkst V fi fb) = Some (ip', n', mk_mkst V' fi fb') ∧
    filled V' fb' ip' (c ++ p) (needs (nblk n')) ∧ fresh V' fb' ∧ grows V fb ip V' fb' ip'.
Proof.
  revert p V fb ip c. induction fuel as [|fuel IH]; intros p V fb ip c n n' F R Hfuel Hmax Hcap.
  - destruct p as [|x p]; [|cbn in Hfuel; lia]. exists ip, V. subst n'. cbn [length]. rewrite Z.add_0_r, app_nil_r.
    replace (fb + blocks (nblk n) - blocks (nblk n)) with fb by lia. split_and!; [done..|apply grows_refl].
  - destruct (decide (p = [])) as [->|Hne].
    { exists ip, V. subst n'. cbn [length]. rewrite Z.add_0_r, app_nil_r.
      replace (fb + blocks (nblk n) - blocks (nblk n)) with fb by lia. split_and!; [done..|apply grows_refl]. }
    assert (0 < Z.of_nat (length p)) as Hp by (destruct p; [done|cbn; lia]).
    set (fbn := n / 1024). set (n1 := Z.min (Z.of_nat (length p)) ((fbn + 1) * 1024 - n)).
    assert (0 <= n) as Hn by lia. change MAXFILE with 268 in *.
    assert (0 <= fbn <= nblk n ∧ fbn < 268 ∧ Z.max (nblk n) (fbn + 1) = nblk (n + n1) ∧ 0 < n1 <= Z.of_nat (length p)) as (H1 & H2 & H3 & H4).
    { subst fbn n1 n'. unfold nblk. split_and!; zl. }
    assert (blocks (nblk (n + n1)) <= blocks (nblk n')) as Hb1 by (apply blocks_mono, nblk_mono; lia).
    assert (got_block V fi fb ip c (nblk n) fbn) as (ip1 & V1 & E1 & Hnz & F1 & R1 & G1).
    { destruct (decide (fbn < 12)); [apply file_block_direct|apply file_block_indirect]; try done; rewrite ?H3; try lia. change MAXFILE with 268. lia. }
    rewrite H3 in *. set (fb1 := fb + blocks (nblk (n + n1)) - blocks (nblk n)) in *.
    assert (length (take (Z.to_nat n1) p) = Z.to_nat n1) as Elen by (rewrite length_take; lia).
    destruct (write_piece V1 fb1 ip1 c (nblk (n + n1)) (take (Z.to_nat n1) p) F1 R1) as (F2 & R2 & G2).
    { fold n fbn. lia. } { fold n fbn. change MAXFILE with 268. lia. } { fold n fbn. rewrite Elen. lia. }
    fold n fbn in F2, R2, G2. set (V2 := fset V1 _ _) in *.
    assert (Z.of_nat (length (c ++ take (Z.to_nat n1) p)) = n + n1) as Ec by (rewrite length_app, Elen; lia).
    assert (Z.of_nat (length (drop (Z.to_nat n1) p)) = Z.of_nat (length p) - n1) as Ed by (rewrite length_drop; lia).
    assert (n + n1 + (Z.of_nat (length p) - n1) = n') as En by (subst n'; lia).
    destruct (IH (drop (Z.to_nat n1) p) V2 fb1 ip1 (c ++ take (Z.to_nat n1) p)) as (ip' & V' & E' & F' & R' & G').
    { by rewrite Ec. } { done. } { rewrite length_drop. lia. } { rewrite Ec, Ed, En. done. }
    { rewrite Ec, Ed, En. subst fb1. lia. }
    rewrite Ec, Ed, En in *. rewrite <- app_assoc, take_drop in F'.
    replace (fb1 + blocks (nblk n') - blocks (nblk (n + n1))) with (fb + blocks (nblk n') - blocks (nblk n)) in * by (subst fb1; lia).
    exists ip', V'. cbv zeta. split_and!; [|done|done|eapply grows_trans; [exact G1|]; by eapply grows_trans].
    rewrite <- E'. destruct p as [|y p']; [done|]. cbn [iappend_loop]. change BSIZE with 1024. fold fbn.
    change MAXFILE with 268. rewrite (proj2 (Z.ltb_lt fbn 268)) by lia. cbn [negb]. rewrite E1. cbn [mbind option_bind].
    assert (fblk V1 ip1 fbn < FSSIZE) as Hlt.
    { pose proof (fl_range _ _ _ _ _ F1 fbn ltac:(change MAXFILE with 268; lia) Hnz). pose proof (fr_fb _ _ R1). lia. }
    unfold rsect. cbn [m_img]. rewrite (proj2 (Z.ltb_lt _ FSSIZE)) by done. done.
Qed.

(** ** The image *)
Definition on_disk (V : imgV) (inum : Z) : inode := load_dinode (dip_off inum) (V (IBLOCK inum sb)) (no_inode inum).
(** The blocks of all files. *)
Fixpoint total (F : list (Z * list Z)) : Z :=
  match F with [] => 0 | f :: F' => blocks (nblk (Z.of_nat (length f.2))) + total F' end.

(** Inode [i + 1] of the image has the type and the bytes [F !! i]. *)
Record file_at (V : imgV) (fb : Z) (inum : Z) (t : Z) (c : list Z) : Prop := {
  fa_filled : filled V fb (on_disk V inum) c (needs (nblk (Z.of_nat (length c))));
  fa_size : i_size (on_disk V inum) = Z.of_nat (length c);
  fa_type : i_type (on_disk V inum) = t;
  fa_nlink : i_nlink (on_disk V inum) = 1 }.
Record image (m : mkst) (F : list (Z * list Z)) : Prop := {
  im_free : m_freeinode m = Z.of_nat (length F) + 1;
  im_count : Z.of_nat (length F) < NINODES;
  im_fb : m_freeblock m = nmeta + total F;
  im_fresh : fresh (m_img m) (m_freeblock m);
  im_low : ∀ b, 0 <= b < 33 → m_img m b = if decide (b = 1) then sb_block else zero_block;
  im_file : ∀ i t c, F !! i = Some (t, c) → file_at (m_img m) (m_freeblock m) (Z.of_nat i + 1) t c;
  im_sep : ∀ i j b, (i < length F)%nat → (j < length F)%nat → has (m_img m) (on_disk (m_img m) (Z.of_nat i + 1)) b →
    has (m_img m) (on_disk (m_img m) (Z.of_nat j + 1)) b → i = j }.

Lemma total_app F G : total (F ++ G) = total F + total G.
Proof. induction F as [|f F IH]; cbn; [done|]. rewrite IH. lia. Qed.
Lemma total_insert F i t c t' c' :
  F !! i = Some (t, c) → total (<[i := (t', c')]> F) = total F + blocks (nblk (Z.of_nat (length c'))) - blocks (nblk (Z.of_nat (length c))).
Proof.
  revert i. induction F as [|f F IH]; intros [|i] Hi; [done|done|injection Hi as ->; cbn; lia|].
  change (<[S i := (t', c')]> (f :: F)) with (f :: <[i := (t', c')]> F). cbn [total]. rewrite (IH i Hi). lia.
Qed.

Lemma length_put_dinode_block V fb inum ip :
  fresh V fb → inode_ok ip → length (put_dinode (dip_off inum) ip (V (IBLOCK inum sb))) = Z.to_nat BSIZE.
Proof.
  intros R Hok. rewrite length_put_dinode; [apply R|apply dip_off_fits, R|apply Hok].
Qed.

(** [winode] changes one inode. *)
Definition put_inode (V : imgV) (inum : Z) (ip : inode) : imgV :=
  fset V (IBLOCK inum sb) (put_dinode (dip_off inum) ip (V (IBLOCK inum sb))).
Lemma winode_eq inum ip V fi fb :
  0 <= inum < NINODES → winode inum ip (mk_mkst V fi fb) = Some (mk_mkst (put_inode V inum ip) fi fb).
Proof.
  intros Hi. change NINODES with 200 in *. destruct (iblock_range inum ltac:(lia)) as [_ Hb]. unfold winode, rsect. cbn [m_img].
  rewrite (proj2 (Z.ltb_lt _ FSSIZE)); [done|]. change FSSIZE with 2000. lia.
Qed.
Lemma put_inode_fresh V fb inum ip : fresh V fb → 0 <= inum < NINODES → inode_ok ip → fresh (put_inode V inum ip) fb.
Proof.
  intros R Hi Hok. pose proof nmeta_eq. change NINODES with 200 in *. destruct (iblock_range inum ltac:(lia)) as [_ Hb]. destruct R as [R1 R2 R3].
  split; [|intros b Hb'; unfold put_inode; rewrite fset_ne; [by apply R2|lia]|done].
  intros b. unfold put_inode. destruct (decide (b = IBLOCK inum sb)) as [->|]; [|by rewrite fset_ne].
  rewrite fset_eq. by eapply length_put_dinode_block.
Qed.
Lemma put_inode_high V inum ip b : 0 <= inum < NINODES → nmeta <= b → put_inode V inum ip b = V b.
Proof.
  intros Hi Hb. pose proof nmeta_eq. change NINODES with 200 in *. destruct (iblock_range inum ltac:(lia)) as [_ Hr].
  apply fset_ne. lia.
Qed.
Lemma put_inode_same V fb inum ip :
  fresh V fb → inode_ok ip → i_dev ip = ROOTDEV → i_inum ip = inum → i_ref ip = 0 → i_valid ip = 0 → on_disk (put_inode V inum ip) inum = ip.
Proof.
  intros R Hok H1 H2 H3 H4. unfold on_disk, put_inode. rewrite fset_eq, dinode_load_put; [|apply dip_off_fits, R|done].
  destruct ip. cbn in *. by subst.
Qed.
Lemma put_inode_other V fb inum ip j :
  fresh V fb → inode_ok ip → 0 <= inum < NINODES → 0 <= j < NINODES → j ≠ inum → on_disk (put_inode V inum ip) j = on_disk V j.
Proof.
  intros R Hok Hi Hj Hne. change NINODES with 200 in *.
  destruct (iblock_range inum ltac:(lia)) as [Ei _], (iblock_range j ltac:(lia)) as [Ej _]. unfold on_disk, put_inode.
  destruct (decide (IBLOCK j sb = IBLOCK inum sb)) as [E|E]; [|by rewrite fset_ne].
  rewrite E, fset_eq. apply dinode_load_put_ne; [apply dip_off_fits, R|apply Hok|].
  destruct (dip_off_ne j inum); [|by left|by right]. change IPB with 16. rewrite Ei, Ej in E. zl.
Qed.

Lemma has_range V fb ip c S b : filled V fb ip c S → has V ip b → nmeta <= b < fb.
Proof. intros F (k & Hk & Hnz & <-). by apply (fl_range _ _ _ _ _ F). Qed.

(** A file of the image and a change elsewhere. *)
Lemma file_at_frame V fb V' fb' inum t c :
  file_at V fb inum t c → fb <= fb' → on_disk V' inum = on_disk V inum → (∀ b, has V (on_disk V inum) b → V' b = V b) →
  file_at V' fb' inum t c ∧ ∀ b, has V' (on_disk V' inum) b ↔ has V (on_disk V inum) b.
Proof.
  intros [A1 A2 A3 A4] Hfb E HV. destruct (filled_frame _ V' _ fb' _ _ _ A1 HV Hfb) as [F' Ek].
  split; [split; by rewrite E|]. intros b. rewrite E. by apply has_frame.
Qed.

Lemma image_inode m F i : image m F → (i < length F)%nat → 0 <= Z.of_nat i + 1 < NINODES.
Proof. intros I Hi. pose proof (im_count _ _ I). change NINODES with 200 in *. lia. Qed.
Lemma fresh_iblock V fb ip c S V' fb' ip' inum :
  filled V fb ip c S → fresh V fb → 0 <= inum < NINODES → grows V fb ip V' fb' ip' → V' (IBLOCK inum sb) = V (IBLOCK inum sb).
Proof.
  intros F R Hi G. pose proof nmeta_eq. pose proof (fr_fb _ _ R). change NINODES with 200 in *.
  destruct (iblock_range inum ltac:(lia)) as [_ Hb]. apply (gw_keep _ _ _ _ _ _ G); [lia|].
  intros Hh%(has_range _ _ _ _ _ _ F). lia.
Qed.

(** The other files when file [i] grew and its inode was written back. *)
Lemma update_other V fi fb F i t c V' fb' ip' ip2 j tj cj :
  let ip := on_disk V (Z.of_nat i + 1) in let V2 := put_inode V' (Z.of_nat i + 1) ip2 in
  image (mk_mkst V fi fb) F → F !! i = Some (t, c) → fresh V' fb' → grows V fb ip V' fb' ip' → inode_ok ip2 →
  F !! j = Some (tj, cj) → j ≠ i →
  file_at V2 fb' (Z.of_nat j + 1) tj cj ∧ ∀ b, has V2 (on_disk V2 (Z.of_nat j + 1)) b ↔ has V (on_disk V (Z.of_nat j + 1)) b.
Proof.
  intros ip V2 I Hi R' G Hok Hj Hne. pose proof (lookup_lt_Some _ _ _ Hi) as Hil. pose proof (lookup_lt_Some _ _ _ Hj) as Hjl.
  pose proof (image_inode _ _ _ I Hil) as Hinum. pose proof (image_inode _ _ _ I Hjl) as Hjnum.
  pose proof (im_file _ _ I i t c Hi) as [Ff _ _ _]. pose proof (im_file _ _ I j tj cj Hj) as Fj. cbn [m_img m_freeblock] in Ff, Fj.
  apply (file_at_frame V fb); [done|apply G| |].
  - unfold V2. erewrite put_inode_other; [|done|done|done|done|lia].
    unfold on_disk. erewrite (fresh_iblock V); [done|exact Ff|apply I|done|exact G].
  - intros b Hb. pose proof (has_range _ _ _ _ _ _ (fa_filled _ _ _ _ _ Fj) Hb) as Hr. unfold V2. rewrite put_inode_high by (done || lia).
    apply (gw_keep _ _ _ _ _ _ G); [lia|]. intros Hb'. apply Hne. symmetry. by eapply (im_sep _ _ I i j b).
Qed.

(** The file [i] grew from [ip] to [ip'] and its inode was written back. *)
Lemma image_update V fi fb F i t c c' V' fb' ip' :
  let ip := on_disk V (Z.of_nat i + 1) in let n' := Z.of_nat (length c') in
  let ip2 := with_i_size n' ip' in
  image (mk_mkst V fi fb) F → F !! i = Some (t, c) → filled V' fb' ip' c' (needs (nblk n')) → fresh V' fb' → grows V fb ip V' fb' ip' →
  fb' = fb + blocks (nblk n') - blocks (nblk (Z.of_nat (length c))) →
  image (mk_mkst (put_inode V' (Z.of_nat i + 1) ip2) fi fb') (<[i := (t, c')]> F).
Proof.
  intros ip n' ip2 I Hi F' R' G Efb. pose proof nmeta_eq as Hm.
  assert (i < length F)%nat as Hlt by (by eapply lookup_lt_Some). pose proof (image_inode _ _ _ I Hlt) as Hinum.
  pose proof (im_file _ _ I i t c Hi) as Fi. cbn [m_img m_freeblock] in Fi. destruct Fi as [Ff Fs Ft Fl]. fold ip in Ff, Fs, Ft, Fl.
  assert (inode_ok ip2) as Hok2.
  { destruct (fl_ok _ _ _ _ _ F') as [O1 O2 O3 O4 O5 O6 O7]. split; try done. cbn.
    pose proof (fl_len _ _ _ _ _ F'). subst n'. change MAXFILE with 268 in *. lia. }
  assert (on_disk (put_inode V' (Z.of_nat i + 1) ip2) (Z.of_nat i + 1) = ip2) as Edisk.
  { pose proof (gw_meta _ _ _ _ _ _ G) as Em. eapply put_inode_same; [done..| | | |]; unfold ip2; rewrite Em; reflexivity. }
  set (V2 := put_inode V' (Z.of_nat i + 1) ip2) in *.
  assert (∀ b, nmeta <= b → V2 b = V' b) as Hhigh by (intros b Hb; by apply put_inode_high).
  assert (∀ j tj cj, F !! j = Some (tj, cj) → j ≠ i →
    file_at V2 fb' (Z.of_nat j + 1) tj cj ∧ ∀ b, has V2 (on_disk V2 (Z.of_nat j + 1)) b ↔ has V (on_disk V (Z.of_nat j + 1)) b) as Hother
    by (intros j tj cj; by eapply update_other).
  destruct (filled_frame V' V2 fb' fb' ip2 c' (needs (nblk n'))) as [F2 E2]; [by eapply filled_meta| |lia|].
  { intros b Hb. apply Hhigh. by apply (has_range V' fb' ip2 c' (needs (nblk n'))); [eapply filled_meta|]. }
  assert (∀ b, has V2 (on_disk V2 (Z.of_nat i + 1)) b → has V ip b ∨ fb <= b < fb') as Hown.
  { intros b Hb. rewrite Edisk in Hb. apply (has_frame V' V2 ip2 b E2) in Hb. by apply (gw_own _ _ _ _ _ _ G). }
  split; cbn [m_img m_freeblock m_freeinode]; rewrite ?length_insert; try apply I.
  - erewrite total_insert by done. pose proof (im_fb _ _ I) as E. cbn in E. subst n'. lia.
  - by apply put_inode_fresh.
  - intros x Hx. change NINODES with 200 in *. destruct (iblock_range (Z.of_nat i + 1) ltac:(lia)) as [_ Hb]. unfold V2, put_inode. rewrite fset_ne by lia.
    rewrite <- (im_low _ _ I x Hx). apply (gw_keep _ _ _ _ _ _ G); [pose proof (fr_fb _ _ (im_fresh _ _ I)); cbn in *; lia|].
    intros Hh%(has_range _ _ _ _ _ _ Ff). lia.
  - intros j tj cj Hj. destruct (decide (j = i)) as [->|Hne].
    + rewrite list_lookup_insert_eq in Hj by done. injection Hj as <- <-. split; rewrite Edisk; [done|done|..]; unfold ip2;
        rewrite (gw_meta _ _ _ _ _ _ G); done.
    + rewrite list_lookup_insert_ne in Hj by done. by apply Hother.
  - intros j k b Hj Hk H1 H2. assert (∀ x, (x < length F)%nat → x ≠ i → has V2 (on_disk V2 (Z.of_nat x + 1)) b → has V (on_disk V (Z.of_nat x + 1)) b ∧ b < fb) as Hx.
    { intros x Hx Hne Hb. destruct (lookup_lt_is_Some_2 F x Hx) as [[tx cx] Ex]. destruct (Hother x tx cx Ex Hne) as [_ Hiff].
      apply Hiff in Hb. split; [done|]. pose proof (im_file _ _ I x tx cx Ex) as Fx. cbn [m_img m_freeblock] in Fx.
      apply (has_range _ _ _ _ _ _ (fa_filled _ _ _ _ _ Fx)) in Hb. lia. }
    destruct (decide (j = i)) as [->|Hji], (decide (k = i)) as [->|Hki]; [done|..].
    + destruct (Hx k Hk Hki H2) as [Hk' ?]. apply Hown in H1 as [H1|?]; [|lia]. by eapply (im_sep _ _ I i k b).
    + destruct (Hx j Hj Hji H1) as [Hj' ?]. apply Hown in H2 as [H2|?]; [|lia]. by eapply (im_sep _ _ I j i b).
    + destruct (Hx j Hj Hji H1), (Hx k Hk Hki H2). by eapply (im_sep _ _ I j k b).
Qed.

Lemma rinode_eq inum V fi fb : 0 <= inum < NINODES → rinode inum (mk_mkst V fi fb) = Some (on_disk V inum).
Proof.
  intros Hi. change NINODES with 200 in *. destruct (iblock_range inum ltac:(lia)) as [_ Hb]. unfold rinode, rsect. cbn [m_img].
  rewrite (proj2 (Z.ltb_lt _ FSSIZE)); [done|]. change FSSIZE with 2000. lia.
Qed.

(** What the image can still take. *)
Definition fits (F : list (Z * list Z)) : Prop :=
  nmeta + total F <= FSSIZE ∧ Forall (λ f, Z.of_nat (length f.2) <= MAXFILE * 1024) F.

Lemma iappend_image m F i t c p :
  image m F → F !! i = Some (t, c) → fits (<[i := (t, c ++ p)]> F) →
  ∃ m', iappend (Z.of_nat i + 1) p m = Some m' ∧ image m' (<[i := (t, c ++ p)]> F).
Proof.
  destruct m as [V fi fb]. intros I Hi [Htot Hlen].
  assert (i < length F)%nat as Hlt by (by eapply lookup_lt_Some). pose proof (image_inode _ _ _ I Hlt) as Hinum.
  pose proof (im_file _ _ I i t c Hi) as [Ff Fs Ft Fl]. cbn [m_img m_freeblock] in Ff, Fs, Ft, Fl.
  erewrite total_insert in Htot by done. pose proof (im_fb _ _ I) as Efb. cbn [m_freeblock] in Efb.
  assert (Z.of_nat (length (c ++ p)) <= MAXFILE * 1024) as Hl.
  { rewrite Forall_forall in Hlen. apply (Hlen (t, c ++ p)). apply list_elem_of_lookup. exists i. by apply list_lookup_insert_eq. }
  pose proof (fl_len _ _ _ _ _ Ff) as Hlc. rewrite length_app, Nat2Z.inj_add in *.
  destruct (iappend_loop_ok (length p) p V fi fb (on_disk V (Z.of_nat i + 1)) c Ff (im_fresh _ _ I)) as (ip' & V' & E & F' & R' & G);
    [done|done|cbn [m_freeblock] in *; lia|].
  assert (∀ x, x <= MAXFILE * 1024 → 0 <= x → xint x = x) as Hx by (intros x ??; apply xint_small; change MAXFILE with 268 in *; lia).
  eexists. split.
  - unfold iappend. rewrite rinode_eq by done. cbn [mbind option_bind]. rewrite Fs, Hx, E by lia. cbn [mbind option_bind].
    rewrite winode_eq by done. rewrite Hx by lia. reflexivity.
  - rewrite <- Nat2Z.inj_add, <- length_app in F', R', G |- *.
    by apply (image_update V fi fb F i t c (c ++ p) V' _ ip' I Hi F' R' G).
Qed.

Lemma new_inode_ok inum t : 0 <= t < 32768 → inode_ok (mk_inode ROOTDEV inum 0 0 t 0 0 1 0 (replicate (S NDIRECT) 0)).
Proof. intros Ht. split; cbn; try lia; [done|]. by repeat constructor. Qed.
Lemma fblk_new V inum t k : fblk V (mk_inode ROOTDEV inum 0 0 t 0 0 1 0 (replicate (S NDIRECT) 0)) k = 0.
Proof.
  set (ip := mk_inode _ _ _ _ _ _ _ _ _ _). assert (∀ j, addr_at ip j = 0) as Ea.
  { intros j. unfold addr_at, ip. cbn [i_addrs]. destruct (replicate (S NDIRECT) 0 !! j) as [x|] eqn:E; [|done].
    by apply lookup_replicate in E as [-> _]. }
  unfold fblk. rewrite !Ea, Z.eqb_refl. by destruct (k <? _), (k =? MAXFILE).
Qed.

Lemma ialloc_image m F t :
  image m F → Z.of_nat (length F) + 1 < NINODES → 0 <= t < 32768 →
  ∃ m', ialloc t m = Some (Z.of_nat (length F) + 1, m') ∧ image m' (F ++ [(t, [])]).
Proof.
  destruct m as [V fi fb]. intros I Hcnt Ht. pose proof (im_free _ _ I) as Efi. cbn [m_freeinode] in Efi. pose proof nmeta_eq as Hm.
  set (inum := Z.of_nat (length F) + 1) in *. set (din := mk_inode ROOTDEV inum 0 0 t 0 0 1 0 (replicate (S NDIRECT) 0)).
  assert (0 <= inum < NINODES) as Hinum by lia. pose proof (new_inode_ok inum t Ht) as Hok. fold din in Hok.
  pose proof (im_fresh _ _ I) as R. cbn [m_img m_freeblock] in R.
  exists (mk_mkst (put_inode V inum din) (inum + 1) fb). split.
  { unfold ialloc. cbn [m_freeinode m_img m_freeblock]. rewrite Efi. change (xshort 1) with 1. change (xint 0) with 0.
    rewrite xshort_small by lia. fold din. rewrite winode_eq by done. cbn [mbind option_bind]. do 3 f_equal.
    unfold u32. apply Z.mod_small. change NINODES with 200 in *. lia. }
  set (V2 := put_inode V inum din). assert (∀ b, nmeta <= b → V2 b = V b) as Hhigh by (intros b Hb; by apply put_inode_high).
  assert (on_disk V2 inum = din) as Edisk by (by eapply put_inode_same).
  assert (∀ j tj cj, F !! j = Some (tj, cj) →
    file_at V2 fb (Z.of_nat j + 1) tj cj ∧ ∀ b, has V2 (on_disk V2 (Z.of_nat j + 1)) b ↔ has V (on_disk V (Z.of_nat j + 1)) b) as Hother.
  { intros j tj cj Hj. assert (j < length F)%nat as Hjl by (by eapply lookup_lt_Some).
    pose proof (im_file _ _ I j tj cj Hj) as Fj. cbn [m_img m_freeblock] in Fj. apply (file_at_frame V fb); [done|lia| |].
    - by eapply put_inode_other; [done..|eapply image_inode|subst inum; lia].
    - intros b Hb. apply Hhigh. apply (has_range _ _ _ _ _ _ (fa_filled _ _ _ _ _ Fj)) in Hb. lia. }
  assert (∀ b, ¬ has V2 (on_disk V2 inum) b) as Hnone.
  { intros b (k & _ & Hnz & _). rewrite Edisk in Hnz. unfold din in Hnz. by rewrite fblk_new in Hnz. }
  split; cbn [m_img m_freeblock m_freeinode].
  - rewrite length_app. cbn. subst inum. lia.
  - rewrite length_app. cbn. subst inum. lia.
  - rewrite total_app. change (total [(t, [])]) with 0. pose proof (im_fb _ _ I) as E. cbn [m_freeblock] in E. lia.
  - by apply put_inode_fresh.
  - intros x Hx. change NINODES with 200 in *. destruct (iblock_range inum ltac:(lia)) as [_ Hb]. unfold V2, put_inode. rewrite fset_ne by lia. by apply I.
  - intros j tj cj Hj. apply lookup_app_Some in Hj as [Hj|[Hge Hj]]; [by apply Hother|].
    apply list_lookup_singleton_Some in Hj as [Hj E]. injection E as <- <-. replace (Z.of_nat j + 1) with inum by (subst inum; lia).
    split; rewrite Edisk; [|done..]. split; [done|..].
    + cbn. change MAXFILE with 268. lia.
    + cbn. lia.
    + intros k Hk. unfold din. rewrite fblk_new. split; [done|]. change (nblk (Z.of_nat (length []))) with 0.
      unfold needs. destruct (k =? MAXFILE); [done|]. intros ?%Z.ltb_lt. lia.
    + intros k _ Hnz. unfold din in Hnz. by rewrite fblk_new in Hnz.
    + intros k k' _ _ Hnz. unfold din in Hnz. by rewrite fblk_new in Hnz.
    + intros o _ Hnz. unfold din in Hnz. by rewrite fblk_new in Hnz.
  - intros j k b Hj Hk H1 H2. rewrite length_app in Hj, Hk. cbn in Hj, Hk.
    assert (∀ x, (x < length F + 1)%nat → has V2 (on_disk V2 (Z.of_nat x + 1)) b → (x < length F)%nat ∧ has V (on_disk V (Z.of_nat x + 1)) b) as Hx.
    { intros x Hx Hb. destruct (decide (x = length F)) as [->|]; [by apply Hnone in Hb|]. split; [lia|].
      destruct (lookup_lt_is_Some_2 F x ltac:(lia)) as [[tx cx] Ex]. by apply (Hother x tx cx Ex). }
    destruct (Hx j Hj H1), (Hx k Hk H2). by eapply (im_sep _ _ I j k b).
Qed.

(** ** Adding files *)
Lemma total_nonneg F : 0 <= total F.
Proof.
  induction F as [|f F IH]; cbn; [done|]. unfold blocks, nblk. destruct (12 <? _); zl.
Qed.
(** [F] is an earlier state of [F']. *)
Definition earlier (F F' : list (Z * list Z)) : Prop :=
  ∃ A B, F' = A ++ B ∧ Forall2 (λ f f', (length f.2 <= length f'.2)%nat) F A.
Lemma fits_earlier F F' : earlier F F' → fits F' → fits F.
Proof.
  intros (A & B & -> & HF) [Ht Hl]. rewrite total_app in Ht. apply Forall_app in Hl as [Hl _]. pose proof (total_nonneg B).
  assert (total F <= total A) as Hle.
  { clear -HF. induction HF as [|f f' F A Hf _ IH]; cbn; [done|].
    pose proof (blocks_mono _ _ (nblk_mono (Z.of_nat (length f.2)) (Z.of_nat (length f'.2)) ltac:(lia))). lia. }
  split; [lia|]. clear -HF Hl. induction HF as [|f f' F A Hf _ IH]; [done|]. apply Forall_cons in Hl as [Hf' Hl].
  constructor; [lia|by apply IH].
Qed.
Lemma earlier_refl_F F : Forall2 (λ f f' : Z * list Z, (length f.2 <= length f'.2)%nat) F F.
Proof. induction F; by constructor. Qed.

Lemma append_chunks_image chunks m F i t c :
  image m F → F !! i = Some (t, c) → fits (<[i := (t, c ++ concat chunks)]> F) →
  ∃ m', append_chunks (Z.of_nat i + 1) chunks m = Some m' ∧ image m' (<[i := (t, c ++ concat chunks)]> F).
Proof.
  revert m F c. induction chunks as [|p chunks IH]; intros m F c I Hi Hfit; cbn [concat append_chunks].
  { exists m. rewrite app_nil_r, list_insert_id by done. done. }
  cbn [concat] in Hfit. assert (i < length F)%nat as Hlt by (by eapply lookup_lt_Some).
  destruct (iappend_image m F i t c p I Hi) as (m1 & E1 & I1).
  { eapply fits_earlier; [|exact Hfit]. exists (<[i := (t, c ++ p ++ concat chunks)]> F), []. rewrite app_nil_r. split; [done|].
    rewrite !insert_take_drop by done. apply Forall2_app; [apply earlier_refl_F|]. constructor; [|apply earlier_refl_F].
    cbn. rewrite !length_app. lia. }
  destruct (IH m1 (<[i := (t, c ++ p)]> F) (c ++ p) I1) as (m2 & E2 & I2).
  { by apply list_lookup_insert_eq. } { by rewrite list_insert_insert_eq, <- app_assoc. }
  exists m2. rewrite E1. cbn [mbind option_bind]. rewrite E2. split; [done|].
  by rewrite list_insert_insert_eq, <- app_assoc in I2.
Qed.

(** The directory entries of the files, from inode number [inum] on. *)
Fixpoint entries (inum : Z) (specs : list (list Z * list (list Z))) : list Z :=
  match specs with [] => [] | sp :: specs' => de inum sp.1 ++ entries (inum + 1) specs' end.
Definition file_of (sp : list Z * list (list Z)) : Z * list Z := (T_FILE, concat sp.2).
(** The argument [f] names the file [sp.1] and is read in the chunks [sp.2]. *)
Definition names (f : list Z * option (list (list Z))) (sp : list Z * list (list Z)) : Prop :=
  shortname f.1 = Some sp.1 ∧ f.2 = Some sp.2 ∧ (length sp.1 <= DIRSIZ)%nat.

Lemma add_files_image files specs m r G :
  Forall2 names files specs → image m ((T_DIR, r) :: G) → Z.of_nat (length G + length specs) + 1 < NINODES →
  fits ((T_DIR, r ++ entries (Z.of_nat (length G) + 2) specs) :: G ++ map file_of specs) →
  ∃ m', add_files ROOTINO files m = Some m' ∧ image m' ((T_DIR, r ++ entries (Z.of_nat (length G) + 2) specs) :: G ++ map file_of specs).
Proof.
  intros HN. revert m r G. induction HN as [|f [name chunks] files specs (H1 & H2 & H3) _ IH]; intros m r G I Hcnt Hfit; cbn [add_files].
  { exists m. cbn. by rewrite !app_nil_r. }
  cbn [entries map file_of fst snd] in *. cbn [length] in Hcnt.
  destruct (ialloc_image m ((T_DIR, r) :: G) T_FILE I) as (m1 & E1 & I1); [cbn; lia|by vm_compute|].
  set (inum := Z.of_nat (length ((T_DIR, r) :: G)) + 1) in *. assert (inum = Z.of_nat (length G) + 2) as Einum by (subst inum; cbn; lia).
  assert (∀ k c, (length c <= length (concat chunks))%nat → (length k <= length (r ++ de inum name))%nat → fits ((T_DIR, k) :: G ++ [(T_FILE, c)])) as Hmid.
  { intros k c Hc Hk. eapply fits_earlier; [|exact Hfit].
    exists ((T_DIR, r ++ de inum name ++ entries (inum + 1) specs) :: G ++ [(T_FILE, concat chunks)]), (map file_of specs).
    split; [rewrite <- app_comm_cons, <- app_assoc, Einum; done|].
    constructor; [cbn [fst snd]; rewrite !length_app in *; lia|]. apply Forall2_app; [apply earlier_refl_F|]. by repeat constructor. }
  destruct (iappend_image m1 _ 0 T_DIR r (de inum name) I1 eq_refl) as (m2 & E2 & I2); [apply Hmid; [cbn; lia|lia]|].
  change (<[0%nat := (T_DIR, r ++ de inum name)]> (((T_DIR, r) :: G) ++ [(T_FILE, [])])) with (((T_DIR, r ++ de inum name) :: G) ++ [(T_FILE, [])]) in I2.
  assert ((((T_DIR, r ++ de inum name) :: G) ++ [(T_FILE, [])]) !! length ((T_DIR, r) :: G) = Some (T_FILE, [])) as Hl by (by rewrite lookup_app_r, Nat.sub_diag).
  assert (∀ c : list Z, <[length ((T_DIR, r) :: G) := (T_FILE, c)]> (((T_DIR, r ++ de inum name) :: G) ++ [(T_FILE, [])]) = ((T_DIR, r ++ de inum name) :: G) ++ [(T_FILE, c)]) as Hins.
  { intros c. rewrite insert_app_r_alt by (cbn; lia). cbn [length]. by rewrite Nat.sub_diag. }
  destruct (append_chunks_image chunks m2 _ (length ((T_DIR, r) :: G)) T_FILE [] I2 Hl) as (m3 & E3 & I3); [rewrite Hins; apply Hmid; cbn [app]; lia|].
  rewrite Hins in I3. cbn [app] in I3.
  destruct (IH m3 (r ++ de inum name) (G ++ [(T_FILE, concat chunks)])) as (m4 & E4 & I4).
  { done. } { rewrite length_app. cbn. lia. }
  { rewrite length_app. cbn [length]. rewrite <- !app_assoc. replace (Z.of_nat (length G + 1) + 2) with (inum + 1) by lia. by rewrite Einum in *. }
  exists m4. rewrite length_app in I4. cbn [length] in I4. rewrite <- !app_assoc in I4.
  replace (Z.of_nat (length G + 1) + 2) with (inum + 1) in I4 by lia. rewrite Einum in *. split; [|exact I4].
  unfold add_file. rewrite H1, H2. cbn [mbind option_bind]. rewrite (proj2 (Nat.leb_le _ _)) by done. cbn [negb]. rewrite E1. cbn [mbind option_bind].
  change ROOTINO with (Z.of_nat 0 + 1). rewrite E2. cbn [mbind option_bind].
  replace (Z.of_nat (length G) + 2) with (Z.of_nat (length ((T_DIR, r) :: G)) + 1) by lia. rewrite E3. cbn [mbind option_bind]. exact E4.
Qed.

(** ** The finished image *)
Definition root_bytes (specs : list (list Z * list (list Z))) : list Z :=
  de ROOTINO (str ".") ++ de ROOTINO (str "..") ++ entries 2 specs.
(** The files of the image: the root directory and the arguments. *)
Definition all_files (specs : list (list Z * list (list Z))) : list (Z * list Z) :=
  (T_DIR, root_bytes specs) :: map file_of specs.

Lemma empty_image : image (wsect 1 sb_block (mk_mkst (λ _, zero_block) 1 nmeta)) [].
Proof.
  pose proof nmeta_eq as Hm. split; cbn [m_img m_freeblock m_freeinode wsect with_m_img].
  - done.
  - by vm_compute.
  - cbn. lia.
  - split; [|intros b Hb; rewrite fset_ne; [done|lia]|change FSSIZE with 2000; lia].
    intros b. unfold fset. by destruct (decide (b = 1)).
  - intros b Hb. done.
  - done.
  - cbn. lia.
Qed.

Lemma mkfs_files files specs :
  Forall2 names files specs → Z.of_nat (length specs) + 1 < NINODES → fits (all_files specs) →
  ∃ m, image m (all_files specs) ∧
    mkfs files = (din ← rinode ROOTINO m;
      let off := (xint (i_size din) / BSIZE + 1) * BSIZE in
      m ← winode ROOTINO (with_i_size (xint off) din) m;
      balloc (m_freeblock m) m).
Proof.
  intros HN Hcnt Hfit.
  assert (∀ k, (length k <= length (root_bytes specs))%nat → fits [(T_DIR, k)]) as Hroot.
  { intros k Hk. eapply fits_earlier; [|exact Hfit]. exists [(T_DIR, root_bytes specs)], (map file_of specs). split; [done|]. by constructor. }
  destruct (ialloc_image _ [] T_DIR empty_image) as (m1 & E1 & I1); [done|by vm_compute|].
  destruct (iappend_image m1 _ 0 T_DIR [] (de ROOTINO (str ".")) I1 eq_refl) as (m2 & E2 & I2).
  { apply Hroot. unfold root_bytes. rewrite !length_app. cbn [length]. lia. }
  destruct (iappend_image m2 _ 0 T_DIR _ (de ROOTINO (str "..")) I2 eq_refl) as (m3 & E3 & I3).
  { apply Hroot. unfold root_bytes. rewrite !length_app. cbn [length]. lia. }
  destruct (add_files_image files specs m3 _ [] HN I3) as (m4 & E4 & I4).
  { done. } { cbn [app length Z.of_nat Z.add]. by rewrite <- app_assoc. }
  exists m4. split; [cbn [app length Z.of_nat Z.add] in I4; by rewrite <- app_assoc in I4|].
  change (Z.of_nat 0 + 1) with 1 in *. change ROOTINO with 1 in *.
  unfold mkfs. cbn zeta. rewrite E1. cbn [mbind option_bind length]. change (Z.of_nat 0 + 1) with 1.
  change (1 =? ROOTINO) with true. cbn [negb]. rewrite E2. cbn [mbind option_bind]. rewrite E3. cbn [mbind option_bind]. by rewrite E4.
Qed.

Lemma bitmap_used n bi :
  Z.of_nat n <= 8192 → 0 <= bi → used (foldl (λ buf i, set_bit i buf) zero_block (seqZ 0 (Z.of_nat n))) bi = bool_decide (bi < Z.of_nat n).
Proof.
  intros Hn Hbi. assert (∀ l, length (foldl (λ buf i, set_bit i buf) zero_block l) = 1024%nat) as Hlen.
  { intros l. assert (length zero_block = 1024%nat) as H0 by done. revert H0. generalize zero_block as d.
    induction l as [|x l IH]; intros d Hd; cbn; [done|]. apply IH. unfold set_bit. by rewrite length_insert. }
  induction n as [|n IH].
  - cbn. rewrite bool_decide_eq_false_2 by lia. unfold used. by rewrite byte_zero, Z.bits_0.
  - rewrite seqZ_S, foldl_app. cbn [foldl]. rewrite Z.add_0_l. rewrite used_set by (rewrite ?Hlen; lia). rewrite IH by lia.
    destruct (decide (Z.of_nat n = bi)); [symmetry; apply bool_decide_eq_true_2; lia|]. apply bool_decide_ext. lia.
Qed.

Lemma filled_contents V fb ip c S :
  filled V fb ip c S → Z.of_nat (length c) <= i_size ip <= MAXFILE * 1024 →
  contents V ip = c ++ replicate (Z.to_nat (i_size ip) - length c) 0.
Proof.
  intros F Hs. apply list_eq. intros o. unfold contents. rewrite list_lookup_fmap.
  destruct (decide (Z.of_nat o < i_size ip)) as [Hlt|Hge].
  2: { rewrite (lookup_ge_None_2 (seqZ _ _)) by (rewrite length_seqZ; lia). symmetry. apply lookup_ge_None_2.
       rewrite length_app, length_replicate. lia. }
  rewrite lookup_seqZ_lt by lia. cbn [fmap option_fmap option_map]. rewrite Z.add_0_l.
  assert (fbyte V ip (Z.of_nat o) = default 0 (c !! o)) as ->.
  { unfold fbyte. change BSIZE with 1024. change MAXFILE with 268 in *. destruct (Z.eqb_spec (fblk V ip (Z.of_nat o / 1024)) 0) as [E|E].
    - destruct (decide (o < length c)%nat) as [Ho|Ho]; [|by rewrite lookup_ge_None_2 by lia]. exfalso.
      apply (fl_slot _ _ _ _ _ F) in E; [done|change MAXFILE with 268; zl|]. apply (fl_data _ _ _ _ _ F). lia.
    - rewrite (fl_bytes _ _ _ _ _ F) by (try done; change MAXFILE with 268; lia). by rewrite Nat2Z.id. }
  destruct (decide (o < length c)%nat) as [Ho|Ho].
  - rewrite lookup_app_l by done. by destruct (lookup_lt_is_Some_2 c o Ho) as [x ->].
  - rewrite lookup_app_r, lookup_replicate_2 by lia. by rewrite lookup_ge_None_2 by lia.
Qed.

Lemma filled_file_ok V fb ip c S :
  filled V fb ip c S → fb <= FSSIZE → i_dev ip = ROOTDEV → 0 <= i_inum ip < NINODES → i_size ip <= MAXFILE * 1024 →
  (∀ x, 0 <= x < FSSIZE → in_use sb V x = bool_decide (x < fb)) → file_ok sb V ip.
Proof.
  intros [F1 F2 F3 F4 F5 F6 F7] Hfb Hd Hi Hs Hu. pose proof nmeta_eq as Hm. change FSSIZE with 2000 in *.
  split; try done.
  intros k Hk Hnz. specialize (F5 k Hk Hnz). change (sb_data sb) with 47. change (sb_size sb) with 2000.
  split; [lia|]. rewrite Hu by lia. apply bool_decide_eq_true_2. lia.
Qed.

Lemma root_size specs : Z.of_nat (length specs) + 1 < NINODES → Z.of_nat (length (root_bytes specs)) <= 4096.
Proof.
  intros Hc. change NINODES with 200 in *. assert (∀ inum name, (length (de inum name) <= 16)%nat) as Hde.
  { intros inum name. unfold de. rewrite length_app, length_bytes_of, length_take. change DIRSIZ with 14%nat. lia. }
  assert (∀ inum, (length (entries inum specs) <= 16 * length specs)%nat) as He.
  { clear Hc. induction specs as [|sp specs IH]; intros inum; cbn [entries length]; [lia|]. rewrite length_app.
    specialize (IH (inum + 1)). pose proof (Hde inum sp.1). lia. }
  unfold root_bytes. rewrite !length_app. pose proof (He 2). pose proof (Hde ROOTINO (str ".")). pose proof (Hde ROOTINO (str "..")). lia.
Qed.

Lemma owns_has V ip b : owns V ip b ↔ has V ip b.
Proof. unfold owns, has. split; [intros (Hb & k & Hk & <-)|intros (k & Hk & Hnz & <-)]; by eauto. Qed.

(** The last two steps of [mkfs]: the root directory's size and the bitmap. *)
Definition finish (V : imgV) (fb off : Z) : imgV :=
  fset (put_inode V ROOTINO (with_i_size off (on_disk V ROOTINO))) (sb_bmapstart sb)
    (foldl (λ buf i, set_bit i buf) zero_block (seqZ 0 fb)).

Lemma root_range : 0 <= ROOTINO < NINODES.
Proof. by vm_compute. Qed.

Lemma finish_files V fi fb F off i t c :
  image (mk_mkst V fi fb) F → F !! i = Some (t, c) → 0 <= off < 4294967296 →
  let V' := finish V fb off in let ip := on_disk V' (Z.of_nat i + 1) in
  filled V' fb ip c (needs (nblk (Z.of_nat (length c)))) ∧ (∀ b, has V' ip b ↔ has V (on_disk V (Z.of_nat i + 1)) b) ∧
  i_type ip = t ∧ i_nlink ip = 1 ∧ i_size ip = if decide (i = 0%nat) then off else Z.of_nat (length c).
Proof.
  intros I Hi Hoff V' ip. pose proof nmeta_eq as Hm. pose proof (im_fresh _ _ I) as R. cbn [m_img m_freeblock] in R.
  assert (i < length F)%nat as Hlt by (by eapply lookup_lt_Some). pose proof (image_inode _ _ _ I Hlt) as Hinum.
  pose proof (im_file _ _ I i t c Hi) as [Ff Fs Ft Fl]. cbn [m_img m_freeblock] in Ff, Fs, Ft, Fl.
  pose proof root_range as Hr.
  assert (∃ t0 c0, file_at V fb ROOTINO t0 c0) as (t0 & c0 & Fr).
  { destruct (lookup_lt_is_Some_2 F 0) as [[t0 c0] E0]; [lia|]. exists t0, c0. apply (im_file _ _ I 0%nat t0 c0 E0). }
  assert (inode_ok (with_i_size off (on_disk V ROOTINO))) as Hok.
  { destruct (fl_ok _ _ _ _ _ (fa_filled _ _ _ _ _ Fr)) as [O1 O2 O3 O4 O5 O6 O7]. by split. }
  assert (∀ b, nmeta <= b → V' b = V b) as Hhigh.
  { intros b Hb. unfold V', finish. change (sb_bmapstart sb) with 46. rewrite fset_ne by lia. by apply put_inode_high. }
  assert (∀ j, 0 <= j < NINODES → on_disk V' j = on_disk (put_inode V ROOTINO (with_i_size off (on_disk V ROOTINO))) j) as Ed.
  { intros j Hj. change NINODES with 200 in *. destruct (iblock_range j ltac:(lia)) as [_ Hb]. unfold V', finish, on_disk.
    change (sb_bmapstart sb) with 46. by rewrite (fset_ne _ 46) by lia. }
  assert (ip = if decide (i = 0%nat) then with_i_size off (on_disk V (Z.of_nat i + 1)) else on_disk V (Z.of_nat i + 1)) as Eip.
  { unfold ip. rewrite Ed by done. case_decide as E0.
    - subst i. by eapply put_inode_same.
    - eapply put_inode_other; try done. change ROOTINO with 1. lia. }
  destruct (filled_frame V V' fb fb ip c (needs (nblk (Z.of_nat (length c))))) as [F' E']; [| |lia|].
  { rewrite Eip. case_decide; [|done]. eapply filled_meta; [exact Ff| |done]. subst i. done. }
  { intros b Hb. apply Hhigh. assert (has V (on_disk V (Z.of_nat i + 1)) b) as Hb' by (rewrite Eip in Hb; by case_decide).
    apply (has_range _ _ _ _ _ _ Ff) in Hb'. lia. }
  split; [done|]. split.
  - intros b. rewrite (has_frame V V' ip b E'). rewrite Eip. by case_decide.
  - rewrite Eip. case_decide; by split_and!.
Qed.

Lemma finish_bitmap V fb off x : 0 <= fb <= 2000 → 0 <= x < 2000 → in_use sb (finish V fb off) x = bool_decide (x < fb).
Proof.
  intros Hfb Hx. assert (BBLOCK x sb = 46) as Eb by (rewrite sb_eq; unfold BBLOCK; cbn [sb_bmapstart]; change BPB with 8192; unfold u32; zl).
  unfold in_use, finish. rewrite Eb. change (sb_bmapstart sb) with 46. rewrite fset_eq. change BPB with 8192. rewrite (Z.mod_small x 8192) by lia.
  rewrite <- (Z2Nat.id fb) by lia. apply bitmap_used; lia.
Qed.
Lemma finish_low V fb off b : b < 33 → finish V fb off b = V b.
Proof.
  intros Hb. unfold finish. change (sb_bmapstart sb) with 46. rewrite fset_ne by lia. unfold put_inode. apply fset_ne.
  change (IBLOCK ROOTINO sb) with 33. lia.
Qed.
Lemma finish_file V fi fb F off :
  image (mk_mkst V fi fb) F → 0 <= off <= MAXFILE * 1024 →
  ∀ i t c, F !! i = Some (t, c) → let V' := finish V fb off in let ip := on_disk V' (Z.of_nat i + 1) in
    file_ok sb V' ip ∧ filled V' fb ip c (needs (nblk (Z.of_nat (length c)))) ∧ i_type ip = t ∧ i_nlink ip = 1 ∧
    i_size ip = if decide (i = 0%nat) then off else Z.of_nat (length c).
Proof.
  intros I Hoff i t c Hi V' ip. change MAXFILE with 268 in Hoff.
  pose proof (fr_fb _ _ (im_fresh _ _ I)) as Hfb. cbn [m_freeblock] in Hfb. pose proof nmeta_eq. change FSSIZE with 2000 in *.
  destruct (finish_files V fi fb _ off i t c I Hi ltac:(lia)) as (F' & _ & Ht & Hl & Hs). fold V' ip in F', Ht, Hl, Hs.
  split; [|by split_and!].
  apply (filled_file_ok V' fb ip c (needs (nblk (Z.of_nat (length c)))) F'); [change FSSIZE with 2000; lia|reflexivity|..].
  - change (i_inum ip) with (Z.of_nat i + 1). apply (image_inode _ _ _ I). by eapply lookup_lt_Some.
  - rewrite Hs. case_decide; [change MAXFILE with 268; lia|apply (fl_len _ _ _ _ _ F')].
  - intros x Hx. apply finish_bitmap; [lia|exact Hx].
Qed.
Lemma finish_sep V fi fb F off i j b :
  image (mk_mkst V fi fb) F → 0 <= off < 4294967296 → (i < length F)%nat → (j < length F)%nat → let V' := finish V fb off in
  has V' (on_disk V' (Z.of_nat i + 1)) b → has V' (on_disk V' (Z.of_nat j + 1)) b → i = j.
Proof.
  intros I Hoff Hi Hj V' H1 H2. apply (im_sep _ _ I i j b); [done..| |]; cbn [m_img].
  - destruct (lookup_lt_is_Some_2 F i Hi) as [[t c] E]. by apply (finish_files V fi fb F off i t c I E Hoff).
  - destruct (lookup_lt_is_Some_2 F j Hj) as [[t c] E]. by apply (finish_files V fi fb F off j t c I E Hoff).
Qed.
Lemma sb_block_decodes : decode_sb sb_block = sb.
Proof. reflexivity. Qed.
Lemma filled_solid V fb ip c :
  filled V fb ip c (needs (nblk (Z.of_nat (length c)))) → i_size ip = Z.of_nat (length c) → solid V ip.
Proof.
  intros F Hs k Hk Hlt. rewrite Hs in Hlt. change BSIZE with 1024 in Hlt. pose proof (fl_len _ _ _ _ _ F) as Hlen. change MAXFILE with 268 in *.
  apply (fl_slot _ _ _ _ _ F); [change MAXFILE with 268; lia|]. unfold needs, nblk. change MAXFILE with 268.
  rewrite (proj2 (Z.eqb_neq k 268)), (proj2 (Z.ltb_lt _ _)) by zl. done.
Qed.

Section built.
Context `{P : Platform} {HP : PlatformOk P}.

Lemma sb_layout : 2 * FSSIZE <= blk_sectors → layout sb (sb_logstart sb).
Proof. intros Hd. rewrite sb_eq. change FSSIZE with 2000 in *. split; cbn; try done; lia. Qed.

(** C9: the image mkfs builds is well formed for the kernel.  Its superblock
    decodes to a layout whose parts follow each other, its log is empty, its
    bitmap marks exactly the blocks that were given out, the root directory
    lists dot, dot-dot and the files with their inode numbers, and each file is
    a well-formed inode without holes that holds the bytes it was given,
    however they were read; no block belongs to two inodes.  The files must fit
    in the data blocks and the inodes. *)
Theorem mkfs_image_ok files specs :
  Forall2 names files specs → Z.of_nat (length specs) + 1 < NINODES → fits (all_files specs) → 2 * FSSIZE <= blk_sectors →
  ∃ m, mkfs files = Some m ∧ let V := m_img m in
    decode_sb (V 1) = sb ∧ sb_magic sb = FSMAGIC ∧ layout sb (sb_logstart sb) ∧ V (sb_logstart sb) = zero_block ∧
    bm_ok sb V ∧ (∀ x, 0 <= x < sb_size sb → in_use sb V x = bool_decide (x < m_freeblock m)) ∧
    (let ip := on_disk V ROOTINO in
     file_ok sb V ip ∧ i_type ip = T_DIR ∧ i_size ip mod BSIZE = 0 ∧
     contents V ip = root_bytes specs ++ replicate (Z.to_nat (i_size ip) - length (root_bytes specs)) 0) ∧
    (∀ i name chunks, specs !! i = Some (name, chunks) → let ip := on_disk V (Z.of_nat i + 2) in
     file_ok sb V ip ∧ solid V ip ∧ i_type ip = T_FILE ∧ i_nlink ip = 1 ∧ contents V ip = concat chunks) ∧
    (∀ i j b, 1 <= i <= Z.of_nat (length specs) + 1 → 1 <= j <= Z.of_nat (length specs) + 1 →
     owns V (on_disk V i) b → owns V (on_disk V j) b → i = j).
Proof.
  intros HN Hcnt Hfit Hdisk. destruct (mkfs_files files specs HN Hcnt Hfit) as ([V fi fb] & I & E). pose proof nmeta_eq as Hm.
  pose proof (fr_fb _ _ (im_fresh _ _ I)) as Hfb. cbn [m_freeblock] in Hfb. change FSSIZE with 2000 in *.
  set (n := Z.of_nat (length (root_bytes specs))). set (off := (n / 1024 + 1) * 1024).
  assert (n <= 4096) as Hn by (apply root_size; done).
  assert (0 <= off <= 5120 ∧ n <= off) as [Hoff Hoff'] by (subst off; split; zl).
  pose proof (im_file _ _ I 0%nat T_DIR (root_bytes specs) eq_refl) as [_ Hsz _ _]. cbn [m_img m_freeblock] in Hsz.
  exists (mk_mkst (finish V fb off) fi fb). split.
  { rewrite E, rinode_eq by exact root_range. cbn [mbind option_bind]. change (i_size (on_disk V ROOTINO)) with (i_size (on_disk V (Z.of_nat 0 + 1))).
    rewrite Hsz. fold n. rewrite (xint_small n) by lia. change BSIZE with 1024. fold off. rewrite (xint_small off) by lia.
    rewrite winode_eq by exact root_range. cbn [mbind option_bind m_freeblock]. unfold balloc. change BPB with 8192.
    rewrite (proj2 (Z.ltb_lt fb 8192)) by lia. reflexivity. }
  cbn [m_img m_freeblock]. set (V' := finish V fb off).
  assert (∀ x, 0 <= x < 2000 → in_use sb V' x = bool_decide (x < fb)) as Huse by (intros x Hx; apply finish_bitmap; [lia|done]).
  assert (∀ x, 0 <= x < 33 → V' x = if decide (x = 1) then sb_block else zero_block) as Hlow.
  { intros x Hx. rewrite <- (im_low _ _ I x Hx). apply finish_low. lia. }
  pose proof (finish_file V fi fb (all_files specs) off I ltac:(change MAXFILE with 268; lia)) as Hfile. fold V' in Hfile.
  split; [rewrite Hlow by lia; apply sb_block_decodes|]. split; [reflexivity|]. split; [by apply sb_layout|].
  split; [change (sb_logstart sb) with 2; rewrite Hlow by lia; apply decide_False; lia|].
  split; [intros x Hx; change (sb_data sb) with 47 in Hx; rewrite Huse by lia; apply bool_decide_eq_true_2; lia|].
  split; [exact Huse|]. split; [|split].
  - destruct (Hfile 0%nat T_DIR (root_bytes specs) eq_refl) as (Hok & F' & Ht & _ & Hs). change (Z.of_nat 0 + 1) with ROOTINO in *.
    rewrite decide_True in Hs by done. split; [exact Hok|]. split; [exact Ht|].
    split; [rewrite Hs; unfold off; change BSIZE with 1024; apply Z.mod_mul; lia|].
    eapply filled_contents; [exact F'|]. rewrite Hs. change MAXFILE with 268. fold n. lia.
  - intros i name chunks Hi. destruct (Hfile (S i) T_FILE (concat chunks)) as (Hok & F' & Ht & Hl & Hs).
    { change (all_files specs !! S i) with ((file_of <$> specs) !! i). by rewrite list_lookup_fmap, Hi. }
    replace (Z.of_nat (S i) + 1) with (Z.of_nat i + 2) in * by lia. rewrite decide_False in Hs by lia.
    split; [exact Hok|]. split; [by eapply filled_solid|]. split; [exact Ht|]. split; [exact Hl|]. erewrite filled_contents; [|exact F'|].
    + rewrite Hs, Nat2Z.id, Nat.sub_diag. by rewrite app_nil_r.
    + rewrite Hs. split; [lia|apply F'].
  - intros i j b Hi Hj. rewrite !owns_has. intros H1 H2.
    assert (Z.to_nat (i - 1) = Z.to_nat (j - 1)) as Eij; [|lia]. apply (finish_sep V fi fb (all_files specs) off _ _ b I); [lia|..].
    1-2: cbn; rewrite length_map; lia.
    + replace (Z.of_nat (Z.to_nat (i - 1)) + 1) with i by lia. exact H1.
    + replace (Z.of_nat (Z.to_nat (j - 1)) + 1) with j by lia. exact H2.
Qed.
End built.

(** Two files, one read in two chunks. *)
Definition demo_files : list (list Z * option (list (list Z))) :=
  [(str "README", Some [str "xv6"]); (str "user/_cat", Some [replicate 1024 1; str "end"])].
Definition demo_specs : list (list Z * list (list Z)) := [(str "README", [str "xv6"]); (str "cat", [replicate 1024 1; str "end"])].

Lemma mkfs_image_ok_witness :
  ∃ m, mkfs demo_files = Some m ∧ decode_sb (m_img m 1) = sb ∧ layout (P := emu) sb 2 ∧
    contents (m_img m) (on_disk (m_img m) 2) = str "xv6" ∧ contents (m_img m) (on_disk (m_img m) 3) = replicate 1024 1 ++ str "end".
Proof.
  destruct (mkfs_image_ok (P := emu) demo_files demo_specs) as (m & E & Hsb & _ & Hlay & _ & _ & _ & _ & Hfiles & _).
  - unfold demo_files, demo_specs, names. repeat constructor.
  - reflexivity.
  - split; [vm_compute; discriminate|]. repeat constructor; vm_compute; discriminate.
  - vm_compute. discriminate.
  - exists m. split; [exact E|]. split; [exact Hsb|]. split; [exact Hlay|].
    destruct (Hfiles 0%nat _ _ eq_refl) as (_ & _ & _ & _ & E0). destruct (Hfiles 1%nat _ _ eq_refl) as (_ & _ & _ & _ & E1).
    split; [exact E0|]. rewrite (app_nil_end (str "end")). exact E1.
Defined.
